(** * Smart Mail Manager: batch orchestration, classification and rate limiting

    A shallow embedding of the JavaScript sources
    [database-mongo.js] (class MongoDatabase), [gemini-enhanced.js]
    (class EnhancedGeminiAnalyzer), [batch-processor.js] (class
    BatchProcessor) and [server-mongo.js] (withTokenRefresh and the
    batch creation, execution and status routes), followed by the
    properties of the design document that were checked against them and
    by further properties of the same code.

    Conventions of the embedding.
    - A JavaScript string is its sequence of UTF-16 code units.
    - An [async] method is a computation in the monad [M]: it reads the
      environment (clock, remote services, store outages), threads the
      [World] (the collections of the document store, the OAuth client,
      the trace of observable events) and either returns or throws.
    - Every effect (a clock read, a store operation, a remote call)
      advances the step counter of the world; the environment answers an
      effect as a function of the step at which it is issued, so a remote
      service may answer the same request differently at different times. *)

From Stdlib Require Import ZArith List Bool Lia Sorted.
From Stdlib Require Import Strings.String Strings.Ascii DecimalString.
From stdpp Require Import gmap strings list fin_maps.

Local Open Scope Z_scope.

(* ===================================================================== *)
(** ** JavaScript values                                                  *)
(* ===================================================================== *)

Module JS.

(** A string is a sequence of UTF-16 code units. *)
Definition jsstring : Type := list N.

(** The code units of an ASCII literal of the source. *)
Definition str (s : string) : jsstring :=
  map N_of_ascii (list_ascii_of_string s).

Arguments str : simpl never.

Definition jsstring_eqb (a b : jsstring) : bool := bool_decide (a = b).

(** JSON-like values: what [JSON.parse] can produce, plus dates.  Numbers
    are integers; the code modelled here only tests them for zero,
    compares and counts. *)
#[warnings="-register-all"]
Inductive JSValue : Type :=
| JNull
| JBool (b : bool)
| JNum (z : Z)
| JStr (s : jsstring)
| JDate (ms : Z)
| JArr (items : list JSValue)
| JObj (fields : list (string * JSValue)).

(** An object is a finite map from property names to values; a missing
    property reads as [undefined], here [None]. *)
Abbreviation JSObject := (gmap string JSValue).

(** ToBoolean. [None] is [undefined]. *)
Definition truthy (v : option JSValue) : bool :=
  match v with
  | None => false
  | Some JNull => false
  | Some (JBool b) => b
  | Some (JNum z) => negb (z =? 0)
  | Some (JStr s) => match s with [] => false | _ => true end
  | Some (JDate _) => true
  | Some (JArr _) => true
  | Some (JObj _) => true
  end.

(** [a || d] for a property read [a] and a default [d]. *)
Definition js_or (a : option JSValue) (d : JSValue) : JSValue :=
  match a with
  | Some v => if truthy a then v else d
  | None => d
  end.

(** [{...a, ...b}]: the properties of [b] win. *)
Definition spread (a b : JSObject) : JSObject := b ∪ a.

(** An exception value: an [Error] with its message and, for errors of
    the HTTP client, a numeric [code]. *)
Record JSError : Type := mkError {
  err_code : option Z;
  err_message : jsstring
}.

Definition Error (msg : jsstring) : JSError := mkError None msg.

(** Number to string, for integers. *)
Definition numberToString (z : Z) : jsstring :=
  str (NilZero.string_of_int (Z.to_int z)).

(** [s || d] for an optional string [s]. *)
Definition strOr (s : option jsstring) (d : jsstring) : jsstring :=
  match s with
  | Some ((_ :: _) as v) => v
  | _ => d
  end.

(** [n || d] for an optional number [n]. *)
Definition numOr (n : option Z) (d : Z) : Z :=
  match n with
  | Some v => if v =? 0 then d else v
  | None => d
  end.

(** [String.prototype.includes]. *)
Fixpoint startsWith (s p : jsstring) : bool :=
  match p, s with
  | [], _ => true
  | _ :: _, [] => false
  | c :: p', d :: s' => (c =? d)%N && startsWith s' p'
  end.

Fixpoint includes (s p : jsstring) : bool :=
  startsWith s p ||
  match s with
  | [] => false
  | _ :: s' => includes s' p
  end.

(** [String.prototype.substring(0, n)]. *)
Definition substring0 (n : nat) (s : jsstring) : jsstring := take n s.

(** Character classes of the regular expression
    [/[^a-zA-Z0-9\s\/]/g] (no [u] flag: it works on code units). *)
Definition is_alnum (c : N) : bool :=
  ((97 <=? c) && (c <=? 122) || (65 <=? c) && (c <=? 90) ||
   (48 <=? c) && (c <=? 57))%N.

(** [\s]: WhiteSpace and LineTerminator of ECMAScript. *)
Definition is_whitespace (c : N) : bool :=
  ((9 <=? c) && (c <=? 13) || (c =? 32) || (c =? 160) || (c =? 5760) ||
   (8192 <=? c) && (c <=? 8202) || (c =? 8232) || (c =? 8233) ||
   (c =? 8239) || (c =? 8287) || (c =? 12288) || (c =? 65279))%N.

Definition is_slash (c : N) : bool := (c =? 47)%N.

(** [String.prototype.trim]: strips the same class at both ends. *)
Fixpoint trimStart (s : jsstring) : jsstring :=
  match s with
  | c :: s' => if is_whitespace c then trimStart s' else s
  | [] => []
  end.

Definition trim (s : jsstring) : jsstring :=
  rev (trimStart (rev (trimStart s))).

End JS.
Export JS.

(* ===================================================================== *)
(** ** The world, the environment and the monad of async methods         *)
(* ===================================================================== *)

Inductive Outcome (A : Type) : Type :=
| Return (a : A)
| Throw (e : JSError).
Arguments Return {A} a.
Arguments Throw {A} e.

(** The validated analysis stored with an email. [purpose] and [summary]
    are whatever truthy value the classifier sent, or a default string. *)
Record Analysis : Type := mkAnalysis {
  purpose : JSValue;
  category : jsstring;
  summary : JSValue;
  sentiment : jsstring;
  suggestedLabel : jsstring
}.

(** A document of the [emails] collection. *)
Record Email : Type := mkEmail {
  gmailId : jsstring;
  e_userId : jsstring;
  threadId : jsstring;
  subject : jsstring;
  from : jsstring;
  to : jsstring;
  snippet : jsstring;
  timestamp : Z;
  processed : bool;
  synced : bool;
  analysis : option Analysis;
  e_updatedAt : Z
}.

(** A document of the [labels] collection. *)
Record Label : Type := mkLabel {
  l_userId : jsstring;
  name : jsstring;
  gmailLabelId : jsstring;
  emailCount : Z;
  isAuto : bool;
  l_updatedAt : Z
}.

(** The [options] of a batch: the user the route adds, and the optional
    [batchSize], [limit] and [query] of the request, numbers being
    integers. *)
Record Options : Type := mkOptions {
  o_userId : jsstring;
  o_batchSize : option Z;
  o_limit : option Z;
  o_query : option jsstring
}.

(** A document of the [batchLogs] collection.  [batchId], [userId] and
    [options] are written once at creation; every other property
    (operation, status, counters, errors, times) lives in [fields], which
    is what [$set] updates. *)
Record BatchLog : Type := mkBatchLog {
  batchId : jsstring;
  b_userId : jsstring;
  options : Options;
  fields : gmap string JSValue
}.

(** A document of the [rateLimits] collection. *)
Record RateDoc : Type := mkRateDoc {
  key : jsstring;
  r_timestamp : Z;
  expiresAt : Z
}.

(** A document of the [users] collection (the token part). *)
Record User : Type := mkUser {
  u_userId : jsstring;
  accessToken : jsstring;
  refreshToken : jsstring;
  tokenExpiry : Z;
  u_updatedAt : Z
}.

(** The credentials installed on the shared OAuth client. *)
Record Credentials : Type := mkCredentials {
  access_token : jsstring;
  refresh_token : jsstring
}.

(** What [oauth2Client.refreshAccessToken] resolves with. *)
Record RefreshedCredentials : Type := mkRefreshed {
  rc_access_token : jsstring;
  rc_refresh_token : option jsstring;
  rc_expiry_date : Z
}.

(** One message as [gmail.users.messages.get] returns it. *)
Record MessageData : Type := mkMessageData {
  m_id : jsstring;
  m_threadId : jsstring;
  m_subject : option jsstring;
  m_from : option jsstring;
  m_to : option jsstring;
  m_date : option Z;
  m_snippet : option jsstring
}.

(** One page of [gmail.users.messages.list]: the ids and whether a
    [nextPageToken] came with them. *)
Record ListPage : Type := mkListPage {
  messages : list jsstring;
  nextPageToken : bool
}.

(** [req.user]: the session of the request being served. *)
Record Session : Type := mkSession {
  profile_id : jsstring;
  s_accessToken : jsstring;
  s_refreshToken : jsstring
}.

(** Observable events, oldest first: the remote calls issued, the writes
    to the [batchLogs] collection, and each time [withTokenRefresh] invokes
    the operation it guards. *)
Inductive Event : Type :=
| EvGmailList
| EvGmailGet (id : jsstring)
| EvGmailCreateLabel (labelName : jsstring)
| EvGmailModify (id labelId : jsstring)
| EvGemini (subject from snippet : jsstring)
| EvGeminiOrganize
| EvRefreshAccessToken
| EvOperation
| EvBatchInsert (doc : BatchLog)
| EvBatchUpdate (batchId : jsstring) (updateData : gmap string JSValue).

Record World : Type := mkWorld {
  emails : list Email;
  labels : list Label;
  batchLogs : list BatchLog;
  rateLimits : list RateDoc;
  users : list User;
  oauth : option Credentials;
  reqUser : Session;
  listing : list (Outcome ListPage);
  trace : list Event;
  steps : nat
}.

(** What the program cannot decide: the clock, outages of the store, the
    answers of the mail provider and of the classifier, the random part of
    a batch id, and the Unicode tables behind [toLowerCase].  The message
    listing of the provider is the exception: it is the finite script
    [listing] of the world, consumed one page per call. *)
Record Env : Type := mkEnv {
  clock : nat -> Z;
  dbFault : nat -> option JSError;
  random : nat -> jsstring;
  toLowerCase : jsstring -> jsstring;
  gmailGet : nat -> jsstring -> Outcome MessageData;
  gmailCreateLabel : nat -> jsstring -> Outcome jsstring;
  gmailModify : nat -> jsstring -> jsstring -> Outcome unit;
  gemini : nat -> jsstring -> jsstring -> jsstring -> Outcome (gmap string JSValue);
  geminiOrganize : nat -> Outcome (gmap string JSValue);
  refreshAccessToken : nat -> Outcome RefreshedCredentials
}.

(** The store is reachable throughout. *)
Definition Reliable (env : Env) : Prop := forall n, dbFault env n = None.

Definition M (A : Type) : Type := Env -> World -> Outcome A * World.

Definition ret {A} (a : A) : M A := fun _ w => (Return a, w).
Definition throw {A} (e : JSError) : M A := fun _ w => (Throw e, w).

Definition bind {A B} (m : M A) (k : A -> M B) : M B :=
  fun env w =>
    match m env w with
    | (Return a, w') => k a env w'
    | (Throw e, w') => (Throw e, w')
    end.

(** [try { m } catch (e) { h e }]. *)
Definition tryCatch {A} (m : M A) (h : JSError -> M A) : M A :=
  fun env w =>
    match m env w with
    | (Return a, w') => (Return a, w')
    | (Throw e, w') => h e env w'
    end.

Notation "'let*' x ':=' m 'in' k" := (bind m (fun x => k))
  (at level 10, x pattern, m at level 100, k at level 200).

Definition gets {A} (f : World -> A) : M A := fun _ w => (Return (f w), w).
Definition modify (f : World -> World) : M unit := fun _ w => (Return tt, f w).
Definition ask {A} (f : Env -> A) : M A := fun env w => (Return (f env), w).

Definition tick (w : World) : World :=
  mkWorld (emails w) (labels w) (batchLogs w) (rateLimits w) (users w)
          (oauth w) (reqUser w) (listing w) (trace w) (S (steps w)).

Definition emit (ev : Event) (w : World) : World :=
  mkWorld (emails w) (labels w) (batchLogs w) (rateLimits w) (users w)
          (oauth w) (reqUser w) (listing w) (trace w ++ [ev]) (steps w).

Definition set_emails (l : list Email) (w : World) : World :=
  mkWorld l (labels w) (batchLogs w) (rateLimits w) (users w)
          (oauth w) (reqUser w) (listing w) (trace w) (steps w).

Definition set_labels (l : list Label) (w : World) : World :=
  mkWorld (emails w) l (batchLogs w) (rateLimits w) (users w)
          (oauth w) (reqUser w) (listing w) (trace w) (steps w).

Definition set_batchLogs (l : list BatchLog) (w : World) : World :=
  mkWorld (emails w) (labels w) l (rateLimits w) (users w)
          (oauth w) (reqUser w) (listing w) (trace w) (steps w).

Definition set_rateLimits (l : list RateDoc) (w : World) : World :=
  mkWorld (emails w) (labels w) (batchLogs w) l (users w)
          (oauth w) (reqUser w) (listing w) (trace w) (steps w).

Definition set_users (l : list User) (w : World) : World :=
  mkWorld (emails w) (labels w) (batchLogs w) (rateLimits w) l
          (oauth w) (reqUser w) (listing w) (trace w) (steps w).

Definition set_oauth (c : Credentials) (w : World) : World :=
  mkWorld (emails w) (labels w) (batchLogs w) (rateLimits w) (users w)
          (Some c) (reqUser w) (listing w) (trace w) (steps w).

Definition set_reqUser (u : Session) (w : World) : World :=
  mkWorld (emails w) (labels w) (batchLogs w) (rateLimits w) (users w)
          (oauth w) u (listing w) (trace w) (steps w).

Definition set_listing (l : list (Outcome ListPage)) (w : World) : World :=
  mkWorld (emails w) (labels w) (batchLogs w) (rateLimits w) (users w)
          (oauth w) (reqUser w) l (trace w) (steps w).

(** [Date.now()] / [new Date()]: one read of the clock. *)
Definition Date_now : M Z :=
  fun env w => (Return (clock env (steps w)), tick w).

(** The round trip to the store that starts every collection operation:
    it fails when the store is unreachable at that moment. *)
Definition dbOp : M unit :=
  fun env w =>
    match dbFault env (steps w) with
    | Some e => (Throw e, tick w)
    | None => (Return tt, tick w)
    end.

(** A remote call: recorded in the trace, answered by the environment. *)
Definition remote {A} (ev : Event) (answer : Env -> nat -> Outcome A) : M A :=
  fun env w => (answer env (steps w), tick (emit ev w)).

(** [for (const x of xs) { body x }] with an accumulator. *)
Fixpoint forOf {A S} (xs : list A) (body : S -> A -> M S) (s : S) : M S :=
  match xs with
  | [] => ret s
  | x :: xs' => let* s' := body s x in forOf xs' body s'
  end.

(* ===================================================================== *)
(** ** database-mongo.js: class MongoDatabase                             *)
(* ===================================================================== *)

(** Primitives of a collection kept as the list of its documents. *)
Module Collection.

(** [updateOne] / [replaceOne] act on the first document that matches. *)
Fixpoint updateFirst {A} (p : A -> bool) (f : A -> A) (l : list A) : list A :=
  match l with
  | [] => []
  | x :: l' => if p x then f x :: l' else x :: updateFirst p f l'
  end.

(** [replaceOne(filter, doc, { upsert: true })]. *)
Definition replaceOneUpsert {A} (p : A -> bool) (d : A) (l : list A) : list A :=
  if existsb p l then updateFirst p (fun _ => d) l else l ++ [d].

(** The number of documents in the first reply to a [find] that gives no
    batch size: the default of the store. *)
Definition firstBatch : nat := 101.

(** [cursor.limit(n)].  A positive limit gives at most [n] documents and
    zero stands for no limit.  A negative limit is sent as the limit [-n]
    with [singleBatch]: the cursor is closed after the first reply, so at
    most [-n] documents of the first batch come back. *)
Definition limit {A} (n : Z) (l : list A) : list A :=
  if n =? 0 then l
  else if n <? 0 then take (Nat.min (Z.abs_nat n) firstBatch) l
  else take (Z.to_nat n) l.

End Collection.

Module MongoDatabase.
Import Collection.

(** *** users *)

Definition getUser (userId : jsstring) : M (option User) :=
  tryCatch
    (let* _ := dbOp in
     gets (fun w => List.find (fun u => jsstring_eqb (u_userId u) userId) (users w)))
    (fun error => throw error).

Definition updateUserTokens (userId : jsstring)
    (accessToken' refreshToken' : jsstring) (tokenExpiry' : Z) : M unit :=
  tryCatch
    (let* now := Date_now in
     let* _ := dbOp in
     modify (fun w => set_users
       (updateFirst (fun u => jsstring_eqb (u_userId u) userId)
          (fun u => mkUser (u_userId u) accessToken' refreshToken' tokenExpiry' now)
          (users w)) w))
    (fun error => throw error).

(** *** emails *)

Definition sameEmailKey (gid uid : jsstring) (e : Email) : bool :=
  jsstring_eqb (gmailId e) gid && jsstring_eqb (e_userId e) uid.

Definition withUpdatedAt (now : Z) (e : Email) : Email :=
  mkEmail (gmailId e) (e_userId e) (threadId e) (subject e) (from e) (to e)
          (snippet e) (timestamp e) (processed e) (synced e) (analysis e) now.

Definition saveEmail (emailData : Email) : M unit :=
  tryCatch
    (let* now := Date_now in
     let* _ := dbOp in
     modify (fun w => set_emails
       (replaceOneUpsert (sameEmailKey (gmailId emailData) (e_userId emailData))
          (withUpdatedAt now emailData) (emails w)) w))
    (fun error => throw error).

(** [.sort({ timestamp: -1 })], taken to keep the collection order among
    documents with equal timestamps. *)
Fixpoint insertByTimestamp (e : Email) (l : list Email) : list Email :=
  match l with
  | [] => [e]
  | x :: l' =>
      if timestamp x <=? timestamp e then e :: l
      else x :: insertByTimestamp e l'
  end.

Definition sortByTimestampDesc (l : list Email) : list Email :=
  foldr insertByTimestamp [] l.

Record EmailQuery : Type := mkEmailQuery {
  q_processed : option bool;
  q_category : option jsstring;
  q_limit : option Z
}.

Definition matchesQuery (userId : jsstring) (q : EmailQuery) (e : Email) : bool :=
  jsstring_eqb (e_userId e) userId &&
  match q_processed q with
  | Some b => Bool.eqb (processed e) b
  | None => true
  end &&
  match q_category q with
  | Some ((_ :: _) as c) =>
      match analysis e with
      | Some a => jsstring_eqb (category a) c
      | None => false
      end
  | _ => true
  end.

Definition selectEmails (userId : jsstring) (q : EmailQuery) (l : list Email) : list Email :=
  limit (numOr (q_limit q) 50)
        (sortByTimestampDesc (List.filter (matchesQuery userId q) l)).

Definition getEmails (userId : jsstring) (q : EmailQuery) : M (list Email) :=
  tryCatch
    (let* _ := dbOp in
     gets (fun w => selectEmails userId q (emails w)))
    (fun error => throw error).

Definition setAnalysis (a : Analysis) (now : Z) (e : Email) : Email :=
  mkEmail (gmailId e) (e_userId e) (threadId e) (subject e) (from e) (to e)
          (snippet e) (timestamp e) true (synced e) (Some a) now.

Definition updateEmailAnalysis (gid : jsstring) (a : Analysis) : M unit :=
  tryCatch
    (let* now := Date_now in
     let* _ := dbOp in
     modify (fun w => set_emails
       (updateFirst (fun e => jsstring_eqb (gmailId e) gid) (setAnalysis a now)
          (emails w)) w))
    (fun error => throw error).

(** [db.collection('emails').updateOne({ gmailId }, { $set: { synced: true,
    updatedAt: new Date() } })], as batch-processor.js issues it. *)
Definition setSynced (now : Z) (e : Email) : Email :=
  mkEmail (gmailId e) (e_userId e) (threadId e) (subject e) (from e) (to e)
          (snippet e) (timestamp e) (processed e) true (analysis e) now.

Definition markSynced (gid : jsstring) : M unit :=
  let* now := Date_now in
  let* _ := dbOp in
  modify (fun w => set_emails
    (updateFirst (fun e => jsstring_eqb (gmailId e) gid) (setSynced now)
       (emails w)) w).

(** *** labels *)

Definition sameLabelKey (uid nm : jsstring) (l : Label) : bool :=
  jsstring_eqb (l_userId l) uid && jsstring_eqb (name l) nm.

Definition saveLabel (userId nm labelId : jsstring) (count : Z) (auto : bool) : M unit :=
  tryCatch
    (let* now := Date_now in
     let* _ := dbOp in
     modify (fun w => set_labels
       (replaceOneUpsert (sameLabelKey userId nm)
          (mkLabel userId nm labelId count auto now) (labels w)) w))
    (fun error => throw error).

Definition getLabels (userId : jsstring) : M (list Label) :=
  tryCatch
    (let* _ := dbOp in
     gets (fun w => List.filter (fun l => jsstring_eqb (l_userId l) userId) (labels w)))
    (fun error => throw error).

Definition getLabelByName (userId nm : jsstring) : M (option Label) :=
  tryCatch
    (let* _ := dbOp in
     gets (fun w => List.find (sameLabelKey userId nm) (labels w)))
    (fun error => throw error).

(** The aggregation behind [getCategoryBreakdown]; only whether it
    succeeds matters to its caller here. *)
Definition getCategoryBreakdown (userId : jsstring) : M unit :=
  tryCatch dbOp (fun error => throw error).

(** *** batchLogs *)

Definition hasBatchId (bid : jsstring) (b : BatchLog) : bool :=
  jsstring_eqb (batchId b) bid.

(** [findOne({ batchId })]. *)
Definition findBatchLog (bid : jsstring) : M (option BatchLog) :=
  let* _ := dbOp in
  gets (fun w => List.find (hasBatchId bid) (batchLogs w)).

(** [insertOne({ ...batchData, startTime: new Date(), status: 'started' })].
    The collection has a unique index on [batchId]. *)
Definition createBatchLog (batchData : BatchLog) : M unit :=
  tryCatch
    (let* now := Date_now in
     let doc := mkBatchLog (batchId batchData) (b_userId batchData) (options batchData)
                  (<["status" := JStr (str "started")]>
                     (<["startTime" := JDate now]> (fields batchData))) in
     let* _ := dbOp in
     let* dup := gets (fun w => existsb (hasBatchId (batchId doc)) (batchLogs w)) in
     if dup then throw (mkError (Some 11000) (str "E11000 duplicate key error"))
     else modify (fun w => emit (EvBatchInsert doc) (set_batchLogs (batchLogs w ++ [doc]) w)))
    (fun error => throw error).

(** [$set: { ...updateData, updatedAt: new Date() }] on one document. *)
Definition applySet (upd : gmap string JSValue) (b : BatchLog) : BatchLog :=
  mkBatchLog (batchId b) (b_userId b) (options b) (spread (fields b) upd).

Definition updateBatchLog (bid : jsstring) (updateData : gmap string JSValue) : M unit :=
  tryCatch
    (let* now := Date_now in
     let upd := <["updatedAt" := JDate now]> updateData in
     let* _ := dbOp in
     modify (fun w => emit (EvBatchUpdate bid upd)
       (set_batchLogs (updateFirst (hasBatchId bid) (applySet upd) (batchLogs w)) w)))
    (fun error => throw error).

(** *** rateLimits *)

(** [collection.countDocuments({ key, timestamp: { $gte: windowStart } })] *)
Definition inWindow (k : jsstring) (windowStart : Z) (d : RateDoc) : bool :=
  jsstring_eqb (key d) k && (windowStart <=? r_timestamp d).

Definition countDocuments (k : jsstring) (windowStart : Z) : M Z :=
  let* _ := dbOp in
  gets (fun w => Z.of_nat (length (List.filter (inWindow k windowStart) (rateLimits w)))).

Definition insertOne_rateLimits (d : RateDoc) : M unit :=
  let* _ := dbOp in
  modify (fun w => set_rateLimits (rateLimits w ++ [d]) w).

(** [checkRateLimit(userId, operation = 'gemini')].  Documents past their
    [expiresAt] are removed by the store's TTL index at some later time;
    they are already outside the window, so the count ignores them either
    way and the removal is not modelled. *)
Definition checkRateLimit (userId operation : jsstring) : M bool :=
  tryCatch
    (let k := userId ++ str "_" ++ operation in
     let* now := Date_now in
     let windowStart := now - 60000 in
     let* count := countDocuments k windowStart in
     if 10 <=? count then ret false
     else
       let* stamp := Date_now in
       let* now' := Date_now in
       let* _ := insertOne_rateLimits (mkRateDoc k stamp (now' + 60000)) in
       ret true)
    (fun error => ret true).

End MongoDatabase.

(* ===================================================================== *)
(** ** gemini-enhanced.js: class EnhancedGeminiAnalyzer                   *)
(* ===================================================================== *)

Module EnhancedGeminiAnalyzer.
Import MongoDatabase.

(** The fields the constructor sets on [this]. *)
Record Analyzer : Type := mkAnalyzer {
  GEMINI_API_KEY : option jsstring;
  USE_GEMINI : bool;
  VALID_CATEGORIES : list jsstring
}.

(** [constructor(mongoDb)], from the two variables of [process.env]. *)
Definition constructor (env_GEMINI_API_KEY env_USE_GEMINI : option jsstring) : Analyzer :=
  mkAnalyzer
    env_GEMINI_API_KEY
    (bool_decide (env_USE_GEMINI = Some (str "true")))
    [ str "Finance/Investments"; str "Finance/Banking"; str "Finance/E-commerce";
      str "Finance/Billing"; str "Finance/General"; str "Work"; str "Shopping";
      str "Personal"; str "Promotions"; str "Other" ].

(** [array.includes(x)] for an array of strings. *)
Definition arrayIncludes (l : list jsstring) (v : option JSValue) : option jsstring :=
  match v with
  | Some (JStr s) => if existsb (jsstring_eqb s) l then Some s else None
  | _ => None
  end.

(** [callGeminiAPI(prompt)]: the request, the parsing of the answer and
    the extraction of the JSON object all happen on the other side of the
    promise; it resolves with an object or rejects. *)
Definition callGeminiAPI (subject from snippet : jsstring) : M (gmap string JSValue) :=
  remote (EvGemini subject from snippet)
         (fun env n => gemini env n subject from snippet).

(** The characters [replace(/[^a-zA-Z0-9\s\/]/g, '')] keeps. *)
Definition keptByReplace (c : N) : bool :=
  is_alnum c || is_whitespace c || is_slash c.

Definition cleanLabel (s : jsstring) : jsstring :=
  substring0 30 (trim (List.filter keptByReplace s)).

(** [validateAnalysis(analysis)].  A truthy [suggestedLabel] that is not
    a string has no [replace] method: the call throws a TypeError. *)
Definition validateAnalysis (this : Analyzer) (analysis : gmap string JSValue)
  : Outcome Analysis :=
  let purpose := js_or (analysis !! "purpose") (JStr (str "Unknown purpose")) in
  let category :=
    match arrayIncludes (VALID_CATEGORIES this) (analysis !! "category") with
    | Some c => c
    | None => str "Other"
    end in
  let summary := js_or (analysis !! "summary") (JStr (str "No summary available")) in
  let sentiment :=
    match arrayIncludes [str "positive"; str "negative"; str "neutral"]
                        (analysis !! "sentiment") with
    | Some s => s
    | None => str "neutral"
    end in
  match js_or (analysis !! "suggestedLabel") (JStr (str "General")) with
  | JStr label =>
      let cleaned := cleanLabel label in
      Return (mkAnalysis purpose category summary sentiment
                (match cleaned with [] => str "General" | _ => cleaned end))
  | _ => Throw (Error (str "validated.suggestedLabel.replace is not a function"))
  end.

(** [keywords.some(keyword => text.includes(keyword))]. *)
Definition someIncluded (keywords : list jsstring) (text : jsstring) : bool :=
  existsb (fun keyword => includes text keyword) keywords.

Definition financialKeywords : list jsstring :=
  [ str "invoice"; str "payment"; str "bill"; str "transaction"; str "amount";
    str "due"; str "statement"; str "credit card"; str "bank"; str "account" ].
Definition investmentKeywords : list jsstring :=
  [ str "sip"; str "mutual fund"; str "stock"; str "portfolio"; str "investment";
    str "trading"; str "demat" ].
Definition workKeywords : list jsstring :=
  [ str "meeting"; str "project"; str "deadline"; str "report"; str "presentation";
    str "office"; str "work" ].
Definition personalKeywords : list jsstring :=
  [ str "family"; str "friend"; str "personal"; str "weekend"; str "trip";
    str "vacation" ].
Definition shoppingKeywords : list jsstring :=
  [ str "order"; str "delivery"; str "purchase"; str "buy"; str "shop"; str "cart";
    str "shipment" ].
Definition positiveWords : list jsstring :=
  [ str "congratulations"; str "thank you"; str "great"; str "excellent";
    str "success"; str "approved" ].
Definition negativeWords : list jsstring :=
  [ str "urgent"; str "overdue"; str "failed"; str "error"; str "problem";
    str "issue"; str "cancelled" ].

(** [fallbackAnalysis(subject, from, snippet)]; [lower] is
    [String.prototype.toLowerCase]. *)
Definition fallbackAnalysis (lower : jsstring -> jsstring)
    (subject from snippet : jsstring) : Analysis :=
  let subjectLower := lower subject in
  let snippetLower := lower snippet in
  let '(category, purpose, suggestedLabel) :=
    if existsb (fun keyword => includes subjectLower keyword || includes snippetLower keyword)
               financialKeywords then
      if someIncluded investmentKeywords subjectLower then
        (str "Finance/Investments", str "Investment notification", str "Investments")
      else
        (str "Finance/Banking", str "Financial transaction", str "Banking")
    else if someIncluded workKeywords subjectLower then
      (str "Work", str "Work related", str "Work")
    else if someIncluded personalKeywords subjectLower then
      (str "Personal", str "Personal communication", str "Personal")
    else if someIncluded shoppingKeywords subjectLower then
      (str "Shopping", str "Shopping related", str "Shopping")
    else
      (str "Other", str "General communication", str "General") in
  let sentiment :=
    if someIncluded positiveWords subjectLower then str "positive"
    else if someIncluded negativeWords subjectLower then str "negative"
    else str "neutral" in
  mkAnalysis (JStr purpose) category
    (JStr (if (100 <? length subject)%nat
           then substring0 97 subject ++ str "..." else subject))
    sentiment suggestedLabel.

(** [analyzeEmail(subject, from, snippet, userId)]. *)
Definition analyzeEmail (this : Analyzer) (subject from snippet userId : jsstring)
  : M Analysis :=
  tryCatch
    (let* canProceed := checkRateLimit userId (str "gemini") in
     if negb canProceed then
       let* lower := ask toLowerCase in
       ret (fallbackAnalysis lower subject from snippet)
     else
       let* analysis := callGeminiAPI subject from snippet in
       match validateAnalysis this analysis with
       | Return validatedAnalysis => ret validatedAnalysis
       | Throw e => throw e
       end)
    (fun error =>
       let* lower := ask toLowerCase in
       ret (fallbackAnalysis lower subject from snippet)).

(** One entry of [results] in [batchAnalyzeEmails]. *)
Record AnalysisOutcome : Type := mkAnalysisOutcome {
  ao_gmailId : jsstring;
  success : bool
}.

(** [emails.slice(i, i + batchSize)] for [i = 0, batchSize, ...], each
    with its [i]. *)
Fixpoint slices {A} (fuel : nat) (i size : nat) (l : list A) : list (nat * list A) :=
  match fuel with
  | O => []
  | S fuel' =>
      match l with
      | [] => []
      | _ => (i, take size l) :: slices fuel' (i + size)%nat size (drop size l)
      end
  end.

(** The pause [setTimeout(resolve, 2000)]: time passes. *)
Definition sleep : M unit := modify tick.

Record BatchAnalysis : Type := mkBatchAnalysis {
  total : nat;
  successful : nat;
  failed : nat;
  results : list AnalysisOutcome
}.

(** [batchAnalyzeEmails(emails, userId)].  [results] is an array the loop
    body pushes to: the success entry pushed before [updateEmailAnalysis]
    stays when that call throws and the handler pushes a failure entry. *)
Definition batchAnalyzeEmails (this : Analyzer) (emails : list Email) (userId : jsstring)
  : M BatchAnalysis :=
  let batchSize := 5%nat in
  let* results :=
    forOf (slices (length emails) 0 batchSize emails)
      (fun results '(i, batch) =>
         let* results :=
           forOf batch
             (fun results email =>
                tryCatch
                  (let* analysis := analyzeEmail this (subject email) (from email)
                                      (snippet email) userId in
                   let results := results ++ [mkAnalysisOutcome (gmailId email) true] in
                   tryCatch
                     (let* _ := updateEmailAnalysis (gmailId email) analysis in ret results)
                     (fun error =>
                        ret (results ++ [mkAnalysisOutcome (gmailId email) false])))
                  (fun error =>
                     ret (results ++ [mkAnalysisOutcome (gmailId email) false])))
             results in
         let* _ := if (i + batchSize <? length emails)%nat then sleep else ret tt in
         ret results)
      [] in
  let successCount := length (List.filter success results) in
  let failCount := length (List.filter (fun r => negb (success r)) results) in
  ret (mkBatchAnalysis (length emails) successCount failCount results).

(** [x || []] in [validateSuggestions]. *)
Definition validateSuggestions (suggestions : gmap string JSValue) : JSValue :=
  JObj [ ("mergeSuggestions"%string, js_or (suggestions !! "mergeSuggestions") (JArr []));
         ("hierarchySuggestions"%string, js_or (suggestions !! "hierarchySuggestions") (JArr []));
         ("renameSuggestions"%string, js_or (suggestions !! "renameSuggestions") (JArr []));
         ("newLabels"%string, js_or (suggestions !! "newLabels") (JArr [])) ].

(** [suggestLabelOrganization(userId)]. *)
Definition suggestLabelOrganization (this : Analyzer) (userId : jsstring) : M JSValue :=
  tryCatch
    (let* labels := getLabels userId in
     let* _ := getCategoryBreakdown userId in
     let* suggestions := remote EvGeminiOrganize (fun env n => geminiOrganize env n) in
     ret (validateSuggestions suggestions))
    (fun error =>
       ret (JObj [ ("mergeSuggestions"%string, JArr []);
                   ("hierarchySuggestions"%string, JArr []);
                   ("renameSuggestions"%string, JArr []);
                   ("newLabels"%string, JArr []) ])).

End EnhancedGeminiAnalyzer.

(* ===================================================================== *)
(** ** batch-processor.js: class BatchProcessor                           *)
(* ===================================================================== *)

Module BatchProcessor.
Import MongoDatabase.

(** [this]: the store, the OAuth client and the Gmail client are the
    world; what remains is the analyzer. *)
Record Processor : Type := mkProcessor {
  geminiAnalyzer : EnhancedGeminiAnalyzer.Analyzer
}.

(** [oauth2Client.setCredentials({ access_token, refresh_token })]. *)
Definition setCredentials (c : Credentials) : M unit := modify (set_oauth c).

(** [`batch_${Date.now()}_${Math.random().toString(36).substr(2, 9)}`] *)
Definition generateBatchId : M jsstring :=
  let* now := Date_now in
  let* suffix := (fun env w => (Return (random env (steps w)), tick w)) in
  ret (str "batch_" ++ numberToString now ++ str "_" ++ suffix).

(** [createBatch(userId, operation, options = {})]. *)
Definition createBatch (userId operation : jsstring) (options : Options) : M jsstring :=
  tryCatch
    (let* batchId := generateBatchId in
     let batchData :=
       mkBatchLog batchId userId options
         (<["operation" := JStr operation]>
          (<["status" := JStr (str "created")]>
           (<["emailsProcessed" := JNum 0]>
            (<["emailsTotal" := JNum 0]>
             (<["labelsCreated" := JNum 0]>
              (<["labelsUsed" := JNum 0]>
               (<["errors" := JArr []]> ∅))))))) in
     let* _ := createBatchLog batchData in
     ret batchId)
    (fun error => throw error).

(** [gmail.users.messages.list]: the next page of the script; past its
    end the provider answers with no messages and no [nextPageToken]. *)
Definition messages_list : M ListPage :=
  fun env w =>
    match listing w with
    | [] => (Return (mkListPage [] false), tick (emit EvGmailList w))
    | r :: rest => (r, set_listing rest (tick (emit EvGmailList w)))
    end.

(** The body of [for (const message of messages)] in [batchFetchEmails]. *)
Definition fetchMessage (userId : jsstring) (totalEmails : Z) (messageId : jsstring) : M Z :=
  tryCatch
    (let* msg := remote (EvGmailGet messageId) (fun env n => gmailGet env n messageId) in
     let* date := match m_date msg with
                  | Some d => ret d
                  | None => Date_now
                  end in
     let emailData :=
       mkEmail (m_id msg) userId (m_threadId msg)
               (strOr (m_subject msg) (str "No Subject"))
               (strOr (m_from msg) (str "Unknown"))
               (strOr (m_to msg) [])
               (strOr (m_snippet msg) [])
               date false false None 0 in
     let* _ := saveEmail emailData in
     ret (totalEmails + 1))
    (fun msgError => ret totalEmails).

(** The [do { ... } while (pageToken && totalEmails < batchSize)] loop.
    [script] is the listing still to come when the loop is entered; a page
    with a [nextPageToken] always comes from the script, so the loop has
    ended by the time the script is used up. *)
Fixpoint fetchLoop (script : list (Outcome ListPage)) (batchId userId : jsstring)
    (batchSize totalEmails : Z) : M Z :=
  let* response := messages_list in
  let* totalEmails := forOf (messages response) (fetchMessage userId) totalEmails in
  let* _ := updateBatchLog batchId {[ "emailsProcessed" := JNum totalEmails ]} in
  if nextPageToken response && (totalEmails <? batchSize) then
    match script with
    | _ :: script' => fetchLoop script' batchId userId batchSize totalEmails
    | [] => ret totalEmails
    end
  else ret totalEmails.

(** [batchFetchEmails(batchId, options)]. *)
Definition batchFetchEmails (batchId : jsstring) (options : Options) : M (gmap string JSValue) :=
  let batchSize := numOr (o_batchSize options) 100 in
  let userId := o_userId options in
  tryCatch
    (let* script := gets listing in
     let* totalEmails := fetchLoop script batchId userId batchSize 0 in
     ret (<["emailsProcessed" := JNum totalEmails]>
          (<["emailsTotal" := JNum totalEmails]>
           (<["operation" := JStr (str "fetchEmails")]> ∅))))
    (fun error => throw error).

(** [batchAnalyzeEmails(batchId, options)]. *)
Definition batchAnalyzeEmails (this : Processor) (batchId : jsstring) (options : Options)
  : M (gmap string JSValue) :=
  let userId := o_userId options in
  let limit := numOr (o_limit options) 100 in
  tryCatch
    (let* emails := getEmails userId (mkEmailQuery (Some false) None (Some limit)) in
     if (length emails =? 0)%nat then
       ret (<["emailsProcessed" := JNum 0]>
            (<["emailsTotal" := JNum 0]>
             (<["operation" := JStr (str "analyzeEmails")]> ∅)))
     else
       let* result := EnhancedGeminiAnalyzer.batchAnalyzeEmails
                        (geminiAnalyzer this) emails userId in
       ret (<["emailsProcessed" := JNum (Z.of_nat (EnhancedGeminiAnalyzer.successful result))]>
            (<["emailsTotal" := JNum (Z.of_nat (length emails))]>
             (<["operation" := JStr (str "analyzeEmails")]>
              (<["errors" :=
                   JArr (if (0 <? EnhancedGeminiAnalyzer.failed result)%nat
                         then [JStr (numberToString (Z.of_nat (EnhancedGeminiAnalyzer.failed result))
                                     ++ str " emails failed analysis")]
                         else [])]> ∅)))))
    (fun error => throw error).

(** [Set.prototype.add]: insertion order, no duplicates. *)
Definition setAdd (s : list jsstring) (x : jsstring) : list jsstring :=
  if existsb (jsstring_eqb x) s then s else s ++ [x].

(** The labels [emails.forEach] adds to [uniqueLabels]. *)
Definition collectLabels (emails : list Email) : list jsstring :=
  fold_left
    (fun uniqueLabels email =>
       match analysis email with
       | Some a =>
           match suggestedLabel a with
           | _ :: _ => setAdd uniqueLabels (suggestedLabel a)
           | [] => uniqueLabels
           end
       | None => uniqueLabels
       end)
    emails [].

(** The body of [for (const labelName of uniqueLabels)]; the pair is
    [(labelsCreated, existingLabels)]. *)
Definition createLabel (userId : jsstring) (counts : Z * Z) (labelName : jsstring)
  : M (Z * Z) :=
  let '(labelsCreated, existingLabels) := counts in
  tryCatch
    (let* existingLabel := getLabelByName userId labelName in
     match existingLabel with
     | None =>
         let* createdId := remote (EvGmailCreateLabel labelName)
                             (fun env n => gmailCreateLabel env n labelName) in
         let* _ := saveLabel userId labelName createdId 0 true in
         ret (labelsCreated + 1, existingLabels)
     | Some _ => ret (labelsCreated, existingLabels + 1)
     end)
    (fun labelError => ret (labelsCreated, existingLabels)).

(** [batchCreateLabels(batchId, options)]. *)
Definition batchCreateLabels (batchId : jsstring) (options : Options) : M (gmap string JSValue) :=
  let userId := o_userId options in
  tryCatch
    (let* emails := getEmails userId (mkEmailQuery (Some true) None None) in
     let uniqueLabels := collectLabels emails in
     let* (labelsCreated, existingLabels) :=
       forOf uniqueLabels (createLabel userId) (0, 0) in
     ret (<["labelsCreated" := JNum labelsCreated]>
          (<["labelsUsed" := JNum (existingLabels + labelsCreated)]>
           (<["operation" := JStr (str "createLabels")]> ∅))))
    (fun error => throw error).

(** The body of [for (const email of unsyncedEmails)]; the pair is
    [(successCount, failCount)]. *)
Definition assignLabel (userId : jsstring) (counts : Z * Z) (email : Email) : M (Z * Z) :=
  let '(successCount, failCount) := counts in
  tryCatch
    (match analysis email with
     | Some a =>
         match suggestedLabel a with
         | _ :: _ =>
             let* label := getLabelByName userId (suggestedLabel a) in
             match label with
             | Some label =>
                 let* _ := remote (EvGmailModify (gmailId email) (gmailLabelId label))
                             (fun env n => gmailModify env n (gmailId email) (gmailLabelId label)) in
                 let* _ := markSynced (gmailId email) in
                 ret (successCount + 1, failCount)
             | None => ret (successCount, failCount + 1)
             end
         | [] => ret (successCount, failCount)
         end
     | None => ret (successCount, failCount)
     end)
    (fun assignError => ret (successCount, failCount + 1)).

(** [batchAssignLabels(batchId, options)]. *)
Definition batchAssignLabels (batchId : jsstring) (options : Options) : M (gmap string JSValue) :=
  let userId := o_userId options in
  let batchSize := numOr (o_batchSize options) 50 in
  tryCatch
    (let* emails := getEmails userId (mkEmailQuery (Some true) None (Some batchSize)) in
     let unsyncedEmails := List.filter (fun email => negb (synced email)) emails in
     if (length unsyncedEmails =? 0)%nat then
       ret (<["emailsProcessed" := JNum 0]>
            (<["emailsTotal" := JNum 0]>
             (<["operation" := JStr (str "assignLabels")]> ∅)))
     else
       let* (successCount, failCount) :=
         forOf unsyncedEmails (assignLabel userId) (0, 0) in
       ret (<["emailsProcessed" := JNum successCount]>
            (<["emailsTotal" := JNum (Z.of_nat (length unsyncedEmails))]>
             (<["operation" := JStr (str "assignLabels")]>
              (<["errors" :=
                   JArr (if 0 <? failCount
                         then [JStr (numberToString failCount ++ str " emails failed labeling")]
                         else [])]> ∅)))))
    (fun error => throw error).

(** [batchOrganizeLabels(batchId, options)]. *)
Definition batchOrganizeLabels (this : Processor) (batchId : jsstring) (options : Options)
  : M (gmap string JSValue) :=
  let userId := o_userId options in
  tryCatch
    (let* suggestions := EnhancedGeminiAnalyzer.suggestLabelOrganization
                           (geminiAnalyzer this) userId in
     ret (<["suggestions" := suggestions]>
          (<["operation" := JStr (str "organizeLabels")]> ∅)))
    (fun error => throw error).

(** The object literal that ends [fullBatchProcess]. *)
Definition finalResult (fetchResult analyzeResult createLabelsResult assignLabelsResult
    : gmap string JSValue) : gmap string JSValue :=
  <["operation" := JStr (str "fullProcess")]>
    (spread (spread (spread fetchResult analyzeResult) createLabelsResult)
            assignLabelsResult).

(** [fullBatchProcess(batchId, options)]. *)
Definition fullBatchProcess (this : Processor) (batchId : jsstring) (options : Options)
  : M (gmap string JSValue) :=
  let userId := o_userId options in
  let batchSize := numOr (o_batchSize options) 100 in
  tryCatch
    (let* fetchResult :=
       batchFetchEmails batchId (mkOptions userId (Some batchSize) None None) in
     let* analyzeResult :=
       batchAnalyzeEmails this batchId (mkOptions userId None (Some batchSize) None) in
     let* createLabelsResult :=
       batchCreateLabels batchId (mkOptions userId None None None) in
     let* assignLabelsResult :=
       batchAssignLabels batchId (mkOptions userId (Some batchSize) None None) in
     ret (finalResult fetchResult analyzeResult createLabelsResult assignLabelsResult))
    (fun error => throw error).

(** The [switch (batchLog.operation)] of [executeBatch]. *)
Definition operationIs (v : option JSValue) (s : string) : bool :=
  match v with
  | Some (JStr o) => jsstring_eqb o (str s)
  | _ => false
  end.

(** The text of [${batchLog.operation}]; only strings are ever stored
    under [operation], other values are rendered by their kind. *)
Definition operationText (v : option JSValue) : jsstring :=
  match v with
  | Some (JStr o) => o
  | Some (JNum z) => numberToString z
  | Some (JBool true) => str "true"
  | Some (JBool false) => str "false"
  | Some JNull => str "null"
  | None => str "undefined"
  | Some _ => str "[object Object]"
  end.

Definition dispatch (this : Processor) (batchId : jsstring) (batchLog : BatchLog)
  : M (gmap string JSValue) :=
  let operation := fields batchLog !! "operation" in
  if operationIs operation "fetchEmails" then
    batchFetchEmails batchId (options batchLog)
  else if operationIs operation "analyzeEmails" then
    batchAnalyzeEmails this batchId (options batchLog)
  else if operationIs operation "createLabels" then
    batchCreateLabels batchId (options batchLog)
  else if operationIs operation "assignLabels" then
    batchAssignLabels batchId (options batchLog)
  else if operationIs operation "organizeLabels" then
    batchOrganizeLabels this batchId (options batchLog)
  else if operationIs operation "fullProcess" then
    fullBatchProcess this batchId (options batchLog)
  else
    throw (Error (str "Unknown operation: " ++ operationText operation)).

(** The [try] block of [executeBatch]. *)
Definition executeBatch_try (this : Processor) (batchId : jsstring) (userTokens : Credentials)
  : M (gmap string JSValue) :=
  let* _ := setCredentials
              (mkCredentials (access_token userTokens) (refresh_token userTokens)) in
  let* batchLog := findBatchLog batchId in
  match batchLog with
  | None => throw (Error (str "Batch not found"))
  | Some batchLog =>
      let* startTime := Date_now in
      let* _ := updateBatchLog batchId
                  (<["status" := JStr (str "running")]>
                   (<["startTime" := JDate startTime]> ∅)) in
      let* result := dispatch this batchId batchLog in
      let* endTime := Date_now in
      let* _ := updateBatchLog batchId
                  (spread (<["status" := JStr (str "completed")]>
                           (<["endTime" := JDate endTime]> ∅))
                          result) in
      ret result
  end.

(** The [catch (error)] block of [executeBatch]. *)
Definition executeBatch_catch (batchId : jsstring) (error : JSError)
  : M (gmap string JSValue) :=
  let* endTime := Date_now in
  let* _ := updateBatchLog batchId
              (<["status" := JStr (str "failed")]>
               (<["endTime" := JDate endTime]>
                (<["errors" := JArr [JStr (err_message error)]]> ∅))) in
  throw error.

(** [executeBatch(batchId, userTokens)]. *)
Definition executeBatch (this : Processor) (batchId : jsstring) (userTokens : Credentials)
  : M (gmap string JSValue) :=
  tryCatch (executeBatch_try this batchId userTokens) (executeBatch_catch batchId).

(** [getBatchStatus(batchId)]. *)
Definition getBatchStatus (batchId : jsstring) : M (option BatchLog) :=
  tryCatch (findBatchLog batchId) (fun error => throw error).

End BatchProcessor.

(* ===================================================================== *)
(** ** server-mongo.js: the token guard and the batch creation route      *)
(* ===================================================================== *)

Module Server.
Import MongoDatabase.

Record HttpResponse : Type := mkResponse {
  status : Z;
  body : gmap string JSValue
}.

(** What [withTokenRefresh] gives back: the value of the operation, or
    [res] after a response has been sent through it. *)
Inductive Reply (A : Type) : Type :=
| Value (a : A)
| Sent (r : HttpResponse).
Arguments Value {A} a.
Arguments Sent {A} r.

(** [error.code === 401 || error.message.includes('invalid_token')] *)
Definition isTokenError (error : JSError) : bool :=
  bool_decide (err_code error = Some 401) ||
  includes (err_message error) (str "invalid_token").

(** [withTokenRefresh(req, res, operation)]. *)
Definition withTokenRefresh {A} (operation : M A) : M (Reply A) :=
  tryCatch
    (let* user := gets reqUser in
     let* _ := BatchProcessor.setCredentials
                 (mkCredentials (s_accessToken user) (s_refreshToken user)) in
     let* _ := modify (emit EvOperation) in
     let* r := operation in
     ret (Value r))
    (fun error =>
       if isTokenError error then
         tryCatch
           (let* credentials := remote EvRefreshAccessToken
                                  (fun env n => refreshAccessToken env n) in
            let* user := gets reqUser in
            let* _ := updateUserTokens (profile_id user)
                        (rc_access_token credentials)
                        (strOr (rc_refresh_token credentials) (s_refreshToken user))
                        (rc_expiry_date credentials) in
            let* _ := modify (fun w => set_reqUser
                        (mkSession (profile_id (reqUser w))
                                   (rc_access_token credentials)
                                   (s_refreshToken (reqUser w))) w) in
            let* user := gets reqUser in
            let* _ := BatchProcessor.setCredentials
                        (mkCredentials (rc_access_token credentials)
                           (strOr (rc_refresh_token credentials) (s_refreshToken user))) in
            let* _ := modify (emit EvOperation) in
            let* r := operation in
            ret (Value r))
           (fun refreshError =>
              ret (Sent (mkResponse 401
                     (<["error" := JStr (str "Token refresh failed. Please re-login.")]>
                      (<["requiresReauth" := JBool true]> ∅)))))
       else throw error).

(** What a read [maxBatchSizes[operation]] finds: a ceiling of the table,
    or a member the object literal inherits from [Object.prototype] (a
    function, or the prototype itself for ['__proto__']), which is truthy
    and [NaN] as a number. *)
Inductive TableEntry : Type :=
| Ceiling (max : Z)
| Inherited.

(** The names [Object.prototype] has a member for. *)
Definition objectPrototypeMembers : list jsstring :=
  [ str "constructor"; str "__defineGetter__"; str "__defineSetter__";
    str "hasOwnProperty"; str "__lookupGetter__"; str "__lookupSetter__";
    str "isPrototypeOf"; str "propertyIsEnumerable"; str "toString"; str "valueOf";
    str "__proto__"; str "toLocaleString" ].

(** The table [maxBatchSizes] and the read [maxBatchSizes[operation]]. *)
Definition maxBatchSizes (operation : jsstring) : option TableEntry :=
  if jsstring_eqb operation (str "fetchEmails") then Some (Ceiling 500)
  else if jsstring_eqb operation (str "analyzeEmails") then Some (Ceiling 200)
  else if jsstring_eqb operation (str "assignLabels") then Some (Ceiling 200)
  else if jsstring_eqb operation (str "fullProcess") then Some (Ceiling 200)
  else if existsb (jsstring_eqb operation) objectPrototypeMembers then Some Inherited
  else None.

Definition withUserId (options : Options) (userId : jsstring) : Options :=
  mkOptions userId (o_batchSize options) (o_limit options) (o_query options).

(** [app.post('/api/batch/create', ...)], after [isAuthenticated]. *)
Definition batchCreate (operation : jsstring) (options : Options) : M HttpResponse :=
  tryCatch
    (let* userId := gets (fun w => profile_id (reqUser w)) in
     let validated :=
       match o_batchSize options, maxBatchSizes operation with
       | Some batchSize, Some entry =>
           if negb (batchSize =? 0) then
             match entry with
             | Ceiling max =>
                 if max <? batchSize then
                   Some (mkResponse 400
                     {[ "error" := JStr (str "Batch size too large. Maximum for " ++ operation
                                         ++ str " is " ++ numberToString max) ]})
                 else if batchSize <? 1 then
                   Some (mkResponse 400
                     {[ "error" := JStr (str "Batch size must be at least 1") ]})
                 else None
             | Inherited =>
                 (* [batchSize > NaN] is false *)
                 if batchSize <? 1 then
                   Some (mkResponse 400
                     {[ "error" := JStr (str "Batch size must be at least 1") ]})
                 else None
             end
           else None
       | _, _ => None
       end in
     match validated with
     | Some rejection => ret rejection
     | None =>
         let* batchId := BatchProcessor.createBatch userId operation
                           (withUserId options userId) in
         ret (mkResponse 200
                (<["success" := JBool true]>
                 (<["batchId" := JStr batchId]>
                  (<["message" := JStr (str "Batch " ++ batchId ++ str " created for "
                                        ++ operation)]> ∅))))
     end)
    (fun error =>
       ret (mkResponse 500 {[ "error" := JStr (str "Failed to create batch") ]})).

End Server.

(* ===================================================================== *)
(** ** server-mongo.js: the execute and status routes                     *)
(* ===================================================================== *)

Module Routes.
Import MongoDatabase Server.

(** The operation the execute route hands to [withTokenRefresh]:
    [async () => batchProcessor.executeBatch(batchId, { accessToken:
    user.accessToken, refreshToken: user.refreshToken })].  It closes over
    the [user] read from the store before the guard runs. *)
Definition executeOperation (this : BatchProcessor.Processor) (batchId : jsstring)
    (user : User) : M (gmap string JSValue) :=
  BatchProcessor.executeBatch this batchId
    (mkCredentials (accessToken user) (refreshToken user)).

(** [app.post('/api/batch/execute', ...)], after [isAuthenticated], from
    the read of the user to the value [withTokenRefresh] resolves with;
    [None] stands for the answer 401 ['User not found'].  The response
    written from that value is not part of the model. *)
Definition batchExecute_guarded (this : BatchProcessor.Processor) (batchId : jsstring)
  : M (option (Reply (gmap string JSValue))) :=
  let* userId := gets (fun w => profile_id (reqUser w)) in
  let* user := getUser userId in
  match user with
  | None => ret None
  | Some user =>
      let* result := withTokenRefresh (executeOperation this batchId user) in
      ret (Some result)
  end.

(** What the status route answers: the stored document, or a status
    code with an error message. *)
Inductive StatusReply : Type :=
| StatusDocument (doc : BatchLog)
| StatusError (code : Z) (message : jsstring).

(** [app.get('/api/batch/status/:batchId', ...)], after
    [isAuthenticated]. *)
Definition batchStatus (batchId : jsstring) : M StatusReply :=
  tryCatch
    (let* status := BatchProcessor.getBatchStatus batchId in
     match status with
     | None => ret (StatusError 404 (str "Batch not found"))
     | Some doc => ret (StatusDocument doc)
     end)
    (fun error => ret (StatusError 500 (str "Failed to get batch status"))).

End Routes.

(* ===================================================================== *)
(** ** Vocabulary of the properties                                       *)
(* ===================================================================== *)

(** [Post R P m]: whatever the environment and the world it starts in,
    [m] leaves a world related to the first one by [R], and if it returns
    the value satisfies [P]. *)
Definition Post {A} (R : World -> World -> Prop) (P : A -> Prop) (m : M A) : Prop :=
  forall env w, R w (snd (m env w)) /\ forall a, fst (m env w) = Return a -> P a.

Definition anyValue {A} : A -> Prop := fun _ => True.

(** [n] calls of the same method, one after the other. *)
Fixpoint repeatM {A} (n : nat) (m : M A) : M (list A) :=
  match n with
  | O => ret []
  | S n' => let* a := m in let* rest := repeatM n' m in ret (a :: rest)
  end.

Module RateSpec.
Import MongoDatabase.

(** The key under which [checkRateLimit] files a call. *)
Definition rateKey (userId operation : jsstring) : jsstring :=
  userId ++ str "_" ++ operation.

(** How many recorded calls of [k] fall in the window that ends at [now]. *)
Definition windowCount (k : jsstring) (now : Z) (w : World) : Z :=
  Z.of_nat (length (List.filter (inWindow k (now - 60000)) (rateLimits w))).

(** All clock reads from step [a] up to step [b] lie within one window. *)
Definition withinWindow (env : Env) (a b : nat) : Prop :=
  forall i j, (a <= i < b)%nat -> (a <= j < b)%nat ->
              clock env j - 60000 <= clock env i.

(** Every recorded call of [k] was stamped by a clock read from step [a] on. *)
Definition stampedFrom (env : Env) (k : jsstring) (a : nat) (w : World) : Prop :=
  forall d, In d (rateLimits w) -> key d = k ->
            exists i, (a <= i < steps w)%nat /\ r_timestamp d = clock env i.

(** How many recorded calls of [k] the store holds. *)
Definition keyCount (k : jsstring) (w : World) : nat :=
  length (List.filter (fun d => jsstring_eqb (key d) k) (rateLimits w)).

End RateSpec.

Module ClassifySpec.

(** The three sentiments. *)
Definition sentiments : list jsstring :=
  [str "positive"; str "negative"; str "neutral"].

(** "Alphanumerics, spaces, and the hierarchy separator": the characters
    the design document allows in a suggested label. *)
Definition plainLabelChar (c : N) : bool :=
  is_alnum c || (c =? 32)%N || is_slash c.

(** The same with every whitespace character of [\s] in place of the
    space. *)
Definition labelChar (c : N) : bool :=
  is_alnum c || is_whitespace c || is_slash c.

(** The field constraints of a classification result. *)
Definition wellFormed (categories : list jsstring) (a : Analysis) : Prop :=
  In (category a) categories /\
  In (sentiment a) sentiments /\
  Forall (fun c => labelChar c = true) (suggestedLabel a) /\
  (0 < length (suggestedLabel a) <= 30)%nat.

End ClassifySpec.

Module BatchSpec.

(** The identifier [generateBatchId] produces in world [w]. *)
Definition nextBatchId (env : Env) (w : World) : jsstring :=
  str "batch_" ++ numberToString (clock env (steps w)) ++ str "_" ++ random env (S (steps w)).

(** The status a document of [batchLogs] carries. *)
Definition statusOf (b : BatchLog) : option JSValue := fields b !! "status".

(** The job of a batch id as the store has it, and its status. *)
Definition job (bid : jsstring) (w : World) : option BatchLog :=
  List.find (MongoDatabase.hasBatchId bid) (batchLogs w).

Definition jobStatus (bid : jsstring) (w : World) : option JSValue :=
  match job bid w with
  | Some b => statusOf b
  | None => None
  end.

(** Which batch ids the store holds, with the status of each. *)
Definition statusView (l : list BatchLog) : list (jsstring * option JSValue) :=
  map (fun b => (batchId b, statusOf b)) l.

(** The status a write to [batchLogs] carries for job [bid], if any. *)
Definition statusWritten (bid : jsstring) (ev : Event) : list JSValue :=
  match ev with
  | EvBatchInsert doc =>
      if jsstring_eqb (batchId doc) bid then option_list (statusOf doc) else []
  | EvBatchUpdate b updateData =>
      if jsstring_eqb b bid then option_list (updateData !! "status") else []
  | _ => []
  end.

(** The statuses written for job [bid] by the events [evs], in order. *)
Definition statusWrites (bid : jsstring) (evs : list Event) : list JSValue :=
  flat_map (statusWritten bid) evs.

(** A step of the run that leaves every status alone: it adds events
    that write no status, and the store holds the same jobs with the same
    statuses. *)
Definition Quiet (w w' : World) : Prop :=
  exists evs, trace w' = trace w ++ evs /\
              (forall bid, statusWrites bid evs = []) /\
              statusView (batchLogs w') = statusView (batchLogs w).

(** An event that is not a write to [batchLogs]. *)
Definition notBatchWrite (ev : Event) : Prop :=
  match ev with
  | EvBatchInsert _ | EvBatchUpdate _ _ => False
  | _ => True
  end.

(** A result object that has both counters. *)
Definition hasCounters (r : gmap string JSValue) : Prop :=
  is_Some (r !! "emailsProcessed") /\ is_Some (r !! "emailsTotal").

(** A result object without a [status] property. *)
Definition noStatus (r : gmap string JSValue) : Prop := r !! "status" = None.

(** The value of property [k] in the last of the step results that has
    it. *)
Definition lastProduced (k : string) (stepResults : list (gmap string JSValue))
  : option JSValue :=
  fold_left (fun found r => match r !! k with Some v => Some v | None => found end)
            stepResults None.


Definition running : JSValue := JStr (str "running").
Definition completed : JSValue := JStr (str "completed").
Definition failed : JSValue := JStr (str "failed").

(** The status sequences one call of [executeBatch] can write for its
    job. *)
Definition executions : list (list JSValue) :=
  [[running; completed]; [running; failed]; [running]; [failed]; []].

(** The status a job has after the writes [ws], when it had [before]. *)
Definition statusAfter (ws : list JSValue) (before : option JSValue) : option JSValue :=
  List.last (map Some ws) before.

(** The fault, if any, that meets the write of the [catch] block of
    [executeBatch] when the error is caught in world [w]: the block reads
    the clock twice and then goes to the store. *)
Definition recordFault (env : Env) (w : World) : option JSError :=
  dbFault env (S (S (steps w))).

End BatchSpec.

Module LabelSpec.

(** The key of a label record. *)
Definition labelKey (l : Label) : jsstring * jsstring := (l_userId l, name l).

(** At most one record per [(userId, name)]. *)
Definition uniqueLabels (w : World) : Prop := NoDup (map labelKey (labels w)).

(** The record a category name resolves to, as [getLabelByName] finds it. *)
Definition resolved (userId labelName : jsstring) (w : World) : option Label :=
  List.find (MongoDatabase.sameLabelKey userId labelName) (labels w).

(** A step that keeps the label records unique. *)
Definition KeepsUnique (w w' : World) : Prop := uniqueLabels w -> uniqueLabels w'.

End LabelSpec.

Module AssignSpec.

(** The key of a message record. *)
Definition emailKey (e : Email) : jsstring * jsstring := (gmailId e, e_userId e).

(** A message record without its sync flag and its [updatedAt]. *)
Definition unmarked (e : Email) : Email :=
  mkEmail (gmailId e) (e_userId e) (threadId e) (subject e) (from e) (to e)
          (snippet e) (timestamp e) (processed e) false (analysis e) 0.

(** A step that changes message records only in their sync flag and
    [updatedAt]. *)
Definition SyncOnly (w w' : World) : Prop :=
  map unmarked (emails w') = map unmarked (emails w).

(** The query of [batchAssignLabels]. *)
Definition assignQuery (o : Options) : MongoDatabase.EmailQuery :=
  MongoDatabase.mkEmailQuery (Some true) None (Some (numOr (o_batchSize o) 50)).

(** The records a run of [batchAssignLabels] selects in world [w]. *)
Definition selected (o : Options) (w : World) : list Email :=
  MongoDatabase.selectEmails (o_userId o) (assignQuery o) (emails w).

End AssignSpec.

Module GuardSpec.

(** The steps of the credential guard among the events of a trace: the
    invocations of the guarded operation and the refresh attempts. *)
Definition isGuardStep (ev : Event) : bool :=
  match ev with
  | EvOperation | EvRefreshAccessToken => true
  | _ => false
  end.

Definition guardSteps (evs : list Event) : list Event := List.filter isGuardStep evs.

(** An operation that neither refreshes the credential itself nor goes
    through the guard again. *)
Definition plainOperation {A} (operation : M A) : Prop :=
  forall env w, exists evs,
    trace (snd (operation env w)) = trace w ++ evs /\ guardSteps evs = [].

(** The world in which the first attempt runs: the credentials of the
    session installed on the client. *)
Definition firstAttempt (w : World) : World :=
  emit EvOperation
    (set_oauth (mkCredentials (s_accessToken (reqUser w)) (s_refreshToken (reqUser w))) w).

(** The credentials installed before the retry. *)
Definition refreshed (c : RefreshedCredentials) (w : World) : Credentials :=
  mkCredentials (rc_access_token c)
                (strOr (rc_refresh_token c) (s_refreshToken (reqUser w))).

(** The world in which the retry runs, from the world [w] left by the
    persisting of the new tokens. *)
Definition retryAttempt (c : RefreshedCredentials) (w : World) : World :=
  emit EvOperation
    (set_oauth (refreshed c w)
       (set_reqUser (mkSession (profile_id (reqUser w)) (rc_access_token c)
                               (s_refreshToken (reqUser w))) w)).

(** The answer that asks the user to log in again. *)
Definition requiresReauth {A} (out : Outcome (Server.Reply A)) : Prop :=
  exists r, out = Return (Server.Sent r) /\ Server.status r = 401 /\
            Server.body r !! "requiresReauth" = Some (JBool true).

End GuardSpec.

(** Concrete environments and worlds on which the properties are run. *)
Module Scenario.

Definition user1 : jsstring := str "user1".

(** [toLowerCase] on ASCII letters, enough for the subjects used here. *)
Definition asciiLower (s : jsstring) : jsstring :=
  map (fun c => if ((65 <=? c) && (c <=? 90))%N then (c + 32)%N else c) s.

(** A calm environment: the clock advances one millisecond per step, the
    store is reachable, the provider and the classifier answer. *)
Definition calmEnv : Env :=
  mkEnv (fun n => Z.of_nat n)
        (fun _ => None)
        (fun _ => str "k3x9q2m1z")
        asciiLower
        (fun _ id => Return (mkMessageData id (str "t-" ++ id) (Some (str "Team meeting"))
                                          (Some (str "boss@example.com")) None (Some 1000)
                                          (Some (str "see you at ten"))))
        (fun _ labelName => Return (str "Label_" ++ labelName))
        (fun _ _ _ => Return tt)
        (fun _ _ _ _ => Return (<["category" := JStr (str "Work")]>
                                (<["sentiment" := JStr (str "positive")]>
                                 (<["suggestedLabel" := JStr (str "Work")]> ∅))))
        (fun _ => Return ∅)
        (fun _ => Return (mkRefreshed (str "access-2") None 7200000)).

(** The classifier answers with a label that has a tab in it. *)
Definition tabbedLabel : jsstring := [81; 51; 9; 112; 108; 97; 110; 115]%N.

Definition tabEnv : Env :=
  mkEnv (clock calmEnv) (dbFault calmEnv) (random calmEnv) (toLowerCase calmEnv)
        (gmailGet calmEnv) (gmailCreateLabel calmEnv) (gmailModify calmEnv)
        (fun _ _ _ _ => Return (<["category" := JStr (str "Work")]>
                                (<["suggestedLabel" := JStr tabbedLabel]> ∅)))
        (geminiOrganize calmEnv) (refreshAccessToken calmEnv).

Definition emptyWorld : World :=
  mkWorld [] [] [] [] [] None (mkSession user1 (str "access-1") (str "refresh-1")) [] [] 0.

(** The access token has expired: the first listing call is refused with
    an authorization error, the next one is served. *)
Definition onePage : ListPage := mkListPage [str "m1"] false.

Definition expiredWorld : World :=
  mkWorld [] [] [] []
          [mkUser user1 (str "access-1") (str "refresh-1") 3600000 0]
          None (mkSession user1 (str "access-1") (str "refresh-1"))
          [Throw (mkError (Some 401) (str "Invalid Credentials")); Return onePage]
          [] 0.

Definition processor : BatchProcessor.Processor :=
  BatchProcessor.mkProcessor (EnhancedGeminiAnalyzer.constructor None (Some (str "true"))).

Definition tokens : Credentials := mkCredentials (str "access-1") (str "refresh-1").

Definition noOptions : Options := mkOptions user1 None None None.

(** The id of the first batch created in [calmEnv] from a world at step 0. *)
Definition firstBatch : jsstring := BatchSpec.nextBatchId calmEnv emptyWorld.

(** A ['createLabels'] job has been created in the empty world. *)
Definition createdWorld : World :=
  snd (BatchProcessor.createBatch user1 (str "createLabels") noOptions calmEnv emptyWorld).

(** The provider refuses the message listing twice in a row. *)
Definition quotaError : JSError := Error (str "Quota exceeded").
Definition backendError : JSError := Error (str "Backend Error").

Definition outageWorld : World :=
  mkWorld [] [] [] [] [] None (mkSession user1 (str "access-1") (str "refresh-1"))
          [Throw quotaError; Throw backendError] [] 0.

(** A ['fetchEmails'] job has been created in that world. *)
Definition outageCreated : World :=
  snd (BatchProcessor.createBatch user1 (str "fetchEmails") noOptions calmEnv outageWorld).

(** One processed, unsynced email whose label exists: a ['fullProcess']
    job over it. *)
Definition workAnalysis : Analysis :=
  mkAnalysis (JStr (str "Work related")) (str "Work") (JStr (str "Team meeting"))
             (str "neutral") (str "Work").

Definition inboxWorld : World :=
  mkWorld [ mkEmail (str "m0") user1 (str "t0") (str "Team meeting") (str "boss@example.com")
                    [] (str "see you at ten") 900 true false (Some workAnalysis) 0 ]
          [ mkLabel user1 (str "Work") (str "Label_7") 0 true 0 ]
          [] [] [] None (mkSession user1 (str "access-1") (str "refresh-1"))
          [Return (mkListPage [str "m1"; str "m2"] false)] [] 0.

Definition fullCreated : World :=
  snd (BatchProcessor.createBatch user1 (str "fullProcess") noOptions calmEnv inboxWorld).

(** The calm environment with the store unreachable at step [n], and
    only then. *)
Definition storeDown : JSError := Error (str "connection closed").

Definition faultAt (n : nat) : Env :=
  mkEnv (clock calmEnv) (fun k => if Nat.eqb k n then Some storeDown else None)
        (random calmEnv) (toLowerCase calmEnv)
        (gmailGet calmEnv) (gmailCreateLabel calmEnv) (gmailModify calmEnv)
        (gemini calmEnv) (geminiOrganize calmEnv) (refreshAccessToken calmEnv).

(** The world in which the failed listing of [outageCreated] is caught,
    and the calm environment with the store unreachable when the failure
    record is written. *)
Definition caughtWorld : World :=
  snd (BatchProcessor.executeBatch_try processor firstBatch tokens calmEnv outageCreated).

Definition lostRecordEnv : Env := faultAt (S (S (steps caughtWorld))).

(** An ['analyzeEmails'] job has been created in the empty world, and the
    calm environment with the store unreachable when the job reads the
    messages. *)
Definition analyzeCreated : World :=
  snd (BatchProcessor.createBatch user1 (str "analyzeEmails") noOptions calmEnv emptyWorld).

Definition unreadableEnv : Env := faultAt (4 + steps analyzeCreated).

End Scenario.

Module SelectSpec.

(** [a] is at least as recent as [b]. *)
Definition newer (a b : Email) : Prop := timestamp b <= timestamp a.

(** A list of message records from the most recent to the oldest. *)
Definition newestFirst (l : list Email) : Prop := StronglySorted newer l.

(** The records of [userId] that a query asks for. *)
Definition matching (userId : jsstring) (q : MongoDatabase.EmailQuery) (w : World)
  : list Email :=
  List.filter (MongoDatabase.matchesQuery userId q) (emails w).

(** The number of records a query asks for at most. *)
Definition bound (q : MongoDatabase.EmailQuery) : nat :=
  Z.abs_nat (numOr (MongoDatabase.q_limit q) 50).

(** A query whose limit is not negative. *)
Definition plainLimit (q : MongoDatabase.EmailQuery) : Prop :=
  0 <= numOr (MongoDatabase.q_limit q) 50.

End SelectSpec.

(** [PostAt env R P m]: the same as [Post R P m], in the one environment
    [env]; for what holds only while the store is reachable or the
    provider answers. *)
Definition PostAt {A} (env : Env) (R : World -> World -> Prop) (P : A -> Prop) (m : M A)
  : Prop :=
  forall w, R w (snd (m env w)) /\ forall a, fst (m env w) = Return a -> P a.

Module BudgetSpec.

Definition isClassifierCall (ev : Event) : bool :=
  match ev with
  | EvGemini _ _ _ => true
  | _ => false
  end.

(** How many requests to the classifier a trace holds. *)
Definition classifierCalls (evs : list Event) : nat :=
  length (List.filter isClassifierCall evs).

(** The key under which the analyzer files its requests. *)
Definition geminiKey (userId : jsstring) : jsstring :=
  RateSpec.rateKey userId (str "gemini").

(** Between [w] and [w'] every request to the classifier for [userId] was
    recorded by the limiter, and the other way round. *)
Definition accounted (userId : jsstring) (w w' : World) : Prop :=
  (classifierCalls (trace w') + RateSpec.keyCount (geminiKey userId) w
   = classifierCalls (trace w) + RateSpec.keyCount (geminiKey userId) w')%nat.

(** What a window that began at step [a] guarantees of a world: every
    recorded request of the user was stamped inside it, and there are at
    most ten of them. *)
Definition inBudget (env : Env) (userId : jsstring) (a : nat) (w : World) : Prop :=
  (a <= steps w)%nat /\
  RateSpec.stampedFrom env (geminiKey userId) a w /\
  (RateSpec.keyCount (geminiKey userId) w <= 10)%nat.

(** A run that, if it ends before step [b], stays in budget and accounts
    for every request. *)
Definition Budgeted (env : Env) (userId : jsstring) (a b : nat) (w w' : World) : Prop :=
  (steps w <= steps w')%nat /\
  ((steps w' <= b)%nat -> inBudget env userId a w ->
   inBudget env userId a w' /\ accounted userId w w').

(** Between [w] and [w1] the limiter has filed one call of the analyzer
    for [userId], and nothing else. *)
Definition filed (userId : jsstring) (w w1 : World) : Prop :=
  exists stamp expires,
    rateLimits w1 = rateLimits w ++ [mkRateDoc (geminiKey userId) stamp expires].

(** The store fails while the limiter, called in world [w], counts the
    calls of the window or files the new one. *)
Definition limiterFault (env : Env) (w : World) : Prop :=
  dbFault env (S (steps w)) <> None \/ dbFault env (4 + steps w)%nat <> None.

End BudgetSpec.

Module AnalyzeSpec.

(** The entries of [results] that report a success, and those that
    report a failure. *)
Definition successes (rs : list EnhancedGeminiAnalyzer.AnalysisOutcome) : nat :=
  length (List.filter EnhancedGeminiAnalyzer.success rs).

Definition failures (rs : list EnhancedGeminiAnalyzer.AnalysisOutcome) : nat :=
  length (List.filter (fun r => negb (EnhancedGeminiAnalyzer.success r)) rs).

(** What the entries pushed for [n] messages look like: one success each,
    at most one failure each, and no failure while the store is
    reachable. *)
Definition entriesFor (env : Env) (n : nat)
    (rs : list EnhancedGeminiAnalyzer.AnalysisOutcome) : Prop :=
  successes rs = n /\ (failures rs <= n)%nat /\ (Reliable env -> failures rs = 0%nat).

(** The query of the processor's [batchAnalyzeEmails]. *)
Definition analyzeQuery (o : Options) : MongoDatabase.EmailQuery :=
  MongoDatabase.mkEmailQuery (Some false) None (Some (numOr (o_limit o) 100)).

(** The records a run of [batchAnalyzeEmails] selects in world [w]. *)
Definition selected (o : Options) (w : World) : list Email :=
  MongoDatabase.selectEmails (o_userId o) (analyzeQuery o) (emails w).

End AnalyzeSpec.

(** More worlds on which the properties are run. *)
Module Cases.
Import Scenario.

(** Twelve unread messages of [user1], not yet analysed. *)
Definition unread (i : nat) : Email :=
  mkEmail (str "u" ++ numberToString (Z.of_nat i)) user1 (str "t") (str "Invoice due")
          (str "billing@example.com") [] (str "your invoice") (Z.of_nat i)
          false false None 0.

Definition unreadWorld : World :=
  mkWorld (map unread (seq 0 12)) [] [] [] [] None
          (mkSession user1 (str "access-1") (str "refresh-1")) [] [] 0.

(** Five messages of two users, some of them processed, in no order of
    time. *)
Definition stored (id userId : jsstring) (time : Z) (done : bool) : Email :=
  mkEmail id userId (str "t") (str "Team meeting") (str "boss@example.com") []
          (str "see you at ten") time done false None 0.

Definition user2 : jsstring := str "user2".

Definition mixedWorld : World :=
  mkWorld [ stored (str "a") user1 5 true; stored (str "b") user1 9 true;
            stored (str "c") user1 8 false; stored (str "d") user2 99 false;
            stored (str "e") user1 7 true ]
          [] [] [] [] None (mkSession user1 (str "access-1") (str "refresh-1")) [] [] 0.

(** The classifier answers the organization request with a text where a
    list is expected, a zero, and one list. *)
Definition looseAnswer : gmap string JSValue :=
  <["renameSuggestions" := JStr (str "later")]>
    (<["mergeSuggestions" := JNum 0]>
     (<["newLabels" := JArr [JStr (str "Travel")]]> ∅)).

Definition looseEnv : Env :=
  mkEnv (clock calmEnv) (dbFault calmEnv) (random calmEnv) (toLowerCase calmEnv)
        (gmailGet calmEnv) (gmailCreateLabel calmEnv) (gmailModify calmEnv)
        (gemini calmEnv) (fun _ => Return looseAnswer) (refreshAccessToken calmEnv).

End Cases.

Module OrganizeSpec.

(** The four members of a suggestions object. *)
Definition members : list string :=
  ["mergeSuggestions"; "hierarchySuggestions"; "renameSuggestions"; "newLabels"]%string.

(** The suggestions object with [value name] under each of the four
    names. *)
Definition suggestionsOf (value : string -> JSValue) : JSValue :=
  JObj (map (fun name => (name, value name)) members).

(** Four empty lists. *)
Definition noSuggestions : JSValue := suggestionsOf (fun _ => JArr []).

(** What is kept of a member of the classifier's answer: the value as it
    is when it is truthy, whatever its kind, and an empty list
    otherwise. *)
Definition kept (answer : gmap string JSValue) (name : string) (value : JSValue) : Prop :=
  (truthy (answer !! name) = true /\ answer !! name = Some value) \/
  (truthy (answer !! name) = false /\ value = JArr []).

(** The classifier's answer to the request of a step that starts in
    world [w]: there is one when the two reads of the store that come
    first succeed and the classifier, asked next, does not fail. *)
Definition answered (env : Env) (w : World) : option (gmap string JSValue) :=
  match dbFault env (steps w), dbFault env (S (steps w)),
        geminiOrganize env (S (S (steps w))) with
  | None, None, Return answer => Some answer
  | _, _, _ => None
  end.

End OrganizeSpec.

Module JobSpec.

(** The operation names [executeBatch] knows. *)
Definition knownOperations : list string :=
  ["fetchEmails"; "analyzeEmails"; "createLabels"; "assignLabels"; "organizeLabels";
   "fullProcess"]%string.

Definition knownOperation (v : option JSValue) : bool :=
  existsb (BatchProcessor.operationIs v) knownOperations.

(** [d'] is the document [d] after a run on job [bid]: the same job, for
    the same user with the same options, and the very same document if
    it is another job. *)
Definition sameJob (bid : jsstring) (d d' : BatchLog) : Prop :=
  batchId d' = batchId d /\ b_userId d' = b_userId d /\ options d' = options d /\
  (batchId d <> bid -> d' = d).

(** A run on job [bid] that keeps to it: the jobs of the store stay the
    same jobs in the same order, the others untouched; the OAuth client,
    the session and the users are left alone. *)
Definition Confined (bid : jsstring) (w w' : World) : Prop :=
  oauth w' = oauth w /\ reqUser w' = reqUser w /\ users w' = users w /\
  Forall2 (sameJob bid) (batchLogs w) (batchLogs w').

(** The credentials of a stored user. *)
Definition storedTokens (user : User) : Credentials :=
  mkCredentials (accessToken user) (refreshToken user).

End JobSpec.

Module RouteCases.
Import Scenario.

(** A ['fetchEmails'] job has been created for [user1], whose access
    token has expired. *)
Definition expiredCreated : World :=
  snd (BatchProcessor.createBatch user1 (str "fetchEmails") noOptions calmEnv expiredWorld).

(** Another user's session. *)
Definition otherSession : Session := mkSession (str "user2") (str "access-9") (str "refresh-9").

End RouteCases.

Module FetchSpec.

(** The progress a write to job [bid] reports, if it reports any. *)
Definition progressWritten (bid : jsstring) (ev : Event) : list Z :=
  match ev with
  | EvBatchUpdate b updateData =>
      if jsstring_eqb b bid then
        match updateData !! "emailsProcessed" with
        | Some (JNum n) => [n]
        | _ => []
        end
      else []
  | _ => []
  end.

(** The values of [emailsProcessed] written for job [bid], in order. *)
Definition progressWrites (bid : jsstring) (evs : list Event) : list Z :=
  flat_map (progressWritten bid) evs.

Definition isListing (ev : Event) : bool :=
  match ev with EvGmailList => true | _ => false end.

Definition isGet (ev : Event) : bool :=
  match ev with EvGmailGet _ => true | _ => false end.

(** How many pages were asked for, and how many messages. *)
Definition listings (evs : list Event) : nat := length (List.filter isListing evs).
Definition requested (evs : list Event) : nat := length (List.filter isGet evs).

(** What the events of a fetch for [size] messages that started at count
    [t] and ended at count [n] look like: at least one page was asked for;
    after each page the progress was written, never going down, the last
    write being [n]; every page but the last left the count below [size];
    and [n] exceeds [t] by at most the number of messages asked for. *)
Definition fetched (bid : jsstring) (size t n : Z) (evs : list Event) : Prop :=
  (1 <= listings evs)%nat /\
  length (progressWrites bid evs) = listings evs /\
  StronglySorted Z.le (progressWrites bid evs) /\
  Forall (fun v => t <= v) (progressWrites bid evs) /\
  last (progressWrites bid evs) = Some n /\
  Forall (fun v => v < size) (removelast (progressWrites bid evs)) /\
  t <= n <= t + Z.of_nat (requested evs).

(** A listing script without failures. *)
Definition served (script : list (Outcome ListPage)) : Prop :=
  Forall (fun page => exists p, page = Return p) script.

End FetchSpec.

Module LabelRun.

(** The query of [batchCreateLabels]: the processed records of the user,
    with the default limit. *)
Definition labelQuery : MongoDatabase.EmailQuery :=
  MongoDatabase.mkEmailQuery (Some true) None None.

(** The records a run of [batchCreateLabels] looks at in world [w]. *)
Definition considered (o : Options) (w : World) : list Email :=
  MongoDatabase.selectEmails (o_userId o) labelQuery (emails w).

(** The label names it wants to exist. *)
Definition wanted (o : Options) (w : World) : list jsstring :=
  BatchProcessor.collectLabels (considered o w).

(** Whether a name has no record yet. *)
Definition unresolved (userId : jsstring) (w : World) (labelName : jsstring) : bool :=
  match LabelSpec.resolved userId labelName w with
  | Some _ => false
  | None => true
  end.

(** The names among [names] that have no record yet. *)
Definition missing (userId : jsstring) (w : World) (names : list jsstring) : list jsstring :=
  List.filter (unresolved userId w) names.

(** The mail provider creates every label it is asked for. *)
Definition providerCreates (env : Env) : Prop :=
  forall n labelName, exists id, gmailCreateLabel env n labelName = Return id.

(** The label a record asks for, if it asks for one. *)
Definition labelOf (e : Email) : option jsstring :=
  match analysis e with
  | Some a => match suggestedLabel a with [] => None | _ :: _ => Some (suggestedLabel a) end
  | None => None
  end.

End LabelRun.

Module AssignRun.

(** The mail provider applies every label it is asked to apply. *)
Definition providerModifies (env : Env) : Prop :=
  forall n id labelId, gmailModify env n id labelId = Return tt.

(** The records a run of [batchAssignLabels] tries to label. *)
Definition unsynced (o : Options) (w : World) : list Email :=
  List.filter (fun email => negb (synced email)) (AssignSpec.selected o w).

(** The request the run makes for a record whose label has a record. *)
Definition modifyEvent (userId : jsstring) (w : World) (e : Email) : list Event :=
  match LabelRun.labelOf e with
  | Some labelName =>
      match LabelSpec.resolved userId labelName w with
      | Some l => [EvGmailModify (gmailId e) (gmailLabelId l)]
      | None => []
      end
  | None => []
  end.

(** The record [x'] is the record [x] after the messages [gids] have
    been marked: synced if it was or if it is one of them, and otherwise
    the same but for [updatedAt]. *)
Definition marked (gids : list jsstring) (x x' : Email) : Prop :=
  AssignSpec.unmarked x' = AssignSpec.unmarked x /\
  synced x' = synced x || existsb (jsstring_eqb (gmailId x)) gids.

End AssignRun.

Module AnalyzeRun.

(** The record [x'] is the record [x] after the messages [gids] have
    been analysed: if it is one of them it is processed and carries a
    well-formed analysis, and is otherwise the same but for [updatedAt];
    if it is not, it is the same. *)
Definition analysed (categories : list jsstring) (gids : list jsstring) (x x' : Email)
  : Prop :=
  (existsb (jsstring_eqb (gmailId x)) gids = true ->
   exists a now, x' = MongoDatabase.setAnalysis a now x /\
                 ClassifySpec.wellFormed categories a) /\
  (existsb (jsstring_eqb (gmailId x)) gids = false -> x' = x).

(** A run that analyses the messages [gids] of a store in which message
    ids are pairwise different. *)
Definition Analysed (categories : list jsstring) (gids : list jsstring) (w w' : World)
  : Prop :=
  NoDup (map gmailId (emails w)) ->
  Forall2 (analysed categories gids) (emails w) (emails w').

End AnalyzeRun.

Module ValidateSpec.

(** The object a classifier sends when it answers with the fields of
    [a]. *)
Definition answerOf (a : Analysis) : gmap string JSValue :=
  <["purpose" := purpose a]>
    (<["category" := JStr (category a)]>
       (<["summary" := summary a]>
          (<["sentiment" := JStr (sentiment a)]>
             (<["suggestedLabel" := JStr (suggestedLabel a)]> ∅)))).

(** A string that starts with a character that is not whitespace. *)
Definition startsClean (s : jsstring) : Prop :=
  match s with
  | c :: _ => is_whitespace c = false
  | [] => False
  end.

(** A label the clean-up has nothing to do on: only characters it keeps,
    no whitespace at either end, at most thirty characters. *)
Definition tidy (s : jsstring) : Prop :=
  Forall (fun c => EnhancedGeminiAnalyzer.keptByReplace c = true) s /\
  startsClean s /\ startsClean (rev s) /\ (length s <= 30)%nat.

End ValidateSpec.

Module StoreSpec.

(** The unique indexes of the store: one message record per
    [(gmailId, userId)], one label record per [(userId, name)], one job
    per [batchId]. *)
Definition uniqueKeys (w : World) : Prop :=
  NoDup (map AssignSpec.emailKey (emails w)) /\
  NoDup (map LabelSpec.labelKey (labels w)) /\
  NoDup (map batchId (batchLogs w)).

(** A step that keeps the unique indexes. *)
Definition KeepsKeys (w w' : World) : Prop := uniqueKeys w -> uniqueKeys w'.

End StoreSpec.

Module PipelineCases.
Import Scenario.

(** Fifty-one analysed messages of [user1], none synced yet; the oldest
    asks for a label of its own. *)
Definition analysedMessage (i : nat) : Email :=
  mkEmail (str "p" ++ numberToString (Z.of_nat i)) user1 (str "t") (str "Team meeting")
          (str "boss@example.com") [] (str "see you at ten") (Z.of_nat i) true false
          (Some (mkAnalysis (JStr (str "Work related")) (str "Work") (JStr (str "Team meeting"))
                            (str "neutral")
                            (match i with O => str "Archive" | _ => str "Work" end)))
          0.

Definition crowdedWorld : World :=
  mkWorld (map analysedMessage (seq 0 51)) [] [] [] [] None
          (mkSession user1 (str "access-1") (str "refresh-1")) [] [] 0.

End PipelineCases.
(* ===================================================================== *)
(** ** Properties                                                         *)
(* ===================================================================== *)


(** *** The embedding on small inputs *)

Example includes_examples :
  includes (str "hello world") (str "o w") = true /\
  includes (str "hello") (str "lo!") = false /\
  includes (str "abc") [] = true.
Proof. repeat split; reflexivity. Qed.

Example trim_example : trim (str "  a b  ") = str "a b".
Proof. reflexivity. Qed.

Example cleanLabel_examples :
  EnhancedGeminiAnalyzer.cleanLabel (str "  Finance/Bills & Co. (2024)!  ")
    = str "Finance/Bills  Co 2024" /\
  EnhancedGeminiAnalyzer.cleanLabel (str "abcdefghijklmnopqrstuvwxyz0123456789")
    = str "abcdefghijklmnopqrstuvwxyz0123".
Proof. split; reflexivity. Qed.

Example fallbackAnalysis_investment :
  EnhancedGeminiAnalyzer.fallbackAnalysis Scenario.asciiLower
    (str "Your SIP payment is due") (str "alerts@fund.example") []
  = mkAnalysis (JStr (str "Investment notification")) (str "Finance/Investments")
               (JStr (str "Your SIP payment is due")) (str "neutral") (str "Investments").
Proof. reflexivity. Qed.

Example fallbackAnalysis_snippet_only :
  category (EnhancedGeminiAnalyzer.fallbackAnalysis Scenario.asciiLower
              (str "hello") (str "x") (str "your order shipped")) = str "Other" /\
  category (EnhancedGeminiAnalyzer.fallbackAnalysis Scenario.asciiLower
              (str "hello") (str "x") (str "from your bank")) = str "Finance/Banking".
Proof. split; reflexivity. Qed.

Example validateAnalysis_number_label :
  EnhancedGeminiAnalyzer.validateAnalysis (EnhancedGeminiAnalyzer.constructor None None)
    (<["suggestedLabel" := JNum 5]> ∅)
  = Throw (Error (str "validated.suggestedLabel.replace is not a function")).
Proof. reflexivity. Qed.

Example validateAnalysis_off_set_category :
  EnhancedGeminiAnalyzer.validateAnalysis (EnhancedGeminiAnalyzer.constructor None None)
    (<["category" := JStr (str "Spam")]> (<["suggestedLabel" := JStr (str "!!!")]> ∅))
  = Return (mkAnalysis (JStr (str "Unknown purpose")) (str "Other")
                       (JStr (str "No summary available")) (str "neutral") (str "General")).
Proof. reflexivity. Qed.

Example selectEmails_newest_first :
  map gmailId
    (MongoDatabase.selectEmails Scenario.user1 (MongoDatabase.mkEmailQuery None None (Some 3))
       [ mkEmail (str "a") Scenario.user1 [] [] [] [] [] 5 true false None 0;
         mkEmail (str "b") Scenario.user1 [] [] [] [] [] 9 true false None 0;
         mkEmail (str "c") Scenario.user1 [] [] [] [] [] 5 true false None 0;
         mkEmail (str "d") (str "user2") [] [] [] [] [] 99 true false None 0;
         mkEmail (str "e") Scenario.user1 [] [] [] [] [] 7 true false None 0 ])
  = [str "b"; str "e"; str "a"].
Proof. reflexivity. Qed.

Example first_batch_id : Scenario.firstBatch = str "batch_0_k3x9q2m1z".
Proof. reflexivity. Qed.

Example batchCreate_too_large :
  fst (Server.batchCreate (str "fetchEmails") (mkOptions [] (Some 501) None None)
         Scenario.calmEnv Scenario.emptyWorld)
  = Return (Server.mkResponse 400
      {[ "error" := JStr (str "Batch size too large. Maximum for fetchEmails is 500") ]}).
Proof. reflexivity. Qed.
(** *** RateLimiter: [MongoDatabase.checkRateLimit] *)

Lemma filter_none {A} (f : A -> bool) (l : list A) :
  (forall x, In x l -> f x = false) -> List.filter f l = [].
Proof.
  induction l as [| x l IH]; intros H; [reflexivity |]. cbn.
  rewrite (H x) by (left; reflexivity). apply IH. intros y Hy. apply H. right. exact Hy.
Qed.

Section RateLimiter.
Import MongoDatabase RateSpec.

Variable env : Env.

Lemma checkRateLimit_denied w u op :
  dbFault env (S (steps w)) = None ->
  10 <= windowCount (rateKey u op) (clock env (steps w)) w ->
  checkRateLimit u op env w = (Return false, tick (tick w)).
Proof.
  intros Hdb Hc. unfold checkRateLimit, tryCatch, bind, countDocuments, bind,
    Date_now, dbOp, gets. cbn. rewrite Hdb.
  unfold windowCount, rateKey in Hc.
  cbn. destruct (10 <=? _) eqn:E; [reflexivity | lia].
Qed.

Lemma checkRateLimit_allowed w u op :
  dbFault env (S (steps w)) = None ->
  dbFault env (4 + steps w)%nat = None ->
  windowCount (rateKey u op) (clock env (steps w)) w < 10 ->
  exists w', checkRateLimit u op env w = (Return true, w') /\
    rateLimits w' = rateLimits w ++
      [mkRateDoc (rateKey u op) (clock env (2 + steps w)%nat)
                 (clock env (3 + steps w)%nat + 60000)] /\
    steps w' = (5 + steps w)%nat /\ trace w' = trace w /\
    emails w' = emails w /\ labels w' = labels w /\ batchLogs w' = batchLogs w.
Proof.
  intros Hdb Hdb' Hc. unfold checkRateLimit, tryCatch, bind, countDocuments, bind,
    Date_now, dbOp, gets. cbn. rewrite Hdb.
  unfold windowCount, rateKey in Hc. cbn.
  destruct (10 <=? _) eqn:E; [lia |].
  unfold insertOne_rateLimits, bind, dbOp, modify, ret. cbn. cbn in Hdb'.
  rewrite Hdb'. eexists; split; [reflexivity |]. cbn. repeat split; reflexivity.
Qed.

(** The limiter never raises, and it denies only when the store answered
    and the ceiling is met; a denial records nothing. *)
Lemma checkRateLimit_fail_open w u op :
  exists b w', checkRateLimit u op env w = (Return b, w') /\
    (b = false ->
       rateLimits w' = rateLimits w /\ dbFault env (S (steps w)) = None /\
       10 <= windowCount (rateKey u op) (clock env (steps w)) w).
Proof.
  unfold checkRateLimit, tryCatch, bind, countDocuments, bind, Date_now, dbOp, gets.
  cbn. destruct (dbFault env (S (steps w))) eqn:Hdb.
  - unfold ret. eexists _, _; split; [reflexivity | discriminate].
  - destruct (10 <=? _) eqn:E.
    + unfold ret. eexists _, _; split; [reflexivity |]. intros _.
      apply Z.leb_le in E. unfold windowCount, rateKey. cbn in E |- *.
      repeat split; try reflexivity. exact E.
    + unfold insertOne_rateLimits, bind, dbOp, modify, ret. cbn.
      destruct (dbFault env (S (S (S (S (steps w)))))); cbn;
        eexists _, _; (split; [reflexivity | discriminate]).
Qed.


Hypothesis Hrel : Reliable env.

Local Abbreviation stampedFrom := (RateSpec.stampedFrom env).

Lemma windowCount_within k a b w :
  withinWindow env a b -> stampedFrom k a w -> (a <= steps w < b)%nat ->
  windowCount k (clock env (steps w)) w = Z.of_nat (keyCount k w).
Proof.
  intros Hwin Hst Hs. unfold windowCount, keyCount. do 2 f_equal.
  apply filter_ext_in. intros d Hd. unfold inWindow.
  destruct (jsstring_eqb (key d) k) eqn:E; [| reflexivity]. cbn.
  apply bool_decide_eq_true in E. destruct (Hst d Hd E) as (i & Hi & ->).
  apply Z.leb_le. apply Hwin; lia.
Qed.

Lemma checkRateLimit_allowed_within k u op a b w :
  k = rateKey u op ->
  withinWindow env a b -> stampedFrom k a w -> (a <= steps w)%nat ->
  (steps w + 5 <= b)%nat -> (keyCount k w < 10)%nat ->
  exists w', checkRateLimit u op env w = (Return true, w') /\
    steps w' = (5 + steps w)%nat /\ stampedFrom k a w' /\
    keyCount k w' = S (keyCount k w).
Proof.
  intros -> Hwin Hst Ha Hb Hc.
  destruct (checkRateLimit_allowed w u op) as (w' & Hrun & Hrl & Hsteps & _).
  - apply Hrel.
  - apply Hrel.
  - rewrite (windowCount_within _ a b); [lia | assumption.. | lia].
  - exists w'. split; [exact Hrun |]. split; [exact Hsteps |]. split.
    + intros d Hd Hk. rewrite Hrl in Hd. apply in_app_or in Hd as [Hd | [<- | []]].
      * destruct (Hst d Hd Hk) as (i & Hi & E). exists i. split; [lia | exact E].
      * exists (2 + steps w)%nat. split; [lia | reflexivity].
    + unfold keyCount. rewrite Hrl, List.filter_app, List.length_app. cbn.
      unfold jsstring_eqb. rewrite bool_decide_eq_true_2 by reflexivity. cbn. lia.
Qed.

(** From a store that holds [10 - n] calls of the window, [n] calls pass
    and the next one is denied. *)
Lemma checkRateLimit_ceiling k u op a b n : forall w,
  k = rateKey u op ->
  withinWindow env a b -> stampedFrom k a w -> (a <= steps w)%nat ->
  (steps w + 5 * n + 2 <= b)%nat -> (keyCount k w + n = 10)%nat ->
  exists w', repeatM (S n) (checkRateLimit u op) env w
             = (Return (replicate n true ++ [false]), w') /\
             keyCount k w' = 10%nat.
Proof.
  induction n as [| n IH]; intros w Hk Hwin Hst Ha Hb Hc.
  - exists (tick (tick w)). cbn [repeatM replicate app]. unfold bind at 1.
    rewrite checkRateLimit_denied.
    + split; [reflexivity |]. unfold keyCount in *. cbn. lia.
    + apply Hrel.
    + subst k. rewrite (windowCount_within _ a b); [lia | assumption.. | lia].
  - destruct (checkRateLimit_allowed_within k u op a b w) as (w1 & Hrun & Hs1 & Hst1 & Hc1);
      try assumption; try lia.
    destruct (IH w1) as (w' & Hrest & Hfin); try assumption; try lia.
    exists w'. split; [| exact Hfin].
    change (repeatM (S (S n)) (checkRateLimit u op))
      with (let* a := checkRateLimit u op in
            let* rest := repeatM (S n) (checkRateLimit u op) in ret (a :: rest)).
    unfold bind at 1. rewrite Hrun. unfold bind at 1. rewrite Hrest. reflexivity.
Qed.

(** Once every recorded call of the key is older than the window, the
    next call passes. *)
Lemma checkRateLimit_after_window u op w :
  (forall d, In d (rateLimits w) -> key d = rateKey u op ->
             r_timestamp d < clock env (steps w) - 60000) ->
  exists w', checkRateLimit u op env w = (Return true, w').
Proof.
  intros Hold.
  destruct (checkRateLimit_allowed w u op) as (w' & Hrun & _); [apply Hrel.. | | eauto].
  unfold windowCount.
  replace (List.filter _ _) with (@nil RateDoc); [cbn; lia |].
  symmetry. apply filter_none. intros d Hd. unfold inWindow.
  destruct (jsstring_eqb (key d) (rateKey u op)) eqn:E; [| reflexivity]. cbn.
  apply bool_decide_eq_true in E. apply Z.leb_gt. apply Hold; assumption.
Qed.

End RateLimiter.

(** C4. [checkRateLimit] never raises and denies only when the store
    answered and the window already holds ten calls of the key, in which
    case it records nothing (so every failure of the store allows the
    call).  With the store reachable: it checks the count of the window
    before recording, denies at ten and otherwise records the call and
    allows it; from a store without calls of the key, eleven calls inside
    one window give ten passes and then a denial; and once every recorded
    call of the key is older than the window the next call passes. *)
Theorem checkRateLimit_contract (env : Env) (w : World) (userId operation : jsstring) :
  let k := RateSpec.rateKey userId operation in
  let count := RateSpec.windowCount k (clock env (steps w)) w in
  let run := MongoDatabase.checkRateLimit userId operation env w in
  (exists b w', run = (Return b, w') /\
     (b = false ->
        rateLimits w' = rateLimits w /\ dbFault env (S (steps w)) = None /\ 10 <= count)) /\
  (Reliable env ->
     (10 <= count -> exists w', run = (Return false, w') /\ rateLimits w' = rateLimits w) /\
     (count < 10 ->
        exists w', run = (Return true, w') /\
          rateLimits w' = rateLimits w ++
            [mkRateDoc k (clock env (2 + steps w)%nat) (clock env (3 + steps w)%nat + 60000)]) /\
     ((forall d, In d (rateLimits w) -> key d <> k) ->
      RateSpec.withinWindow env (steps w) (steps w + 52) ->
      exists w', repeatM 11 (MongoDatabase.checkRateLimit userId operation) env w
                 = (Return (replicate 10 true ++ [false]), w')) /\
     ((forall d, In d (rateLimits w) -> key d = k ->
                 r_timestamp d < clock env (steps w) - 60000) ->
      exists w', run = (Return true, w'))).
Proof.
  intros k count run. split; [apply checkRateLimit_fail_open |].
  intros Hrel. repeat split.
  - intros Hc. exists (tick (tick w)). split; [| reflexivity].
    apply checkRateLimit_denied; [apply Hrel | exact Hc].
  - intros Hc.
    destruct (checkRateLimit_allowed env w userId operation) as (w' & Hrun & Hrl & _);
      [apply Hrel.. | exact Hc |]. exists w'. split; assumption.
  - intros Hfresh Hwin.
    destruct (checkRateLimit_ceiling env Hrel k userId operation (steps w) (steps w + 52) 10 w)
      as (w' & Hrun & _); try reflexivity; try assumption; try lia.
    + intros d Hd Hk. destruct (Hfresh d Hd Hk).
    + unfold RateSpec.keyCount. rewrite (filter_none _ (rateLimits w)); [reflexivity |].
      intros d Hd. apply bool_decide_eq_false. apply Hfresh. exact Hd.
    + exists w'. exact Hrun.
  - intros Hold. apply checkRateLimit_after_window; assumption.
Qed.

Lemma checkRateLimit_contract_witness :
  Reliable Scenario.calmEnv /\
  exists w', repeatM 11 (MongoDatabase.checkRateLimit Scenario.user1 (str "gemini"))
               Scenario.calmEnv Scenario.emptyWorld
             = (Return (replicate 10 true ++ [false]), w').
Proof.
  assert (Hrel : Reliable Scenario.calmEnv) by (intros n; reflexivity).
  split; [exact Hrel |].
  destruct (checkRateLimit_contract Scenario.calmEnv Scenario.emptyWorld
              Scenario.user1 (str "gemini")) as [_ H].
  destruct (H Hrel) as (_ & _ & Hseq & _).
  apply Hseq.
  - intros d [].
  - intros i j Hi Hj. cbn. lia.
Defined.

(** *** ClassificationEngine: [EnhancedGeminiAnalyzer.analyzeEmail] *)

Section Classification.
Import MongoDatabase EnhancedGeminiAnalyzer ClassifySpec.

Lemma existsb_eqb_In (x : jsstring) (l : list jsstring) :
  existsb (jsstring_eqb x) l = true -> In x l.
Proof.
  intros H. apply existsb_exists in H as (y & Hy & E).
  apply bool_decide_eq_true in E. subst y. exact Hy.
Qed.

Lemma forallb_labelChar (s : jsstring) :
  forallb labelChar s = true -> Forall (fun c => labelChar c = true) s.
Proof. intros H. apply List.Forall_forall. apply List.forallb_forall. exact H. Qed.

(** A concrete analysis is checked by evaluation. *)
Lemma wellFormed_by_evaluation (categories : list jsstring) (a : Analysis) :
  existsb (jsstring_eqb (category a)) categories = true ->
  existsb (jsstring_eqb (sentiment a)) sentiments = true ->
  forallb labelChar (suggestedLabel a) = true ->
  (0 <? length (suggestedLabel a))%nat && (length (suggestedLabel a) <=? 30)%nat = true ->
  wellFormed categories a.
Proof.
  intros Hc Hs Hl Hn. apply andb_true_iff in Hn as [H0 H30].
  apply Nat.ltb_lt in H0. apply Nat.leb_le in H30.
  repeat split; auto using existsb_eqb_In, forallb_labelChar.
Qed.

Lemma arrayIncludes_In (l : list jsstring) (v : option JSValue) (c : jsstring) :
  arrayIncludes l v = Some c -> In c l.
Proof.
  unfold arrayIncludes. destruct v as [[]|]; try discriminate.
  destruct (existsb _ _) eqn:E; [| discriminate]. intros [= <-].
  apply existsb_eqb_In. exact E.
Qed.

Lemma Forall_trimStart (P : N -> Prop) (s : jsstring) :
  Forall P s -> Forall P (trimStart s).
Proof.
  induction 1 as [| c s Hc Hs IH]; cbn; [constructor |].
  destruct (is_whitespace c); [exact IH | constructor; assumption].
Qed.

Lemma Forall_trim (P : N -> Prop) (s : jsstring) : Forall P s -> Forall P (trim s).
Proof.
  intros H. unfold trim.
  apply Forall_rev, Forall_trimStart, Forall_rev, Forall_trimStart, H.
Qed.

Lemma cleanLabel_chars (s : jsstring) :
  Forall (fun c => labelChar c = true) (cleanLabel s).
Proof.
  unfold cleanLabel, substring0. apply Forall_take, Forall_trim.
  apply List.Forall_forall. intros c Hc. apply List.filter_In in Hc as [_ Hc]. exact Hc.
Qed.

Lemma cleanLabel_length (s : jsstring) : (length (cleanLabel s) <= 30)%nat.
Proof. unfold cleanLabel, substring0. rewrite length_take. lia. Qed.

(** Whatever object the classifier sent, a result that passes
    [validateAnalysis] satisfies the field constraints. *)
Lemma validateAnalysis_wellFormed (this : Analyzer) (a : gmap string JSValue) (v : Analysis) :
  In (str "Other") (VALID_CATEGORIES this) ->
  validateAnalysis this a = Return v ->
  wellFormed (VALID_CATEGORIES this) v.
Proof.
  intros Hother. unfold validateAnalysis.
  destruct (js_or (a !! "suggestedLabel") _) as [| | | label | | |]; try discriminate.
  intros [= <-]. unfold wellFormed. cbn [category sentiment suggestedLabel].
  split; [| split; [| split]].
  - destruct (arrayIncludes _ (a !! "category")) eqn:E; [| exact Hother].
    eapply arrayIncludes_In. exact E.
  - destruct (arrayIncludes _ (a !! "sentiment")) eqn:E.
    + eapply arrayIncludes_In. exact E.
    + unfold sentiments. cbn. auto.
  - destruct (cleanLabel label) eqn:E.
    + apply forallb_labelChar. vm_compute. reflexivity.
    + rewrite <- E. apply cleanLabel_chars.
  - destruct (cleanLabel label) eqn:E.
    + vm_compute. split; lia.
    + rewrite <- E. split; [rewrite E; cbn; lia | apply cleanLabel_length].
Qed.

(** The rule engine is total and every answer it can give satisfies the
    field constraints, whatever [toLowerCase] does. *)
Lemma fallbackAnalysis_wellFormed (this : Analyzer) lower subject from snippet :
  VALID_CATEGORIES this = VALID_CATEGORIES (constructor None None) ->
  wellFormed (VALID_CATEGORIES this) (fallbackAnalysis lower subject from snippet).
Proof.
  intros ->. unfold fallbackAnalysis.
  destruct (existsb _ financialKeywords);
    [destruct (someIncluded investmentKeywords _) |
     destruct (someIncluded workKeywords _);
       [| destruct (someIncluded personalKeywords _);
          [| destruct (someIncluded shoppingKeywords _)]]];
    (destruct (someIncluded positiveWords _);
       [| destruct (someIncluded negativeWords _)]);
    apply wellFormed_by_evaluation; vm_compute; reflexivity.
Qed.

(** [analyzeEmail] always returns, by one of its two paths. *)
Lemma analyzeEmail_paths (this : Analyzer) subject from snippet userId env w :
  exists r w', analyzeEmail this subject from snippet userId env w = (Return r, w') /\
    (r = fallbackAnalysis (toLowerCase env) subject from snippet \/
     exists a, validateAnalysis this a = Return r).
Proof.
  unfold analyzeEmail, tryCatch at 1, bind at 1.
  destruct (checkRateLimit_fail_open env w userId (str "gemini")) as (b & w1 & Hrun & _).
  rewrite Hrun. destruct b; cbn [negb].
  - unfold callGeminiAPI, remote, bind, ask, ret, throw.
    destruct (gemini env (steps w1) subject from snippet) as [a | e].
    + destruct (validateAnalysis this a) as [v | e] eqn:Hv; eauto 6.
    + eauto 6.
  - unfold bind, ask, ret. eauto 6.
Qed.

End Classification.

(** C2 (amended). For every input and every behaviour of the store and of
    the classifier, [analyzeEmail] returns normally, and its result has a
    category of the closed set, one of the three sentiments, and a
    suggested label of one to thirty characters, each an alphanumeric, a
    whitespace character of the class [\s] or ['/']. *)
Theorem analyzeEmail_total_and_wellFormed
    (apiKey useGemini : option jsstring) (subject from snippet userId : jsstring)
    (env : Env) (w : World) :
  let this := EnhancedGeminiAnalyzer.constructor apiKey useGemini in
  exists r w',
    EnhancedGeminiAnalyzer.analyzeEmail this subject from snippet userId env w
      = (Return r, w') /\
    ClassifySpec.wellFormed (EnhancedGeminiAnalyzer.VALID_CATEGORIES this) r.
Proof.
  intros this.
  destruct (analyzeEmail_paths this subject from snippet userId env w)
    as (r & w' & Hrun & Hpath).
  exists r, w'. split; [exact Hrun |].
  destruct Hpath as [-> | [a Hv]].
  - apply fallbackAnalysis_wellFormed. reflexivity.
  - eapply validateAnalysis_wellFormed; [| exact Hv]. vm_compute. tauto.
Qed.

(** C2, as stated, fails: a tab inside the label the classifier sent
    survives the clean-up, and a tab is not a space. *)
Lemma analyzeEmail_label_keeps_tab :
  exists r w',
    EnhancedGeminiAnalyzer.analyzeEmail (EnhancedGeminiAnalyzer.constructor None (Some (str "true")))
      (str "Quarterly plans") (str "boss@example.com") (str "attached") Scenario.user1
      Scenario.tabEnv Scenario.emptyWorld = (Return r, w') /\
    suggestedLabel r = Scenario.tabbedLabel /\
    forallb ClassifySpec.plainLabelChar (suggestedLabel r) = false.
Proof. eexists _, _. split; [vm_compute; reflexivity |]. split; reflexivity. Qed.

(** C6 fails on the code: [analyzeEmail] never reads [USE_GEMINI].  With
    the flag off, the store reachable and the window not full, it still
    records a rate-limit entry and sends a request to the classifier. *)
Theorem analyzeEmail_ignores_USE_GEMINI
    (this : EnhancedGeminiAnalyzer.Analyzer) (subject from snippet userId : jsstring)
    (env : Env) (w : World) :
  EnhancedGeminiAnalyzer.USE_GEMINI this = false ->
  Reliable env ->
  RateSpec.windowCount (RateSpec.rateKey userId (str "gemini")) (clock env (steps w)) w < 10 ->
  exists r w',
    EnhancedGeminiAnalyzer.analyzeEmail this subject from snippet userId env w
      = (Return r, w') /\
    trace w' = trace w ++ [EvGemini subject from snippet] /\
    length (rateLimits w') = S (length (rateLimits w)).
Proof.
  intros _ Hrel Hc.
  destruct (checkRateLimit_allowed env w userId (str "gemini"))
    as (w1 & Hrun & Hrl & _ & Htr & _); [apply Hrel.. | exact Hc |].
  unfold EnhancedGeminiAnalyzer.analyzeEmail, tryCatch at 1, bind at 1.
  rewrite Hrun. cbn [negb].
  unfold EnhancedGeminiAnalyzer.callGeminiAPI, remote, bind, ask, ret, throw.
  assert (Hlen : length (rateLimits w1) = S (length (rateLimits w))).
  { rewrite Hrl, List.length_app. cbn. lia. }
  destruct (gemini env (steps w1) subject from snippet) as [a | e];
    [destruct (EnhancedGeminiAnalyzer.validateAnalysis this a) |];
    eexists _, _; (split; [reflexivity |]); cbn; rewrite Htr; auto.
Qed.

Lemma analyzeEmail_ignores_USE_GEMINI_witness :
  let this := EnhancedGeminiAnalyzer.constructor None (Some (str "false")) in
  EnhancedGeminiAnalyzer.USE_GEMINI this = false /\
  exists r w',
    EnhancedGeminiAnalyzer.analyzeEmail this (str "Team meeting") (str "boss@example.com")
      (str "see you at ten") Scenario.user1 Scenario.calmEnv Scenario.emptyWorld
      = (Return r, w') /\
    trace w' = [EvGemini (str "Team meeting") (str "boss@example.com") (str "see you at ten")] /\
    length (rateLimits w') = 1%nat.
Proof.
  split; [reflexivity |].
  apply (analyzeEmail_ignores_USE_GEMINI
           (EnhancedGeminiAnalyzer.constructor None (Some (str "false")))
           (str "Team meeting") (str "boss@example.com") (str "see you at ten")
           Scenario.user1 Scenario.calmEnv Scenario.emptyWorld).
  - reflexivity.
  - intros n. reflexivity.
  - vm_compute. reflexivity.
Defined.

(** *** Reasoning about methods: frames and returned values *)

Section Frames.

Variable R : World -> World -> Prop.
Hypothesis R_refl : forall w, R w w.
Hypothesis R_trans : forall w1 w2 w3, R w1 w2 -> R w2 w3 -> R w1 w3.

Lemma post_ret {A} (P : A -> Prop) (a : A) : P a -> Post R P (ret a).
Proof. intros Ha env w. split; [apply R_refl |]. intros ? [= <-]. exact Ha. Qed.

Lemma post_throw {A} (P : A -> Prop) (e : JSError) : Post R P (@throw A e).
Proof. intros env w. split; [apply R_refl | discriminate]. Qed.

Lemma post_weaken {A} (P Q : A -> Prop) (m : M A) :
  Post R P m -> (forall a, P a -> Q a) -> Post R Q m.
Proof. intros Hm HPQ env w. destruct (Hm env w) as [H1 H2]. split; auto. Qed.

Lemma post_bind {A B} (Q : A -> Prop) (P : B -> Prop) (m : M A) (k : A -> M B) :
  Post R Q m -> (forall a, Q a -> Post R P (k a)) -> Post R P (bind m k).
Proof.
  intros Hm Hk env w. unfold bind. destruct (Hm env w) as [H1 H2].
  destruct (m env w) as [[a | e] w1]; cbn in *.
  - destruct (Hk a (H2 a eq_refl) env w1) as [H3 H4]. split; [| exact H4].
    eapply R_trans; eassumption.
  - split; [exact H1 | discriminate].
Qed.

Lemma post_tryCatch {A} (P : A -> Prop) (m : M A) (h : JSError -> M A) :
  Post R P m -> (forall e, Post R P (h e)) -> Post R P (tryCatch m h).
Proof.
  intros Hm Hh env w. unfold tryCatch. destruct (Hm env w) as [H1 H2].
  destruct (m env w) as [[a | e] w1]; cbn in *.
  - split; [exact H1 | exact H2].
  - destruct (Hh e env w1) as [H3 H4]. split; [| exact H4].
    eapply R_trans; eassumption.
Qed.

(** A loop keeps what each round keeps. *)
Lemma post_forOf {A S} (I : S -> Prop) (xs : list A) (body : S -> A -> M S) :
  (forall s x, I s -> Post R I (body s x)) ->
  forall s, I s -> Post R I (forOf xs body s).
Proof.
  intros Hbody. induction xs as [| x xs IH]; intros s Hs; cbn [forOf].
  - apply post_ret. exact Hs.
  - eapply post_bind; [apply Hbody; exact Hs |]. intros s' Hs'. apply IH. exact Hs'.
Qed.

Lemma post_gets {A} (P : A -> Prop) (f : World -> A) :
  (forall w, P (f w)) -> Post R P (gets f).
Proof. intros Hf env w. split; [apply R_refl |]. intros ? [= <-]. apply Hf. Qed.

Lemma post_ask {A} (P : A -> Prop) (f : Env -> A) :
  (forall env, P (f env)) -> Post R P (ask f).
Proof. intros Hf env w. split; [apply R_refl |]. intros ? [= <-]. apply Hf. Qed.

Lemma post_modify (f : World -> World) :
  (forall w, R w (f w)) -> Post R anyValue (modify f).
Proof. intros Hf env w. split; [apply Hf | constructor]. Qed.

Hypothesis R_tick : forall w, R w (tick w).

Lemma post_Date_now : Post R anyValue Date_now.
Proof. intros env w. split; [apply R_tick | constructor]. Qed.

Lemma post_dbOp : Post R anyValue dbOp.
Proof.
  intros env w. unfold dbOp. destruct (dbFault env (steps w));
    (split; [apply R_tick | constructor]).
Qed.

Lemma post_remote {A} (ev : Event) (answer : Env -> nat -> Outcome A) :
  (forall w, R w (emit ev w)) -> Post R anyValue (remote ev answer).
Proof.
  intros Hev env w. split; [| constructor]. cbn.
  eapply R_trans; [apply Hev | apply R_tick].
Qed.

End Frames.

(** One structural step of a [Post] proof for the relation [R]; what is
    left are the effects on the world ([modify], [remote]) and the calls
    of other methods. *)
Ltac post_step R Hrefl Htrans Htick :=
  lazymatch goal with
  | |- Post _ ?P (ret _) =>
      tryif is_evar P
      then apply (post_ret R Hrefl anyValue); exact I
      else apply (post_ret R Hrefl)
  | |- Post _ _ (throw _) => apply (post_throw R Hrefl)
  | |- Post _ _ (tryCatch _ _) => apply (post_tryCatch R Htrans); [| intros ?]
  | |- Post _ _ (bind _ _) => eapply (post_bind R Htrans); [| intros ? ?]
  | |- Post _ ?P (gets _) =>
      tryif is_evar P
      then apply (post_gets R Hrefl anyValue); intros ?; exact I
      else (apply (post_gets R Hrefl); intros ?)
  | |- Post _ ?P (ask _) =>
      tryif is_evar P
      then apply (post_ask R Hrefl anyValue); intros ?; exact I
      else (apply (post_ask R Hrefl); intros ?)
  | |- Post _ _ (modify _) => apply (post_modify R); intros ?
  | |- Post _ _ Date_now => apply (post_Date_now R Htick)
  | |- Post _ _ dbOp => apply (post_dbOp R Htick)
  | |- Post _ _ (remote _ _) => apply (post_remote R Htrans Htick); intros ?
  | |- Post _ ?P (forOf _ _ _) =>
      tryif is_evar P
      then (apply (post_forOf R Hrefl Htrans anyValue); [intros ? ? ? | exact I])
      else (apply (post_forOf R Hrefl Htrans); [intros ? ? ? |])
  | |- Post _ _ (match ?x with _ => _ end) => destruct x
  | |- anyValue _ => exact I
  | |- True => exact I
  end.

(** *** [cursor.limit] *)

Section Limit.
Import Collection.

Context {A : Type}.

(** Whatever the limit, a prefix comes back. *)
Lemma limit_take (n : Z) (l : list A) : exists k, limit n l = take k l.
Proof.
  unfold limit. destruct (n =? 0); [exists (length l); symmetry; apply firstn_all |].
  destruct (n <? 0); eauto.
Qed.

Lemma limit_positive (n : Z) (l : list A) : 0 < n -> limit n l = take (Z.to_nat n) l.
Proof.
  intros Hn. unfold limit.
  destruct (n =? 0) eqn:E0; [lia |]. destruct (n <? 0) eqn:E1; [lia | reflexivity].
Qed.

(** A limit that fits the first batch is exact, whatever its sign. *)
Lemma limit_small (n : Z) (l : list A) :
  n <> 0 -> (Z.abs_nat n <= firstBatch)%nat -> limit n l = take (Z.abs_nat n) l.
Proof.
  intros Hn Hsmall. unfold limit.
  destruct (n =? 0) eqn:E0; [lia |]. destruct (n <? 0) eqn:E1.
  - rewrite Nat.min_l by exact Hsmall. reflexivity.
  - f_equal. lia.
Qed.

Lemma limit_length (n : Z) (l : list A) :
  n <> 0 -> (length (limit n l) <= Z.abs_nat n)%nat.
Proof.
  intros Hn. unfold limit.
  destruct (n =? 0) eqn:E0; [lia |]. destruct (n <? 0) eqn:E1; rewrite length_take; lia.
Qed.

End Limit.

Lemma numOr_nonzero (n : option Z) (d : Z) : d <> 0 -> numOr n d <> 0.
Proof.
  intros Hd. unfold numOr. destruct n as [v |]; [| exact Hd].
  destruct (v =? 0) eqn:E; [exact Hd | lia].
Qed.

(** *** The sub-procedures leave the status of every job alone *)

Section QuietRuns.
Import MongoDatabase EnhancedGeminiAnalyzer BatchProcessor BatchSpec.

Lemma statusWrites_app bid (l1 l2 : list Event) :
  statusWrites bid (l1 ++ l2) = statusWrites bid l1 ++ statusWrites bid l2.
Proof. apply flat_map_app. Qed.

Lemma Quiet_refl w : Quiet w w.
Proof. exists []. rewrite app_nil_r. auto. Qed.

Lemma Quiet_trans w1 w2 w3 : Quiet w1 w2 -> Quiet w2 w3 -> Quiet w1 w3.
Proof.
  intros (e1 & Ht1 & Hq1 & Hv1) (e2 & Ht2 & Hq2 & Hv2). exists (e1 ++ e2).
  split; [rewrite Ht2, Ht1, app_assoc; reflexivity |].
  split; [intros bid; rewrite statusWrites_app, Hq1, Hq2; reflexivity | congruence].
Qed.

(** A change of the world that touches neither the trace nor [batchLogs]. *)
Lemma Quiet_same w w' :
  trace w' = trace w -> batchLogs w' = batchLogs w -> Quiet w w'.
Proof. intros Ht Hb. exists []. rewrite app_nil_r, Hb. auto. Qed.

Lemma Quiet_tick w : Quiet w (tick w).
Proof. apply Quiet_same; reflexivity. Qed.

Lemma Quiet_emit ev w : notBatchWrite ev -> Quiet w (emit ev w).
Proof.
  intros Hev. exists [ev]. split; [reflexivity |]. split; [| reflexivity].
  intros bid. destruct ev; cbn in *; try reflexivity; contradiction.
Qed.

Lemma statusView_updateFirst bid upd l :
  upd !! "status" = None ->
  statusView (Collection.updateFirst (hasBatchId bid) (applySet upd) l) = statusView l.
Proof.
  intros Hupd. unfold statusView in *.
  induction l as [| b l IH]; [reflexivity |]. cbn [Collection.updateFirst].
  destruct (hasBatchId bid b); cbn [map]; [| rewrite IH; reflexivity].
  f_equal. unfold statusOf, applySet, spread. cbn.
  rewrite lookup_union_r by exact Hupd. reflexivity.
Qed.

Ltac quiet :=
  repeat (first
    [ post_step Quiet Quiet_refl Quiet_trans Quiet_tick
    | apply Quiet_same; reflexivity
    | apply Quiet_emit; exact I
    | lazymatch goal with |- noStatus _ => reflexivity end ]).

Lemma quiet_updateBatchLog bid upd :
  upd !! "status" = None -> Post Quiet anyValue (updateBatchLog bid upd).
Proof.
  intros Hupd. unfold updateBatchLog. quiet.
  exists [EvBatchUpdate bid (<["updatedAt" := JDate a]> upd)].
  split; [reflexivity |]. split.
  - intros b. cbn. rewrite lookup_insert_ne by discriminate. rewrite Hupd.
    destruct (jsstring_eqb bid b); reflexivity.
  - cbn. apply statusView_updateFirst.
    rewrite lookup_insert_ne by discriminate. exact Hupd.
Qed.

Lemma quiet_checkRateLimit u op : Post Quiet anyValue (checkRateLimit u op).
Proof. unfold checkRateLimit, countDocuments, insertOne_rateLimits. quiet. Qed.

Lemma quiet_saveEmail e : Post Quiet anyValue (saveEmail e).
Proof. unfold saveEmail. quiet. Qed.

Lemma quiet_getEmails u q : Post Quiet anyValue (getEmails u q).
Proof. unfold getEmails. quiet. Qed.

Lemma quiet_updateEmailAnalysis g a : Post Quiet anyValue (updateEmailAnalysis g a).
Proof. unfold updateEmailAnalysis. quiet. Qed.

Lemma quiet_markSynced g : Post Quiet anyValue (markSynced g).
Proof. unfold markSynced. quiet. Qed.

Lemma quiet_saveLabel u n i c a : Post Quiet anyValue (saveLabel u n i c a).
Proof. unfold saveLabel. quiet. Qed.

Lemma quiet_getLabels u : Post Quiet anyValue (getLabels u).
Proof. unfold getLabels. quiet. Qed.

Lemma quiet_getLabelByName u n : Post Quiet anyValue (getLabelByName u n).
Proof. unfold getLabelByName. quiet. Qed.

Lemma quiet_getCategoryBreakdown u : Post Quiet anyValue (getCategoryBreakdown u).
Proof. unfold getCategoryBreakdown. quiet. Qed.

Lemma quiet_analyzeEmail this s f sn u : Post Quiet anyValue (analyzeEmail this s f sn u).
Proof.
  unfold analyzeEmail, callGeminiAPI. quiet; try apply quiet_checkRateLimit; quiet.
Qed.

Lemma quiet_batchAnalyzeEmails_analyzer this emails u :
  Post Quiet anyValue (EnhancedGeminiAnalyzer.batchAnalyzeEmails this emails u).
Proof.
  unfold EnhancedGeminiAnalyzer.batchAnalyzeEmails, sleep.
  quiet; try apply quiet_analyzeEmail; try apply quiet_updateEmailAnalysis; quiet.
Qed.

Lemma quiet_suggestLabelOrganization this u :
  Post Quiet anyValue (suggestLabelOrganization this u).
Proof.
  unfold suggestLabelOrganization.
  quiet; try apply quiet_getLabels; try apply quiet_getCategoryBreakdown; quiet.
Qed.

Lemma quiet_messages_list : Post Quiet anyValue messages_list.
Proof.
  intros env w. split; [| constructor]. unfold messages_list.
  destruct (listing w); cbn; exists [EvGmailList]; repeat split; reflexivity.
Qed.

Lemma quiet_fetchMessage u t id : Post Quiet anyValue (fetchMessage u t id).
Proof. unfold fetchMessage. quiet; try apply quiet_saveEmail; quiet. Qed.

Lemma quiet_fetchLoop script bid u size : forall t,
  Post Quiet anyValue (fetchLoop script bid u size t).
Proof.
  induction script as [| page script IH]; intros t; cbn [fetchLoop];
    quiet; try apply quiet_messages_list; try apply quiet_fetchMessage;
    try (apply quiet_updateBatchLog; reflexivity); try apply IH; quiet.
Qed.

Lemma quiet_batchFetchEmails bid o : Post Quiet noStatus (batchFetchEmails bid o).
Proof. unfold batchFetchEmails. quiet; try apply quiet_fetchLoop; quiet. Qed.

Lemma quiet_batchAnalyzeEmails this bid o :
  Post Quiet noStatus (BatchProcessor.batchAnalyzeEmails this bid o).
Proof.
  unfold BatchProcessor.batchAnalyzeEmails.
  quiet; try apply quiet_getEmails; try apply quiet_batchAnalyzeEmails_analyzer; quiet.
Qed.

Lemma quiet_createLabel u c n : Post Quiet anyValue (createLabel u c n).
Proof.
  unfold createLabel. destruct c.
  quiet; try apply quiet_getLabelByName; try apply quiet_saveLabel; quiet.
Qed.

Lemma quiet_batchCreateLabels bid o : Post Quiet noStatus (batchCreateLabels bid o).
Proof.
  unfold batchCreateLabels.
  quiet; try apply quiet_getEmails; try apply quiet_createLabel; quiet.
Qed.

Lemma quiet_assignLabel u c e : Post Quiet anyValue (assignLabel u c e).
Proof.
  unfold assignLabel. destruct c.
  quiet; try apply quiet_getLabelByName; try apply quiet_markSynced; quiet.
Qed.

Lemma quiet_batchAssignLabels bid o : Post Quiet noStatus (batchAssignLabels bid o).
Proof.
  unfold batchAssignLabels.
  quiet; try apply quiet_getEmails; try apply quiet_assignLabel; quiet.
Qed.

Lemma quiet_batchOrganizeLabels this bid o :
  Post Quiet noStatus (batchOrganizeLabels this bid o).
Proof.
  unfold batchOrganizeLabels. quiet; try apply quiet_suggestLabelOrganization; quiet.
Qed.

Lemma finalResult_noStatus f a c s :
  noStatus f -> noStatus a -> noStatus c -> noStatus s -> noStatus (finalResult f a c s).
Proof.
  unfold noStatus, finalResult, spread. intros Hf Ha Hc Hs.
  rewrite lookup_insert_ne by discriminate.
  rewrite !lookup_union_r by assumption. exact Hf.
Qed.

Lemma quiet_fullBatchProcess this bid o : Post Quiet noStatus (fullBatchProcess this bid o).
Proof.
  unfold fullBatchProcess.
  quiet; try apply quiet_batchFetchEmails; try apply quiet_batchAnalyzeEmails;
    try apply quiet_batchCreateLabels; try apply quiet_batchAssignLabels.
  apply finalResult_noStatus; assumption.
Qed.

Lemma quiet_dispatch this bid b : Post Quiet noStatus (dispatch this bid b).
Proof.
  unfold dispatch.
  repeat match goal with
         | |- Post _ _ (if ?c then _ else _) => destruct c
         end;
    auto using quiet_batchFetchEmails, quiet_batchAnalyzeEmails, quiet_batchCreateLabels,
      quiet_batchAssignLabels, quiet_batchOrganizeLabels, quiet_fullBatchProcess.
  apply (post_throw Quiet Quiet_refl).
Qed.

End QuietRuns.

(** *** Batch creation: [BatchProcessor.createBatch] and the create route *)

Section Creation.
Import MongoDatabase BatchProcessor BatchSpec.

Variable env : Env.
Hypothesis Hrel : Reliable env.

(** With the store reachable and the identifier not yet in use,
    [createBatch] appends one document and does nothing else: no remote
    call, no update.  The stored status is the one [createBatchLog]
    writes last, ['started']. *)
Lemma createBatch_run (w : World) (userId operation : jsstring) (o : Options) :
  existsb (hasBatchId (nextBatchId env w)) (batchLogs w) = false ->
  exists doc w',
    createBatch userId operation o env w = (Return (nextBatchId env w), w') /\
    batchLogs w' = batchLogs w ++ [doc] /\
    trace w' = trace w ++ [EvBatchInsert doc] /\
    batchId doc = nextBatchId env w /\ b_userId doc = userId /\ options doc = o /\
    fields doc !! "operation" = Some (JStr operation) /\
    fields doc !! "status" = Some (JStr (str "started")) /\
    fields doc !! "errors" = Some (JArr []) /\
    emails w' = emails w /\ labels w' = labels w /\ rateLimits w' = rateLimits w.
Proof.
  intros Hfresh.
  unfold createBatch, generateBatchId, createBatchLog, tryCatch, bind, Date_now, dbOp,
    gets, modify, ret, throw.
  cbn. rewrite Hrel. cbn. unfold nextBatchId in Hfresh. rewrite Hfresh.
  eexists _, _. split; [reflexivity |]. cbn. repeat split; reflexivity.
Qed.

End Creation.

(** In the create route a batch size of zero passes: the range checks
    sit behind [options.batchSize && maxBatchSizes[operation]], and zero
    is falsy. *)
Lemma batchCreate_zero_run (env : Env) (w : World) (operation : jsstring) (o : Options) :
  o_batchSize o = Some 0 ->
  Server.batchCreate operation o env w =
  tryCatch
    (let* batchId := BatchProcessor.createBatch (profile_id (reqUser w)) operation
                       (Server.withUserId o (profile_id (reqUser w))) in
     ret (Server.mkResponse 200
            (<["success" := JBool true]>
             (<["batchId" := JStr batchId]>
              (<["message" := JStr (str "Batch " ++ batchId ++ str " created for "
                                    ++ operation)]> ∅)))))
    (fun error =>
       ret (Server.mkResponse 500 {[ "error" := JStr (str "Failed to create batch") ]}))
    env w.
Proof.
  intros Hz. unfold Server.batchCreate, tryCatch, bind at 1, gets. rewrite Hz.
  destruct (Server.maxBatchSizes operation) as [[max |] |]; reflexivity.
Qed.

(** C5 fails on the code at a batch size of zero: for every operation,
    with the store reachable and a fresh identifier, the route answers 200
    and the job is created with [batchSize = 0]. *)
Theorem batchCreate_accepts_batchSize_zero
    (env : Env) (w : World) (operation : jsstring) (o : Options) :
  o_batchSize o = Some 0 ->
  Reliable env ->
  existsb (MongoDatabase.hasBatchId (BatchSpec.nextBatchId env w)) (batchLogs w) = false ->
  exists r doc w',
    Server.batchCreate operation o env w = (Return r, w') /\
    Server.status r = 200 /\
    batchLogs w' = batchLogs w ++ [doc] /\
    o_batchSize (options doc) = Some 0.
Proof.
  intros Hz Hrel Hfresh. rewrite (batchCreate_zero_run env w operation o Hz).
  destruct (createBatch_run env Hrel w (profile_id (reqUser w)) operation
              (Server.withUserId o (profile_id (reqUser w))) Hfresh)
    as (doc & w' & Hrun & Hlogs & _ & _ & _ & Hopt & _).
  unfold tryCatch, bind. rewrite Hrun. unfold ret.
  eexists _, doc, w'. split; [reflexivity |]. split; [reflexivity |].
  split; [exact Hlogs |]. rewrite Hopt. exact Hz.
Qed.

Lemma batchCreate_accepts_batchSize_zero_witness :
  exists r doc w',
    Server.batchCreate (str "fetchEmails") (mkOptions [] (Some 0) None None)
      Scenario.calmEnv Scenario.emptyWorld = (Return r, w') /\
    Server.status r = 200 /\
    batchLogs w' = [doc] /\
    o_batchSize (options doc) = Some 0.
Proof.
  apply (batchCreate_accepts_batchSize_zero Scenario.calmEnv Scenario.emptyWorld
           (str "fetchEmails") (mkOptions [] (Some 0) None None)).
  - reflexivity.
  - intros n. reflexivity.
  - reflexivity.
Defined.

(** What the route does reject: a non-zero batch size outside
    [1 .. ceiling] for an operation that has a ceiling.  Nothing is
    created. *)
Lemma batchCreate_rejects_out_of_range
    (env : Env) (w : World) (operation : jsstring) (o : Options) (n max : Z) :
  o_batchSize o = Some n -> Server.maxBatchSizes operation = Some (Server.Ceiling max) ->
  n <> 0 -> (max < n \/ n < 1) ->
  exists r, Server.batchCreate operation o env w = (Return r, w) /\ Server.status r = 400.
Proof.
  intros Hn Hmax Hnz Hrange.
  unfold Server.batchCreate, tryCatch, bind at 1, gets. rewrite Hn, Hmax.
  destruct (n =? 0) eqn:E0; [lia |]. cbn [negb].
  destruct (max <? n) eqn:E1.
  - eexists. split; reflexivity.
  - destruct (n <? 1) eqn:E2; [eexists; split; reflexivity | lia].
Qed.

(** *** CredentialGuard: [withTokenRefresh] *)

Section CredentialGuard.
Import MongoDatabase GuardSpec Server.

Lemma guardSteps_app (l1 l2 : list Event) :
  guardSteps (l1 ++ l2) = guardSteps l1 ++ guardSteps l2.
Proof. apply List.filter_app. Qed.

(** Persisting the tokens issues no remote call; with the store
    reachable it succeeds and rewrites the tokens of the user. *)
Lemma updateUserTokens_trace env w uid a r t :
  trace (snd (updateUserTokens uid a r t env w)) = trace w.
Proof.
  unfold updateUserTokens, tryCatch, bind, Date_now, dbOp, modify, throw. cbn.
  destruct (dbFault env (S (steps w))); reflexivity.
Qed.

Lemma updateUserTokens_users env w uid a r t w' :
  updateUserTokens uid a r t env w = (Return tt, w') ->
  users w' = Collection.updateFirst (fun u => jsstring_eqb (u_userId u) uid)
               (fun u => mkUser (u_userId u) a r t (clock env (steps w))) (users w) /\
  reqUser w' = reqUser w.
Proof.
  unfold updateUserTokens, tryCatch, bind, Date_now, dbOp, modify, throw. cbn.
  destruct (dbFault env (S (steps w))); [discriminate |]. intros [= <-]. split; reflexivity.
Qed.

Variable A : Type.
Variable operation : M A.
Hypothesis Hplain : plainOperation operation.
Variable env : Env.
Variable w : World.

Local Abbreviation run := (withTokenRefresh operation env w).

(** The shape of a run, by the outcome of the first attempt. *)
Lemma withTokenRefresh_first_ok r w1 :
  operation env (firstAttempt w) = (Return r, w1) ->
  run = (Return (Value r), w1).
Proof.
  intros H. unfold withTokenRefresh, tryCatch at 1, bind, gets, modify,
    BatchProcessor.setCredentials, ret. cbn.
  unfold firstAttempt in H. rewrite H. reflexivity.
Qed.

Lemma withTokenRefresh_other_failure e w1 :
  operation env (firstAttempt w) = (Throw e, w1) -> isTokenError e = false ->
  run = (Throw e, w1).
Proof.
  intros H He. unfold withTokenRefresh, tryCatch at 1, bind, gets, modify,
    BatchProcessor.setCredentials, ret. cbn.
  unfold firstAttempt in H. rewrite H, He. reflexivity.
Qed.

Lemma withTokenRefresh_refresh_failed e w1 e' :
  operation env (firstAttempt w) = (Throw e, w1) -> isTokenError e = true ->
  refreshAccessToken env (steps w1) = Throw e' ->
  exists r, run = (Return (Sent r), tick (emit EvRefreshAccessToken w1)) /\
    status r = 401 /\ body r !! "requiresReauth" = Some (JBool true).
Proof.
  intros H He Hr. unfold withTokenRefresh, tryCatch at 1, bind, gets, modify,
    BatchProcessor.setCredentials, ret. cbn.
  unfold firstAttempt in H. rewrite H, He.
  unfold tryCatch, remote, bind. rewrite Hr.
  eexists. split; [reflexivity |]. split; reflexivity.
Qed.

Lemma withTokenRefresh_persist_failed e w1 c e' w2 :
  operation env (firstAttempt w) = (Throw e, w1) -> isTokenError e = true ->
  refreshAccessToken env (steps w1) = Return c ->
  updateUserTokens (profile_id (reqUser w1)) (rc_access_token c)
    (strOr (rc_refresh_token c) (s_refreshToken (reqUser w1))) (rc_expiry_date c)
    env (tick (emit EvRefreshAccessToken w1)) = (Throw e', w2) ->
  exists r, run = (Return (Sent r), w2) /\
    status r = 401 /\ body r !! "requiresReauth" = Some (JBool true).
Proof.
  intros H He Hr Hp. unfold withTokenRefresh, tryCatch at 1, bind, gets, modify,
    BatchProcessor.setCredentials, ret. cbn.
  unfold firstAttempt in H. rewrite H, He.
  unfold tryCatch, remote, bind. rewrite Hr. cbn. cbn in Hp. rewrite Hp.
  eexists. split; [reflexivity |]. split; reflexivity.
Qed.

Lemma withTokenRefresh_retried e w1 c w2 :
  operation env (firstAttempt w) = (Throw e, w1) -> isTokenError e = true ->
  refreshAccessToken env (steps w1) = Return c ->
  updateUserTokens (profile_id (reqUser w1)) (rc_access_token c)
    (strOr (rc_refresh_token c) (s_refreshToken (reqUser w1))) (rc_expiry_date c)
    env (tick (emit EvRefreshAccessToken w1)) = (Return tt, w2) ->
  run = match operation env (retryAttempt c w2) with
        | (Return r, w3) => (Return (Value r), w3)
        | (Throw _, w3) =>
            (Return (Sent (mkResponse 401
               (<["error" := JStr (str "Token refresh failed. Please re-login.")]>
                (<["requiresReauth" := JBool true]> ∅)))), w3)
        end.
Proof.
  intros H He Hr Hp. unfold withTokenRefresh, tryCatch at 1, bind, gets, modify,
    BatchProcessor.setCredentials, ret. cbn.
  unfold firstAttempt in H. rewrite H, He.
  unfold tryCatch, remote, bind. rewrite Hr. cbn. cbn in Hp. rewrite Hp.
  unfold retryAttempt, refreshed. cbn.
  destruct (operation env (emit EvOperation (set_oauth _ (set_reqUser _ w2))))
    as [[r | e3] w3]; reflexivity.
Qed.

End CredentialGuard.

(** C3. One invocation of the guard around an operation that does not go
    through the guard itself.  If the first attempt returns, so does the
    guard, with no refresh.  If it fails with anything but an
    authorization error, that error propagates, with no refresh.  If it
    fails with an authorization error, the credential is refreshed once;
    when the refresh or the persisting of the new tokens fails the answer
    is 401 with [requiresReauth], with no retry; otherwise the new tokens
    are stored for the user, installed on the client, and the operation is
    attempted once more: its value is returned, or, if it fails again, the
    answer is 401 with [requiresReauth].  In every case the guard steps of
    the run are one attempt, one attempt and one refresh, or one attempt,
    one refresh and one retry. *)
Theorem withTokenRefresh_contract {A : Type} (operation : M A) (env : Env) (w : World) :
  GuardSpec.plainOperation operation ->
  exists out w' evs,
    Server.withTokenRefresh operation env w = (out, w') /\
    trace w' = trace w ++ evs /\
    In (GuardSpec.guardSteps evs)
       [ [EvOperation]; [EvOperation; EvRefreshAccessToken];
         [EvOperation; EvRefreshAccessToken; EvOperation] ] /\
    match operation env (GuardSpec.firstAttempt w) with
    | (Return r, _) =>
        out = Return (Server.Value r) /\ GuardSpec.guardSteps evs = [EvOperation]
    | (Throw e, w1) =>
        if Server.isTokenError e then
          match refreshAccessToken env (steps w1) with
          | Throw _ =>
              GuardSpec.requiresReauth out /\
              GuardSpec.guardSteps evs = [EvOperation; EvRefreshAccessToken]
          | Return c =>
              match MongoDatabase.updateUserTokens (profile_id (reqUser w1))
                      (rc_access_token c)
                      (strOr (rc_refresh_token c) (s_refreshToken (reqUser w1)))
                      (rc_expiry_date c) env (tick (emit EvRefreshAccessToken w1)) with
              | (Throw _, _) =>
                  GuardSpec.requiresReauth out /\
                  GuardSpec.guardSteps evs = [EvOperation; EvRefreshAccessToken]
              | (Return _, w2) =>
                  GuardSpec.guardSteps evs
                    = [EvOperation; EvRefreshAccessToken; EvOperation] /\
                  users w2 =
                    Collection.updateFirst
                      (fun u => jsstring_eqb (u_userId u) (profile_id (reqUser w1)))
                      (fun u => mkUser (u_userId u) (rc_access_token c)
                                  (strOr (rc_refresh_token c) (s_refreshToken (reqUser w1)))
                                  (rc_expiry_date c) (clock env (S (steps w1))))
                      (users w1) /\
                  oauth (GuardSpec.retryAttempt c w2)
                    = Some (mkCredentials (rc_access_token c)
                              (strOr (rc_refresh_token c) (s_refreshToken (reqUser w1)))) /\
                  match operation env (GuardSpec.retryAttempt c w2) with
                  | (Return r, _) => out = Return (Server.Value r)
                  | (Throw _, _) => GuardSpec.requiresReauth out
                  end
              end
          end
        else out = Throw e /\ GuardSpec.guardSteps evs = [EvOperation]
    end.
Proof.
  intros Hplain.
  destruct (Hplain env (GuardSpec.firstAttempt w)) as (evs0 & Ht0 & Hg0).
  destruct (operation env (GuardSpec.firstAttempt w)) as [[r | e] w1] eqn:H1;
    cbn [snd] in Ht0.
  - exists (Return (Server.Value r)), w1, (EvOperation :: evs0).
    split; [eapply withTokenRefresh_first_ok; exact H1 |].
    assert (Hg : GuardSpec.guardSteps (EvOperation :: evs0) = [EvOperation])
      by (cbn; fold (GuardSpec.guardSteps evs0); rewrite Hg0; reflexivity).
    split; [rewrite Ht0; cbn; rewrite <- app_assoc; reflexivity |].
    rewrite Hg. cbn. auto.
  - destruct (Server.isTokenError e) eqn:He.
    2:{ exists (Throw e), w1, (EvOperation :: evs0).
        split; [eapply withTokenRefresh_other_failure; eassumption |].
        assert (Hg : GuardSpec.guardSteps (EvOperation :: evs0) = [EvOperation])
          by (cbn; fold (GuardSpec.guardSteps evs0); rewrite Hg0; reflexivity).
        split; [rewrite Ht0; cbn; rewrite <- app_assoc; reflexivity |].
        rewrite Hg. cbn. auto. }
    assert (Hg1 : GuardSpec.guardSteps (EvOperation :: evs0 ++ [EvRefreshAccessToken])
                  = [EvOperation; EvRefreshAccessToken]).
    { cbn. fold (GuardSpec.guardSteps (evs0 ++ [EvRefreshAccessToken])).
      rewrite guardSteps_app, Hg0. reflexivity. }
    assert (Ht1 : trace (tick (emit EvRefreshAccessToken w1))
                  = trace w ++ EvOperation :: evs0 ++ [EvRefreshAccessToken]).
    { cbn. rewrite Ht0. cbn. rewrite <- !app_assoc. reflexivity. }
    destruct (refreshAccessToken env (steps w1)) as [c | e'] eqn:Hr.
    2:{ destruct (withTokenRefresh_refresh_failed A operation env w e w1 e' H1 He Hr)
          as (resp & Hrun & Hst & Hbody).
        exists (Return (Server.Sent resp)), (tick (emit EvRefreshAccessToken w1)),
               (EvOperation :: evs0 ++ [EvRefreshAccessToken]).
        split; [exact Hrun |]. split; [exact Ht1 |]. rewrite Hg1.
        split; [cbn; auto |]. split; [exists resp; auto | reflexivity]. }
    destruct (MongoDatabase.updateUserTokens _ _ _ _ env _) as [[[] | e'] w2] eqn:Hp.
    2:{ destruct (withTokenRefresh_persist_failed A operation env w e w1 c e' w2 H1 He Hr Hp)
          as (resp & Hrun & Hst & Hbody).
        exists (Return (Server.Sent resp)), w2, (EvOperation :: evs0 ++ [EvRefreshAccessToken]).
        split; [exact Hrun |].
        pose proof (updateUserTokens_trace env (tick (emit EvRefreshAccessToken w1))
                      (profile_id (reqUser w1)) (rc_access_token c)
                      (strOr (rc_refresh_token c) (s_refreshToken (reqUser w1)))
                      (rc_expiry_date c)) as Htr.
        rewrite Hp in Htr. cbn [snd] in Htr.
        split; [rewrite Htr; exact Ht1 |]. rewrite Hg1.
        split; [cbn; auto |]. split; [exists resp; auto | reflexivity]. }
    pose proof (withTokenRefresh_retried A operation env w e w1 c w2 H1 He Hr Hp) as Hrun.
    pose proof (updateUserTokens_trace env (tick (emit EvRefreshAccessToken w1))
                  (profile_id (reqUser w1)) (rc_access_token c)
                  (strOr (rc_refresh_token c) (s_refreshToken (reqUser w1)))
                  (rc_expiry_date c)) as Htr.
    rewrite Hp in Htr. cbn [snd] in Htr.
    destruct (updateUserTokens_users _ _ _ _ _ _ _ Hp) as [Husers Hreq].
    cbn in Husers, Hreq.
    destruct (Hplain env (GuardSpec.retryAttempt c w2)) as (evs2 & Ht2 & Hg2).
    assert (Hg3 : GuardSpec.guardSteps
                    (EvOperation :: evs0 ++ [EvRefreshAccessToken] ++ EvOperation :: evs2)
                  = [EvOperation; EvRefreshAccessToken; EvOperation]).
    { cbn. fold (GuardSpec.guardSteps (evs0 ++ EvRefreshAccessToken :: EvOperation :: evs2)).
      rewrite guardSteps_app, Hg0. cbn. fold (GuardSpec.guardSteps evs2).
      rewrite Hg2. reflexivity. }
    destruct (operation env (GuardSpec.retryAttempt c w2)) as [[r | e3] w3] eqn:H3;
      cbn [snd] in Ht2;
      eexists _, w3, (EvOperation :: evs0 ++ [EvRefreshAccessToken] ++ EvOperation :: evs2);
      (split; [exact Hrun |]);
      (split; [rewrite Ht2; unfold GuardSpec.retryAttempt; cbn; rewrite Htr, Ht1;
               repeat (rewrite <- app_assoc; cbn [app]); reflexivity |]);
      rewrite Hg3; (split; [cbn; auto |]); (split; [reflexivity |]);
      (split; [exact Husers |]);
      (split; [unfold GuardSpec.retryAttempt, GuardSpec.refreshed; cbn;
               rewrite Hreq; reflexivity |]).
    + reflexivity.
    + eexists. split; [reflexivity |]. split; reflexivity.
Qed.

Lemma messages_list_plain : GuardSpec.plainOperation BatchProcessor.messages_list.
Proof.
  intros env w. exists [EvGmailList]. unfold BatchProcessor.messages_list.
  destruct (listing w); split; reflexivity.
Qed.

Lemma withTokenRefresh_contract_witness :
  GuardSpec.plainOperation BatchProcessor.messages_list /\
  exists out w' evs,
    Server.withTokenRefresh BatchProcessor.messages_list Scenario.calmEnv Scenario.expiredWorld
      = (out, w') /\
    trace w' = evs /\
    GuardSpec.guardSteps evs = [EvOperation; EvRefreshAccessToken; EvOperation] /\
    out = Return (Server.Value Scenario.onePage).
Proof.
  split; [exact messages_list_plain |].
  destruct (withTokenRefresh_contract BatchProcessor.messages_list Scenario.calmEnv
              Scenario.expiredWorld messages_list_plain)
    as (out & w' & evs & Hrun & Htr & _ & Hcase).
  cbn in Hcase. destruct Hcase as (Hg & _ & _ & Hout).
  exists out, w', evs. repeat split; assumption.
Defined.

(** *** LabelResolver: [getLabelByName], [saveLabel] and the creation loop *)

Section Labels.
Import MongoDatabase BatchProcessor LabelSpec.

Lemma sameLabelKey_iff u n l : sameLabelKey u n l = true <-> labelKey l = (u, n).
Proof.
  unfold sameLabelKey, labelKey, jsstring_eqb. rewrite andb_true_iff, !bool_decide_eq_true.
  split; [intros [-> ->]; reflexivity | intros [= -> ->]; auto].
Qed.

Lemma map_labelKey_updateFirst u n d l :
  labelKey d = (u, n) ->
  map labelKey (Collection.updateFirst (sameLabelKey u n) (fun _ => d) l) = map labelKey l.
Proof.
  intros Hd. induction l as [| x l IH]; [reflexivity |]. cbn.
  destruct (sameLabelKey u n x) eqn:E; cbn; [| rewrite IH; reflexivity].
  apply sameLabelKey_iff in E. congruence.
Qed.

(** The upsert keyed on [(userId, name)] never makes a second record. *)
Lemma replaceOneUpsert_unique u n d (l : list Label) :
  labelKey d = (u, n) ->
  NoDup (map labelKey l) ->
  NoDup (map labelKey (Collection.replaceOneUpsert (sameLabelKey u n) d l)).
Proof.
  intros Hd Hnd. unfold Collection.replaceOneUpsert.
  destruct (existsb (sameLabelKey u n) l) eqn:E.
  - rewrite map_labelKey_updateFirst by exact Hd. exact Hnd.
  - rewrite map_app. cbn. apply NoDup_app. split; [exact Hnd |]. split.
    + intros k Hk Hin. apply list_elem_of_singleton in Hin. subst k.
      apply list_elem_of_fmap in Hk as (x & Hx & Hin).
      assert (Hex : existsb (sameLabelKey u n) l = true).
      { apply existsb_exists. exists x. split; [apply list_elem_of_In; exact Hin |].
        apply sameLabelKey_iff. congruence. }
      congruence.
    + apply NoDup_singleton.
Qed.

Lemma KeepsUnique_refl w : KeepsUnique w w.
Proof. intros H. exact H. Qed.

Lemma KeepsUnique_trans w1 w2 w3 : KeepsUnique w1 w2 -> KeepsUnique w2 w3 -> KeepsUnique w1 w3.
Proof. unfold KeepsUnique. auto. Qed.

Lemma KeepsUnique_same w w' : labels w' = labels w -> KeepsUnique w w'.
Proof. unfold KeepsUnique, uniqueLabels. intros ->. auto. Qed.

Lemma KeepsUnique_tick w : KeepsUnique w (tick w).
Proof. apply KeepsUnique_same. reflexivity. Qed.

Ltac unique :=
  repeat (first
    [ post_step KeepsUnique KeepsUnique_refl KeepsUnique_trans KeepsUnique_tick
    | apply KeepsUnique_same; reflexivity ]).

Lemma unique_saveLabel u n i c a : Post KeepsUnique anyValue (saveLabel u n i c a).
Proof.
  unfold saveLabel. unique. intros Hu. unfold uniqueLabels in *. cbn.
  apply replaceOneUpsert_unique; [reflexivity | exact Hu].
Qed.

Lemma unique_getLabelByName u n : Post KeepsUnique anyValue (getLabelByName u n).
Proof. unfold getLabelByName. unique. Qed.

Lemma unique_getEmails u q : Post KeepsUnique anyValue (getEmails u q).
Proof. unfold getEmails. unique. Qed.

Lemma unique_createLabel u c n : Post KeepsUnique anyValue (createLabel u c n).
Proof.
  unfold createLabel. destruct c.
  unique; try apply unique_getLabelByName; try apply unique_saveLabel; unique.
Qed.

Lemma unique_batchCreateLabels bid o : Post KeepsUnique anyValue (batchCreateLabels bid o).
Proof.
  unfold batchCreateLabels.
  unique; try apply unique_getEmails; try apply unique_createLabel; unique.
Qed.

Variable env : Env.
Hypothesis Hrel : Reliable env.

(** A name that is in the store resolves without any call to the
    provider and without touching the store. *)
Lemma createLabel_existing w u n counts l :
  resolved u n w = Some l ->
  createLabel u counts n env w = (Return (fst counts, snd counts + 1), tick w).
Proof.
  intros Hl. destruct counts as [c e]. unfold createLabel, getLabelByName.
  unfold tryCatch, bind, dbOp, gets, ret. rewrite Hrel. cbn.
  unfold resolved in Hl. rewrite Hl. reflexivity.
Qed.

(** A name that is not in the store is created at the provider, once,
    and recorded when the provider answers. *)
Lemma createLabel_absent w u n counts :
  resolved u n w = None ->
  exists w1, trace w1 = trace w ++ [EvGmailCreateLabel n] /\
    match gmailCreateLabel env (S (steps w)) n with
    | Return id =>
        createLabel u counts n env w = (Return (fst counts + 1, snd counts), w1) /\
        labels w1 = labels w ++ [mkLabel u n id 0 true (clock env (S (S (steps w))))]
    | Throw _ =>
        createLabel u counts n env w = (Return counts, w1) /\ labels w1 = labels w
    end.
Proof.
  intros Hl. destruct counts as [c e]. unfold createLabel, getLabelByName, saveLabel.
  unfold tryCatch, bind, dbOp, gets, ret, remote, Date_now, modify, throw.
  rewrite Hrel. cbn. unfold resolved in Hl. rewrite Hl.
  change (steps (tick w)) with (S (steps w)).
  destruct (gmailCreateLabel env (S (steps w)) n) as [id | err].
  - rewrite Hrel. eexists. refine (conj _ (conj eq_refl _)); [reflexivity |]. cbn.
    unfold Collection.replaceOneUpsert.
    destruct (existsb (sameLabelKey u n) (labels w)) eqn:Hex; [| reflexivity].
    apply existsb_exists in Hex as (x & Hx & Hk).
    pose proof (List.find_none _ _ Hl x Hx). congruence.
  - eexists. refine (conj _ (conj eq_refl _)); reflexivity.
Qed.

End Labels.

Lemma find_app_new {A} (p : A -> bool) (l : list A) (x : A) :
  List.find p l = None -> p x = true -> List.find p (l ++ [x]) = Some x.
Proof.
  intros Hl Hx. induction l as [| y l IH]; cbn in *; [rewrite Hx; reflexivity |].
  destruct (p y); [discriminate | apply IH; exact Hl].
Qed.

(** C7. With the store reachable and at most one record per
    [(userId, name)]: one round of the creation loop keeps the records
    unique; for a name that is in the store it issues no call and changes
    nothing; for a name that is not, it asks the provider once and, when
    the provider answers, records exactly one label with the identifier it
    got.  After that, every further resolution of the name finds the same
    record, issues no call to the provider and creates nothing.  The
    writes to the collection ([saveLabel], and so [batchCreateLabels])
    keep the records unique whatever the environment does. *)
Theorem label_resolution_idempotent
    (env : Env) (w : World) (userId labelName : jsstring) (counts : Z * Z) :
  Reliable env ->
  LabelSpec.uniqueLabels w ->
  let (out, w1) := BatchProcessor.createLabel userId counts labelName env w in
  LabelSpec.uniqueLabels w1 /\
  match LabelSpec.resolved userId labelName w with
  | Some l =>
      LabelSpec.resolved userId labelName w1 = Some l /\
      labels w1 = labels w /\ trace w1 = trace w
  | None =>
      trace w1 = trace w ++ [EvGmailCreateLabel labelName] /\
      match gmailCreateLabel env (S (steps w)) labelName with
      | Return id =>
          exists l, LabelSpec.resolved userId labelName w1 = Some l /\
                    gmailLabelId l = id /\ labels w1 = labels w ++ [l]
      | Throw _ => labels w1 = labels w
      end
  end /\
  (forall l, LabelSpec.resolved userId labelName w1 = Some l ->
     forall counts',
       let (out2, w2) := BatchProcessor.createLabel userId counts' labelName env w1 in
       out2 = Return (fst counts', snd counts' + 1) /\
       labels w2 = labels w1 /\ trace w2 = trace w1 /\
       LabelSpec.resolved userId labelName w2 = Some l /\
       fst (MongoDatabase.getLabelByName userId labelName env w2) = Return (Some l)) /\
  (forall env' w' u n id c a,
     LabelSpec.uniqueLabels w' ->
     LabelSpec.uniqueLabels (snd (MongoDatabase.saveLabel u n id c a env' w'))) /\
  (forall env' w' bid o,
     LabelSpec.uniqueLabels w' ->
     LabelSpec.uniqueLabels (snd (BatchProcessor.batchCreateLabels bid o env' w'))).
Proof.
  intros Hrel Huniq.
  pose proof (unique_createLabel userId counts labelName env w) as [Hkeep _].
  destruct (BatchProcessor.createLabel userId counts labelName env w) as [out w1] eqn:Hrun.
  cbn [snd] in Hkeep. split; [exact (Hkeep Huniq) |]. split; [| split; [| split]].
  - destruct (LabelSpec.resolved userId labelName w) as [l |] eqn:Hl.
    + rewrite (createLabel_existing env Hrel w userId labelName counts l Hl) in Hrun.
      injection Hrun as _ <-. auto.
    + destruct (createLabel_absent env Hrel w userId labelName counts Hl) as (w1' & Htr & Hcase).
      destruct (gmailCreateLabel env (S (steps w)) labelName) as [id | err].
      * destruct Hcase as [Hrun' Hlabels]. rewrite Hrun in Hrun'. injection Hrun' as _ ->.
        split; [exact Htr |]. eexists. split; [| split; [| exact Hlabels]]; [| reflexivity].
        unfold LabelSpec.resolved. rewrite Hlabels. apply find_app_new; [exact Hl |].
        apply sameLabelKey_iff. reflexivity.
      * destruct Hcase as [Hrun' Hlabels]. rewrite Hrun in Hrun'. injection Hrun' as _ ->.
        split; [exact Htr | exact Hlabels].
  - intros l Hl counts'.
    rewrite (createLabel_existing env Hrel w1 userId labelName counts' l Hl).
    split; [reflexivity |]. split; [reflexivity |]. split; [reflexivity |].
    split; [exact Hl |].
    unfold MongoDatabase.getLabelByName, tryCatch, bind, dbOp, gets. rewrite Hrel. cbn.
    unfold LabelSpec.resolved in Hl. rewrite Hl. reflexivity.
  - intros env' w' u n id c a. apply (unique_saveLabel u n id c a env' w').
  - intros env' w' bid o. apply (unique_batchCreateLabels bid o env' w').
Qed.

Lemma label_resolution_idempotent_witness :
  Reliable Scenario.calmEnv /\ LabelSpec.uniqueLabels Scenario.emptyWorld /\
  exists l w1 w2,
    BatchProcessor.createLabel Scenario.user1 (0, 0) (str "Work") Scenario.calmEnv
      Scenario.emptyWorld = (Return (1, 0), w1) /\
    LabelSpec.resolved Scenario.user1 (str "Work") w1 = Some l /\
    gmailLabelId l = str "Label_Work" /\
    BatchProcessor.createLabel Scenario.user1 (1, 0) (str "Work") Scenario.calmEnv w1
      = (Return (1, 1), w2) /\
    labels w2 = [l] /\ trace w2 = [EvGmailCreateLabel (str "Work")].
Proof.
  assert (Hrel : Reliable Scenario.calmEnv) by (intros n; reflexivity).
  assert (Hu : LabelSpec.uniqueLabels Scenario.emptyWorld) by constructor.
  split; [exact Hrel |]. split; [exact Hu |].
  pose proof (label_resolution_idempotent Scenario.calmEnv Scenario.emptyWorld
                Scenario.user1 (str "Work") (0, 0) Hrel Hu) as H.
  destruct (BatchProcessor.createLabel Scenario.user1 (0, 0) (str "Work") Scenario.calmEnv
              Scenario.emptyWorld) as [out w1] eqn:Hrun.
  destruct H as (_ & Hfirst & Hagain & _).
  change (LabelSpec.resolved Scenario.user1 (str "Work") Scenario.emptyWorld)
    with (@None Label) in Hfirst.
  destruct Hfirst as [Htr Hnew].
  change (gmailCreateLabel Scenario.calmEnv (S (steps Scenario.emptyWorld)) (str "Work"))
    with (@Return jsstring (str "Label_" ++ str "Work")) in Hnew.
  destruct Hnew as (l & Hl & Hid & Hlabels).
  specialize (Hagain l Hl (1, 0)).
  destruct (BatchProcessor.createLabel Scenario.user1 (1, 0) (str "Work") Scenario.calmEnv w1)
    as [out2 w2] eqn:Hrun2.
  destruct Hagain as (Hout2 & Hl2 & Htr2 & _).
  exists l, w1, w2. split.
  { f_equal. apply (f_equal fst) in Hrun. cbn [fst] in Hrun. rewrite <- Hrun.
    vm_compute. reflexivity. }
  split; [exact Hl |]. split; [rewrite Hid; vm_compute; reflexivity |].
  split; [rewrite Hrun2, Hout2; reflexivity |].
  split; [rewrite Hl2, Hlabels; reflexivity | rewrite Htr2, Htr; reflexivity].
Defined.

(** *** assignLabels: a second run over synced records is a no-op *)

Section AssignLabels.
Import MongoDatabase BatchProcessor AssignSpec.

(** The selection looks at a record only through what [unmarked] keeps. *)
Lemma matchesQuery_unmarked u q e : matchesQuery u q (unmarked e) = matchesQuery u q e.
Proof. reflexivity. Qed.

Lemma filter_unmarked u q (l : list Email) :
  map unmarked (List.filter (matchesQuery u q) l)
  = List.filter (matchesQuery u q) (map unmarked l).
Proof.
  induction l as [| e l IH]; [reflexivity |]. cbn [List.filter map].
  rewrite matchesQuery_unmarked. destruct (matchesQuery u q e); cbn [map]; congruence.
Qed.

Lemma insertByTimestamp_unmarked e (l : list Email) :
  map unmarked (insertByTimestamp e l) = insertByTimestamp (unmarked e) (map unmarked l).
Proof.
  induction l as [| x l IH]; [reflexivity |]. cbn [insertByTimestamp map].
  change (timestamp (unmarked x)) with (timestamp x).
  change (timestamp (unmarked e)) with (timestamp e).
  destruct (timestamp x <=? timestamp e); cbn [map]; congruence.
Qed.

Lemma sort_unmarked (l : list Email) :
  map unmarked (sortByTimestampDesc l) = sortByTimestampDesc (map unmarked l).
Proof.
  unfold sortByTimestampDesc. induction l as [| e l IH]; [reflexivity |].
  cbn [foldr map]. rewrite insertByTimestamp_unmarked, IH. reflexivity.
Qed.

Lemma selectEmails_unmarked u q (l : list Email) :
  map unmarked (selectEmails u q l) = selectEmails u q (map unmarked l).
Proof.
  unfold selectEmails, Collection.limit.
  rewrite <- filter_unmarked, <- sort_unmarked.
  change (map unmarked) with (fmap (M := list) unmarked).
  destruct (numOr (q_limit q) 50 =? 0); [reflexivity |].
  destruct (numOr (q_limit q) 50 <? 0); apply fmap_take.
Qed.

(** The selection is part of the collection. *)
Lemma In_insertByTimestamp x e (l : list Email) :
  In x (insertByTimestamp e l) -> x = e \/ In x l.
Proof.
  induction l as [| y l IH]; cbn [insertByTimestamp].
  - intros [<- | []]. auto.
  - destruct (timestamp y <=? timestamp e).
    + intros [<- | H]; auto.
    + intros [<- | H]; [right; left; reflexivity |].
      destruct (IH H) as [-> | H']; [auto | right; right; exact H'].
Qed.

Lemma In_sort x (l : list Email) : In x (sortByTimestampDesc l) -> In x l.
Proof.
  unfold sortByTimestampDesc. induction l as [| e l IH]; cbn [foldr]; [auto |].
  intros H. apply In_insertByTimestamp in H as [-> | H]; [left; reflexivity |].
  right. apply IH. exact H.
Qed.

Lemma In_selectEmails u q x (l : list Email) : In x (selectEmails u q l) -> In x l.
Proof.
  unfold selectEmails. intros H.
  destruct (limit_take (numOr (q_limit q) 50)
              (sortByTimestampDesc (List.filter (matchesQuery u q) l))) as [k Hk].
  rewrite Hk in H.
  apply list_elem_of_In, elem_of_take in H as (i & H & _).
  apply list_elem_of_lookup_2, list_elem_of_In, In_sort, List.filter_In in H as [H _].
  exact H.
Qed.

Lemma SyncOnly_refl w : SyncOnly w w.
Proof. reflexivity. Qed.

Lemma SyncOnly_trans w1 w2 w3 : SyncOnly w1 w2 -> SyncOnly w2 w3 -> SyncOnly w1 w3.
Proof. unfold SyncOnly. congruence. Qed.

Lemma SyncOnly_same w w' : emails w' = emails w -> SyncOnly w w'.
Proof. unfold SyncOnly. intros ->. reflexivity. Qed.

Lemma SyncOnly_tick w : SyncOnly w (tick w).
Proof. reflexivity. Qed.

Lemma map_unmarked_setSynced p now (l : list Email) :
  map unmarked (Collection.updateFirst p (setSynced now) l) = map unmarked l.
Proof.
  induction l as [| e l IH]; [reflexivity |]. cbn [Collection.updateFirst].
  destruct (p e); cbn [map]; [reflexivity | rewrite IH; reflexivity].
Qed.

Ltac synconly :=
  repeat (first
    [ post_step SyncOnly SyncOnly_refl SyncOnly_trans SyncOnly_tick
    | apply SyncOnly_same; reflexivity ]).

Lemma synconly_markSynced g : Post SyncOnly anyValue (markSynced g).
Proof. unfold markSynced. synconly. unfold SyncOnly. cbn. apply map_unmarked_setSynced. Qed.

Lemma synconly_getLabelByName u n : Post SyncOnly anyValue (getLabelByName u n).
Proof. unfold getLabelByName. synconly. Qed.

Lemma synconly_getEmails u q : Post SyncOnly anyValue (getEmails u q).
Proof. unfold getEmails. synconly. Qed.

Lemma synconly_assignLabel u c e : Post SyncOnly anyValue (assignLabel u c e).
Proof.
  unfold assignLabel. destruct c.
  synconly; try apply synconly_getLabelByName; try apply synconly_markSynced; synconly.
Qed.

Lemma synconly_batchAssignLabels bid o : Post SyncOnly anyValue (batchAssignLabels bid o).
Proof.
  unfold batchAssignLabels.
  synconly; try apply synconly_getEmails; try apply synconly_assignLabel; synconly.
Qed.

(** Keys are unique in a collection with the unique index on
    [(gmailId, userId)]: two records with the same key are the same. *)
Lemma NoDup_key_inj (l : list Email) (x y : Email) :
  NoDup (map emailKey l) -> In x l -> In y l -> emailKey x = emailKey y -> x = y.
Proof.
  induction l as [| e l IH]; cbn; [contradiction |].
  intros Hnd Hx Hy Hk. apply NoDup_cons in Hnd as [Hnotin Hnd].
  destruct Hx as [-> | Hx], Hy as [-> | Hy]; auto.
  - exfalso. apply Hnotin. rewrite Hk. apply list_elem_of_In, in_map, Hy.
  - exfalso. apply Hnotin. rewrite <- Hk. apply list_elem_of_In, in_map, Hx.
Qed.

Lemma emailKey_unmarked (l l' : list Email) :
  map unmarked l' = map unmarked l -> map emailKey l' = map emailKey l.
Proof.
  intros H. apply (f_equal (map emailKey)) in H. rewrite !map_map in H. exact H.
Qed.

(** When every selected record is synced, the run selects nothing to
    label, calls nobody and changes nothing. *)
Lemma batchAssignLabels_noop env w bid o :
  Reliable env ->
  Forall (fun e => synced e = true) (selected o w) ->
  batchAssignLabels bid o env w =
    (Return (<["emailsProcessed" := JNum 0]>
             (<["emailsTotal" := JNum 0]>
              (<["operation" := JStr (str "assignLabels")]> ∅))), tick w).
Proof.
  intros Hrel Hall. unfold batchAssignLabels, getEmails, tryCatch, bind, dbOp, gets.
  rewrite Hrel. cbn [batchLogs emails tick].
  change (selectEmails (o_userId o) _ (emails w)) with (selected o w).
  rewrite (filter_none (fun email => negb (synced email)) (selected o w)); [reflexivity |].
  intros e He. rewrite List.Forall_forall in Hall. rewrite (Hall e He). reflexivity.
Qed.

End AssignLabels.

(** C9. With the store reachable and message keys unique: if a run of
    [batchAssignLabels] leaves every record it selected synced, then a
    second run over the same options selects no unsynced record, returns
    [emailsProcessed = 0] and [emailsTotal = 0], adds no event to the
    trace (no call to the provider) and leaves the emails and the labels
    as they are. *)
Theorem assignLabels_twice_is_noop
    (env : Env) (w : World) (bid : jsstring) (o : Options) :
  Reliable env ->
  NoDup (map AssignSpec.emailKey (emails w)) ->
  let (out1, w1) := BatchProcessor.batchAssignLabels bid o env w in
  (forall e, In e (AssignSpec.selected o w) ->
     exists e', In e' (emails w1) /\
                AssignSpec.emailKey e' = AssignSpec.emailKey e /\ synced e' = true) ->
  List.filter (fun email => negb (synced email)) (AssignSpec.selected o w1) = [] /\
  exists r w2,
    BatchProcessor.batchAssignLabels bid o env w1 = (Return r, w2) /\
    r !! "emailsProcessed" = Some (JNum 0) /\ r !! "emailsTotal" = Some (JNum 0) /\
    trace w2 = trace w1 /\ emails w2 = emails w1 /\ labels w2 = labels w1.
Proof.
  intros Hrel Hnd.
  pose proof (synconly_batchAssignLabels bid o env w) as [Hsync _].
  destruct (BatchProcessor.batchAssignLabels bid o env w) as [out1 w1].
  cbn [snd] in Hsync. intros Hmarked.
  assert (Hall : Forall (fun e => synced e = true) (AssignSpec.selected o w1)).
  { apply List.Forall_forall. intros e1 He1.
    assert (Hsel : In (AssignSpec.unmarked e1)
                      (map AssignSpec.unmarked (AssignSpec.selected o w))).
    { unfold AssignSpec.selected. rewrite selectEmails_unmarked, <- Hsync,
        <- selectEmails_unmarked. apply in_map. exact He1. }
    apply in_map_iff in Hsel as (e & Hee & He).
    destruct (Hmarked e He) as (e' & He' & Hk & Hs).
    assert (Hk1 : AssignSpec.emailKey e1 = AssignSpec.emailKey e).
    { change (AssignSpec.emailKey (AssignSpec.unmarked e1)
              = AssignSpec.emailKey (AssignSpec.unmarked e)). rewrite Hee. reflexivity. }
    assert (Heq : e1 = e').
    { apply (NoDup_key_inj (emails w1)); [| | exact He' | congruence].
      - rewrite (emailKey_unmarked _ _ Hsync). exact Hnd.
      - eapply In_selectEmails. exact He1. }
    subst e'. exact Hs. }
  split.
  - apply filter_none. intros e He. rewrite List.Forall_forall in Hall.
    rewrite (Hall e He). reflexivity.
  - rewrite (batchAssignLabels_noop env w1 bid o Hrel Hall).
    eexists _, _. split; [reflexivity |]. repeat split; reflexivity.
Qed.

Lemma assignLabels_twice_is_noop_witness :
  let w1 := snd (BatchProcessor.batchAssignLabels Scenario.firstBatch Scenario.noOptions
                   Scenario.calmEnv Scenario.inboxWorld) in
  Reliable Scenario.calmEnv /\
  NoDup (map AssignSpec.emailKey (emails Scenario.inboxWorld)) /\
  trace w1 = [EvGmailModify (str "m0") (str "Label_7")] /\
  exists r w2,
    BatchProcessor.batchAssignLabels Scenario.firstBatch Scenario.noOptions
      Scenario.calmEnv w1 = (Return r, w2) /\
    r !! "emailsProcessed" = Some (JNum 0) /\
    trace w2 = trace w1 /\ emails w2 = emails w1.
Proof.
  intros w1.
  assert (Hrel : Reliable Scenario.calmEnv) by (intros n; reflexivity).
  assert (Hnd : NoDup (map AssignSpec.emailKey (emails Scenario.inboxWorld))).
  { cbn. apply NoDup_singleton. }
  split; [exact Hrel |]. split; [exact Hnd |]. split; [vm_compute; reflexivity |].
  pose proof (assignLabels_twice_is_noop Scenario.calmEnv Scenario.inboxWorld
                Scenario.firstBatch Scenario.noOptions Hrel Hnd) as H.
  fold w1. rewrite (surjective_pairing (BatchProcessor.batchAssignLabels _ _ _ _)) in H.
  fold w1 in H.
  destruct H as (_ & r & w2 & Hrun & Hp & _ & Htr & Hem & _).
  - intros e He. vm_compute in He. destruct He as [<- | []].
    eexists. split; [vm_compute; left; reflexivity |]. split; reflexivity.
  - exists r, w2. auto.
Defined.

(** *** BatchOrchestrator: the lifecycle of a job under [executeBatch] *)

Section Lifecycle.
Import MongoDatabase BatchProcessor BatchSpec.

Lemma find_updateFirst bid upd (l : list BatchLog) :
  List.find (hasBatchId bid) (Collection.updateFirst (hasBatchId bid) (applySet upd) l)
  = option_map (applySet upd) (List.find (hasBatchId bid) l).
Proof.
  induction l as [| b l IH]; [reflexivity |]. cbn [Collection.updateFirst List.find].
  destruct (hasBatchId bid b) eqn:E; cbn [List.find].
  - change (hasBatchId bid (applySet upd b)) with (hasBatchId bid b). rewrite E. reflexivity.
  - rewrite E. exact IH.
Qed.

Lemma statusView_find bid (l l' : list BatchLog) :
  statusView l = statusView l' ->
  option_map statusOf (List.find (hasBatchId bid) l)
  = option_map statusOf (List.find (hasBatchId bid) l').
Proof.
  revert l'. induction l as [| b l IH]; intros [| b' l'] H; try discriminate; [reflexivity |].
  cbn in H. injection H as Hid Hst Hrest. cbn [List.find]. unfold hasBatchId at 1 3.
  rewrite Hid. destruct (jsstring_eqb (batchId b') bid); cbn; [congruence | auto].
Qed.

Lemma Quiet_job bid w w' b :
  Quiet w w' -> job bid w = Some b ->
  exists b', job bid w' = Some b' /\ statusOf b' = statusOf b.
Proof.
  intros (_ & _ & _ & Hv) Hb. unfold job in *.
  pose proof (statusView_find bid _ _ Hv) as H. rewrite Hb in H.
  destruct (List.find _ (batchLogs w')) as [b' |]; [| discriminate].
  exists b'. split; [reflexivity |]. cbn in H. congruence.
Qed.

Variable env : Env.
Hypothesis Hrel : Reliable env.

(** With the store reachable, [updateBatchLog] sets the given
    properties and [updatedAt] on the job and logs the write. *)
Lemma updateBatchLog_run w bid upd :
  let upd' := <["updatedAt" := JDate (clock env (steps w))]> upd in
  exists w', updateBatchLog bid upd env w = (Return tt, w') /\
    batchLogs w' = Collection.updateFirst (hasBatchId bid) (applySet upd') (batchLogs w) /\
    trace w' = trace w ++ [EvBatchUpdate bid upd'] /\
    emails w' = emails w /\ labels w' = labels w.
Proof.
  unfold updateBatchLog, tryCatch, bind, Date_now, dbOp, modify, throw. cbn.
  rewrite Hrel. eexists. split; [reflexivity |]. repeat split; reflexivity.
Qed.

Lemma updateBatchLog_job w bid upd b :
  job bid w = Some b ->
  let upd' := <["updatedAt" := JDate (clock env (steps w))]> upd in
  exists w', updateBatchLog bid upd env w = (Return tt, w') /\
    job bid w' = Some (applySet upd' b) /\
    trace w' = trace w ++ [EvBatchUpdate bid upd'] /\
    emails w' = emails w /\ labels w' = labels w.
Proof.
  intros Hb upd'. destruct (updateBatchLog_run w bid upd) as (w' & Hrun & Hlogs & Htr & He & Hl).
  exists w'. split; [exact Hrun |]. split; [| auto].
  unfold job in *. rewrite Hlogs, find_updateFirst, Hb. reflexivity.
Qed.

(** The [try] block up to the dispatch: the job is found and marked
    ['running']. *)
Lemma executeBatch_try_prefix w this bid tok b :
  job bid w = Some b ->
  exists w2 updR,
    updR !! "status" = Some running /\
    job bid w2 = Some (applySet updR b) /\
    trace w2 = trace w ++ [EvBatchUpdate bid updR] /\
    executeBatch_try this bid tok env w =
      match dispatch this bid b env w2 with
      | (Return result, w3) =>
          (let* endTime := Date_now in
           let* _ := updateBatchLog bid
                       (spread (<["status" := completed]> (<["endTime" := JDate endTime]> ∅))
                               result) in
           ret result) env w3
      | (Throw e, w3) => (Throw e, w3)
      end.
Proof.
  intros Hb.
  set (w1 := tick (tick (set_oauth (mkCredentials (access_token tok) (refresh_token tok)) w))).
  assert (Hb1 : job bid w1 = Some b) by exact Hb.
  destruct (updateBatchLog_job w1 bid
              (<["status" := running]> (<["startTime" := JDate (clock env (S (steps w)))]> ∅))
              b Hb1) as (w2 & Hrun & Hjob & Htr & _).
  eexists w2, _. split; [| split; [exact Hjob | split; [exact Htr |]]].
  - rewrite lookup_insert_ne by discriminate. apply lookup_insert_eq.
  - unfold executeBatch_try, setCredentials, findBatchLog.
    unfold bind at 1, modify. unfold bind at 1. unfold bind at 1, dbOp. cbn [steps set_oauth].
    rewrite Hrel. unfold gets. unfold job in Hb. cbn [batchLogs tick set_oauth]. rewrite Hb.
    unfold bind at 1, Date_now at 1. cbn [steps tick].
    change (steps (set_oauth _ w)) with (steps w).
    unfold bind at 1. fold w1. unfold running in Hrun. rewrite Hrun.
    unfold bind at 1. unfold completed. reflexivity.
Qed.

(** The [catch] block: the job is marked ['failed'] and the error is
    thrown again. *)
Lemma executeBatch_catch_run w bid e b :
  job bid w = Some b ->
  let updF := <["updatedAt" := JDate (clock env (S (steps w)))]>
                (<["status" := failed]>
                 (<["endTime" := JDate (clock env (steps w))]>
                  (<["errors" := JArr [JStr (err_message e)]]> ∅))) in
  exists w', executeBatch_catch bid e env w = (Throw e, w') /\
    job bid w' = Some (applySet updF b) /\
    trace w' = trace w ++ [EvBatchUpdate bid updF] /\
    emails w' = emails w /\ labels w' = labels w.
Proof.
  intros Hb updF.
  assert (Hb1 : job bid (tick w) = Some b) by exact Hb.
  destruct (updateBatchLog_job (tick w) bid
              (<["status" := failed]>
               (<["endTime" := JDate (clock env (steps w))]>
                (<["errors" := JArr [JStr (err_message e)]]> ∅))) b Hb1)
    as (w' & Hrun & Hjob & Htr & He & Hl).
  exists w'. unfold executeBatch_catch. unfold bind at 1, Date_now at 1.
  unfold bind at 1. unfold failed in Hrun. rewrite Hrun. auto.
Qed.

(** One call of [executeBatch] on a job the store holds. *)
Lemma executeBatch_cases w this bid tok b :
  job bid w = Some b ->
  exists w2 updR w3 b3 evs out,
    updR !! "status" = Some running /\
    job bid w2 = Some (applySet updR b) /\
    trace w2 = trace w ++ [EvBatchUpdate bid updR] /\
    dispatch this bid b env w2 = (out, w3) /\
    trace w3 = trace w2 ++ evs /\ (forall bid', statusWrites bid' evs = []) /\
    job bid w3 = Some b3 /\ statusOf b3 = Some running /\
    match out with
    | Return r =>
        noStatus r /\
        let updC := <["updatedAt" := JDate (clock env (S (steps w3)))]>
                      (spread (<["status" := completed]>
                               (<["endTime" := JDate (clock env (steps w3))]> ∅)) r) in
        exists w4, executeBatch this bid tok env w = (Return r, w4) /\
          job bid w4 = Some (applySet updC b3) /\
          trace w4 = trace w3 ++ [EvBatchUpdate bid updC]
    | Throw e =>
        executeBatch_try this bid tok env w = (Throw e, w3) /\
        let updF := <["updatedAt" := JDate (clock env (S (steps w3)))]>
                      (<["status" := failed]>
                       (<["endTime" := JDate (clock env (steps w3))]>
                        (<["errors" := JArr [JStr (err_message e)]]> ∅))) in
        exists w4, executeBatch this bid tok env w = (Throw e, w4) /\
          job bid w4 = Some (applySet updF b3) /\
          trace w4 = trace w3 ++ [EvBatchUpdate bid updF]
    end.
Proof.
  intros Hb.
  destruct (executeBatch_try_prefix w this bid tok b Hb) as (w2 & updR & HupdR & Hj2 & Ht2 & Htry).
  destruct (quiet_dispatch this bid b env w2) as [Hq Hret].
  destruct (dispatch this bid b env w2) as [out w3] eqn:Hd. cbn [fst snd] in Hq, Hret.
  destruct (Quiet_job bid w2 w3 _ Hq Hj2) as (b3 & Hj3 & Hs3).
  assert (Hrun3 : statusOf b3 = Some running).
  { rewrite Hs3. unfold statusOf, applySet, spread. cbn [fields].
    apply lookup_union_Some_l. exact HupdR. }
  destruct Hq as (evs & Ht3 & Hquiet & _).
  exists w2, updR, w3, b3, evs, out.
  do 8 (split; [assumption || reflexivity |]).
  destruct out as [r | e].
  - split; [apply Hret; reflexivity |]. intros updC.
    assert (Hj3' : job bid (tick w3) = Some b3) by exact Hj3.
    destruct (updateBatchLog_job (tick w3) bid
                (spread (<["status" := completed]>
                         (<["endTime" := JDate (clock env (steps w3))]> ∅)) r) b3 Hj3')
      as (w4 & Hrun & Hj4 & Ht4 & _).
    exists w4. split; [| split; [exact Hj4 | exact Ht4]].
    unfold executeBatch, tryCatch. rewrite Htry.
    unfold bind at 1, Date_now at 1. unfold bind at 1. rewrite Hrun. reflexivity.
  - assert (Htry' : executeBatch_try this bid tok env w = (Throw e, w3)) by exact Htry.
    split; [exact Htry' |]. intros updF.
    destruct (executeBatch_catch_run w3 bid e b3 Hj3) as (w4 & Hrun & Hj4 & Ht4 & _).
    exists w4. split; [| split; [exact Hj4 | exact Ht4]].
    unfold executeBatch, tryCatch. rewrite Htry'. exact Hrun.
Qed.

End Lifecycle.

Lemma updateFirst_none {A} (p : A -> bool) (f : A -> A) (l : list A) :
  List.find p l = None -> Collection.updateFirst p f l = l.
Proof.
  induction l as [| x l IH]; [reflexivity |]. cbn.
  destruct (p x); [discriminate |]. intros H. rewrite IH by exact H. reflexivity.
Qed.

Lemma statusWritten_self bid upd v :
  upd !! "status" = Some v ->
  BatchSpec.statusWritten bid (EvBatchUpdate bid upd) = [v].
Proof.
  intros H. cbn. unfold jsstring_eqb. rewrite bool_decide_eq_true_2 by reflexivity.
  rewrite H. reflexivity.
Qed.

(** **** The same, whatever the store does *)

Section AnyStore.
Import MongoDatabase BatchProcessor BatchSpec.

Variable env : Env.

(** [updateBatchLog] writes unless the store fails, and then it throws
    what the store threw. *)
Lemma updateBatchLog_any w bid upd :
  let upd' := <["updatedAt" := JDate (clock env (steps w))]> upd in
  match dbFault env (S (steps w)) with
  | Some e =>
      exists w', updateBatchLog bid upd env w = (Throw e, w') /\
        batchLogs w' = batchLogs w /\ trace w' = trace w /\
        emails w' = emails w /\ labels w' = labels w
  | None =>
      exists w', updateBatchLog bid upd env w = (Return tt, w') /\
        batchLogs w' = Collection.updateFirst (hasBatchId bid) (applySet upd') (batchLogs w) /\
        trace w' = trace w ++ [EvBatchUpdate bid upd'] /\
        emails w' = emails w /\ labels w' = labels w
  end.
Proof.
  unfold updateBatchLog, tryCatch, bind, Date_now, dbOp, modify, throw. cbn.
  destruct (dbFault env (S (steps w)));
    (eexists; split; [reflexivity |]; repeat split; reflexivity).
Qed.

Lemma job_updateFirst bid upd w w' :
  batchLogs w' = Collection.updateFirst (hasBatchId bid) (applySet upd) (batchLogs w) ->
  job bid w' = option_map (applySet upd) (job bid w).
Proof. intros H. unfold job. rewrite H. apply find_updateFirst. Qed.

Lemma job_same bid w w' : batchLogs w' = batchLogs w -> job bid w' = job bid w.
Proof. intros H. unfold job. rewrite H. reflexivity. Qed.

(** The [catch] block, whatever the store does: the failure is recorded
    and the error thrown again, or the write fails, nothing is recorded
    and the error of the write is thrown. *)
Lemma executeBatch_catch_any w bid e :
  let updF := <["updatedAt" := JDate (clock env (S (steps w)))]>
                (<["status" := failed]>
                 (<["endTime" := JDate (clock env (steps w))]>
                  (<["errors" := JArr [JStr (err_message e)]]> ∅))) in
  match recordFault env w with
  | Some e' =>
      exists w', executeBatch_catch bid e env w = (Throw e', w') /\
        batchLogs w' = batchLogs w /\ trace w' = trace w /\
        emails w' = emails w /\ labels w' = labels w
  | None =>
      exists w', executeBatch_catch bid e env w = (Throw e, w') /\
        batchLogs w' = Collection.updateFirst (hasBatchId bid) (applySet updF) (batchLogs w) /\
        trace w' = trace w ++ [EvBatchUpdate bid updF] /\
        emails w' = emails w /\ labels w' = labels w
  end.
Proof.
  intros updF. unfold recordFault.
  pose proof (updateBatchLog_any (tick w) bid
                (<["status" := failed]>
                 (<["endTime" := JDate (clock env (steps w))]>
                  (<["errors" := JArr [JStr (err_message e)]]> ∅)))) as H.
  cbn [steps tick] in H. unfold failed in *.
  destruct (dbFault env (S (S (steps w)))); destruct H as (w' & Hrun & H); exists w';
    (split; [| exact H]); unfold executeBatch_catch;
    unfold bind at 1, Date_now at 1; unfold bind at 1; rewrite Hrun; reflexivity.
Qed.

(** What the [try] block leaves behind on a job the store holds.  When it
    returns, ['running'] and ['completed'] have been written and the job
    carries the result.  When it throws, either ['running'] has been
    written and the job is still running, or nothing has been written,
    the job is as it was and the store has failed. *)
Lemma executeBatch_try_any w this bid tok b :
  job bid w = Some b ->
  exists out w2 evs b2,
    executeBatch_try this bid tok env w = (out, w2) /\
    trace w2 = trace w ++ evs /\
    job bid w2 = Some b2 /\
    match out with
    | Return r =>
        statusWrites bid evs = [running; completed] /\
        statusOf b2 = Some completed /\
        forall k v, k <> "updatedAt"%string -> r !! k = Some v -> fields b2 !! k = Some v
    | Throw e =>
        (statusWrites bid evs = [running] /\ statusOf b2 = Some running) \/
        (statusWrites bid evs = [] /\ statusOf b2 = statusOf b /\ ~ Reliable env)
    end.
Proof.
  intros Hb.
  unfold executeBatch_try, setCredentials, findBatchLog.
  unfold bind at 1, modify. unfold bind at 1. unfold bind at 1, dbOp. cbn [steps set_oauth].
  destruct (dbFault env (steps w)) as [e0 |] eqn:F0.
  { eexists (Throw e0), _, [], b. split; [reflexivity |].
    split; [cbn; rewrite app_nil_r; reflexivity |]. split; [exact Hb |].
    right. split; [reflexivity |]. split; [reflexivity |].
    intros Hrel. rewrite Hrel in F0. discriminate. }
  unfold gets. unfold job in Hb. cbn [batchLogs tick set_oauth]. rewrite Hb.
  unfold bind at 1, Date_now at 1. cbn [steps tick].
  change (steps (set_oauth _ w)) with (steps w).
  set (w1 := tick (tick (set_oauth (mkCredentials (access_token tok) (refresh_token tok)) w))).
  assert (Hb1 : job bid w1 = Some b) by exact Hb.
  unfold bind at 1.
  pose proof (updateBatchLog_any w1 bid
                (<["status" := running]> (<["startTime" := JDate (clock env (S (steps w)))]> ∅)))
    as Hupd.
  unfold running in Hupd.
  destruct (dbFault env (S (steps w1))) as [e1 |] eqn:F1.
  { destruct Hupd as (w2 & -> & Hlogs & Htr & _).
    eexists (Throw e1), w2, [], b. split; [reflexivity |].
    split; [rewrite Htr, app_nil_r; reflexivity |].
    split; [rewrite (job_same bid w1 w2 Hlogs); exact Hb1 |].
    right. split; [reflexivity |]. split; [reflexivity |].
    intros Hrel. rewrite Hrel in F1. discriminate. }
  destruct Hupd as (w2 & -> & Hlogs2 & Htr2 & _).
  set (updR := <["updatedAt" := JDate (clock env (steps w1))]>
                 (<["status" := JStr (str "running")]>
                  (<["startTime" := JDate (clock env (S (steps w)))]> ∅))) in *.
  assert (HupdR : updR !! "status" = Some running).
  { unfold updR. rewrite lookup_insert_ne by discriminate. apply lookup_insert_eq. }
  assert (Hj2 : job bid w2 = Some (applySet updR b)).
  { rewrite (job_updateFirst bid updR w1 w2 Hlogs2), Hb1. reflexivity. }
  unfold bind at 1.
  destruct (quiet_dispatch this bid b env w2) as [Hq Hret].
  destruct (dispatch this bid b env w2) as [out w3] eqn:Hd. cbn [fst snd] in Hq, Hret.
  destruct (Quiet_job bid w2 w3 _ Hq Hj2) as (b3 & Hj3 & Hs3).
  assert (Hrun3 : statusOf b3 = Some running).
  { rewrite Hs3. unfold statusOf, applySet, spread. cbn [fields].
    apply lookup_union_Some_l. exact HupdR. }
  destruct Hq as (evs & Ht3 & Hquiet & _).
  assert (Hwrites : statusWrites bid (EvBatchUpdate bid updR :: evs) = [running]).
  { change (statusWrites bid (?x :: ?l)) with (statusWritten bid x ++ statusWrites bid l).
    rewrite (statusWritten_self bid updR _ HupdR), Hquiet. reflexivity. }
  destruct out as [r | e].
  2:{ eexists (Throw e), w3, (EvBatchUpdate bid updR :: evs), b3. split; [reflexivity |].
      split; [rewrite Ht3, Htr2, <- app_assoc; reflexivity |]. split; [exact Hj3 |].
      left. split; [exact Hwrites | exact Hrun3]. }
  unfold bind at 1, Date_now at 1. unfold bind at 1.
  pose proof (updateBatchLog_any (tick w3) bid
                (spread (<["status" := JStr (str "completed")]>
                         (<["endTime" := JDate (clock env (steps w3))]> ∅)) r)) as Hupd.
  cbn [steps tick] in Hupd.
  destruct (dbFault env (S (S (steps w3)))) as [e2 |] eqn:F2.
  { destruct Hupd as (w4 & -> & Hlogs & Htr & _).
    eexists (Throw e2), w4, (EvBatchUpdate bid updR :: evs), b3. split; [reflexivity |].
    split; [rewrite Htr; cbn [trace tick]; rewrite Ht3, Htr2, <- app_assoc; reflexivity |].
    split; [rewrite (job_same bid (tick w3) w4 Hlogs); exact Hj3 |].
    left. split; [exact Hwrites | exact Hrun3]. }
  destruct Hupd as (w4 & -> & Hlogs4 & Htr4 & _).
  set (updC := <["updatedAt" := JDate (clock env (S (steps w3)))]>
                 (spread (<["status" := JStr (str "completed")]>
                          (<["endTime" := JDate (clock env (steps w3))]> ∅)) r)) in *.
  assert (Hr : noStatus r) by (apply Hret; reflexivity).
  assert (HupdC : updC !! "status" = Some completed).
  { unfold updC. rewrite lookup_insert_ne by discriminate. unfold spread.
    rewrite lookup_union_r by exact Hr. apply lookup_insert_eq. }
  eexists (Return r), w4, (EvBatchUpdate bid updR :: evs ++ [EvBatchUpdate bid updC]),
    (applySet updC b3).
  split; [reflexivity |].
  split; [rewrite Htr4; cbn [trace tick]; rewrite Ht3, Htr2, <- !app_assoc; reflexivity |].
  split.
  { rewrite (job_updateFirst bid updC (tick w3) w4 Hlogs4).
    change (job bid (tick w3)) with (job bid w3). rewrite Hj3. reflexivity. }
  split; [| split].
  - change (statusWrites bid (?x :: ?l)) with (statusWritten bid x ++ statusWrites bid l).
    rewrite (statusWritten_self bid updR _ HupdR), statusWrites_app, Hquiet.
    cbn [app statusWrites flat_map]. rewrite (statusWritten_self bid updC _ HupdC).
    reflexivity.
  - unfold statusOf, applySet, spread. cbn [fields]. apply lookup_union_Some_l. exact HupdC.
  - intros k v Hk Hv. unfold applySet, spread. cbn [fields]. apply lookup_union_Some_l.
    unfold updC. rewrite lookup_insert_ne by congruence. apply lookup_union_Some_l. exact Hv.
Qed.

(** One call of [executeBatch] on a job the store holds, whatever the
    store does. *)
Lemma executeBatch_any w this bid tok b :
  job bid w = Some b ->
  exists out w' evs,
    executeBatch this bid tok env w = (out, w') /\
    trace w' = trace w ++ evs /\
    In (statusWrites bid evs) executions /\
    ((exists r, out = Return r) <-> statusWrites bid evs = [running; completed]) /\
    jobStatus bid w' = statusAfter (statusWrites bid evs) (jobStatus bid w) /\
    (Reliable env ->
     (exists r, out = Return r /\
        statusWrites bid evs = [running; completed] /\ jobStatus bid w' = Some completed) \/
     (exists e, out = Throw e /\
        statusWrites bid evs = [running; failed] /\ jobStatus bid w' = Some failed)).
Proof.
  intros Hb.
  destruct (executeBatch_try_any w this bid tok b Hb)
    as (out & w2 & evs & b2 & Htry & Htr & Hj2 & Hout).
  assert (Hst : jobStatus bid w = statusOf b) by (unfold jobStatus; rewrite Hb; reflexivity).
  unfold executeBatch, tryCatch. rewrite Htry. destruct out as [r | e].
  - destruct Hout as (Hw & Hs & _).
    exists (Return r), w2, evs. split; [reflexivity |]. split; [exact Htr |].
    assert (Hj : jobStatus bid w2 = Some completed)
      by (unfold jobStatus; rewrite Hj2; exact Hs).
    rewrite Hw. split; [cbn; auto |]. split; [split; eauto |].
    split; [exact Hj | intros _; left; eauto].
  - pose proof (executeBatch_catch_any w2 bid e) as Hcatch. cbn zeta in Hcatch.
    unfold recordFault in Hcatch.
    set (updF := <["updatedAt" := JDate (clock env (S (steps w2)))]>
                   (<["status" := failed]>
                    (<["endTime" := JDate (clock env (steps w2))]>
                     (<["errors" := JArr [JStr (err_message e)]]> ∅)))) in *.
    assert (HupdF : updF !! "status" = Some failed).
    { unfold updF. rewrite lookup_insert_ne by discriminate. apply lookup_insert_eq. }
    destruct (dbFault env (S (S (steps w2)))) as [e' |] eqn:F.
    + destruct Hcatch as (w' & -> & Hlogs & Htr' & _).
      exists (Throw e'), w', evs. split; [reflexivity |].
      split; [rewrite Htr'; exact Htr |].
      assert (Hj : jobStatus bid w' = statusOf b2).
      { unfold jobStatus. rewrite (job_same bid w2 w' Hlogs), Hj2. reflexivity. }
      assert (Hno : Reliable env -> False) by (intros H; rewrite H in F; discriminate).
      destruct Hout as [[Hw Hs] | (Hw & Hs & _)]; rewrite Hw.
      * split; [cbn; auto |]. split; [split; [intros [r [=]] | discriminate] |].
        split; [rewrite Hj, Hs; reflexivity | intros H; destruct (Hno H)].
      * split; [cbn; auto 6 |]. split; [split; [intros [r [=]] | discriminate] |].
        split; [rewrite Hj, Hs, Hst; reflexivity | intros H; destruct (Hno H)].
    + destruct Hcatch as (w' & -> & Hlogs & Htr' & _).
      exists (Throw e), w', (evs ++ [EvBatchUpdate bid updF]). split; [reflexivity |].
      split; [rewrite Htr', Htr, <- app_assoc; reflexivity |].
      assert (Hj : jobStatus bid w' = Some failed).
      { unfold jobStatus. rewrite (job_updateFirst bid updF w2 w' Hlogs), Hj2. cbn.
        unfold statusOf, applySet, spread. cbn [fields]. apply lookup_union_Some_l.
        exact HupdF. }
      rewrite statusWrites_app. cbn [statusWrites flat_map].
      rewrite (statusWritten_self bid updF _ HupdF), app_nil_r.
      destruct Hout as [[Hw Hs] | (Hw & Hs & Hno)]; rewrite Hw; cbn [app].
      * split; [cbn; auto |]. split; [split; [intros [r [=]] | discriminate] |].
        split; [rewrite Hj; reflexivity | intros _; right; eauto].
      * split; [cbn; auto 6 |]. split; [split; [intros [r [=]] | discriminate] |].
        split; [rewrite Hj; reflexivity | intros H; destruct (Hno H)].
Qed.


(** On an unknown batch id [executeBatch] throws and the jobs stay as
    they are. *)
Lemma executeBatch_unknown w this bid tok :
  job bid w = None ->
  exists e w', executeBatch this bid tok env w = (Throw e, w') /\ batchLogs w' = batchLogs w.
Proof.
  intros Hnone.
  assert (Htry : exists e w2, executeBatch_try this bid tok env w = (Throw e, w2) /\
                              batchLogs w2 = batchLogs w).
  { unfold executeBatch_try, setCredentials, findBatchLog.
    unfold bind at 1, modify. unfold bind at 1. unfold bind at 1, dbOp. cbn [steps set_oauth].
    destruct (dbFault env (steps w)); [eexists _, _; split; reflexivity |].
    unfold gets. unfold job in Hnone. cbn [batchLogs tick set_oauth]. rewrite Hnone.
    eexists _, _; split; reflexivity. }
  destruct Htry as (e & w2 & Htry & Hlogs2).
  unfold executeBatch, tryCatch. rewrite Htry.
  pose proof (executeBatch_catch_any w2 bid e) as Hcatch. cbn zeta in Hcatch.
  destruct (recordFault env w2) as [e' |].
  - destruct Hcatch as (w' & -> & Hlogs & _). exists e', w'. split; [reflexivity | congruence].
  - destruct Hcatch as (w' & -> & Hlogs & _). exists e, w'. split; [reflexivity |].
    rewrite Hlogs, Hlogs2. apply updateFirst_none. exact Hnone.
Qed.

(** [createBatch], whatever the store does: one job is stored, with
    status ['started'], or nothing is. *)
Lemma createBatch_any w userId operation o :
  (exists doc w',
     createBatch userId operation o env w = (Return (batchId doc), w') /\
     batchLogs w' = batchLogs w ++ [doc] /\
     trace w' = trace w ++ [EvBatchInsert doc] /\
     statusOf doc = Some (JStr (str "started"))) \/
  (exists e w',
     createBatch userId operation o env w = (Throw e, w') /\
     batchLogs w' = batchLogs w /\ trace w' = trace w).
Proof.
  unfold createBatch, generateBatchId, createBatchLog, tryCatch, bind, Date_now, dbOp,
    gets, modify, ret, throw. cbn.
  destruct (dbFault env (S (S (S (steps w))))); [right; eauto |].
  cbn. destruct (existsb _ (batchLogs w)); [right; eauto |].
  left. eexists (mkBatchLog _ _ _ _), _. split; [reflexivity |]. cbn.
  repeat split; reflexivity.
Qed.

End AnyStore.

(** C1 (amended). [createBatch] stores one new job, whose status is
    none of ['running'], ['completed'], ['failed'], and does nothing else,
    or it throws and stores nothing; with the store reachable and a fresh
    identifier it stores the job.  [executeBatch] on a job the store
    holds, whatever the current status of the job and whatever the store
    and the provider do, writes for the job one of the status sequences
    running-completed, running-failed, running, failed, or nothing; it
    returns exactly when the sequence is running-completed, and the job is
    left in the last status written, or in the status it had when nothing
    was written.  So ['completed'] is never reached without passing
    through ['running'], while ['failed'] can be; and with the store
    reachable the sequence is ['running'] and then exactly one of
    ['completed'] (it returns) or ['failed'] (it throws).  [executeBatch]
    on an unknown batch id throws and leaves the collection as it was. *)
Theorem batch_lifecycle (env : Env) :
  (forall w userId operation o,
     (exists doc w',
        BatchProcessor.createBatch userId operation o env w = (Return (batchId doc), w') /\
        batchLogs w' = batchLogs w ++ [doc] /\
        trace w' = trace w ++ [EvBatchInsert doc] /\
        BatchSpec.statusOf doc <> Some BatchSpec.running /\
        BatchSpec.statusOf doc <> Some BatchSpec.completed /\
        BatchSpec.statusOf doc <> Some BatchSpec.failed) \/
     (exists e w',
        BatchProcessor.createBatch userId operation o env w = (Throw e, w') /\
        batchLogs w' = batchLogs w /\ trace w' = trace w)) /\
  (Reliable env ->
   forall w userId operation o,
     existsb (MongoDatabase.hasBatchId (BatchSpec.nextBatchId env w)) (batchLogs w) = false ->
     exists doc w',
       BatchProcessor.createBatch userId operation o env w
         = (Return (BatchSpec.nextBatchId env w), w') /\
       batchLogs w' = batchLogs w ++ [doc] /\
       batchId doc = BatchSpec.nextBatchId env w /\
       trace w' = trace w ++ [EvBatchInsert doc] /\
       BatchSpec.statusOf doc <> Some BatchSpec.running /\
       BatchSpec.statusOf doc <> Some BatchSpec.completed /\
       BatchSpec.statusOf doc <> Some BatchSpec.failed) /\
  (forall w this bid tok b,
     BatchSpec.job bid w = Some b ->
     exists out w' evs,
       BatchProcessor.executeBatch this bid tok env w = (out, w') /\
       trace w' = trace w ++ evs /\
       In (BatchSpec.statusWrites bid evs) BatchSpec.executions /\
       ((exists r, out = Return r) <->
        BatchSpec.statusWrites bid evs = [BatchSpec.running; BatchSpec.completed]) /\
       BatchSpec.jobStatus bid w'
         = BatchSpec.statusAfter (BatchSpec.statusWrites bid evs) (BatchSpec.jobStatus bid w) /\
       (Reliable env ->
        (exists r, out = Return r /\
           BatchSpec.statusWrites bid evs = [BatchSpec.running; BatchSpec.completed] /\
           BatchSpec.jobStatus bid w' = Some BatchSpec.completed) \/
        (exists e, out = Throw e /\
           BatchSpec.statusWrites bid evs = [BatchSpec.running; BatchSpec.failed] /\
           BatchSpec.jobStatus bid w' = Some BatchSpec.failed))) /\
  (forall w this bid tok,
     BatchSpec.job bid w = None ->
     exists e w',
       BatchProcessor.executeBatch this bid tok env w = (Throw e, w') /\
       batchLogs w' = batchLogs w).
Proof.
  assert (Hstarted : forall doc,
            BatchSpec.statusOf doc = Some (JStr (str "started")) ->
            BatchSpec.statusOf doc <> Some BatchSpec.running /\
            BatchSpec.statusOf doc <> Some BatchSpec.completed /\
            BatchSpec.statusOf doc <> Some BatchSpec.failed).
  { intros doc ->. repeat split; intros H; vm_compute in H; discriminate. }
  split; [| split; [| split]].
  - intros w userId operation o.
    destruct (createBatch_any env w userId operation o)
      as [(doc & w' & Hrun & Hlogs & Htr & Hst) | H]; [left | right; exact H].
    exists doc, w'. do 3 (split; [assumption |]). apply Hstarted, Hst.
  - intros Hrel w userId operation o Hfresh.
    destruct (createBatch_run env Hrel w userId operation o Hfresh)
      as (doc & w' & Hrun & Hlogs & Htr & Hid & _ & _ & _ & Hst & _).
    exists doc, w'. do 4 (split; [assumption |]). apply Hstarted, Hst.
  - intros w this bid tok b Hb. apply (executeBatch_any env w this bid tok b Hb).
  - intros w this bid tok Hnone. apply (executeBatch_unknown env w this bid tok Hnone).
Qed.

Lemma batch_lifecycle_witness :
  Reliable Scenario.calmEnv /\
  exists out w' evs,
    BatchProcessor.executeBatch Scenario.processor Scenario.firstBatch Scenario.tokens
      Scenario.calmEnv Scenario.createdWorld = (out, w') /\
    trace w' = trace Scenario.createdWorld ++ evs /\
    ((exists r, out = Return r /\
        BatchSpec.statusWrites Scenario.firstBatch evs
          = [BatchSpec.running; BatchSpec.completed] /\
        BatchSpec.jobStatus Scenario.firstBatch w' = Some BatchSpec.completed) \/
     (exists e, out = Throw e /\
        BatchSpec.statusWrites Scenario.firstBatch evs
          = [BatchSpec.running; BatchSpec.failed] /\
        BatchSpec.jobStatus Scenario.firstBatch w' = Some BatchSpec.failed)).
Proof.
  assert (Hrel : Reliable Scenario.calmEnv) by (intros n; reflexivity).
  split; [exact Hrel |].
  destruct (batch_lifecycle Scenario.calmEnv) as (_ & _ & Hexec & _).
  destruct (BatchSpec.job Scenario.firstBatch Scenario.createdWorld) as [b |] eqn:Hb;
    [| vm_compute in Hb; discriminate].
  destruct (Hexec Scenario.createdWorld Scenario.processor Scenario.firstBatch
              Scenario.tokens b Hb) as (out & w' & evs & Hrun & Htr & _ & _ & _ & Hcases).
  exists out, w', evs. split; [exact Hrun |]. split; [exact Htr |]. apply Hcases, Hrel.
Defined.

(** C1, as stated, fails three times: the job [createBatch] persists has
    status ['started'], not ['created']; a second [executeBatch] on a
    completed job writes ['running'] and ['completed'] again; and when the
    store is unreachable at the lookup of the job, [executeBatch] takes the
    job from ['started'] to ['failed'] without ['running']. *)
Lemma status_leaves_terminal_state :
  let w1 := Scenario.createdWorld in
  let w2 := snd (BatchProcessor.executeBatch Scenario.processor Scenario.firstBatch
                   Scenario.tokens Scenario.calmEnv w1) in
  let w3 := snd (BatchProcessor.executeBatch Scenario.processor Scenario.firstBatch
                   Scenario.tokens Scenario.calmEnv w2) in
  let w4 := snd (BatchProcessor.executeBatch Scenario.processor Scenario.firstBatch
                   Scenario.tokens (Scenario.faultAt (steps w1)) w1) in
  BatchSpec.jobStatus Scenario.firstBatch w1 = Some (JStr (str "started")) /\
  BatchSpec.jobStatus Scenario.firstBatch w2 = Some BatchSpec.completed /\
  BatchSpec.statusWrites Scenario.firstBatch (trace w3)
    = [JStr (str "started"); BatchSpec.running; BatchSpec.completed;
       BatchSpec.running; BatchSpec.completed] /\
  BatchSpec.statusWrites Scenario.firstBatch (trace w4)
    = [JStr (str "started"); BatchSpec.failed] /\
  BatchSpec.jobStatus Scenario.firstBatch w4 = Some BatchSpec.failed.
Proof. vm_compute. repeat split; reflexivity. Qed.

(** C8 (amended). When the [try] block of [executeBatch] throws and the
    job is in the store at that moment, the [catch] block writes the
    failure record.  If the write reaches the store, [executeBatch] throws
    the same error; the job's [status] becomes ['failed'], [endTime] is
    set, [errors] becomes the one-element list holding the message of the
    error (whatever it held before); every other property of the job
    except [updatedAt] is as it was when the error was caught, and so are
    the emails and the labels.  If the write fails, [executeBatch] throws
    the error of the write instead, and the job, the emails, the labels
    and the trace are as they were when the first error was caught: the
    job keeps the status it had, and no failure is recorded. *)
Theorem executeBatch_failure_record (env : Env) (w : World)
    (this : BatchProcessor.Processor) (bid : jsstring) (tok : Credentials)
    (e : JSError) (w2 : World) (b2 : BatchLog) :
  BatchProcessor.executeBatch_try this bid tok env w = (Throw e, w2) ->
  BatchSpec.job bid w2 = Some b2 ->
  (BatchSpec.recordFault env w2 = None ->
   exists w' b',
     BatchProcessor.executeBatch this bid tok env w = (Throw e, w') /\
     BatchSpec.job bid w' = Some b' /\
     fields b' !! "status" = Some BatchSpec.failed /\
     fields b' !! "endTime" = Some (JDate (clock env (steps w2))) /\
     fields b' !! "errors" = Some (JArr [JStr (err_message e)]) /\
     (forall k, k <> "status"%string -> k <> "endTime"%string -> k <> "errors"%string ->
                k <> "updatedAt"%string -> fields b' !! k = fields b2 !! k) /\
     batchId b' = batchId b2 /\ b_userId b' = b_userId b2 /\ options b' = options b2 /\
     emails w' = emails w2 /\ labels w' = labels w2) /\
  (forall e',
     BatchSpec.recordFault env w2 = Some e' ->
     exists w',
       BatchProcessor.executeBatch this bid tok env w = (Throw e', w') /\
       BatchSpec.job bid w' = Some b2 /\
       emails w' = emails w2 /\ labels w' = labels w2 /\ trace w' = trace w2).
Proof.
  intros Htry Hb2.
  pose proof (executeBatch_catch_any env w2 bid e) as Hcatch. cbn zeta in Hcatch.
  unfold BatchProcessor.executeBatch, tryCatch. rewrite Htry. split.
  - intros F. rewrite F in Hcatch. destruct Hcatch as (w' & Hrun & Hlogs & _ & Hemails & Hlabels).
    eexists w', _. split; [exact Hrun |].
    split; [rewrite (job_updateFirst bid _ w2 w' Hlogs), Hb2; reflexivity |].
    unfold MongoDatabase.applySet, spread. cbn [fields batchId b_userId options].
    split; [apply lookup_union_Some_l; rewrite lookup_insert_ne by discriminate;
            apply lookup_insert_eq |].
    split; [apply lookup_union_Some_l; do 2 (rewrite lookup_insert_ne by discriminate);
            apply lookup_insert_eq |].
    split; [apply lookup_union_Some_l; do 3 (rewrite lookup_insert_ne by discriminate);
            apply lookup_insert_eq |].
    split; [| repeat split; assumption].
    intros k H1 H2 H3 H4. apply lookup_union_r.
    do 4 (rewrite lookup_insert_ne by congruence). apply lookup_empty.
  - intros e' F. rewrite F in Hcatch.
    destruct Hcatch as (w' & Hrun & Hlogs & Htr & Hemails & Hlabels).
    exists w'. split; [exact Hrun |].
    split; [rewrite (job_same bid w2 w' Hlogs); exact Hb2 |]. auto.
Qed.

Lemma executeBatch_failure_record_witness :
  (exists w' b',
     BatchProcessor.executeBatch Scenario.processor Scenario.firstBatch Scenario.tokens
       Scenario.calmEnv Scenario.outageCreated = (Throw Scenario.quotaError, w') /\
     BatchSpec.job Scenario.firstBatch w' = Some b' /\
     fields b' !! "status" = Some BatchSpec.failed /\
     fields b' !! "errors" = Some (JArr [JStr (str "Quota exceeded")]) /\
     fields b' !! "emailsProcessed" = Some (JNum 0)) /\
  (exists w',
     BatchProcessor.executeBatch Scenario.processor Scenario.firstBatch Scenario.tokens
       Scenario.lostRecordEnv Scenario.outageCreated = (Throw Scenario.storeDown, w') /\
     BatchSpec.jobStatus Scenario.firstBatch w' = Some BatchSpec.running) /\
  (exists w' b',
     BatchProcessor.executeBatch Scenario.processor Scenario.firstBatch Scenario.tokens
       Scenario.unreadableEnv Scenario.analyzeCreated = (Throw Scenario.storeDown, w') /\
     BatchSpec.job Scenario.firstBatch w' = Some b' /\
     fields b' !! "status" = Some BatchSpec.failed /\
     fields b' !! "errors" = Some (JArr [JStr (str "connection closed")])).
Proof.
  split; [| split].
  - destruct (BatchProcessor.executeBatch_try Scenario.processor Scenario.firstBatch
                Scenario.tokens Scenario.calmEnv Scenario.outageCreated) as [out w2] eqn:Htry.
    assert (Hout : out = Throw Scenario.quotaError)
      by (change out with (fst (out, w2)); rewrite <- Htry; vm_compute; reflexivity).
    subst out.
    destruct (BatchSpec.job Scenario.firstBatch w2) as [b2 |] eqn:Hb2.
    2:{ apply (f_equal snd) in Htry. cbn [snd] in Htry. subst w2.
        vm_compute in Hb2. discriminate. }
    destruct (executeBatch_failure_record Scenario.calmEnv Scenario.outageCreated
                Scenario.processor Scenario.firstBatch Scenario.tokens
                Scenario.quotaError w2 b2 Htry Hb2) as [Hrecorded _].
    destruct (Hrecorded eq_refl)
      as (w' & b' & Hrun & Hjob & Hst & _ & Herr & Hkeep & _).
    exists w', b'. do 4 (split; [assumption |]).
    rewrite Hkeep by discriminate.
    apply (f_equal snd) in Htry. cbn [snd] in Htry. subst w2.
    vm_compute in Hb2. injection Hb2 as <-. vm_compute. reflexivity.
  - destruct (BatchProcessor.executeBatch_try Scenario.processor Scenario.firstBatch
                Scenario.tokens Scenario.lostRecordEnv Scenario.outageCreated)
      as [out w2] eqn:Htry.
    assert (Hout : out = Throw Scenario.quotaError)
      by (change out with (fst (out, w2)); rewrite <- Htry; vm_compute; reflexivity).
    subst out.
    destruct (BatchSpec.job Scenario.firstBatch w2) as [b2 |] eqn:Hb2.
    2:{ apply (f_equal snd) in Htry. cbn [snd] in Htry. subst w2.
        vm_compute in Hb2. discriminate. }
    destruct (executeBatch_failure_record Scenario.lostRecordEnv Scenario.outageCreated
                Scenario.processor Scenario.firstBatch Scenario.tokens
                Scenario.quotaError w2 b2 Htry Hb2) as [_ Hlost].
    destruct (Hlost Scenario.storeDown) as (w' & Hrun & Hjob & _).
    { apply (f_equal snd) in Htry. cbn [snd] in Htry. subst w2. vm_compute. reflexivity. }
    exists w'. split; [exact Hrun |]. unfold BatchSpec.jobStatus. rewrite Hjob.
    apply (f_equal snd) in Htry. cbn [snd] in Htry. subst w2.
    vm_compute in Hb2. injection Hb2 as <-. vm_compute. reflexivity.
  - destruct (BatchProcessor.executeBatch_try Scenario.processor Scenario.firstBatch
                Scenario.tokens Scenario.unreadableEnv Scenario.analyzeCreated)
      as [out w2] eqn:Htry.
    assert (Hout : out = Throw Scenario.storeDown)
      by (change out with (fst (out, w2)); rewrite <- Htry; vm_compute; reflexivity).
    subst out.
    destruct (BatchSpec.job Scenario.firstBatch w2) as [b2 |] eqn:Hb2.
    2:{ apply (f_equal snd) in Htry. cbn [snd] in Htry. subst w2.
        vm_compute in Hb2. discriminate. }
    destruct (executeBatch_failure_record Scenario.unreadableEnv Scenario.analyzeCreated
                Scenario.processor Scenario.firstBatch Scenario.tokens
                Scenario.storeDown w2 b2 Htry Hb2) as [Hrecorded _].
    destruct Hrecorded as (w' & b' & Hrun & Hjob & Hst & _ & Herr & _).
    { apply (f_equal snd) in Htry. cbn [snd] in Htry. subst w2. vm_compute. reflexivity. }
    exists w', b'. auto.
Defined.

(** C8, as stated, fails twice.  The list of errors is overwritten, not
    appended to: a job fails with one error, is executed again and fails
    with another, and the first diagnostic is gone.  And when the store
    is unreachable at the write of the failure record, the job stays
    ['running'] with its errors as they were, and the caller gets the
    error of the store, not the one that made the job fail. *)
Lemma errors_are_overwritten :
  let run1 := BatchProcessor.executeBatch Scenario.processor Scenario.firstBatch
                Scenario.tokens Scenario.calmEnv Scenario.outageCreated in
  let run2 := BatchProcessor.executeBatch Scenario.processor Scenario.firstBatch
                Scenario.tokens Scenario.calmEnv (snd run1) in
  let run3 := BatchProcessor.executeBatch Scenario.processor Scenario.firstBatch
                Scenario.tokens Scenario.lostRecordEnv Scenario.outageCreated in
  let errorsOf w := match BatchSpec.job Scenario.firstBatch w with
                    | Some b => fields b !! "errors"
                    | None => None
                    end in
  fst run1 = Throw Scenario.quotaError /\
  errorsOf (snd run1) = Some (JArr [JStr (str "Quota exceeded")]) /\
  fst run2 = Throw Scenario.backendError /\
  errorsOf (snd run2) = Some (JArr [JStr (str "Backend Error")]) /\
  errorsOf (snd run2)
    <> Some (JArr [JStr (str "Quota exceeded"); JStr (str "Backend Error")]) /\
  fst run3 = Throw Scenario.storeDown /\
  BatchSpec.jobStatus Scenario.firstBatch (snd run3) = Some BatchSpec.running /\
  errorsOf (snd run3) = Some (JArr []).
Proof. vm_compute. repeat split; try reflexivity. discriminate. Qed.

(** *** fullProcess: how the results of the four steps are combined *)

Section FullProcess.
Import MongoDatabase BatchProcessor BatchSpec.


Lemma finalResult_last_wins f a c s k :
  k <> "operation"%string ->
  finalResult f a c s !! k = lastProduced k [f; a; c; s].
Proof.
  intros Hk. unfold finalResult, spread, lastProduced. cbn [fold_left].
  rewrite lookup_insert_ne by congruence.
  rewrite !lookup_union.
  destruct (s !! k), (c !! k), (a !! k), (f !! k); reflexivity.
Qed.

Lemma finalResult_operation f a c s :
  finalResult f a c s !! "operation" = Some (JStr (str "fullProcess")).
Proof. unfold finalResult. apply lookup_insert_eq. Qed.


End FullProcess.



(** *** Reading message records: [MongoDatabase.getEmails] *)

Section Selection.
Import MongoDatabase Collection SelectSpec.

Lemma insertByTimestamp_perm e l : Permutation (insertByTimestamp e l) (e :: l).
Proof.
  induction l as [| x l IH]; cbn; [reflexivity |].
  destruct (timestamp x <=? timestamp e); [reflexivity |].
  rewrite IH. apply perm_swap.
Qed.

Lemma sortByTimestampDesc_perm l : Permutation (sortByTimestampDesc l) l.
Proof.
  induction l as [| x l IH]; cbn; [reflexivity |].
  rewrite insertByTimestamp_perm, IH. reflexivity.
Qed.

Lemma insertByTimestamp_sorted e l :
  newestFirst l -> newestFirst (insertByTimestamp e l).
Proof.
  unfold newestFirst. induction 1 as [| x l Hl IH Hx]; cbn.
  - repeat constructor.
  - destruct (timestamp x <=? timestamp e) eqn:E.
    + apply Z.leb_le in E. constructor; [constructor; assumption |].
      constructor; [exact E |].
      eapply List.Forall_impl; [| exact Hx]. unfold newer. intros y Hy. lia.
    + apply Z.leb_gt in E. constructor; [exact IH |].
      rewrite insertByTimestamp_perm. constructor; [unfold newer; lia | exact Hx].
Qed.

Lemma sortByTimestampDesc_sorted l : newestFirst (sortByTimestampDesc l).
Proof.
  induction l as [| x l IH]; cbn; [constructor |].
  apply insertByTimestamp_sorted, IH.
Qed.

Lemma matchesQuery_owner u q e :
  matchesQuery u q e = true ->
  e_userId e = u /\ forall b, q_processed q = Some b -> processed e = b.
Proof.
  unfold matchesQuery. intros H.
  apply andb_prop in H as [H _]. apply andb_prop in H as [Hu Hp].
  split; [apply bool_decide_eq_true in Hu; exact Hu |].
  intros b Hb. rewrite Hb in Hp. apply Bool.eqb_prop. exact Hp.
Qed.

End Selection.

(** X1. [getEmails] only reads.  When it returns, its answer is the head
    of the newest-first ordering of the records that belong to the user
    and match the requested processed flag (and category): every matching
    record it leaves out is no newer than those it returns, and it returns
    no more than the limit asks for, 50 without a limit.  When the limit
    is not negative it returns exactly that many, or all the matching
    records when there are fewer. *)
Theorem getEmails_selection (env : Env) (w w' : World) (userId : jsstring)
    (q : MongoDatabase.EmailQuery) (l : list Email) :
  MongoDatabase.getEmails userId q env w = (Return l, w') ->
  emails w' = emails w /\
  Forall (fun e => e_userId e = userId /\
                   forall b, MongoDatabase.q_processed q = Some b -> processed e = b) l /\
  (length l <= SelectSpec.bound q)%nat /\
  (SelectSpec.plainLimit q ->
   length l = Nat.min (SelectSpec.bound q) (length (SelectSpec.matching userId q w))) /\
  exists rest,
    Permutation (l ++ rest) (SelectSpec.matching userId q w) /\
    SelectSpec.newestFirst (l ++ rest).
Proof.
  unfold MongoDatabase.getEmails, tryCatch, bind, dbOp, gets, throw.
  destruct (dbFault env (steps w)); [discriminate |]. intros [= <- <-].
  split; [reflexivity |].
  pose proof (sortByTimestampDesc_perm (SelectSpec.matching userId q w)) as Hperm.
  unfold MongoDatabase.selectEmails. fold (SelectSpec.matching userId q w).
  assert (Hnz : numOr (MongoDatabase.q_limit q) 50 <> 0) by (apply numOr_nonzero; discriminate).
  destruct (limit_take (numOr (MongoDatabase.q_limit q) 50)
              (MongoDatabase.sortByTimestampDesc (SelectSpec.matching userId q w)))
    as [k Hk].
  split; [| split; [| split]].
  - rewrite Hk. apply Forall_take. rewrite Hperm. apply List.Forall_forall. intros e He.
    apply List.filter_In in He as [_ He]. apply (matchesQuery_owner _ _ _ He).
  - apply limit_length, Hnz.
  - unfold SelectSpec.plainLimit, SelectSpec.bound. intros Hplain.
    rewrite limit_positive by lia. rewrite length_take, (Permutation_length Hperm).
    f_equal. lia.
  - rewrite Hk.
    exists (drop k (MongoDatabase.sortByTimestampDesc (SelectSpec.matching userId q w))).
    rewrite take_drop. split; [exact Hperm | apply sortByTimestampDesc_sorted].
Qed.

Lemma getEmails_selection_witness :
  exists l w',
    MongoDatabase.getEmails Scenario.user1
      (MongoDatabase.mkEmailQuery (Some true) None (Some 2)) Scenario.calmEnv Cases.mixedWorld
    = (Return l, w') /\
    map gmailId l = [str "b"; str "e"] /\
    map gmailId (SelectSpec.matching Scenario.user1
                   (MongoDatabase.mkEmailQuery (Some true) None (Some 2)) Cases.mixedWorld)
    = [str "a"; str "b"; str "e"] /\
    length l = 2%nat /\
    exists rest,
      Permutation (l ++ rest)
        (SelectSpec.matching Scenario.user1
           (MongoDatabase.mkEmailQuery (Some true) None (Some 2)) Cases.mixedWorld) /\
      SelectSpec.newestFirst (l ++ rest).
Proof.
  eexists _, _. split; [reflexivity |]. split; [reflexivity |]. split; [reflexivity |].
  destruct (getEmails_selection Scenario.calmEnv Cases.mixedWorld _ Scenario.user1
              (MongoDatabase.mkEmailQuery (Some true) None (Some 2)) _ eq_refl)
    as (_ & _ & _ & Hlen & Hrest).
  split; [| exact Hrest].
  rewrite Hlen; [reflexivity |]. unfold SelectSpec.plainLimit. cbn. lia.
Defined.

(** *** Writing message records: [saveEmail], [updateEmailAnalysis] and the
    fetch of one message *)

Section MessageStore.
Import MongoDatabase Collection AssignSpec.

Lemma find_updateFirst_same {A} (p : A -> bool) (f : A -> A) (l : list A) :
  (forall x, p x = true -> p (f x) = true) ->
  List.find p (updateFirst p f l) = option_map f (List.find p l).
Proof.
  intros Hf. induction l as [| x l IH]; [reflexivity |]. cbn.
  destruct (p x) eqn:E; cbn; [rewrite (Hf x E); reflexivity |].
  rewrite E. exact IH.
Qed.

Lemma find_updateFirst_other {A} (p q : A -> bool) (f : A -> A) (l : list A) :
  (forall x, p x = true -> q x = false /\ q (f x) = false) ->
  List.find q (updateFirst p f l) = List.find q l.
Proof.
  intros Hf. induction l as [| x l IH]; [reflexivity |]. cbn.
  destruct (p x) eqn:E; cbn.
  - destruct (Hf x E) as [-> ->]. reflexivity.
  - rewrite IH. reflexivity.
Qed.

Lemma find_app_other {A} (q : A -> bool) (l : list A) (d : A) :
  q d = false -> List.find q (l ++ [d]) = List.find q l.
Proof.
  intros Hd. induction l as [| x l IH]; cbn; [rewrite Hd; reflexivity |].
  destruct (q x); [reflexivity | exact IH].
Qed.

Lemma find_existsb_false {A} (p : A -> bool) (l : list A) :
  existsb p l = false -> List.find p l = None.
Proof.
  induction l as [| x l IH]; [reflexivity |]. cbn.
  destruct (p x); [discriminate | exact IH].
Qed.

Lemma find_replaceOneUpsert_same {A} (p : A -> bool) (d : A) (l : list A) :
  p d = true -> List.find p (replaceOneUpsert p d l) = Some d.
Proof.
  intros Hd. unfold replaceOneUpsert. destruct (existsb p l) eqn:E.
  - rewrite find_updateFirst_same by (intros; exact Hd).
    apply existsb_exists in E as (x & Hx & Hp).
    destruct (List.find p l) eqn:F; [reflexivity |].
    pose proof (List.find_none _ _ F x Hx). congruence.
  - apply find_app_new; [apply find_existsb_false; exact E | exact Hd].
Qed.

Lemma find_replaceOneUpsert_other {A} (p q : A -> bool) (d : A) (l : list A) :
  (forall x, p x = true -> q x = false) -> q d = false ->
  List.find q (replaceOneUpsert p d l) = List.find q l.
Proof.
  intros Hpq Hd. unfold replaceOneUpsert. destruct (existsb p l).
  - apply find_updateFirst_other. intros x Hx. split; [apply Hpq; exact Hx | exact Hd].
  - apply find_app_other. exact Hd.
Qed.

Lemma length_updateFirst {A} (p : A -> bool) (f : A -> A) (l : list A) :
  length (updateFirst p f l) = length l.
Proof.
  induction l as [| x l IH]; [reflexivity |]. cbn.
  destruct (p x); cbn; [reflexivity | rewrite IH; reflexivity].
Qed.

Lemma sameEmailKey_iff g u e : sameEmailKey g u e = true <-> emailKey e = (g, u).
Proof.
  unfold sameEmailKey, emailKey, jsstring_eqb. rewrite andb_true_iff, !bool_decide_eq_true.
  split; [intros [-> ->]; reflexivity | intros [= -> ->]; auto].
Qed.

Lemma sameEmailKey_other g u g' u' e :
  (g', u') <> (g, u) -> sameEmailKey g u e = true -> sameEmailKey g' u' e = false.
Proof.
  intros Hne He. apply sameEmailKey_iff in He.
  destruct (sameEmailKey g' u' e) eqn:E; [| reflexivity].
  apply sameEmailKey_iff in E. congruence.
Qed.

Lemma map_emailKey_updateFirst (p : Email -> bool) (f : Email -> Email) (l : list Email) :
  (forall x, emailKey (f x) = emailKey x) ->
  map emailKey (updateFirst p f l) = map emailKey l.
Proof.
  intros Hf. induction l as [| x l IH]; [reflexivity |]. cbn.
  destruct (p x); cbn; [rewrite Hf | rewrite IH]; reflexivity.
Qed.

(** The upsert keyed on [(gmailId, userId)] never makes a second record. *)
Lemma replaceOneUpsert_email_unique d (l : list Email) :
  NoDup (map emailKey l) ->
  NoDup (map emailKey (replaceOneUpsert (sameEmailKey (gmailId d) (e_userId d)) d l)).
Proof.
  intros Hnd. unfold replaceOneUpsert.
  destruct (existsb _ l) eqn:E.
  - replace (map emailKey (updateFirst _ _ l)) with (map emailKey l); [exact Hnd |].
    clear. induction l as [| x l IH]; [reflexivity |]. cbn.
    destruct (sameEmailKey _ _ x) eqn:E; cbn; [| rewrite <- IH; reflexivity].
    apply sameEmailKey_iff in E. f_equal. exact E.
  - rewrite map_app. cbn. apply NoDup_app. split; [exact Hnd |]. split.
    + intros k Hk Hin. apply list_elem_of_singleton in Hin. subst k.
      apply list_elem_of_fmap in Hk as (x & Hx & Hin).
      assert (Hex : existsb (sameEmailKey (gmailId d) (e_userId d)) l = true).
      { apply existsb_exists. exists x. split; [apply list_elem_of_In; exact Hin |].
        apply sameEmailKey_iff. symmetry. exact Hx. }
      congruence.
    + apply NoDup_singleton.
Qed.

Lemma saveEmail_run env w e :
  saveEmail e env w =
  match dbFault env (S (steps w)) with
  | Some err => (Throw err, tick (tick w))
  | None =>
      (Return tt,
       set_emails (replaceOneUpsert (sameEmailKey (gmailId e) (e_userId e))
                     (withUpdatedAt (clock env (steps w)) e) (emails w))
                  (tick (tick w)))
  end.
Proof.
  unfold saveEmail, tryCatch, bind, Date_now, dbOp, modify, throw. cbn.
  destruct (dbFault env (S (steps w))); reflexivity.
Qed.

End MessageStore.

(** X2. [saveEmail] is an upsert on [(gmailId, userId)].  When it
    succeeds, looking the key up gives exactly the record that was passed
    (stamped with the time of the call), whatever was stored under the key
    before; the record of every other key is the one it was; the
    collection grows by one record if the key was new and keeps its size
    otherwise; and if no key had two records before, none has two after.
    When it fails, the collection is unchanged.  With the store reachable
    it succeeds. *)
Theorem saveEmail_upsert (env : Env) (w : World) (e : Email) :
  let key := MongoDatabase.sameEmailKey (gmailId e) (e_userId e) in
  let run := MongoDatabase.saveEmail e env w in
  (fst run = Return tt ->
     List.find key (emails (snd run))
       = Some (MongoDatabase.withUpdatedAt (clock env (steps w)) e) /\
     (forall g u, (g, u) <> (gmailId e, e_userId e) ->
        List.find (MongoDatabase.sameEmailKey g u) (emails (snd run))
        = List.find (MongoDatabase.sameEmailKey g u) (emails w)) /\
     length (emails (snd run))
       = (if existsb key (emails w) then length (emails w) else S (length (emails w))) /\
     (NoDup (map AssignSpec.emailKey (emails w)) ->
      NoDup (map AssignSpec.emailKey (emails (snd run))))) /\
  (forall err, fst run = Throw err -> emails (snd run) = emails w) /\
  (Reliable env -> fst run = Return tt).
Proof.
  intros key run. subst run. rewrite saveEmail_run.
  destruct (dbFault env (S (steps w))) eqn:Hdb; cbn [fst snd].
  - split; [discriminate |]. split; [reflexivity |].
    intros Hrel. rewrite Hrel in Hdb. discriminate.
  - split; [| split; [discriminate | reflexivity]]. intros _. cbn [emails set_emails].
    change (emails (tick (tick w))) with (emails w). repeat split.
    + apply find_replaceOneUpsert_same. subst key. apply sameEmailKey_iff. reflexivity.
    + intros g u Hne. apply find_replaceOneUpsert_other.
      * intros x Hx. eapply sameEmailKey_other; eassumption.
      * destruct (MongoDatabase.sameEmailKey g u _) eqn:E; [| reflexivity].
        apply sameEmailKey_iff in E. unfold AssignSpec.emailKey in E. cbn in E.
        congruence.
    + unfold Collection.replaceOneUpsert. fold key. destruct (existsb key (emails w)).
      * apply length_updateFirst.
      * rewrite List.length_app. cbn. lia.
    + intros Hnd.
      apply (replaceOneUpsert_email_unique
               (MongoDatabase.withUpdatedAt (clock env (steps w)) e)). exact Hnd.
Qed.

Lemma saveEmail_upsert_witness :
  let e := mkEmail (str "m0") Scenario.user1 (str "t0") (str "Re: Team meeting")
                   (str "boss@example.com") [] [] 950 false false None 0 in
  List.find (MongoDatabase.sameEmailKey (str "m0") Scenario.user1)
    (emails (snd (MongoDatabase.saveEmail e Scenario.calmEnv Scenario.inboxWorld)))
  = Some e.
Proof.
  intros e.
  destruct (saveEmail_upsert Scenario.calmEnv Scenario.inboxWorld e) as [H _].
  destruct (H eq_refl) as [Hfind _]. exact Hfind.
Defined.

(** X3. The fetch of one message never raises: a message the provider
    does not deliver, or a record the store does not take, is skipped and
    leaves the count and the stored records as they were.  When the count
    goes up, the provider delivered the message and the record stored for
    it under [(id, userId)] is a fresh one: not processed, not synced and
    without analysis, even when a processed, synced record with an
    analysis was stored under that key before. *)
Theorem fetchMessage_stores_fresh_record (env : Env) (w : World)
    (userId messageId : jsstring) (totalEmails : Z) :
  exists total' w',
    BatchProcessor.fetchMessage userId totalEmails messageId env w = (Return total', w') /\
    trace w' = trace w ++ [EvGmailGet messageId] /\
    ((total' = totalEmails /\ emails w' = emails w) \/
     (total' = totalEmails + 1 /\
      exists msg e,
        gmailGet env (steps w) messageId = Return msg /\
        List.find (MongoDatabase.sameEmailKey (m_id msg) userId) (emails w') = Some e /\
        processed e = false /\ synced e = false /\ analysis e = None /\
        subject e = strOr (m_subject msg) (str "No Subject") /\
        from e = strOr (m_from msg) (str "Unknown"))).
Proof.
  unfold BatchProcessor.fetchMessage, tryCatch, bind at 1, remote.
  destruct (gmailGet env (steps w) messageId) as [msg | err] eqn:Hget.
  - unfold bind at 1.
    set (w0 := tick (emit (EvGmailGet messageId) w)).
    assert (Hdate : exists d w1,
              (match m_date msg with Some d => ret d | None => Date_now end) env w0
              = (Return d, w1) /\ trace w1 = trace w0 /\ emails w1 = emails w0).
    { destruct (m_date msg); eexists _, _; (split; [reflexivity | split; reflexivity]). }
    destruct Hdate as (d & w1 & -> & Ht1 & He1).
    unfold bind at 1. rewrite saveEmail_run.
    destruct (dbFault env (S (steps w1))).
    + eexists _, _. split; [reflexivity |]. split; [exact Ht1 |]. left.
      split; [reflexivity | exact He1].
    + eexists _, _. split; [reflexivity |]. split; [exact Ht1 |]. right.
      split; [reflexivity |]. eexists msg, _. split; [reflexivity |]. split.
      * cbn [emails set_emails snd].
        apply (find_replaceOneUpsert_same
                 (MongoDatabase.sameEmailKey (m_id msg) userId)).
        apply sameEmailKey_iff. reflexivity.
      * repeat split; reflexivity.
  - eexists _, _. split; [reflexivity |]. split; [reflexivity |]. left.
    split; reflexivity.
Qed.

(** X4. [updateEmailAnalysis] is keyed on [gmailId] alone.  When it
    succeeds and one record of the collection has that id, that record,
    whichever user it belongs to, becomes processed and carries the
    analysis and the time of the call, and every other record is
    unchanged; when no record has the id, nothing changes and the call
    still succeeds.  Whatever records share the id, a successful call
    keeps the number of records and every record with another id.  When
    it fails, nothing changes. *)
Theorem updateEmailAnalysis_by_gmailId (env : Env) (w : World) (gid : jsstring)
    (a : Analysis) :
  let run := MongoDatabase.updateEmailAnalysis gid a env w in
  (fst run = Return tt ->
     ((forall e, In e (emails w) -> gmailId e <> gid) -> emails (snd run) = emails w) /\
     (forall before e after,
        emails w = before ++ e :: after ->
        gmailId e = gid -> (forall x, In x (before ++ after) -> gmailId x <> gid) ->
        emails (snd run)
        = before ++ MongoDatabase.setAnalysis a (clock env (steps w)) e :: after) /\
     Forall2 (fun old new => gmailId new = gmailId old /\ (gmailId old <> gid -> new = old))
       (emails w) (emails (snd run))) /\
  (forall err, fst run = Throw err -> emails (snd run) = emails w).
Proof.
  intros run. subst run.
  unfold MongoDatabase.updateEmailAnalysis, tryCatch, bind, Date_now, dbOp, modify, throw.
  cbn. destruct (dbFault env (S (steps w))); cbn; [split; [discriminate | reflexivity] |].
  split; [| discriminate]. intros _. split; [| split].
  - intros Hno. apply updateFirst_none.
    destruct (List.find _ (emails w)) as [e |] eqn:F; [| reflexivity].
    apply List.find_some in F as [Hin He]. apply bool_decide_eq_true in He.
    destruct (Hno e Hin He).
  - intros before e after -> He Hothers.
    assert (Hbefore : forall x, In x before -> gmailId x <> gid)
      by (intros x Hx; apply Hothers, in_or_app; left; exact Hx).
    clear -Hbefore He.
    induction before as [| x before IH]; cbn.
    + unfold jsstring_eqb. rewrite bool_decide_eq_true_2 by exact He. reflexivity.
    + unfold jsstring_eqb at 1. rewrite bool_decide_eq_false_2 by (apply Hbefore; left; reflexivity).
      f_equal. apply IH. intros y Hy. apply Hbefore. right. exact Hy.
  - induction (emails w) as [| x l IH]; cbn; [constructor |].
    destruct (jsstring_eqb (gmailId x) gid) eqn:E.
    + constructor.
      * split; [reflexivity |]. apply bool_decide_eq_true in E. intros H. destruct (H E).
      * clear. induction l; constructor; auto.
    + constructor; [auto | exact IH].
Qed.

Lemma updateEmailAnalysis_by_gmailId_witness :
  map (fun e => (gmailId e, e_userId e, processed e, analysis e))
    (emails (snd (MongoDatabase.updateEmailAnalysis (str "d") Scenario.workAnalysis
                    Scenario.calmEnv Cases.mixedWorld)))
  = [ (str "a", Scenario.user1, true, None); (str "b", Scenario.user1, true, None);
      (str "c", Scenario.user1, false, None);
      (str "d", Cases.user2, true, Some Scenario.workAnalysis);
      (str "e", Scenario.user1, true, None) ].
Proof.
  destruct (updateEmailAnalysis_by_gmailId Scenario.calmEnv Cases.mixedWorld (str "d")
              Scenario.workAnalysis) as [H _].
  destruct (H eq_refl) as (_ & Hone & _).
  rewrite (Hone [Cases.stored (str "a") Scenario.user1 5 true;
                 Cases.stored (str "b") Scenario.user1 9 true;
                 Cases.stored (str "c") Scenario.user1 8 false]
                (Cases.stored (str "d") Cases.user2 99 false)
                [Cases.stored (str "e") Scenario.user1 7 true]).
  - reflexivity.
  - reflexivity.
  - reflexivity.
  - intros x Hx. cbn in Hx.
    destruct Hx as [<- | [<- | [<- | [<- | []]]]]; vm_compute; discriminate.
Defined.

(** *** Frames in one environment *)

Lemma Post_at {A} (env : Env) (R : World -> World -> Prop) (P : A -> Prop) (m : M A) :
  Post R P m -> PostAt env R P m.
Proof. intros H w. apply H. Qed.

Section FramesAt.

Variable env : Env.
Variable R : World -> World -> Prop.
Hypothesis R_refl : forall w, R w w.
Hypothesis R_trans : forall w1 w2 w3, R w1 w2 -> R w2 w3 -> R w1 w3.

Lemma at_ret {A} (P : A -> Prop) (a : A) : P a -> PostAt env R P (ret a).
Proof. intros Ha w. split; [apply R_refl |]. intros ? [= <-]. exact Ha. Qed.

Lemma at_throw {A} (P : A -> Prop) (e : JSError) : PostAt env R P (@throw A e).
Proof. intros w. split; [apply R_refl | discriminate]. Qed.

Lemma at_weaken {A} (P Q : A -> Prop) (m : M A) :
  PostAt env R P m -> (forall a, P a -> Q a) -> PostAt env R Q m.
Proof. intros Hm HPQ w. destruct (Hm w) as [H1 H2]. split; auto. Qed.

Lemma at_bind {A B} (Q : A -> Prop) (P : B -> Prop) (m : M A) (k : A -> M B) :
  PostAt env R Q m -> (forall a, Q a -> PostAt env R P (k a)) -> PostAt env R P (bind m k).
Proof.
  intros Hm Hk w. unfold bind. destruct (Hm w) as [H1 H2].
  destruct (m env w) as [[a | e] w1]; cbn in *.
  - destruct (Hk a (H2 a eq_refl) w1) as [H3 H4]. split; [| exact H4].
    eapply R_trans; eassumption.
  - split; [exact H1 | discriminate].
Qed.

Lemma at_tryCatch {A} (P : A -> Prop) (m : M A) (h : JSError -> M A) :
  PostAt env R P m -> (forall e, PostAt env R P (h e)) -> PostAt env R P (tryCatch m h).
Proof.
  intros Hm Hh w. unfold tryCatch. destruct (Hm w) as [H1 H2].
  destruct (m env w) as [[a | e] w1]; cbn in *.
  - split; [exact H1 | exact H2].
  - destruct (Hh e w1) as [H3 H4]. split; [| exact H4].
    eapply R_trans; eassumption.
Qed.

Lemma at_forOf {A S} (I : S -> Prop) (xs : list A) (body : S -> A -> M S) :
  (forall s x, I s -> PostAt env R I (body s x)) ->
  forall s, I s -> PostAt env R I (forOf xs body s).
Proof.
  intros Hbody. induction xs as [| x xs IH]; intros s Hs; cbn [forOf].
  - apply at_ret. exact Hs.
  - eapply at_bind; [apply Hbody; exact Hs |]. intros s' Hs'. apply IH. exact Hs'.
Qed.

Lemma at_gets {A} (P : A -> Prop) (f : World -> A) :
  (forall w, P (f w)) -> PostAt env R P (gets f).
Proof. intros Hf w. split; [apply R_refl |]. intros ? [= <-]. apply Hf. Qed.

Lemma at_ask {A} (P : A -> Prop) (f : Env -> A) : P (f env) -> PostAt env R P (ask f).
Proof. intros Hf w. split; [apply R_refl |]. intros ? [= <-]. apply Hf. Qed.

Lemma at_modify (f : World -> World) :
  (forall w, R w (f w)) -> PostAt env R anyValue (modify f).
Proof. intros Hf w. split; [apply Hf | constructor]. Qed.

Hypothesis R_tick : forall w, R w (tick w).

Lemma at_Date_now : PostAt env R anyValue Date_now.
Proof. intros w. split; [apply R_tick | constructor]. Qed.

Lemma at_dbOp : PostAt env R anyValue dbOp.
Proof.
  intros w. unfold dbOp. destruct (dbFault env (steps w));
    (split; [apply R_tick | constructor]).
Qed.

Lemma at_remote {A} (ev : Event) (answer : Env -> nat -> Outcome A) :
  (forall w, R w (emit ev w)) -> PostAt env R anyValue (remote ev answer).
Proof.
  intros Hev w. split; [| constructor]. cbn.
  eapply R_trans; [apply Hev | apply R_tick].
Qed.

End FramesAt.

(** One structural step of a [PostAt] proof. *)
Ltac at_step R Hrefl Htrans Htick :=
  lazymatch goal with
  | |- PostAt ?env _ ?P (ret _) =>
      tryif is_evar P
      then apply (at_ret env R Hrefl anyValue); exact I
      else apply (at_ret env R Hrefl)
  | |- PostAt ?env _ _ (throw _) => apply (at_throw env R Hrefl)
  | |- PostAt ?env _ _ (tryCatch _ _) => apply (at_tryCatch env R Htrans); [| intros ?]
  | |- PostAt ?env _ _ (bind _ _) => eapply (at_bind env R Htrans); [| intros ? ?]
  | |- PostAt ?env _ ?P (gets _) =>
      tryif is_evar P
      then apply (at_gets env R Hrefl anyValue); intros ?; exact I
      else (apply (at_gets env R Hrefl); intros ?)
  | |- PostAt ?env _ ?P (ask _) =>
      tryif is_evar P
      then apply (at_ask env R Hrefl anyValue); exact I
      else apply (at_ask env R Hrefl)
  | |- PostAt ?env _ _ (modify _) => apply (at_modify env R); intros ?
  | |- PostAt ?env _ _ Date_now => apply (at_Date_now env R Htick)
  | |- PostAt ?env _ _ dbOp => apply (at_dbOp env R Htick)
  | |- PostAt ?env _ _ (remote _ _) => apply (at_remote env R Htrans Htick); intros ?
  | |- PostAt ?env _ ?P (forOf _ _ _) =>
      tryif is_evar P
      then (apply (at_forOf env R Hrefl Htrans anyValue); [intros ? ? ? | exact I])
      else (apply (at_forOf env R Hrefl Htrans); [intros ? ? ? |])
  | |- PostAt _ _ _ (match ?x with _ => _ end) => destruct x
  | |- anyValue _ => exact I
  | |- True => exact I
  end.

(** *** The analysis of a batch: [EnhancedGeminiAnalyzer.batchAnalyzeEmails] *)

Section BatchAnalysis.
Import MongoDatabase EnhancedGeminiAnalyzer AnalyzeSpec.

Variable env : Env.

Lemma entriesFor_nil : entriesFor env 0 [].
Proof. repeat split; cbn; lia. Qed.

Lemma entriesFor_app n m a b :
  entriesFor env n a -> entriesFor env m b -> entriesFor env (n + m) (a ++ b).
Proof.
  unfold entriesFor, successes, failures.
  intros (H1 & H2 & H3) (H4 & H5 & H6).
  rewrite !List.filter_app, !List.length_app. repeat split; try lia.
  intros Hrel. rewrite (H3 Hrel), (H6 Hrel). reflexivity.
Qed.

(** A loop whose body only pushes entries: what it pushes adds up. *)
Lemma forOf_pushes {A} (size : A -> nat)
    (body : list AnalysisOutcome -> A -> M (list AnalysisOutcome)) :
  (forall s x w, exists ex w',
      body s x env w = (Return (s ++ ex), w') /\ entriesFor env (size x) ex) ->
  forall xs s w, exists ex w',
      forOf xs body s env w = (Return (s ++ ex), w') /\
      entriesFor env (list_sum (map size xs)) ex.
Proof.
  intros Hbody. induction xs as [| x xs IH]; intros s w; cbn [forOf map list_sum].
  - exists [], w. rewrite app_nil_r. split; [reflexivity | apply entriesFor_nil].
  - destruct (Hbody s x w) as (ex1 & w1 & Hrun1 & H1).
    destruct (IH (s ++ ex1) w1) as (ex2 & w2 & Hrun2 & H2).
    exists (ex1 ++ ex2), w2. unfold bind. rewrite Hrun1, Hrun2, app_assoc.
    split; [reflexivity | apply entriesFor_app; assumption].
Qed.

Lemma updateEmailAnalysis_outcome g a w :
  exists out w', updateEmailAnalysis g a env w = (out, w') /\
    (Reliable env -> out = Return tt).
Proof.
  unfold updateEmailAnalysis, tryCatch, bind, Date_now, dbOp, modify, throw. cbn.
  destruct (dbFault env (S (steps w))) eqn:Hdb; eexists _, _; (split; [reflexivity |]).
  - intros Hrel. rewrite Hrel in Hdb. discriminate.
  - reflexivity.
Qed.

Lemma list_sum_ones {A} (l : list A) : list_sum (map (fun _ => 1%nat) l) = length l.
Proof.
  unfold list_sum. induction l as [| x l IH]; cbn; [| rewrite IH]; reflexivity.
Qed.

Lemma slices_cover {A} (size : nat) : forall fuel i (l : list A),
  (length l <= fuel)%nat ->
  list_sum (map (fun s => length (snd s)) (slices fuel i (S size) l)) = length l.
Proof.
  induction fuel as [| fuel IH]; intros i l Hl.
  - destruct l; [reflexivity | cbn in Hl; lia].
  - destruct l as [| x l]; [reflexivity |].
    cbn [slices map snd].
    change (list_sum (?a :: ?b)) with (a + list_sum b)%nat. rewrite IH.
    + rewrite <- List.length_app. rewrite take_drop. reflexivity.
    + cbn [drop]. rewrite length_drop. cbn in Hl. lia.
Qed.

Lemma batchAnalyzeEmails_entries this emails u w :
  exists r w', EnhancedGeminiAnalyzer.batchAnalyzeEmails this emails u env w = (Return r, w') /\
    total r = length emails /\
    successful r = successes (results r) /\ failed r = failures (results r) /\
    entriesFor env (length emails) (results r).
Proof.
  unfold EnhancedGeminiAnalyzer.batchAnalyzeEmails.
  match goal with
  | |- context [forOf ?sl ?body []] =>
      assert (Hbody : forall s x w0, exists ex w1,
                 body s x env w0 = (Return (s ++ ex), w1) /\
                 entriesFor env (length (snd x)) ex);
      [| destruct (forOf_pushes (fun x => length (snd x)) body Hbody sl [] w)
           as (ex & w' & Hrun & Hex)]
  end.
  - intros s [i batch] w0. cbn [snd].
    match goal with
    | |- context [forOf batch ?body s] =>
        assert (Hbody : forall s1 x w1, exists ex w2,
                   body s1 x env w1 = (Return (s1 ++ ex), w2) /\ entriesFor env 1 ex);
        [| destruct (forOf_pushes (fun _ => 1%nat) body Hbody batch s w0)
             as (ex & w1 & Hrun & Hex)]
    end.
    + intros s1 email w1. unfold tryCatch at 1, bind at 1.
      destruct (analyzeEmail_paths this (subject email) (from email) (snippet email) u env w1)
        as (a & w2 & -> & _).
      destruct (updateEmailAnalysis_outcome (gmailId email) a w2) as (out & w3 & Hup & Hok).
      unfold tryCatch, bind. rewrite Hup. destruct out as [[] | err].
      * eexists [_], _. split; [reflexivity |]. repeat split; cbn; lia.
      * eexists [_; _], _. rewrite <- app_assoc. split; [reflexivity |].
        repeat split; cbn; try lia. intros Hrel. specialize (Hok Hrel). discriminate.
    + rewrite list_sum_ones in Hex. unfold bind at 1. rewrite Hrun. unfold bind at 1.
      destruct (i + 5 <? length emails)%nat; eexists _, _; (split; [reflexivity | exact Hex]).
  - rewrite slices_cover in Hex by lia. cbn [app] in Hrun.
    unfold bind at 1. rewrite Hrun. eexists _, _. split; [reflexivity |].
    cbn. repeat split; try reflexivity; apply Hex.
Qed.

End BatchAnalysis.

(** X5. The analyzer's [batchAnalyzeEmails] never raises and reports
    every message as successful: [successful] always equals [total], the
    number of messages it was given, because the success entry is pushed
    before the analysis is saved and [analyzeEmail] itself cannot fail.
    A message whose analysis could not be saved is counted a second time,
    as failed; so [failed] is at most [total], [results] has
    [total + failed] entries, and with the store reachable [failed] is
    zero. *)
Theorem batchAnalyzeEmails_accounting (env : Env) (w : World)
    (this : EnhancedGeminiAnalyzer.Analyzer) (emails : list Email) (userId : jsstring) :
  exists r w',
    EnhancedGeminiAnalyzer.batchAnalyzeEmails this emails userId env w = (Return r, w') /\
    EnhancedGeminiAnalyzer.total r = length emails /\
    EnhancedGeminiAnalyzer.successful r = length emails /\
    (EnhancedGeminiAnalyzer.failed r <= length emails)%nat /\
    length (EnhancedGeminiAnalyzer.results r)
      = (EnhancedGeminiAnalyzer.total r + EnhancedGeminiAnalyzer.failed r)%nat /\
    (Reliable env -> EnhancedGeminiAnalyzer.failed r = 0%nat).
Proof.
  destruct (batchAnalyzeEmails_entries env this emails userId w)
    as (r & w' & Hrun & Htot & Hs & Hf & Hsucc & Hfail & Hrel).
  exists r, w'. rewrite Hs, Hf, Htot. repeat split; try assumption.
  rewrite <- Hsucc. unfold AnalyzeSpec.successes, AnalyzeSpec.failures.
  clear. induction (EnhancedGeminiAnalyzer.results r) as [| x l IH]; [reflexivity |].
  cbn. destruct (EnhancedGeminiAnalyzer.success x); cbn; lia.
Qed.

Lemma batchAnalyzeEmails_accounting_witness :
  Reliable Scenario.calmEnv /\
  exists r w',
    EnhancedGeminiAnalyzer.batchAnalyzeEmails
      (BatchProcessor.geminiAnalyzer Scenario.processor) (emails Scenario.inboxWorld)
      Scenario.user1 Scenario.calmEnv Scenario.inboxWorld = (Return r, w') /\
    EnhancedGeminiAnalyzer.successful r = 1%nat /\ EnhancedGeminiAnalyzer.failed r = 0%nat.
Proof.
  assert (Hrel : Reliable Scenario.calmEnv) by (intros n; reflexivity).
  split; [exact Hrel |].
  destruct (batchAnalyzeEmails_accounting Scenario.calmEnv Scenario.inboxWorld
              (BatchProcessor.geminiAnalyzer Scenario.processor)
              (emails Scenario.inboxWorld) Scenario.user1)
    as (r & w' & Hrun & _ & Hs & _ & _ & Hf).
  exists r, w'. split; [exact Hrun |]. split; [exact Hs | exact (Hf Hrel)].
Defined.

Section AnalyzeJob.
Import MongoDatabase EnhancedGeminiAnalyzer BatchProcessor AnalyzeSpec.

Lemma getEmails_run u q env w :
  getEmails u q env w =
  match dbFault env (steps w) with
  | Some e => (Throw e, tick w)
  | None => (Return (selectEmails u q (emails w)), tick w)
  end.
Proof.
  unfold getEmails, tryCatch, bind, dbOp, gets, throw.
  destruct (dbFault env (steps w)); reflexivity.
Qed.

Lemma analyzeJob_run this bid o env w :
  dbFault env (steps w) = None ->
  exists r w', BatchProcessor.batchAnalyzeEmails this bid o env w = (Return r, w') /\
    r !! "emailsProcessed" = Some (JNum (Z.of_nat (length (selected o w)))) /\
    r !! "emailsTotal" = Some (JNum (Z.of_nat (length (selected o w)))) /\
    (Reliable env -> r !! "errors" = None \/ r !! "errors" = Some (JArr [])).
Proof.
  intros Hdb. unfold BatchProcessor.batchAnalyzeEmails, tryCatch at 1, bind at 1.
  rewrite getEmails_run, Hdb. fold (analyzeQuery o). fold (selected o w).
  destruct (length (selected o w) =? 0)%nat eqn:E.
  - apply Nat.eqb_eq in E. rewrite E. eexists _, _. split; [reflexivity |].
    repeat split; try reflexivity. intros _; left; reflexivity.
  - destruct (batchAnalyzeEmails_entries env (geminiAnalyzer this) (selected o w)
                (o_userId o) (tick w))
      as (r & w' & Hrun & _ & Hs & Hf & Hsucc & _ & Hrel).
    unfold bind. rewrite Hrun. eexists _, _. split; [reflexivity |].
    rewrite Hs, Hsucc. repeat split; try reflexivity.
    intros Hr. right. rewrite Hf, (Hrel Hr). reflexivity.
Qed.

End AnalyzeJob.

(** X6. The ['analyzeEmails'] step of a job fails only when the store
    cannot be read at its first step.  Otherwise it returns, and its two
    counters are always equal: [emailsProcessed] and [emailsTotal] are both
    the number of unprocessed records of the user the query selected (at
    most [limit], 100 by default), whether or not each analysis could be
    saved; failures show in [errors] only, and with the store reachable
    there are none. *)
Theorem analyzeEmails_counters_agree (env : Env) (w : World)
    (this : BatchProcessor.Processor) (batchId : jsstring) (o : Options) :
  let run := BatchProcessor.batchAnalyzeEmails this batchId o env w in
  let n := Z.of_nat (length (AnalyzeSpec.selected o w)) in
  (forall e, dbFault env (steps w) = Some e -> run = (Throw e, tick w)) /\
  (dbFault env (steps w) = None ->
   exists r w', run = (Return r, w') /\
     r !! "emailsProcessed" = Some (JNum n) /\ r !! "emailsTotal" = Some (JNum n) /\
     (Reliable env -> r !! "errors" = None \/ r !! "errors" = Some (JArr []))).
Proof.
  intros run n. split.
  - intros e He. subst run.
    unfold BatchProcessor.batchAnalyzeEmails, tryCatch at 1, bind at 1.
    rewrite getEmails_run, He. reflexivity.
  - apply analyzeJob_run.
Qed.

Lemma analyzeEmails_counters_agree_witness :
  exists r w',
    BatchProcessor.batchAnalyzeEmails Scenario.processor Scenario.firstBatch
      Scenario.noOptions Scenario.calmEnv Cases.unreadWorld = (Return r, w') /\
    r !! "emailsProcessed" = Some (JNum 12) /\ r !! "emailsTotal" = Some (JNum 12).
Proof.
  destruct (analyzeEmails_counters_agree Scenario.calmEnv Cases.unreadWorld
              Scenario.processor Scenario.firstBatch Scenario.noOptions) as [_ H].
  destruct (H eq_refl) as (r & w' & Hrun & Hp & Ht & _).
  exists r, w'. split; [exact Hrun |]. split; [exact Hp | exact Ht].
Defined.

(** *** The analyzer and the limiter *)

Section Budget.
Import MongoDatabase EnhancedGeminiAnalyzer RateSpec BudgetSpec.

(** After the limiter has answered, [analyzeEmail] issues one request to
    the classifier if the answer was yes and none if it was no, and does
    nothing else to the world. *)
Lemma analyzeEmail_after_check this s f sn u env w b w1 :
  checkRateLimit u (str "gemini") env w = (Return b, w1) ->
  exists out,
    analyzeEmail this s f sn u env w
      = (out, if b then tick (emit (EvGemini s f sn) w1) else w1) /\
    (b = false -> out = Return (fallbackAnalysis (toLowerCase env) s f sn)) /\
    (b = true ->
     out = match gemini env (steps w1) s f sn with
           | Return answer =>
               match validateAnalysis this answer with
               | Return a => Return a
               | Throw _ => Return (fallbackAnalysis (toLowerCase env) s f sn)
               end
           | Throw _ => Return (fallbackAnalysis (toLowerCase env) s f sn)
           end).
Proof.
  intros Hrun. unfold analyzeEmail, tryCatch at 1, bind at 1. rewrite Hrun.
  destruct b; cbn [negb].
  - unfold callGeminiAPI, remote, bind, ask, ret, throw.
    destruct (gemini env (steps w1) s f sn) as [a | e].
    + destruct (validateAnalysis this a);
        eexists; (split; [reflexivity | split; [discriminate | reflexivity]]).
    + eexists; (split; [reflexivity | split; [discriminate | reflexivity]]).
  - eexists. split; [reflexivity |]. split; [reflexivity | discriminate].
Qed.

Lemma classifierCalls_app l1 l2 :
  classifierCalls (l1 ++ l2) = (classifierCalls l1 + classifierCalls l2)%nat.
Proof. unfold classifierCalls. rewrite List.filter_app, List.length_app. reflexivity. Qed.

Variable env : Env.
Hypothesis Hrel : Reliable env.
Variable u : jsstring.
Variables a b : nat.
Hypothesis Hwin : withinWindow env a b.

Local Abbreviation Budgeted := (BudgetSpec.Budgeted env u a b).
Local Abbreviation inBudget := (BudgetSpec.inBudget env u a).

Lemma Budgeted_refl w : Budgeted w w.
Proof. split; [lia |]. intros _ H. split; [exact H | reflexivity]. Qed.

Lemma Budgeted_trans w1 w2 w3 : Budgeted w1 w2 -> Budgeted w2 w3 -> Budgeted w1 w3.
Proof.
  intros [Hs1 H1] [Hs2 H2]. split; [lia |]. intros Hb Hin.
  destruct (H1 ltac:(lia) Hin) as [Hin2 Hacc1].
  destruct (H2 Hb Hin2) as [Hin3 Hacc2].
  split; [exact Hin3 |]. unfold accounted in *. lia.
Qed.

(** A change of the world that touches neither the trace nor the
    limiter's records, and does not go back in time. *)
Lemma Budgeted_same w w' :
  trace w' = trace w -> rateLimits w' = rateLimits w -> (steps w <= steps w')%nat ->
  Budgeted w w'.
Proof.
  intros Ht Hr Hs. split; [exact Hs |]. intros _ (Ha & Hst & Hc).
  unfold BudgetSpec.inBudget, accounted, stampedFrom, keyCount in *. rewrite Ht, Hr.
  split; [| reflexivity]. split; [lia |]. split; [| exact Hc].
  intros d Hd Hk. destruct (Hst d Hd Hk) as (i & Hi & E). exists i. split; [lia | exact E].
Qed.

Lemma Budgeted_tick w : Budgeted w (tick w).
Proof. apply Budgeted_same; cbn; try reflexivity; lia. Qed.

Ltac budget :=
  repeat (first
    [ at_step (BudgetSpec.Budgeted env u a b) Budgeted_refl Budgeted_trans Budgeted_tick
    | apply Budgeted_same; cbn; first [reflexivity | lia] ]).

(** One analysis: a request is made exactly when the limiter recorded
    one, and the limiter records none beyond the tenth of a window. *)
Lemma budget_analyzeEmail this s f sn :
  PostAt env Budgeted anyValue (analyzeEmail this s f sn u).
Proof.
  intros w. split; [| constructor].
  destruct (Z_lt_le_dec (windowCount (geminiKey u) (clock env (steps w)) w) 10) as [Hc | Hc].
  - destruct (checkRateLimit_allowed env w u (str "gemini")) as (w1 & Hrun & Hrl & Hs1 & Ht1 & _);
      [apply Hrel.. | exact Hc |].
    destruct (analyzeEmail_after_check this s f sn u env w true w1 Hrun) as (out & -> & _ & _).
    cbn [snd].
    split; [cbn; lia |]. intros Hb (Ha & Hst & Hk). cbn in Hb.
    assert (Hcount : keyCount (geminiKey u) w1 = S (keyCount (geminiKey u) w)).
    { unfold keyCount. rewrite Hrl, List.filter_app, List.length_app. cbn.
      unfold jsstring_eqb, geminiKey. rewrite bool_decide_eq_true_2 by reflexivity.
      cbn. lia. }
    rewrite (windowCount_within env (geminiKey u) a b) in Hc; [| assumption.. | lia].
    split; [split; [| split] |].
    + cbn. lia.
    + intros d Hd Hkey. cbn in Hd. rewrite Hrl in Hd.
      apply in_app_or in Hd as [Hd | [<- | []]].
      * destruct (Hst d Hd Hkey) as (i & Hi & E). exists i. split; [cbn; lia | exact E].
      * exists (2 + steps w)%nat. split; [cbn; lia | reflexivity].
    + change (keyCount (geminiKey u) (tick (emit (EvGemini s f sn) w1)))
        with (keyCount (geminiKey u) w1). lia.
    + unfold accounted.
      change (keyCount (geminiKey u) (tick (emit (EvGemini s f sn) w1)))
        with (keyCount (geminiKey u) w1).
      change (trace (tick (emit (EvGemini s f sn) w1))) with (trace w1 ++ [EvGemini s f sn]).
      rewrite classifierCalls_app, Ht1, Hcount. cbn. lia.
  - pose proof (checkRateLimit_denied env w u (str "gemini") (Hrel _) Hc) as Hrun.
    destruct (analyzeEmail_after_check this s f sn u env w false _ Hrun) as (out & -> & _ & _).
    cbn [snd].
    apply Budgeted_same; cbn; try reflexivity; lia.
Qed.

Lemma budget_updateEmailAnalysis g an :
  PostAt env Budgeted anyValue (updateEmailAnalysis g an).
Proof. unfold updateEmailAnalysis. budget. Qed.

Lemma budget_getEmails q : PostAt env Budgeted anyValue (getEmails u q).
Proof. unfold getEmails. budget. Qed.

Lemma budget_batchAnalyzeEmails this emails :
  PostAt env Budgeted anyValue (EnhancedGeminiAnalyzer.batchAnalyzeEmails this emails u).
Proof.
  unfold EnhancedGeminiAnalyzer.batchAnalyzeEmails, sleep.
  budget; try apply budget_analyzeEmail; try apply budget_updateEmailAnalysis; budget.
Qed.

End Budget.

(** What an answer of the limiter says of its records: a denial files
    nothing; a pass files the call, unless the store failed while the
    limiter counted or filed, in which case nothing is filed. *)
Lemma checkRateLimit_record env w u :
  exists allowed w1,
    MongoDatabase.checkRateLimit u (str "gemini") env w = (Return allowed, w1) /\
    trace w1 = trace w /\ emails w1 = emails w /\ labels w1 = labels w /\
    batchLogs w1 = batchLogs w /\
    (allowed = false -> rateLimits w1 = rateLimits w) /\
    (allowed = true ->
     BudgetSpec.filed u w w1 \/
     (rateLimits w1 = rateLimits w /\ BudgetSpec.limiterFault env w)) /\
    (BudgetSpec.filed u w w1 -> ~ BudgetSpec.limiterFault env w).
Proof.
  unfold BudgetSpec.filed, BudgetSpec.limiterFault, BudgetSpec.geminiKey, RateSpec.rateKey.
  unfold MongoDatabase.checkRateLimit, MongoDatabase.countDocuments,
    MongoDatabase.insertOne_rateLimits, tryCatch, bind, Date_now, dbOp, gets, modify, ret.
  cbn. destruct (dbFault env (S (steps w))) eqn:F0.
  - eexists _, _. split; [reflexivity |]. cbn. do 4 (split; [reflexivity |]).
    split; [reflexivity |]. split.
    + intros _. right. split; [reflexivity |]. left. discriminate.
    + intros (stamp & expires & H). apply (f_equal (@length _)) in H.
      rewrite List.length_app in H. cbn in H. lia.
  - destruct (10 <=? _).
    + eexists _, _. split; [reflexivity |]. cbn. do 4 (split; [reflexivity |]).
      split; [reflexivity |]. split; [discriminate |].
      intros (stamp & expires & H). apply (f_equal (@length _)) in H.
      rewrite List.length_app in H. cbn in H. lia.
    + cbn. destruct (dbFault env (S (S (S (S (steps w)))))) eqn:F1.
      * eexists _, _. split; [reflexivity |]. cbn. do 4 (split; [reflexivity |]).
        split; [reflexivity |]. split.
        -- intros _. right. split; [reflexivity |]. right. discriminate.
        -- intros (stamp & expires & H). apply (f_equal (@length _)) in H.
           rewrite List.length_app in H. cbn in H. lia.
      * eexists _, _. split; [reflexivity |]. cbn. do 4 (split; [reflexivity |]).
        split; [discriminate |]. split.
        -- intros _. left. eexists _, _. reflexivity.
        -- intros _ [H | H]; apply H; reflexivity.
Qed.

(** X7. One analysis and the limiter.  [analyzeEmail] asks the limiter
    first; the limiter always answers.  If the answer is no, nothing is
    filed, no request is sent to the classifier and the result is the one
    of the rule engine.  If it is yes, exactly one request is sent, with
    the subject, sender and snippet given, and the result is the validated
    answer, or the one of the rule engine when the classifier fails or its
    answer does not pass the validation.  A request that is sent has been
    filed by the limiter, unless the store failed while the limiter
    counted or filed: then the limiter says yes all the same, and the
    request is sent with nothing filed.  Nothing but the limiter's own
    record and that request changes in the world: the stored messages,
    labels and jobs are untouched. *)
Theorem analyzeEmail_request_follows_limiter (env : Env) (w : World)
    (this : EnhancedGeminiAnalyzer.Analyzer) (subject from snippet userId : jsstring) :
  let rules := EnhancedGeminiAnalyzer.fallbackAnalysis (toLowerCase env) subject from snippet in
  exists allowed w1,
    MongoDatabase.checkRateLimit userId (str "gemini") env w = (Return allowed, w1) /\
    let run := EnhancedGeminiAnalyzer.analyzeEmail this subject from snippet userId env w in
    trace (snd run)
      = trace w ++ (if allowed then [EvGemini subject from snippet] else []) /\
    rateLimits (snd run) = rateLimits w1 /\
    (allowed = false -> rateLimits (snd run) = rateLimits w) /\
    (allowed = true ->
     BudgetSpec.filed userId w (snd run) \/
     (rateLimits (snd run) = rateLimits w /\ BudgetSpec.limiterFault env w)) /\
    (BudgetSpec.filed userId w (snd run) -> ~ BudgetSpec.limiterFault env w) /\
    emails (snd run) = emails w /\ labels (snd run) = labels w /\
    batchLogs (snd run) = batchLogs w /\
    fst run =
      (if allowed then
         match gemini env (steps w1) subject from snippet with
         | Return answer =>
             match EnhancedGeminiAnalyzer.validateAnalysis this answer with
             | Return a => Return a
             | Throw _ => Return rules
             end
         | Throw _ => Return rules
         end
       else Return rules).
Proof.
  intros rules.
  destruct (checkRateLimit_record env w userId)
    as (allowed & w1 & Hrun & Ht & He & Hl & Hb & Hdenied & Hpassed & Hfiled).
  exists allowed, w1. split; [exact Hrun |]. intros run. subst run.
  destruct (analyzeEmail_after_check this subject from snippet userId env w allowed w1 Hrun)
    as (out & -> & Hno & Hyes).
  cbn [fst snd].
  assert (Hrl : rateLimits (if allowed then tick (emit (EvGemini subject from snippet) w1)
                            else w1) = rateLimits w1) by (destruct allowed; reflexivity).
  assert (Hsame : forall P : list RateDoc -> Prop,
            P (rateLimits w1) ->
            P (rateLimits (if allowed then tick (emit (EvGemini subject from snippet) w1)
                           else w1))) by (intros P HP; rewrite Hrl; exact HP).
  split; [destruct allowed; cbn [trace tick emit]; rewrite Ht, ?app_nil_r; reflexivity |].
  split; [exact Hrl |].
  split; [intros H; rewrite Hrl; apply Hdenied, H |].
  split.
  { intros H. destruct (Hpassed H) as [Hf | [Hf Hfault]].
    - left. unfold BudgetSpec.filed in *. rewrite Hrl. exact Hf.
    - right. rewrite Hrl. split; assumption. }
  split; [unfold BudgetSpec.filed in *; rewrite Hrl; exact Hfiled |].
  split; [destruct allowed; cbn [emails tick emit]; exact He |].
  split; [destruct allowed; cbn [labels tick emit]; exact Hl |].
  split; [destruct allowed; cbn [batchLogs tick emit]; exact Hb |].
  destruct allowed; [apply Hyes | apply Hno]; reflexivity.
Qed.

Lemma analyzeEmail_request_follows_limiter_witness :
  let run := EnhancedGeminiAnalyzer.analyzeEmail
               (EnhancedGeminiAnalyzer.constructor None None)
               (str "Team meeting") (str "boss@example.com") (str "see you at ten")
               Scenario.user1 (Scenario.faultAt 1) Scenario.emptyWorld in
  BudgetSpec.limiterFault (Scenario.faultAt 1) Scenario.emptyWorld /\
  trace (snd run)
    = [EvGemini (str "Team meeting") (str "boss@example.com") (str "see you at ten")] /\
  rateLimits (snd run) = [].
Proof.
  intros run. subst run.
  assert (Hfault : BudgetSpec.limiterFault (Scenario.faultAt 1) Scenario.emptyWorld)
    by (left; discriminate).
  split; [exact Hfault |].
  destruct (analyzeEmail_request_follows_limiter (Scenario.faultAt 1) Scenario.emptyWorld
              (EnhancedGeminiAnalyzer.constructor None None)
              (str "Team meeting") (str "boss@example.com") (str "see you at ten")
              Scenario.user1)
    as (allowed & w1 & Hcheck & Htrace & _ & _ & Hpassed & Hfiled & _).
  assert (Hallowed : allowed = true).
  { apply (f_equal fst) in Hcheck. vm_compute in Hcheck. congruence. }
  subst allowed. split; [exact Htrace |].
  destruct (Hpassed eq_refl) as [Hf | [Hsame _]]; [destruct (Hfiled Hf Hfault) | exact Hsame].
Defined.

(** X8. The request budget of an ['analyzeEmails'] step.  With the store
    reachable, take a stretch of steps whose clock reads lie within one
    minute of each other, and a world in it whose limiter holds at most
    ten requests of the user, all stamped in the stretch.  If the step
    ends inside the stretch, every request it sent to the classifier was
    recorded by the limiter and the limiter still holds at most ten: the
    step sends at most ten requests minus those already recorded, however
    many messages it analyses. *)
Theorem analyzeEmails_within_budget (env : Env) (a b : nat) (w : World)
    (this : BatchProcessor.Processor) (batchId : jsstring) (o : Options) :
  Reliable env ->
  RateSpec.withinWindow env a b ->
  BudgetSpec.inBudget env (o_userId o) a w ->
  let k := BudgetSpec.geminiKey (o_userId o) in
  let w' := snd (BatchProcessor.batchAnalyzeEmails this batchId o env w) in
  (steps w' <= b)%nat ->
  (BudgetSpec.classifierCalls (trace w') + RateSpec.keyCount k w
   = BudgetSpec.classifierCalls (trace w) + RateSpec.keyCount k w')%nat /\
  (RateSpec.keyCount k w' <= 10)%nat /\
  (BudgetSpec.classifierCalls (trace w') + RateSpec.keyCount k w
   <= BudgetSpec.classifierCalls (trace w) + 10)%nat.
Proof.
  intros Hrel Hwin Hin k w' Hb.
  assert (H : PostAt env (BudgetSpec.Budgeted env (o_userId o) a b) anyValue
                (BatchProcessor.batchAnalyzeEmails this batchId o)).
  { unfold BatchProcessor.batchAnalyzeEmails.
    repeat (first
      [ apply budget_getEmails
      | apply budget_batchAnalyzeEmails; assumption
      | at_step (BudgetSpec.Budgeted env (o_userId o) a b)
                (Budgeted_refl env (o_userId o) a b)
                (Budgeted_trans env (o_userId o) a b)
                (Budgeted_tick env (o_userId o) a b) ]). }
  destruct (H w) as [[_ Hbud] _]. destruct (Hbud Hb Hin) as [(_ & _ & Hk) Hacc].
  unfold BudgetSpec.accounted in Hacc. fold k w' in Hacc, Hk.
  split; [exact Hacc |]. split; [exact Hk | lia].
Qed.

Lemma analyzeEmails_within_budget_witness :
  let w' := snd (BatchProcessor.batchAnalyzeEmails Scenario.processor Scenario.firstBatch
                   Scenario.noOptions Scenario.calmEnv Cases.unreadWorld) in
  (BudgetSpec.classifierCalls (trace w') <= 10)%nat.
Proof.
  intros w'.
  assert (Hrel : Reliable Scenario.calmEnv) by (intros n; reflexivity).
  assert (Hwin : RateSpec.withinWindow Scenario.calmEnv 0 200).
  { intros i j Hi Hj. cbn. lia. }
  assert (Hin : BudgetSpec.inBudget Scenario.calmEnv (o_userId Scenario.noOptions) 0
                  Cases.unreadWorld).
  { split; [cbn; lia |]. split; [intros d [] | cbn; lia]. }
  assert (Hb : (steps w' <= 200)%nat).
  { apply Nat.leb_le. vm_compute. reflexivity. }
  destruct (analyzeEmails_within_budget Scenario.calmEnv 0 200 Cases.unreadWorld
              Scenario.processor Scenario.firstBatch Scenario.noOptions Hrel Hwin Hin Hb)
    as (_ & _ & Hle).
  exact Hle.
Defined.

(** *** A run of a job keeps to that job *)

Section ConfinedRuns.
Import MongoDatabase EnhancedGeminiAnalyzer BatchProcessor JobSpec.

Variable bid : jsstring.

Lemma sameJob_refl d : sameJob bid d d.
Proof. repeat split. Qed.

Lemma sameJob_trans d1 d2 d3 : sameJob bid d1 d2 -> sameJob bid d2 d3 -> sameJob bid d1 d3.
Proof.
  intros (H1 & H2 & H3 & H4) (H5 & H6 & H7 & H8). repeat split; try congruence.
  intros Hne. rewrite H8 by congruence. apply H4. exact Hne.
Qed.

Lemma Forall2_sameJob_refl l : Forall2 (sameJob bid) l l.
Proof. induction l; constructor; [apply sameJob_refl | assumption]. Qed.

Lemma Forall2_sameJob_trans l1 : forall l2 l3,
  Forall2 (sameJob bid) l1 l2 -> Forall2 (sameJob bid) l2 l3 -> Forall2 (sameJob bid) l1 l3.
Proof.
  induction l1 as [| d l1 IH]; intros l2 l3 H12 H23.
  - inversion H12; subst. inversion H23; subst. constructor.
  - inversion H12; subst. inversion H23; subst. constructor.
    + eapply sameJob_trans; eassumption.
    + eapply IH; eassumption.
Qed.

Lemma Confined_refl w : Confined bid w w.
Proof. repeat split. apply Forall2_sameJob_refl. Qed.

Lemma Confined_trans w1 w2 w3 : Confined bid w1 w2 -> Confined bid w2 w3 -> Confined bid w1 w3.
Proof.
  intros (H1 & H2 & H3 & H4) (H5 & H6 & H7 & H8). repeat split; try congruence.
  eapply Forall2_sameJob_trans; eassumption.
Qed.

(** A change of the world that touches none of the four. *)
Lemma Confined_same w w' :
  oauth w' = oauth w -> reqUser w' = reqUser w -> users w' = users w ->
  batchLogs w' = batchLogs w -> Confined bid w w'.
Proof.
  intros H1 H2 H3 H4. repeat split; try assumption. rewrite H4. apply Forall2_sameJob_refl.
Qed.

Lemma Confined_tick w : Confined bid w (tick w).
Proof. apply Confined_same; reflexivity. Qed.

Lemma Forall2_sameJob_updateFirst upd l :
  Forall2 (sameJob bid) l (Collection.updateFirst (hasBatchId bid) (applySet upd) l).
Proof.
  induction l as [| d l IH]; cbn; [constructor |].
  destruct (hasBatchId bid d) eqn:E.
  - constructor; [| apply Forall2_sameJob_refl]. repeat split.
    intros Hne. apply bool_decide_eq_true in E. contradiction.
  - constructor; [apply sameJob_refl | exact IH].
Qed.

Ltac confined :=
  repeat (first
    [ post_step (Confined bid) Confined_refl Confined_trans Confined_tick
    | apply Confined_same; reflexivity ]).

Lemma confined_updateBatchLog upd : Post (Confined bid) anyValue (updateBatchLog bid upd).
Proof.
  unfold updateBatchLog. confined. repeat split. cbn. apply Forall2_sameJob_updateFirst.
Qed.

Lemma confined_checkRateLimit u op : Post (Confined bid) anyValue (checkRateLimit u op).
Proof. unfold checkRateLimit, countDocuments, insertOne_rateLimits. confined. Qed.

Lemma confined_saveEmail e : Post (Confined bid) anyValue (saveEmail e).
Proof. unfold saveEmail. confined. Qed.

Lemma confined_getEmails u q : Post (Confined bid) anyValue (getEmails u q).
Proof. unfold getEmails. confined. Qed.

Lemma confined_updateEmailAnalysis g a : Post (Confined bid) anyValue (updateEmailAnalysis g a).
Proof. unfold updateEmailAnalysis. confined. Qed.

Lemma confined_markSynced g : Post (Confined bid) anyValue (markSynced g).
Proof. unfold markSynced. confined. Qed.

Lemma confined_saveLabel u n i c a : Post (Confined bid) anyValue (saveLabel u n i c a).
Proof. unfold saveLabel. confined. Qed.

Lemma confined_getLabels u : Post (Confined bid) anyValue (getLabels u).
Proof. unfold getLabels. confined. Qed.

Lemma confined_getLabelByName u n : Post (Confined bid) anyValue (getLabelByName u n).
Proof. unfold getLabelByName. confined. Qed.

Lemma confined_getCategoryBreakdown u : Post (Confined bid) anyValue (getCategoryBreakdown u).
Proof. unfold getCategoryBreakdown. confined. Qed.

Lemma confined_analyzeEmail this s f sn u :
  Post (Confined bid) anyValue (analyzeEmail this s f sn u).
Proof.
  unfold analyzeEmail, callGeminiAPI. confined; try apply confined_checkRateLimit; confined.
Qed.

Lemma confined_batchAnalyzeEmails_analyzer this emails u :
  Post (Confined bid) anyValue (EnhancedGeminiAnalyzer.batchAnalyzeEmails this emails u).
Proof.
  unfold EnhancedGeminiAnalyzer.batchAnalyzeEmails, sleep.
  confined; try apply confined_analyzeEmail; try apply confined_updateEmailAnalysis; confined.
Qed.

Lemma confined_suggestLabelOrganization this u :
  Post (Confined bid) anyValue (suggestLabelOrganization this u).
Proof.
  unfold suggestLabelOrganization.
  confined; try apply confined_getLabels; try apply confined_getCategoryBreakdown; confined.
Qed.

Lemma confined_messages_list : Post (Confined bid) anyValue messages_list.
Proof.
  intros env w. split; [| constructor]. unfold messages_list.
  destruct (listing w); cbn; apply Confined_same; reflexivity.
Qed.

Lemma confined_fetchMessage u t id : Post (Confined bid) anyValue (fetchMessage u t id).
Proof. unfold fetchMessage. confined; try apply confined_saveEmail; confined. Qed.

Lemma confined_fetchLoop script u size : forall t,
  Post (Confined bid) anyValue (fetchLoop script bid u size t).
Proof.
  induction script as [| page script IH]; intros t; cbn [fetchLoop];
    confined; try apply confined_messages_list; try apply confined_fetchMessage;
    try apply confined_updateBatchLog; try apply IH; confined.
Qed.

Lemma confined_batchFetchEmails o : Post (Confined bid) anyValue (batchFetchEmails bid o).
Proof. unfold batchFetchEmails. confined; try apply confined_fetchLoop; confined. Qed.

Lemma confined_batchAnalyzeEmails this o :
  Post (Confined bid) anyValue (BatchProcessor.batchAnalyzeEmails this bid o).
Proof.
  unfold BatchProcessor.batchAnalyzeEmails.
  confined; try apply confined_getEmails; try apply confined_batchAnalyzeEmails_analyzer;
    confined.
Qed.

Lemma confined_createLabel u c n : Post (Confined bid) anyValue (createLabel u c n).
Proof.
  unfold createLabel. destruct c.
  confined; try apply confined_getLabelByName; try apply confined_saveLabel; confined.
Qed.

Lemma confined_batchCreateLabels o : Post (Confined bid) anyValue (batchCreateLabels bid o).
Proof.
  unfold batchCreateLabels.
  confined; try apply confined_getEmails; try apply confined_createLabel; confined.
Qed.

Lemma confined_assignLabel u c e : Post (Confined bid) anyValue (assignLabel u c e).
Proof.
  unfold assignLabel. destruct c.
  confined; try apply confined_getLabelByName; try apply confined_markSynced; confined.
Qed.

Lemma confined_batchAssignLabels o : Post (Confined bid) anyValue (batchAssignLabels bid o).
Proof.
  unfold batchAssignLabels.
  confined; try apply confined_getEmails; try apply confined_assignLabel; confined.
Qed.

Lemma confined_batchOrganizeLabels this o :
  Post (Confined bid) anyValue (batchOrganizeLabels this bid o).
Proof.
  unfold batchOrganizeLabels. confined; try apply confined_suggestLabelOrganization; confined.
Qed.

Lemma confined_fullBatchProcess this o : Post (Confined bid) anyValue (fullBatchProcess this bid o).
Proof.
  unfold fullBatchProcess.
  confined; try apply confined_batchFetchEmails; try apply confined_batchAnalyzeEmails;
    try apply confined_batchCreateLabels; try apply confined_batchAssignLabels; confined.
Qed.

Lemma confined_dispatch this b : Post (Confined bid) anyValue (dispatch this bid b).
Proof.
  unfold dispatch.
  repeat match goal with
         | |- Post _ _ (if ?c then _ else _) => destruct c
         end;
    auto using confined_batchFetchEmails, confined_batchAnalyzeEmails,
      confined_batchCreateLabels, confined_batchAssignLabels, confined_batchOrganizeLabels,
      confined_fullBatchProcess.
  apply (post_throw (Confined bid) Confined_refl).
Qed.

(** What follows the installing of the credentials in [executeBatch]. *)
Local Abbreviation executeBatch_rest this :=
  (let* batchLog := findBatchLog bid in
   match batchLog with
   | None => throw (Error (str "Batch not found"))
   | Some batchLog =>
       let* startTime := Date_now in
       let* _ := updateBatchLog bid
                   (<["status" := JStr (str "running")]>
                    (<["startTime" := JDate startTime]> ∅)) in
       let* result := dispatch this bid batchLog in
       let* endTime := Date_now in
       let* _ := updateBatchLog bid
                   (spread (<["status" := JStr (str "completed")]>
                            (<["endTime" := JDate endTime]> ∅))
                           result) in
       ret result
   end).

Lemma executeBatch_split this tok env w :
  executeBatch this bid tok env w
  = tryCatch (executeBatch_rest this) (executeBatch_catch bid) env (set_oauth tok w).
Proof. destruct tok. reflexivity. Qed.

Lemma confined_executeBatch_rest this :
  Post (Confined bid) anyValue (executeBatch_rest this).
Proof.
  unfold findBatchLog.
  confined; try apply confined_updateBatchLog; try apply confined_dispatch; confined.
Qed.

Lemma confined_executeBatch_catch e : Post (Confined bid) anyValue (executeBatch_catch bid e).
Proof. unfold executeBatch_catch. confined; try apply confined_updateBatchLog; confined. Qed.

Lemma executeBatch_confined this tok env w :
  Confined bid (set_oauth tok w) (snd (executeBatch this bid tok env w)).
Proof.
  rewrite executeBatch_split.
  assert (H : Post (Confined bid) anyValue
                (tryCatch (executeBatch_rest this) (executeBatch_catch bid))).
  { apply (post_tryCatch (Confined bid) Confined_trans);
      [apply confined_executeBatch_rest | apply confined_executeBatch_catch]. }
  apply H.
Qed.

End ConfinedRuns.

Section Jobs.
Import MongoDatabase BatchProcessor BatchSpec JobSpec Server Routes.

Lemma find_sameJob_other bid bid' l : forall l',
  bid' <> bid -> Forall2 (sameJob bid) l l' ->
  List.find (hasBatchId bid') l' = List.find (hasBatchId bid') l.
Proof.
  intros l' Hne H. induction H as [| d d' l l' (Hid & _ & _ & Hsame) _ IH]; [reflexivity |].
  cbn. unfold hasBatchId at 1 3. rewrite Hid.
  destruct (jsstring_eqb (batchId d) bid') eqn:E; [| exact IH].
  apply bool_decide_eq_true in E. rewrite Hsame by congruence. reflexivity.
Qed.

(** What [createBatch] does, whatever the environment: it either stores
    one new job under an identifier no other job has and returns that
    identifier, or throws and leaves the jobs as they were. *)
Lemma createBatch_outcome env w u op o :
  (exists doc w',
      createBatch u op o env w = (Return (batchId doc), w') /\
      batchLogs w' = batchLogs w ++ [doc] /\
      List.find (hasBatchId (batchId doc)) (batchLogs w) = None /\
      b_userId doc = u /\ options doc = o /\
      fields doc !! "operation" = Some (JStr op) /\
      statusOf doc = Some (JStr (str "started")) /\
      fields doc !! "emailsProcessed" = Some (JNum 0) /\
      fields doc !! "errors" = Some (JArr []) /\
      reqUser w' = reqUser w) \/
  (exists e w',
      createBatch u op o env w = (Throw e, w') /\
      batchLogs w' = batchLogs w /\ trace w' = trace w).
Proof.
  unfold createBatch, generateBatchId, createBatchLog, tryCatch, bind, Date_now, dbOp,
    gets, modify, ret, throw. cbn.
  destruct (dbFault env (S (S (S (steps w))))); [right; eauto |].
  cbn. destruct (existsb _ (batchLogs w)) eqn:E; [right; eauto |].
  left. eexists (mkBatchLog _ _ _ _), _. split; [reflexivity |]. cbn.
  split; [reflexivity |]. split; [apply find_existsb_false; exact E |].
  repeat split; reflexivity.
Qed.

Lemma getUser_run uid env w :
  getUser uid env w =
  match dbFault env (steps w) with
  | Some e => (Throw e, tick w)
  | None => (Return (List.find (fun u => jsstring_eqb (u_userId u) uid) (users w)), tick w)
  end.
Proof.
  unfold getUser, tryCatch, bind, dbOp, gets, throw.
  destruct (dbFault env (steps w)); reflexivity.
Qed.

Lemma updateUserTokens_oauth env w uid a r t :
  oauth (snd (updateUserTokens uid a r t env w)) = oauth w.
Proof.
  unfold updateUserTokens, tryCatch, bind, Date_now, dbOp, modify, throw. cbn.
  destruct (dbFault env (S (steps w))); reflexivity.
Qed.

(** An operation that installs its own credentials has the last word:
    whatever the guard installed, refreshed or not, the client ends with
    the credentials of the operation. *)
Lemma withTokenRefresh_operation_credentials {A} (operation : M A) (c : Credentials) env w :
  (forall env w, oauth (snd (operation env w)) = Some c) ->
  oauth (snd (withTokenRefresh operation env w)) = Some c.
Proof.
  intros Hop.
  destruct (operation env (GuardSpec.firstAttempt w)) as [[r | e] w1] eqn:H1.
  - rewrite (withTokenRefresh_first_ok _ operation env w r w1 H1). cbn.
    rewrite <- (Hop env (GuardSpec.firstAttempt w)), H1. reflexivity.
  - assert (Hw1 : oauth w1 = Some c).
    { rewrite <- (Hop env (GuardSpec.firstAttempt w)), H1. reflexivity. }
    destruct (isTokenError e) eqn:He.
    + destruct (refreshAccessToken env (steps w1)) as [cr | e'] eqn:Hr.
      * destruct (updateUserTokens (profile_id (reqUser w1)) (rc_access_token cr)
                    (strOr (rc_refresh_token cr) (s_refreshToken (reqUser w1)))
                    (rc_expiry_date cr) env (tick (emit EvRefreshAccessToken w1)))
          as [[[] | e'] w2] eqn:Hp.
        -- rewrite (withTokenRefresh_retried _ operation env w e w1 cr w2 H1 He Hr Hp).
           pose proof (Hop env (GuardSpec.retryAttempt cr w2)) as H3.
           destruct (operation env (GuardSpec.retryAttempt cr w2)) as [[r | e3] w3];
             exact H3.
        -- destruct (withTokenRefresh_persist_failed _ operation env w e w1 cr e' w2
                       H1 He Hr Hp) as (resp & -> & _).
           cbn [snd]. change w2 with (snd (Throw (A := unit) e', w2)). rewrite <- Hp.
           rewrite updateUserTokens_oauth. exact Hw1.
      * destruct (withTokenRefresh_refresh_failed _ operation env w e w1 e' H1 He Hr)
          as (resp & -> & _). exact Hw1.
    + rewrite (withTokenRefresh_other_failure _ operation env w e w1 H1 He). exact Hw1.
Qed.

Lemma batchStatus_run bid env w :
  batchStatus bid env w =
  match dbFault env (steps w) with
  | Some e => (Return (StatusError 500 (str "Failed to get batch status")), tick w)
  | None =>
      (Return match job bid w with
              | Some doc => StatusDocument doc
              | None => StatusError 404 (str "Batch not found")
              end, tick w)
  end.
Proof.
  unfold batchStatus, getBatchStatus, findBatchLog, tryCatch, bind, dbOp, gets, ret, throw,
    job.
  destruct (dbFault env (steps w)); [reflexivity |].
  cbn [batchLogs tick]. destruct (List.find _ (batchLogs w)); reflexivity.
Qed.

End Jobs.

(** X9. A run of [executeBatch] on job [batchId] keeps to that job,
    whatever the environment does and whether it returns or throws: the
    store holds the same jobs in the same order afterwards, none added and
    none removed; each keeps its identifier, its user and its options;
    every other job is exactly the document it was.  The session and the
    stored users are untouched, and the OAuth client holds the tokens the
    call was given. *)
Theorem executeBatch_keeps_to_its_job (env : Env) (w : World)
    (this : BatchProcessor.Processor) (batchId : jsstring) (userTokens : Credentials) :
  let w' := snd (BatchProcessor.executeBatch this batchId userTokens env w) in
  Forall2 (JobSpec.sameJob batchId) (batchLogs w) (batchLogs w') /\
  (forall other, other <> batchId -> BatchSpec.job other w' = BatchSpec.job other w) /\
  oauth w' = Some userTokens /\ reqUser w' = reqUser w /\ users w' = users w.
Proof.
  intros w'. destruct (executeBatch_confined batchId this userTokens env w)
    as (Ho & Hr & Hu & Hj).
  fold w' in Ho, Hr, Hu, Hj. cbn in Hj. repeat split; try assumption.
  intros other Hne. unfold BatchSpec.job. eapply find_sameJob_other; eassumption.
Qed.

(** X10. [executeBatch] on a job whose operation is none of the six it
    knows.  Such a job can exist: [createBatch] stores any operation name.
    With the store reachable the run throws ['Unknown operation: <name>'],
    issues no call to the mail provider or to the classifier, writes
    ['running'] and then ['failed'] to the job, and leaves it failed with
    that message as its only error. *)
Theorem executeBatch_unknown_operation (env : Env) (w : World)
    (this : BatchProcessor.Processor) (batchId : jsstring) (userTokens : Credentials)
    (b : BatchLog) :
  Reliable env ->
  BatchSpec.job batchId w = Some b ->
  JobSpec.knownOperation (fields b !! "operation") = false ->
  let message := str "Unknown operation: "
                 ++ BatchProcessor.operationText (fields b !! "operation") in
  exists w' updR updF b',
    BatchProcessor.executeBatch this batchId userTokens env w = (Throw (Error message), w') /\
    trace w' = trace w ++ [EvBatchUpdate batchId updR; EvBatchUpdate batchId updF] /\
    updR !! "status" = Some BatchSpec.running /\
    updF !! "status" = Some BatchSpec.failed /\
    BatchSpec.job batchId w' = Some b' /\
    BatchSpec.statusOf b' = Some BatchSpec.failed /\
    fields b' !! "errors" = Some (JArr [JStr message]).
Proof.
  intros Hrel Hb Hknown message.
  destruct (executeBatch_cases env Hrel w this batchId userTokens b Hb)
    as (w2 & updR & w3 & b3 & evs & out & HupdR & Hj2 & Ht2 & Hd & Ht3 & _ & Hj3 & _ & Hout).
  assert (Hdis : BatchProcessor.dispatch this batchId b env w2 = (Throw (Error message), w2)).
  { unfold JobSpec.knownOperation, JobSpec.knownOperations in Hknown. cbn [existsb] in Hknown.
    repeat (apply orb_false_elim in Hknown as [?H Hknown]).
    unfold BatchProcessor.dispatch.
    repeat match goal with H : BatchProcessor.operationIs _ _ = false |- _ =>
      rewrite H; clear H end.
    reflexivity. }
  rewrite Hdis in Hd. injection Hd as <- <-.
  destruct Hout as (_ & w4 & Hrun & Hj4 & Ht4).
  eexists w4, updR, _, _. split; [exact Hrun |].
  split; [rewrite Ht4, Ht2, <- app_assoc; reflexivity |].
  split; [exact HupdR |]. split; [| split; [exact Hj4 |]].
  - rewrite lookup_insert_ne by discriminate. apply lookup_insert_eq.
  - split.
    + unfold BatchSpec.statusOf, MongoDatabase.applySet, spread. cbn [fields].
      apply lookup_union_Some_l. rewrite lookup_insert_ne by discriminate.
      apply lookup_insert_eq.
    + unfold MongoDatabase.applySet, spread. cbn [fields].
      apply lookup_union_Some_l. do 3 (rewrite lookup_insert_ne by discriminate).
      apply lookup_insert_eq.
Qed.

Lemma executeBatch_unknown_operation_witness :
  let w := snd (BatchProcessor.createBatch Scenario.user1 (str "archive") Scenario.noOptions
                  Scenario.calmEnv Scenario.emptyWorld) in
  exists w',
    BatchProcessor.executeBatch Scenario.processor Scenario.firstBatch Scenario.tokens
      Scenario.calmEnv w
    = (Throw (Error (str "Unknown operation: archive")), w').
Proof.
  intros w.
  assert (Hrel : Reliable Scenario.calmEnv) by (intros n; reflexivity).
  destruct (BatchSpec.job Scenario.firstBatch w) as [b |] eqn:Hb; [| vm_compute in Hb; discriminate].
  assert (Hop : fields b !! "operation" = Some (JStr (str "archive"))).
  { vm_compute in Hb. injection Hb as <-. reflexivity. }
  destruct (executeBatch_unknown_operation Scenario.calmEnv w Scenario.processor
              Scenario.firstBatch Scenario.tokens b Hrel Hb)
    as (w' & _ & _ & _ & Hrun & _).
  - rewrite Hop. vm_compute. reflexivity.
  - exists w'. rewrite Hrun, Hop. reflexivity.
Defined.

(** X11. The execute route and the token guard.  The operation the route
    guards re-installs, each time it runs, the tokens of the user document
    the route read before calling the guard.  So whenever the route gets a
    value back from the guard, the OAuth client holds those stored tokens:
    after a refresh too, where the guard has just stored and installed the
    new access token and the retried operation puts the old one back. *)
Theorem batchExecute_reinstalls_stored_tokens (env : Env) (w w' : World)
    (this : BatchProcessor.Processor) (batchId : jsstring)
    (reply : Server.Reply (gmap string JSValue)) :
  Routes.batchExecute_guarded this batchId env w = (Return (Some reply), w') ->
  exists user,
    List.find (fun u => jsstring_eqb (u_userId u) (profile_id (reqUser w))) (users w)
      = Some user /\
    oauth w' = Some (JobSpec.storedTokens user).
Proof.
  unfold Routes.batchExecute_guarded, bind at 1, gets. unfold bind at 1.
  rewrite getUser_run. destruct (dbFault env (steps w)); [discriminate |].
  change (users (tick w)) with (users w).
  destruct (List.find _ (users w)) as [user |]; [| discriminate].
  intros Hrun. exists user. split; [reflexivity |].
  pose proof (withTokenRefresh_operation_credentials
                (Routes.executeOperation this batchId user) (JobSpec.storedTokens user)
                env (tick w)) as Hcred.
  unfold bind in Hrun.
  destruct (Server.withTokenRefresh _ env (tick w)) as [[r | e] w1]; [| discriminate].
  injection Hrun as _ <-. apply Hcred. intros env0 w0.
  apply (executeBatch_confined batchId this (JobSpec.storedTokens user) env0 w0).
Qed.

Lemma batchExecute_reinstalls_stored_tokens_witness :
  exists reply w',
    Routes.batchExecute_guarded Scenario.processor Scenario.firstBatch Scenario.calmEnv
      RouteCases.expiredCreated = (Return (Some reply), w') /\
    GuardSpec.guardSteps (trace w') = [EvOperation; EvRefreshAccessToken; EvOperation] /\
    map accessToken (users w') = [str "access-2"] /\
    oauth w' = Some (mkCredentials (str "access-1") (str "refresh-1")).
Proof.
  pose (run := Routes.batchExecute_guarded Scenario.processor Scenario.firstBatch
                 Scenario.calmEnv RouteCases.expiredCreated).
  assert (Hreply : exists reply, fst run = Return (Some reply)).
  { eexists. vm_compute. reflexivity. }
  destruct Hreply as [reply Hreply].
  assert (Hrun : run = (Return (Some reply), snd run)).
  { rewrite <- Hreply. apply surjective_pairing. }
  exists reply, (snd run). split; [exact Hrun |].
  destruct (batchExecute_reinstalls_stored_tokens _ _ _ _ _ _ Hrun) as (user & Hu & Ho).
  split; [vm_compute; reflexivity |]. split; [vm_compute; reflexivity |].
  rewrite Ho. vm_compute in Hu. injection Hu as <-. reflexivity.
Defined.

(** X12. The create route always answers, and it stores a job exactly
    when it answers 200.  The job it stores belongs to the user of the
    session: its [userId] and the [userId] inside its options are the
    session's, whatever [userId] the request put in its options; its
    identifier is the one in the answer and no other job has it; it starts
    with status ['started'] and no errors.  With any other answer, 400 or
    500, the jobs are as they were and nothing was logged. *)
Theorem batchCreate_stores_for_session_user (env : Env) (w : World)
    (operation : jsstring) (o : Options) :
  exists r w',
    Server.batchCreate operation o env w = (Return r, w') /\
    ((Server.status r = 200 /\
      exists doc,
        batchLogs w' = batchLogs w ++ [doc] /\
        Server.body r !! "batchId" = Some (JStr (batchId doc)) /\
        BatchSpec.job (batchId doc) w = None /\
        b_userId doc = profile_id (reqUser w) /\
        o_userId (options doc) = profile_id (reqUser w) /\
        o_batchSize (options doc) = o_batchSize o /\
        fields doc !! "operation" = Some (JStr operation) /\
        BatchSpec.statusOf doc = Some (JStr (str "started")) /\
        fields doc !! "errors" = Some (JArr [])) \/
     (Server.status r <> 200 /\ batchLogs w' = batchLogs w /\ trace w' = trace w)).
Proof.
  unfold Server.batchCreate, tryCatch at 1, bind at 1, gets.
  match goal with
  | |- context [match ?v with Some rejection => ret rejection | None => _ end] =>
      assert (Hv : v = None \/ exists rej, v = Some rej /\ Server.status rej = 400);
      [| destruct Hv as [-> | (rej & -> & Hrej)]]
  end.
  - destruct (o_batchSize o) as [bs |]; [| auto].
    destruct (Server.maxBatchSizes operation) as [[mx |] |]; [| | auto].
    + destruct (negb (bs =? 0)); [| auto].
      destruct (mx <? bs); [right; eexists; split; reflexivity |].
      destruct (bs <? 1); [right; eexists; split; reflexivity | auto].
    + destruct (negb (bs =? 0)); [| auto].
      destruct (bs <? 1); [right; eexists; split; reflexivity | auto].
  - unfold bind at 1.
    destruct (createBatch_outcome env w (profile_id (reqUser w)) operation
                (Server.withUserId o (profile_id (reqUser w))))
      as [(doc & w' & -> & Hlogs & Hfresh & Hu & Ho & Hop & Hst & _ & Herr & _)
         | (e & w' & -> & Hlogs & Htr)].
    + eexists _, _. split; [reflexivity |]. left. split; [reflexivity |].
      exists doc. rewrite Ho. repeat split; try assumption; reflexivity.
    + eexists _, _. split; [reflexivity |]. right. cbn. repeat split; try assumption.
      discriminate.
  - eexists _, _. split; [reflexivity |]. right. rewrite Hrej.
    repeat split; try reflexivity. discriminate.
Qed.

(** X13. The status route reads a job by its identifier alone.  A job
    that [createBatch] has just stored is returned by the route as it was
    stored (user, options, operation, status ['started'], zero counters,
    no errors) to whichever session asks, the creator's or another user's,
    as long as the store can be read; the route changes neither the jobs
    nor the trace.  An identifier the store does not hold gives 404, and a
    store that cannot be read gives 500. *)
Theorem batchStatus_round_trip (env : Env) (w w1 : World) (userId operation : jsstring)
    (o : Options) (bid : jsstring) (session : Session) :
  BatchProcessor.createBatch userId operation o env w = (Return bid, w1) ->
  let asked := set_reqUser session w1 in
  let run := Routes.batchStatus bid env asked in
  batchLogs (snd run) = batchLogs w1 /\ trace (snd run) = trace w1 /\
  (forall e, dbFault env (steps w1) = Some e ->
     fst run = Return (Routes.StatusError 500 (str "Failed to get batch status"))) /\
  (dbFault env (steps w1) = None ->
   exists doc,
     fst run = Return (Routes.StatusDocument doc) /\
     batchId doc = bid /\ b_userId doc = userId /\ options doc = o /\
     fields doc !! "operation" = Some (JStr operation) /\
     BatchSpec.statusOf doc = Some (JStr (str "started")) /\
     fields doc !! "emailsProcessed" = Some (JNum 0) /\
     fields doc !! "errors" = Some (JArr []) /\
     forall other,
       BatchSpec.job other w1 = None ->
       fst (Routes.batchStatus other env asked)
         = Return (Routes.StatusError 404 (str "Batch not found"))).
Proof.
  intros Hcreate asked run. subst run.
  assert (Hother : forall other,
            fst (Routes.batchStatus other env asked)
            = match dbFault env (steps w1) with
              | Some e => Return (Routes.StatusError 500 (str "Failed to get batch status"))
              | None => Return match BatchSpec.job other w1 with
                               | Some doc => Routes.StatusDocument doc
                               | None => Routes.StatusError 404 (str "Batch not found")
                               end
              end).
  { intros other. rewrite batchStatus_run. subst asked.
    change (steps (set_reqUser session w1)) with (steps w1).
    destruct (dbFault env (steps w1)); reflexivity. }
  rewrite (Hother bid). rewrite batchStatus_run. subst asked.
  change (steps (set_reqUser session w1)) with (steps w1).
  split; [destruct (dbFault env (steps w1)); reflexivity |].
  split; [destruct (dbFault env (steps w1)); reflexivity |].
  split; [intros e ->; reflexivity |]. intros Hdb.
  destruct (createBatch_outcome env w userId operation o)
    as [(doc & w' & Hrun & Hlogs & Hfresh & Hu & Ho & Hop & Hst & Hcnt & Herr & _)
       | (e & w' & Hrun & _)]; rewrite Hrun in Hcreate; [| discriminate].
  injection Hcreate as <- <-.
  assert (Hfind : BatchSpec.job (batchId doc) w' = Some doc).
  { unfold BatchSpec.job. rewrite Hlogs. apply find_app_new; [exact Hfresh |].
    apply bool_decide_eq_true. reflexivity. }
  exists doc. rewrite Hdb, Hfind. repeat split; try assumption.
  intros other Hnone. rewrite (Hother other), Hdb, Hnone. reflexivity.
Qed.

Lemma batchStatus_round_trip_witness :
  exists doc,
    fst (Routes.batchStatus Scenario.firstBatch Scenario.calmEnv
           (set_reqUser RouteCases.otherSession Scenario.createdWorld))
      = Return (Routes.StatusDocument doc) /\
    b_userId doc = Scenario.user1.
Proof.
  destruct (batchStatus_round_trip Scenario.calmEnv Scenario.emptyWorld Scenario.createdWorld
              Scenario.user1 (str "createLabels") Scenario.noOptions Scenario.firstBatch
              RouteCases.otherSession eq_refl) as (_ & _ & _ & H).
  destruct (H eq_refl) as (doc & Hrun & _ & Hu & _).
  exists doc. split; [exact Hrun | exact Hu].
Defined.

(** X14. [updateUserTokens] followed by [getUser], with the store
    reachable.  For a user the store holds, the read gives that user with
    the three token fields just written; for a user it does not hold, the
    update succeeds without storing anything and the read finds no one.
    The document of every other user reads as before. *)
Theorem updateUserTokens_then_getUser (env : Env) (w : World) (userId : jsstring)
    (access refresh : jsstring) (expiry : Z) :
  Reliable env ->
  let stored := List.find (fun u => jsstring_eqb (u_userId u) userId) (users w) in
  exists w1,
    MongoDatabase.updateUserTokens userId access refresh expiry env w = (Return tt, w1) /\
    fst (MongoDatabase.getUser userId env w1)
      = Return (option_map
                  (fun u => mkUser (u_userId u) access refresh expiry (clock env (steps w)))
                  stored) /\
    (stored = None -> users w1 = users w) /\
    forall other, other <> userId ->
      fst (MongoDatabase.getUser other env w1) = fst (MongoDatabase.getUser other env w).
Proof.
  intros Hrel stored.
  unfold MongoDatabase.updateUserTokens, tryCatch, bind, Date_now, dbOp, modify, throw.
  cbn. rewrite Hrel. eexists. split; [reflexivity |].
  rewrite getUser_run, Hrel. cbn [fst users set_users tick].
  split; [| split].
  - f_equal. apply find_updateFirst_same. intros u Hu. exact Hu.
  - intros Hnone. apply updateFirst_none. exact Hnone.
  - intros other Hne. rewrite !getUser_run, !Hrel. cbn [fst users set_users tick]. f_equal.
    apply find_updateFirst_other. intros u Hu. apply bool_decide_eq_true in Hu.
    cbn. split; apply bool_decide_eq_false; congruence.
Qed.

Lemma updateUserTokens_then_getUser_witness :
  fst (MongoDatabase.getUser Scenario.user1 Scenario.calmEnv
         (snd (MongoDatabase.updateUserTokens Scenario.user1 (str "access-2") (str "refresh-1")
                 7200000 Scenario.calmEnv Scenario.expiredWorld)))
  = Return (Some (mkUser Scenario.user1 (str "access-2") (str "refresh-1") 7200000 0)).
Proof.
  assert (Hrel : Reliable Scenario.calmEnv) by (intros n; reflexivity).
  destruct (updateUserTokens_then_getUser Scenario.calmEnv Scenario.expiredWorld Scenario.user1
              (str "access-2") (str "refresh-1") 7200000 Hrel) as (w1 & Hrun & Hget & _).
  rewrite Hrun. exact Hget.
Defined.

(** *** The fetch of a batch: [BatchProcessor.batchFetchEmails] *)

Section Fetch.
Import MongoDatabase BatchProcessor FetchSpec.

Variable env : Env.
Variable bid : jsstring.

Lemma progressWrites_app l1 l2 :
  progressWrites bid (l1 ++ l2) = progressWrites bid l1 ++ progressWrites bid l2.
Proof. apply flat_map_app. Qed.

Lemma listings_app l1 l2 : listings (l1 ++ l2) = (listings l1 + listings l2)%nat.
Proof. unfold listings. rewrite List.filter_app, List.length_app. reflexivity. Qed.

Lemma requested_app l1 l2 : FetchSpec.requested (l1 ++ l2) = (FetchSpec.requested l1 + FetchSpec.requested l2)%nat.
Proof. unfold FetchSpec.requested. rewrite List.filter_app, List.length_app. reflexivity. Qed.

(** One message: the count goes up by one or stays, after one request. *)
Lemma fetchMessage_counts u t id w :
  exists t' w', fetchMessage u t id env w = (Return t', w') /\
    t <= t' <= t + 1 /\ trace w' = trace w ++ [EvGmailGet id] /\ listing w' = listing w.
Proof.
  unfold fetchMessage, tryCatch, bind at 1, remote.
  destruct (gmailGet env (steps w) id) as [msg | err].
  - unfold bind at 1.
    assert (Hdate : exists d w1,
              (match m_date msg with Some d => ret d | None => Date_now end) env
                (tick (emit (EvGmailGet id) w)) = (Return d, w1) /\
              trace w1 = trace w ++ [EvGmailGet id] /\ listing w1 = listing w).
    { destruct (m_date msg); eexists _, _; (split; [reflexivity | split; reflexivity]). }
    destruct Hdate as (d & w1 & -> & Ht1 & Hl1).
    unfold bind at 1. rewrite saveEmail_run.
    destruct (dbFault env (S (steps w1)));
      eexists _, _; (split; [reflexivity |]); (split; [lia | split; [exact Ht1 | exact Hl1]]).
  - eexists _, _. split; [reflexivity |]. split; [lia | split; reflexivity].
Qed.

(** One page: every message is asked for, in order. *)
Lemma fetchPage_counts u : forall ids t w,
  exists t' w', forOf ids (fetchMessage u) t env w = (Return t', w') /\
    t <= t' <= t + Z.of_nat (length ids) /\ trace w' = trace w ++ map EvGmailGet ids /\
    listing w' = listing w.
Proof.
  induction ids as [| id ids IH]; intros t w; cbn [forOf map length].
  - exists t, w. rewrite app_nil_r. split; [reflexivity |]. split; [lia | split; reflexivity].
  - destruct (fetchMessage_counts u t id w) as (t1 & w1 & Hrun1 & Ht1 & Htr1 & Hl1).
    destruct (IH t1 w1) as (t2 & w2 & Hrun2 & Ht2 & Htr2 & Hl2).
    exists t2, w2. unfold bind. rewrite Hrun1, Hrun2.
    split; [reflexivity |]. split; [lia |]. split; [| congruence].
    rewrite Htr2, Htr1, <- app_assoc. reflexivity.
Qed.

Lemma progressWrites_gets ids : progressWrites bid (map EvGmailGet ids) = [].
Proof. induction ids; [reflexivity | exact IHids]. Qed.

Lemma listings_gets ids : listings (map EvGmailGet ids) = 0%nat.
Proof. induction ids; [reflexivity | exact IHids]. Qed.

Lemma requested_gets ids : FetchSpec.requested (map EvGmailGet ids) = length ids.
Proof. induction ids as [| id ids IH]; [reflexivity |]. cbn. f_equal. exact IH. Qed.

(** The write of the progress after a page. *)
Lemma progress_write t w :
  match updateBatchLog bid {[ "emailsProcessed" := JNum t ]} env w with
  | (Return _, w') =>
      exists upd, trace w' = trace w ++ [EvBatchUpdate bid upd] /\
                  upd !! "emailsProcessed" = Some (JNum t) /\
                  listing w' = listing w
  | (Throw _, _) => dbFault env (S (steps w)) <> None
  end.
Proof.
  unfold updateBatchLog, tryCatch, bind, Date_now, dbOp, modify, throw. cbn.
  destruct (dbFault env (S (steps w))); [discriminate |].
  eexists. split; [reflexivity |]. split; [| reflexivity].
  rewrite lookup_insert_ne by discriminate. apply lookup_insert_eq.
Qed.

(** The events of one round of the loop: the page, its messages, the
    write of the count reached. *)
Lemma round_events ids upd t1 :
  upd !! "emailsProcessed" = Some (JNum t1) ->
  let evs := [EvGmailList] ++ map EvGmailGet ids ++ [EvBatchUpdate bid upd] in
  progressWrites bid evs = [t1] /\ listings evs = 1%nat /\ FetchSpec.requested evs = length ids.
Proof.
  intros Hupd evs. subst evs.
  rewrite !progressWrites_app, !listings_app, !requested_app.
  rewrite progressWrites_gets, listings_gets, requested_gets. cbn.
  unfold jsstring_eqb. rewrite bool_decide_eq_true_2 by reflexivity. rewrite Hupd.
  repeat split; lia.
Qed.

Lemma fetched_round ids upd size t t1 :
  upd !! "emailsProcessed" = Some (JNum t1) ->
  t <= t1 <= t + Z.of_nat (length ids) ->
  fetched bid size t t1 ([EvGmailList] ++ map EvGmailGet ids ++ [EvBatchUpdate bid upd]).
Proof.
  intros Hupd Ht. destruct (round_events ids upd t1 Hupd) as (Hp & Hl & Hg).
  unfold fetched. rewrite Hp, Hl, Hg. cbn.
  repeat split; try lia; repeat constructor; lia.
Qed.

Lemma fetched_more ids upd size t t1 n evs :
  upd !! "emailsProcessed" = Some (JNum t1) ->
  t <= t1 <= t + Z.of_nat (length ids) ->
  t1 < size ->
  fetched bid size t1 n evs ->
  fetched bid size t n
    (([EvGmailList] ++ map EvGmailGet ids ++ [EvBatchUpdate bid upd]) ++ evs).
Proof.
  intros Hupd Ht Hsize (Hl & Hlen & Hsorted & Hfrom & Hlast & Hbelow & Hn).
  destruct (round_events ids upd t1 Hupd) as (Hp & Hl1 & Hg).
  unfold fetched. rewrite progressWrites_app, listings_app, requested_app, Hp, Hl1, Hg.
  cbn [app length]. repeat split; try lia.
  - constructor; [exact Hsorted | exact Hfrom].
  - constructor; [lia |]. eapply List.Forall_impl; [| exact Hfrom]. cbn. intros; lia.
  - destruct (progressWrites bid evs) as [| v l] eqn:E; [cbn in Hlen; lia |].
    rewrite <- Hlast. reflexivity.
  - destruct (progressWrites bid evs) as [| v l] eqn:E; [cbn in Hlen; lia |].
    change (removelast (t1 :: v :: l)) with (t1 :: removelast (v :: l)).
    constructor; [exact Hsize | exact Hbelow].
Qed.

Lemma messages_list_trace w :
  trace (snd (messages_list env w)) = trace w ++ [EvGmailList].
Proof. unfold messages_list. destruct (listing w); reflexivity. Qed.

(** One round of the loop, and what decides whether another follows. *)
Lemma fetchLoop_round script u size t w :
  fetchLoop script bid u size t env w =
  match messages_list env w with
  | (Return page, w0) =>
      match forOf (messages page) (fetchMessage u) t env w0 with
      | (Return t1, w1) =>
          match updateBatchLog bid {[ "emailsProcessed" := JNum t1 ]} env w1 with
          | (Return _, w2) =>
              if nextPageToken page && (t1 <? size) then
                match script with
                | _ :: script' => fetchLoop script' bid u size t1 env w2
                | [] => (Return t1, w2)
                end
              else (Return t1, w2)
          | (Throw e, w2) => (Throw e, w2)
          end
      | (Throw e, w1) => (Throw e, w1)
      end
  | (Throw e, w0) => (Throw e, w0)
  end.
Proof.
  destruct script; cbn [fetchLoop]; unfold bind at 1;
    (destruct (messages_list env w) as [[page | e] w0]; [| reflexivity]);
    unfold bind at 1;
    (destruct (forOf _ _ t env w0) as [[t1 | e] w1]; [| reflexivity]);
    unfold bind at 1;
    (destruct (updateBatchLog bid _ env w1) as [[[] | e] w2]; [| reflexivity]);
    destruct (_ && _); reflexivity.
Qed.

Lemma fetchLoop_fetched u size : forall script t w n w',
  fetchLoop script bid u size t env w = (Return n, w') ->
  exists evs, trace w' = trace w ++ evs /\ fetched bid size t n evs.
Proof.
  induction script as [| page0 script IH]; intros t w n w'; rewrite fetchLoop_round;
    pose proof (messages_list_trace w) as Htr0;
    (destruct (messages_list env w) as [[page | e] w0]; [| discriminate]);
    cbn [snd] in Htr0;
    destruct (fetchPage_counts u (messages page) t w0) as (t1 & w1 & -> & Ht1 & Htr1 & _);
    pose proof (progress_write t1 w1) as Hw;
    (destruct (updateBatchLog bid _ env w1) as [[[] | e] w2]; [| discriminate]);
    destruct Hw as (upd & Htr2 & Hupd & _);
    assert (Hround : trace w2 = trace w ++ [EvGmailList] ++ map EvGmailGet (messages page)
                                       ++ [EvBatchUpdate bid upd])
      by (rewrite Htr2, Htr1, Htr0, <- !app_assoc; reflexivity).
  - intros Hend.
    assert (Hret : (Return (A := Z) t1, w2) = (Return n, w'))
      by (destruct (_ && _); exact Hend).
    injection Hret as <- <-. eexists. split; [exact Hround |].
    apply fetched_round; assumption.
  - destruct (nextPageToken page && (t1 <? size)) eqn:Hmore.
    + intros Hrest. destruct (IH _ _ _ _ Hrest) as (evs & Htr3 & Hf).
      eexists. split; [rewrite Htr3, Hround, <- app_assoc; reflexivity |].
      apply andb_prop in Hmore as [_ Hlt]. apply Z.ltb_lt in Hlt.
      apply (fetched_more _ upd size t t1); assumption.
    + intros [= <- <-]. eexists. split; [exact Hround |].
      apply fetched_round; assumption.
Qed.

(** With the store reachable and a listing that never fails, the loop
    returns. *)
Lemma fetchLoop_returns u size :
  Reliable env ->
  forall script t w, served (listing w) ->
  exists n w', fetchLoop script bid u size t env w = (Return n, w').
Proof.
  intros Hrel.
  induction script as [| page0 script IH]; intros t w Hserved; rewrite fetchLoop_round;
    (assert (Hlist : exists page w0, messages_list env w = (Return page, w0) /\
                       served (listing w0));
     [ unfold messages_list; destruct (listing w) as [| first rest] eqn:E;
       [ eexists _, _; split; [reflexivity |]; cbn; rewrite E; constructor
       | inversion Hserved as [| ? ? [p ->] Hrest]; subst;
         eexists _, _; split; [reflexivity | exact Hrest] ]
     |]);
    destruct Hlist as (page & w0 & -> & Hs0);
    destruct (fetchPage_counts u (messages page) t w0) as (t1 & w1 & -> & _ & _ & Hl1);
    pose proof (progress_write t1 w1) as Hw;
    (destruct (updateBatchLog bid _ env w1) as [[[] | e] w2];
     [| destruct Hw; apply Hrel]).
  - destruct (_ && _); eauto.
  - destruct (_ && _); [| eauto]. apply IH.
    destruct Hw as (upd & _ & _ & Hl2). rewrite Hl2, Hl1. exact Hs0.
Qed.

Lemma batchFetchEmails_run o w :
  batchFetchEmails bid o env w =
  match fetchLoop (listing w) bid (o_userId o) (numOr (o_batchSize o) 100) 0 env w with
  | (Return n, w') =>
      (Return (<["emailsProcessed" := JNum n]>
               (<["emailsTotal" := JNum n]>
                (<["operation" := JStr (str "fetchEmails")]> ∅))), w')
  | (Throw e, w') => (Throw e, w')
  end.
Proof.
  unfold batchFetchEmails, tryCatch, bind at 1, gets. unfold bind at 1.
  destruct (fetchLoop _ _ _ _ _ env w) as [[n | e] w']; reflexivity.
Qed.

End Fetch.

(** X15. The fetch step.  When [batchFetchEmails] returns, its two
    counters are equal, and its events tell how it went: at least one
    page of the listing was asked for, even with a batch size of zero or
    less; after every page the count reached so far was written to the
    job as [emailsProcessed]; these writes never go down and the last one
    is the count returned; every page but the last left the count below
    the batch size (100 if none was given), so the count passes the batch
    size by less than one page; the count is at most the number of
    messages asked for, one being lost for each message the provider did
    not deliver or the store did not take.  With the store reachable and a
    listing that never fails, it returns. *)
Theorem batchFetchEmails_progress (env : Env) (w : World) (batchId : jsstring) (o : Options) :
  let run := BatchProcessor.batchFetchEmails batchId o env w in
  (forall r, fst run = Return r ->
     exists n evs,
       trace (snd run) = trace w ++ evs /\
       r !! "emailsProcessed" = Some (JNum n) /\ r !! "emailsTotal" = Some (JNum n) /\
       FetchSpec.fetched batchId (numOr (o_batchSize o) 100) 0 n evs) /\
  (Reliable env -> FetchSpec.served (listing w) -> exists r, fst run = Return r).
Proof.
  intros run. subst run. rewrite batchFetchEmails_run.
  split.
  - intros r.
    destruct (BatchProcessor.fetchLoop (listing w) batchId (o_userId o)
                (numOr (o_batchSize o) 100) 0 env w) as [[n | e] w'] eqn:Hloop;
      [| discriminate].
    intros [= <-].
    destruct (fetchLoop_fetched env batchId _ _ _ _ _ _ _ Hloop) as (evs & Htr & Hf).
    exists n, evs. repeat split; try assumption; try apply Hf.
  - intros Hrel Hserved.
    destruct (fetchLoop_returns env batchId (o_userId o) (numOr (o_batchSize o) 100)
                Hrel (listing w) 0 w Hserved) as (n & w' & ->).
    eexists. reflexivity.
Qed.

Lemma batchFetchEmails_progress_witness :
  exists r,
    fst (BatchProcessor.batchFetchEmails Scenario.firstBatch Scenario.noOptions
           Scenario.calmEnv Scenario.inboxWorld) = Return r /\
    r !! "emailsProcessed" = Some (JNum 2).
Proof.
  assert (Hrel : Reliable Scenario.calmEnv) by (intros n; reflexivity).
  destruct (batchFetchEmails_progress Scenario.calmEnv Scenario.inboxWorld
              Scenario.firstBatch Scenario.noOptions) as [_ H].
  destruct (H Hrel) as [r Hr].
  - repeat constructor. eexists. reflexivity.
  - exists r. split; [exact Hr |].
    assert (E : Return r = Return (A := gmap string JSValue)
                  (<["emailsProcessed" := JNum 2]>
                   (<["emailsTotal" := JNum 2]>
                    (<["operation" := JStr (str "fetchEmails")]> ∅)))).
    { rewrite <- Hr. vm_compute. reflexivity. }
    injection E as ->. reflexivity.
Defined.

(** *** A whole run of [batchCreateLabels] *)

Section LabelRuns.
Import MongoDatabase BatchProcessor LabelSpec LabelRun.

Lemma setAdd_NoDup s x : NoDup s -> NoDup (setAdd s x).
Proof.
  intros Hs. unfold setAdd. destruct (existsb (jsstring_eqb x) s) eqn:E; [exact Hs |].
  apply NoDup_app. split; [exact Hs |]. split; [| apply NoDup_singleton].
  intros y Hy Hin. apply list_elem_of_singleton in Hin. subst y.
  assert (Hex : existsb (jsstring_eqb x) s = true).
  { apply existsb_exists. exists x. split; [apply list_elem_of_In; exact Hy |].
    apply bool_decide_eq_true. reflexivity. }
  congruence.
Qed.

Lemma setAdd_In s x y : In y (setAdd s x) <-> In y s \/ y = x.
Proof.
  unfold setAdd. destruct (existsb (jsstring_eqb x) s) eqn:E.
  - split; [auto |]. intros [H | ->]; [exact H |].
    apply existsb_exists in E as (z & Hz & Hxz). apply bool_decide_eq_true in Hxz.
    subst z. exact Hz.
  - rewrite in_app_iff. cbn. intuition.
Qed.

Local Abbreviation addLabel :=
  (fun (uniqueLabels : list jsstring) (email : Email) =>
     match analysis email with
     | Some a =>
         match suggestedLabel a with
         | _ :: _ => setAdd uniqueLabels (suggestedLabel a)
         | [] => uniqueLabels
         end
     | None => uniqueLabels
     end).

Lemma addLabel_spec acc e y :
  In y (addLabel acc e) <-> In y acc \/ labelOf e = Some y.
Proof.
  unfold labelOf. destruct (analysis e) as [a |]; [| intuition discriminate].
  destruct (suggestedLabel a) as [| c s] eqn:E; [intuition discriminate |].
  rewrite setAdd_In. split; intros [H | H]; auto; [right; congruence |].
  right. congruence.
Qed.

Lemma fold_addLabel_NoDup l : forall acc, NoDup acc -> NoDup (fold_left addLabel l acc).
Proof.
  induction l as [| e l IH]; intros acc Hacc; [exact Hacc |]. cbn [fold_left].
  apply IH. destruct (analysis e) as [a |]; [| exact Hacc].
  destruct (suggestedLabel a); [exact Hacc | apply setAdd_NoDup; exact Hacc].
Qed.

Lemma fold_addLabel_In l y : forall acc,
  In y (fold_left addLabel l acc) <-> In y acc \/ exists e, In e l /\ labelOf e = Some y.
Proof.
  induction l as [| e l IH]; intros acc; cbn [fold_left].
  - split; [auto | intros [H | (e & [] & _)]; exact H].
  - rewrite IH, addLabel_spec. split.
    + intros [[H | H] | (e' & He' & Hl)]; eauto.
      * right. exists e. split; [left; reflexivity | exact H].
      * right. exists e'. split; [right; exact He' | exact Hl].
    + intros [H | (e' & [<- | He'] & Hl)]; eauto.
Qed.

(** The names collected are pairwise different, and they are exactly the
    labels the records ask for. *)
Lemma collectLabels_NoDup l : NoDup (collectLabels l).
Proof. apply fold_addLabel_NoDup. constructor. Qed.

Lemma collectLabels_In l y :
  In y (collectLabels l) <-> exists e, In e l /\ labelOf e = Some y.
Proof.
  unfold collectLabels. rewrite fold_addLabel_In. split; [intros [[] | H]; exact H | auto].
Qed.

(** The creation of a label leaves the message records alone. *)
Lemma createLabel_emails u counts n env w :
  emails (snd (createLabel u counts n env w)) = emails w.
Proof.
  set (R := fun w w' : World => emails w' = emails w).
  assert (Hrefl : forall w, R w w) by reflexivity.
  assert (Htrans : forall w1 w2 w3, R w1 w2 -> R w2 w3 -> R w1 w3)
    by (unfold R; congruence).
  assert (Htick : forall w, R w (tick w)) by reflexivity.
  assert (H : Post R anyValue (createLabel u counts n)).
  { unfold createLabel, getLabelByName, saveLabel. destruct counts.
    repeat (first [post_step R Hrefl Htrans Htick | reflexivity]). }
  apply H.
Qed.

Variable env : Env.
Hypothesis Hrel : Reliable env.
Hypothesis Hprovider : providerCreates env.
Variable u : jsstring.

Lemma resolved_tick n w : resolved u n (tick w) = resolved u n w.
Proof. reflexivity. Qed.

(** The creation loop over names that are pairwise different. *)
Lemma createLabels_loop : forall names counts w,
  NoDup names ->
  exists w',
    forOf names (createLabel u) counts env w
      = (Return (fst counts + Z.of_nat (length (missing u w names)),
                 snd counts + Z.of_nat (length names - length (missing u w names))), w') /\
    trace w' = trace w ++ map EvGmailCreateLabel (missing u w names) /\
    emails w' = emails w /\
    (forall n, In n names -> unresolved u w' n = false) /\
    (forall n, ~ In n names -> resolved u n w' = resolved u n w) /\
    (forall n l, resolved u n w = Some l -> resolved u n w' = Some l) /\
    exists added,
      labels w' = labels w ++ added /\ map name added = missing u w names /\
      Forall (fun l => l_userId l = u /\ isAuto l = true) added.
Proof.
  induction names as [| n names IH]; intros counts w Hnd.
  - exists w. cbn. rewrite app_nil_r, !Z.add_0_r. destruct counts.
    repeat split; auto; try contradiction.
    exists []. rewrite app_nil_r. repeat split. constructor.
  - apply NoDup_cons in Hnd as [Hnotin Hnd]. cbn [forOf]. unfold bind.
    assert (Hlen : (length (missing u w names) <= length names)%nat)
      by apply List.filter_length_le.
    assert (Hcons : missing u w (n :: names)
                    = if unresolved u w n then n :: missing u w names
                      else missing u w names) by reflexivity.
    destruct (resolved u n w) as [l |] eqn:Hl.
    + rewrite (createLabel_existing env Hrel w u n counts l Hl).
      destruct (IH (fst counts, snd counts + 1) (tick w) Hnd)
        as (w' & Hrun & Htr & Hem & Hres & Hout & Hkeep & Hadded).
      exists w'. rewrite Hcons.
      assert (Hun : unresolved u w n = false) by (unfold unresolved; rewrite Hl; reflexivity).
      rewrite Hun. change (missing u (tick w) names) with (missing u w names) in *.
      rewrite Hrun. cbn [fst snd length].
      split; [apply (f_equal (fun p => (Return p, w'))); apply f_equal2; lia |].
      split; [exact Htr |]. split; [exact Hem |].
      split; [| split; [| split; [exact Hkeep | exact Hadded]]].
      * intros m [<- | Hm]; [| apply Hres; exact Hm].
        unfold unresolved. rewrite (Hkeep n l Hl). reflexivity.
      * intros m Hm. apply Hout. intros Hin. apply Hm. right. exact Hin.
    + destruct (createLabel_absent env Hrel w u n counts Hl) as (w1 & Htr1 & Hcase).
      destruct (Hprovider (S (steps w)) n) as [id Hid]. rewrite Hid in Hcase.
      destruct Hcase as [Hrun1 Hlabels1]. rewrite Hrun1.
      assert (Hother : forall m, m <> n -> resolved u m w1 = resolved u m w).
      { intros m Hm. unfold resolved. rewrite Hlabels1. apply find_app_other.
        apply not_true_is_false. intros Hk. apply sameLabelKey_iff in Hk.
        injection Hk as Hk. congruence. }
      assert (Hmissing : missing u w1 names = missing u w names).
      { unfold missing. apply filter_ext_in. intros m Hm. unfold unresolved.
        rewrite Hother; [reflexivity |]. intros ->.
        apply Hnotin, list_elem_of_In, Hm. }
      assert (Hn1 : exists l, resolved u n w1 = Some l).
      { eexists. unfold resolved. rewrite Hlabels1. apply find_app_new; [exact Hl |].
        apply sameLabelKey_iff. reflexivity. }
      assert (Hem1 : emails w1 = emails w).
      { change w1 with (snd (Return (A := Z * Z) (fst counts + 1, snd counts), w1)).
        rewrite <- Hrun1. apply createLabel_emails. }
      destruct (IH (fst counts + 1, snd counts) w1 Hnd)
        as (w' & Hrun & Htr & Hem & Hres & Hout & Hkeep & added & Hlab & Hnames & Hauto).
      exists w'. rewrite Hcons.
      assert (Hun : unresolved u w n = true) by (unfold unresolved; rewrite Hl; reflexivity).
      rewrite Hun. rewrite Hmissing in *.
      rewrite Hrun. cbn [fst snd length].
      split; [apply (f_equal (fun p => (Return p, w'))); apply f_equal2; lia |].
      split; [rewrite Htr, Htr1, <- app_assoc; reflexivity |].
      split; [congruence |]. split; [| split; [| split]].
      * intros m [<- | Hm]; [| apply Hres; exact Hm].
        destruct Hn1 as [l1 Hl1]. unfold unresolved. rewrite (Hkeep n l1 Hl1). reflexivity.
      * intros m Hm. rewrite Hout by (intros Hin; apply Hm; right; exact Hin).
        apply Hother. intros ->. apply Hm. left. reflexivity.
      * intros m l Hm. apply Hkeep. rewrite Hother; [exact Hm |].
        intros ->. congruence.
      * eexists (_ :: added). rewrite Hlab, Hlabels1, <- app_assoc.
        split; [reflexivity |]. cbn [map name]. rewrite Hnames.
        split; [reflexivity |]. constructor; [split; reflexivity | exact Hauto].
Qed.

Lemma createLabels_run bid o w :
  o_userId o = u ->
  exists r w',
    batchCreateLabels bid o env w = (Return r, w') /\
    emails w' = emails w /\
    trace w' = trace w ++ map EvGmailCreateLabel (missing u w (wanted o w)) /\
    r !! "labelsCreated" = Some (JNum (Z.of_nat (length (missing u w (wanted o w))))) /\
    r !! "labelsUsed" = Some (JNum (Z.of_nat (length (wanted o w)))) /\
    (forall n, In n (wanted o w) -> unresolved u w' n = false) /\
    (forall n l, resolved u n w = Some l -> resolved u n w' = Some l) /\
    exists added,
      labels w' = labels w ++ added /\ map name added = missing u w (wanted o w) /\
      Forall (fun l => l_userId l = u /\ isAuto l = true) added.
Proof.
  intros Hu. unfold batchCreateLabels, tryCatch at 1, bind at 1.
  rewrite getEmails_run, Hrel. rewrite Hu.
  change (selectEmails u _ (emails w)) with (selectEmails u labelQuery (emails w)).
  assert (Hsel : selectEmails u labelQuery (emails w) = considered o w)
    by (unfold considered; rewrite Hu; reflexivity).
  rewrite Hsel. fold (wanted o w).
  destruct (createLabels_loop (wanted o w) (0, 0) (tick w) (collectLabels_NoDup _))
    as (w' & Hrun & Htr & Hem & Hres & _ & Hkeep & Hadded).
  change (missing u (tick w) (wanted o w)) with (missing u w (wanted o w)) in *.
  unfold bind. rewrite Hrun. eexists _, _. split; [reflexivity |].
  split; [exact Hem |]. split; [exact Htr |].
  assert (Hlen : (length (missing u w (wanted o w)) <= length (wanted o w))%nat)
    by apply List.filter_length_le.
  cbn [fst snd]. split; [reflexivity |]. split.
  - rewrite lookup_insert_ne by discriminate. rewrite lookup_insert_eq.
    do 2 f_equal. lia.
  - split; [exact Hres |]. split; [exact Hkeep | exact Hadded].
Qed.

End LabelRuns.

Section LabelsBeforeAssignment.
Import MongoDatabase BatchProcessor LabelRun.

(** With a batch size of at most 50 either way, what [batchAssignLabels]
    selects is among what [batchCreateLabels] looks at: both read the
    processed records of the user newest first, the latter the first 50. *)
Lemma selected_considered o w e :
  (Z.abs_nat (numOr (o_batchSize o) 50) <= 50)%nat ->
  In e (AssignSpec.selected o w) -> In e (considered o w).
Proof.
  intros Hsize. unfold AssignSpec.selected, considered, selectEmails.
  assert (Hlimit : numOr (q_limit (AssignSpec.assignQuery o)) 50 = numOr (o_batchSize o) 50).
  { unfold AssignSpec.assignQuery. cbn [q_limit]. unfold numOr at 1.
    destruct (numOr (o_batchSize o) 50 =? 0) eqn:E; [| reflexivity].
    apply Z.eqb_eq in E. rewrite E. unfold numOr in E.
    destruct (o_batchSize o) as [v |]; [| discriminate].
    destruct (v =? 0) eqn:Ev; [discriminate |]. apply Z.eqb_neq in Ev. contradiction. }
  rewrite Hlimit.
  change (List.filter (matchesQuery (o_userId o) (AssignSpec.assignQuery o)) (emails w))
    with (List.filter (matchesQuery (o_userId o) labelQuery) (emails w)).
  set (S := sortByTimestampDesc _).
  rewrite (limit_small (numOr (o_batchSize o) 50) S)
    by (unfold Collection.firstBatch; first [apply numOr_nonzero; discriminate | lia]).
  rewrite (limit_small (numOr (q_limit labelQuery) 50) S)
    by (unfold Collection.firstBatch; first [discriminate | cbn; lia]).
  intros He.
  apply list_elem_of_In. apply list_elem_of_In in He.
  apply list_elem_of_lookup in He as [i Hi].
  apply lookup_take_Some in Hi as [Hi Hlt].
  assert (H50 : Z.abs_nat (numOr (q_limit labelQuery) 50) = 50%nat) by reflexivity.
  apply (list_elem_of_lookup_2 _ i). rewrite lookup_take_lt by lia. exact Hi.
Qed.

End LabelsBeforeAssignment.

(** X16. A whole run of [batchCreateLabels], with the store reachable
    and a provider that creates what it is asked for.  The run returns; it
    asks the provider for exactly the wanted names that have no record,
    each once, in the order the messages first ask for them;
    [labelsCreated] is their number and [labelsUsed] the number of wanted
    names; afterwards every wanted name has a record, and the names that
    had one keep it.  The message records are untouched.  A second run
    creates nothing: it asks the provider for nothing, reports
    [labelsCreated = 0] and the same [labelsUsed], and leaves the labels as
    they are. *)
Theorem batchCreateLabels_resolves_all (env : Env) (w : World) (bid : jsstring) (o : Options) :
  Reliable env ->
  LabelRun.providerCreates env ->
  let u := o_userId o in
  let names := LabelRun.wanted o w in
  exists r w',
    BatchProcessor.batchCreateLabels bid o env w = (Return r, w') /\
    emails w' = emails w /\
    trace w' = trace w ++ map EvGmailCreateLabel (LabelRun.missing u w names) /\
    r !! "labelsCreated" = Some (JNum (Z.of_nat (length (LabelRun.missing u w names)))) /\
    r !! "labelsUsed" = Some (JNum (Z.of_nat (length names))) /\
    (forall n, In n names -> exists l, LabelSpec.resolved u n w' = Some l) /\
    (forall n l, LabelSpec.resolved u n w = Some l -> LabelSpec.resolved u n w' = Some l) /\
    (exists added,
       labels w' = labels w ++ added /\ map name added = LabelRun.missing u w names /\
       Forall (fun l => l_userId l = u /\ isAuto l = true) added) /\
    exists r2 w2,
      BatchProcessor.batchCreateLabels bid o env w' = (Return r2, w2) /\
      trace w2 = trace w' /\ labels w2 = labels w' /\
      r2 !! "labelsCreated" = Some (JNum 0) /\
      r2 !! "labelsUsed" = Some (JNum (Z.of_nat (length names))).
Proof.
  intros Hrel Hprov u names.
  destruct (createLabels_run env Hrel Hprov u bid o w eq_refl)
    as (r & w' & Hrun & Hem & Htr & Hc & Hu & Hres & Hkeep & Hadded).
  fold names in Htr, Hc, Hu, Hres, Hadded.
  exists r, w'. do 5 (split; [assumption |]).
  assert (Hall : forall n, In n names -> exists l, LabelSpec.resolved u n w' = Some l).
  { intros n Hn. specialize (Hres n Hn). unfold LabelRun.unresolved in Hres.
    destruct (LabelSpec.resolved u n w') as [l |]; [eauto | discriminate]. }
  split; [exact Hall |]. split; [exact Hkeep |]. split; [exact Hadded |].
  destruct (createLabels_run env Hrel Hprov u bid o w' eq_refl)
    as (r2 & w2 & Hrun2 & _ & Htr2 & Hc2 & Hu2 & _ & _ & added2 & Hlab2 & Hnames2 & _).
  assert (Hnames : LabelRun.wanted o w' = names).
  { unfold names, LabelRun.wanted, LabelRun.considered. rewrite Hem. reflexivity. }
  rewrite Hnames in Htr2, Hc2, Hu2, Hnames2.
  assert (Hnone : LabelRun.missing u w' names = []).
  { apply filter_none. intros n Hn. destruct (Hall n Hn) as [l Hl].
    unfold LabelRun.unresolved. rewrite Hl. reflexivity. }
  rewrite Hnone in Htr2, Hc2, Hnames2. cbn in Htr2, Hc2. rewrite app_nil_r in Htr2.
  exists r2, w2. split; [exact Hrun2 |]. split; [exact Htr2 |].
  split; [| split; assumption].
  destruct added2; [| discriminate]. rewrite Hlab2, app_nil_r. reflexivity.
Qed.

Lemma batchCreateLabels_resolves_all_witness :
  exists r w',
    BatchProcessor.batchCreateLabels Scenario.firstBatch Scenario.noOptions Scenario.calmEnv
      (set_labels [] Scenario.inboxWorld) = (Return r, w') /\
    trace w' = [EvGmailCreateLabel (str "Work")] /\
    r !! "labelsCreated" = Some (JNum 1).
Proof.
  assert (Hrel : Reliable Scenario.calmEnv) by (intros n; reflexivity).
  assert (Hprov : LabelRun.providerCreates Scenario.calmEnv).
  { intros n labelName. eexists. reflexivity. }
  destruct (batchCreateLabels_resolves_all Scenario.calmEnv (set_labels [] Scenario.inboxWorld)
              Scenario.firstBatch Scenario.noOptions Hrel Hprov)
    as (r & w' & Hrun & _ & Htr & Hc & _).
  exists r, w'. split; [exact Hrun |]. split; [exact Htr | exact Hc].
Defined.

(** X17. Labels exist before they are assigned.  After a run of
    [batchCreateLabels], with the store reachable and a provider that
    creates what it is asked for, every record that [batchAssignLabels]
    would select with the same options and a batch size of at most 50
    (either way from zero; 50 is also the default) has a label record for
    the label it asks for: the assignment cannot fail for a label that is
    not found.  The bound is the number of records [batchCreateLabels]
    looks at, which is always the default limit of the store, 50. *)
Theorem labels_exist_before_assignment (env : Env) (w : World) (bid : jsstring) (o : Options) :
  Reliable env ->
  LabelRun.providerCreates env ->
  (Z.abs_nat (numOr (o_batchSize o) 50) <= 50)%nat ->
  let w' := snd (BatchProcessor.batchCreateLabels bid o env w) in
  forall e labelName,
    In e (AssignSpec.selected o w') ->
    LabelRun.labelOf e = Some labelName ->
    exists l, LabelSpec.resolved (o_userId o) labelName w' = Some l /\
              fst (MongoDatabase.getLabelByName (o_userId o) labelName env w')
                = Return (Some l).
Proof.
  intros Hrel Hprov Hsize w' e labelName He Hlabel.
  destruct (createLabels_run env Hrel Hprov (o_userId o) bid o w eq_refl)
    as (r & w1 & Hrun & Hem & _ & _ & _ & Hres & _).
  assert (Hw : w' = w1) by (unfold w'; rewrite Hrun; reflexivity).
  rewrite Hw in *. clear Hw w'.
  assert (Hin : In labelName (LabelRun.wanted o w)).
  { apply collectLabels_In. exists e. split; [| exact Hlabel].
    apply selected_considered in He; [| exact Hsize].
    unfold LabelRun.considered in *. rewrite Hem in He. exact He. }
  specialize (Hres labelName Hin). unfold LabelRun.unresolved in Hres.
  destruct (LabelSpec.resolved (o_userId o) labelName w1) as [l |] eqn:Hl; [| discriminate].
  exists l. split; [reflexivity |].
  unfold MongoDatabase.getLabelByName, tryCatch, bind, dbOp, gets. rewrite Hrel. cbn.
  unfold LabelSpec.resolved in Hl. rewrite Hl. reflexivity.
Qed.

Lemma labels_exist_before_assignment_witness :
  let w' := snd (BatchProcessor.batchCreateLabels Scenario.firstBatch Scenario.noOptions
                   Scenario.calmEnv (set_labels [] Scenario.inboxWorld)) in
  exists l, LabelSpec.resolved Scenario.user1 (str "Work") w' = Some l.
Proof.
  intros w'.
  assert (Hrel : Reliable Scenario.calmEnv) by (intros n; reflexivity).
  assert (Hprov : LabelRun.providerCreates Scenario.calmEnv).
  { intros n labelName. eexists. reflexivity. }
  assert (Hsize : (Z.abs_nat (numOr (o_batchSize Scenario.noOptions) 50) <= 50)%nat).
  { apply Nat.leb_le. vm_compute. reflexivity. }
  destruct (labels_exist_before_assignment Scenario.calmEnv (set_labels [] Scenario.inboxWorld)
              Scenario.firstBatch Scenario.noOptions Hrel Hprov Hsize
              (mkEmail (str "m0") Scenario.user1 (str "t0") (str "Team meeting")
                       (str "boss@example.com") [] (str "see you at ten") 900 true false
                       (Some Scenario.workAnalysis) 0)
              (str "Work")) as (l & Hl & _).
  - vm_compute. left. reflexivity.
  - reflexivity.
  - exists l. exact Hl.
Defined.

(** *** A whole run of [batchAssignLabels] *)

Section AssignRuns.
Import MongoDatabase BatchProcessor LabelSpec LabelRun AssignSpec AssignRun.

Lemma labelOf_Some e labelName :
  labelOf e = Some labelName ->
  exists a c s, analysis e = Some a /\ suggestedLabel a = c :: s /\ labelName = c :: s.
Proof.
  unfold labelOf. destruct (analysis e) as [a |]; [| discriminate].
  destruct (suggestedLabel a) as [| c s] eqn:E; [discriminate |].
  intros [= <-]. exists a, c, s. repeat split; assumption.
Qed.

(** With message ids that are pairwise different, marking by id touches
    the one record that has the id. *)
Lemma updateFirst_marked gid now (l : list Email) :
  NoDup (map gmailId l) ->
  Forall2 (marked [gid]) l
    (Collection.updateFirst (fun x => jsstring_eqb (gmailId x) gid) (setSynced now) l).
Proof.
  induction l as [| x l IH]; intros Hnd; cbn; [constructor |].
  apply NoDup_cons in Hnd as [Hx Hnd].
  destruct (jsstring_eqb (gmailId x) gid) eqn:E.
  - constructor.
    + split; [reflexivity |]. cbn. rewrite E. destruct (synced x); reflexivity.
    + apply bool_decide_eq_true in E. clear IH Hnd.
      induction l as [| y l IH]; constructor.
      * split; [reflexivity |]. cbn.
        destruct (jsstring_eqb (gmailId y) gid) eqn:Ey.
        -- apply bool_decide_eq_true in Ey. exfalso. apply Hx. rewrite E, <- Ey.
           apply list_elem_of_In. left. reflexivity.
        -- destruct (synced y); reflexivity.
      * apply IH. intros Hin. apply Hx. apply list_elem_of_In. right.
        apply list_elem_of_In. exact Hin.
  - constructor; [| apply IH; exact Hnd].
    split; [reflexivity |]. cbn. rewrite E. destruct (synced x); reflexivity.
Qed.

Lemma marked_gmailId gids x x' : marked gids x x' -> gmailId x' = gmailId x.
Proof. intros [H _]. apply (f_equal gmailId) in H. exact H. Qed.

Lemma Forall2_marked_ids gids l l' :
  Forall2 (marked gids) l l' -> map gmailId l' = map gmailId l.
Proof.
  induction 1 as [| x x' l l' Hx _ IH]; [reflexivity |]. cbn.
  rewrite (marked_gmailId _ _ _ Hx), IH. reflexivity.
Qed.

Lemma Forall2_marked_refl l : Forall2 (marked []) l l.
Proof.
  induction l as [| x l IH]; constructor; [| exact IH].
  split; [reflexivity |]. cbn. rewrite orb_false_r. reflexivity.
Qed.

Lemma Forall2_marked_trans g gids l1 : forall l2 l3,
  Forall2 (marked [g]) l1 l2 -> Forall2 (marked gids) l2 l3 ->
  Forall2 (marked (g :: gids)) l1 l3.
Proof.
  induction l1 as [| x l1 IH]; intros l2 l3 H12 H23.
  - inversion H12; subst. inversion H23; subst. constructor.
  - inversion H12 as [| ? x2 ? l2' Hx12 Hl12]; subst.
    inversion H23 as [| ? x3 ? l3' Hx23 Hl23]; subst.
    constructor; [| eapply IH; eassumption].
    destruct Hx12 as [Hu12 Hs12], Hx23 as [Hu23 Hs23]. split; [congruence |].
    rewrite Hs23, Hs12. apply (f_equal gmailId) in Hu12. cbn in Hu12. rewrite Hu12.
    cbn. rewrite orb_false_r, orb_assoc. reflexivity.
Qed.

Variable env : Env.
Hypothesis Hrel : Reliable env.
Hypothesis Hprovider : providerModifies env.
Variable u : jsstring.

(** One record whose label has a record: the label is applied and the
    record marked. *)
Lemma assignLabel_applies counts e w labelName l :
  labelOf e = Some labelName -> resolved u labelName w = Some l ->
  exists w',
    assignLabel u counts e env w = (Return (fst counts + 1, snd counts), w') /\
    labels w' = labels w /\
    trace w' = trace w ++ [EvGmailModify (gmailId e) (gmailLabelId l)] /\
    emails w' = Collection.updateFirst (fun x => jsstring_eqb (gmailId x) (gmailId e))
                  (setSynced (clock env (2 + steps w))) (emails w).
Proof.
  intros Hlabel Hres. destruct (labelOf_Some e labelName Hlabel) as (a & c & s & Ha & Hs & ->).
  destruct counts as [sc fc]. unfold assignLabel. rewrite Ha, Hs.
  unfold getLabelByName, markSynced, tryCatch, bind, dbOp, gets, remote, Date_now, modify,
    ret, throw.
  rewrite Hrel. cbn. unfold resolved in Hres. rewrite Hres.
  rewrite Hprovider. cbn. rewrite Hrel. cbn.
  eexists. split; [reflexivity |]. repeat split; reflexivity.
Qed.

Lemma modifyEvent_labels w w' e : labels w' = labels w -> modifyEvent u w' e = modifyEvent u w e.
Proof. intros H. unfold modifyEvent, resolved. rewrite H. reflexivity. Qed.

(** The loop over records whose labels all have records. *)
Lemma assignLabels_loop : forall es counts w,
  (forall e, In e es ->
     exists labelName l, labelOf e = Some labelName /\ resolved u labelName w = Some l) ->
  NoDup (map gmailId (emails w)) ->
  exists w',
    forOf es (assignLabel u) counts env w
      = (Return (fst counts + Z.of_nat (length es), snd counts), w') /\
    labels w' = labels w /\
    trace w' = trace w ++ flat_map (modifyEvent u w) es /\
    Forall2 (marked (map gmailId es)) (emails w) (emails w').
Proof.
  induction es as [| e es IH]; intros counts w Hall Hnd.
  - exists w. cbn. rewrite app_nil_r, Z.add_0_r. destruct counts.
    repeat split. apply Forall2_marked_refl.
  - destruct (Hall e (or_introl eq_refl)) as (labelName & l & Hlabel & Hres).
    destruct (assignLabel_applies counts e w labelName l Hlabel Hres)
      as (w1 & Hrun1 & Hlab1 & Htr1 & Hem1).
    assert (Hm1 : Forall2 (marked [gmailId e]) (emails w) (emails w1)).
    { rewrite Hem1. apply updateFirst_marked. exact Hnd. }
    destruct (IH (fst counts + 1, snd counts) w1) as (w' & Hrun & Hlab & Htr & Hm).
    + intros e' He'. destruct (Hall e' (or_intror He')) as (n' & l' & Hl' & Hr').
      exists n', l'. split; [exact Hl' |]. unfold resolved in *. rewrite Hlab1. exact Hr'.
    + rewrite (Forall2_marked_ids _ _ _ Hm1). exact Hnd.
    + exists w'. cbn [forOf]. unfold bind. rewrite Hrun1, Hrun. cbn [fst snd length map flat_map].
      split; [apply (f_equal (fun p => (Return p, w'))); apply f_equal2; lia |].
      split; [congruence |]. split.
      * rewrite Htr, Htr1, <- app_assoc. f_equal.
        assert (Hev : modifyEvent u w e = [EvGmailModify (gmailId e) (gmailLabelId l)]).
        { unfold modifyEvent. rewrite Hlabel, Hres. reflexivity. }
        rewrite Hev. cbn [app]. f_equal.
        apply flat_map_ext. intros x. apply modifyEvent_labels. exact Hlab1.
      * eapply Forall2_marked_trans; eassumption.
Qed.

Lemma Forall2_marked_In gids l l' x :
  Forall2 (marked gids) l l' -> In x l -> exists x', In x' l' /\ marked gids x x'.
Proof.
  induction 1 as [| y y' l l' Hy _ IH]; [contradiction |].
  intros [<- | Hx].
  - exists y'. split; [left; reflexivity | exact Hy].
  - destruct (IH Hx) as (x' & Hx' & Hm). exists x'. split; [right; exact Hx' | exact Hm].
Qed.

Lemma assignLabels_run bid o w :
  o_userId o = u ->
  NoDup (map gmailId (emails w)) ->
  (forall e, In e (unsynced o w) ->
     exists labelName l, labelOf e = Some labelName /\ resolved u labelName w = Some l) ->
  exists r w',
    batchAssignLabels bid o env w = (Return r, w') /\
    r !! "emailsProcessed" = Some (JNum (Z.of_nat (length (unsynced o w)))) /\
    r !! "emailsTotal" = Some (JNum (Z.of_nat (length (unsynced o w)))) /\
    (r !! "errors" = None \/ r !! "errors" = Some (JArr [])) /\
    labels w' = labels w /\
    trace w' = trace w ++ flat_map (modifyEvent u w) (unsynced o w) /\
    Forall2 (marked (map gmailId (unsynced o w))) (emails w) (emails w').
Proof.
  intros Hu Hnd Hall. unfold batchAssignLabels, tryCatch at 1, bind at 1.
  rewrite getEmails_run, Hrel.
  change (selectEmails (o_userId o) _ (emails w)) with (selected o w).
  fold (unsynced o w).
  destruct (length (unsynced o w) =? 0)%nat eqn:E.
  - apply Nat.eqb_eq in E. destruct (unsynced o w) as [| x l] eqn:Eu; [| discriminate].
    eexists _, _. split; [reflexivity |]. cbn. rewrite app_nil_r.
    repeat split; auto. apply Forall2_marked_refl.
  - rewrite Hu.
    destruct (assignLabels_loop (unsynced o w) (0, 0) (tick w) Hall Hnd)
      as (w' & Hrun & Hlab & Htr & Hm).
    unfold bind. rewrite Hrun. cbn [fst snd]. eexists _, _. split; [reflexivity |].
    split; [reflexivity |]. split; [reflexivity |]. split; [right; reflexivity |].
    split; [exact Hlab |]. split; [| exact Hm].
    rewrite Htr. cbn [trace tick]. f_equal.
Qed.

End AssignRuns.

(** X18. A whole run of [batchAssignLabels] in which nothing goes wrong:
    the store is reachable, the provider applies the labels, no two
    stored records have the same message id, and every selected record
    that is not yet synced asks for a label that has a record.  Then the
    run returns with [emailsProcessed] equal to [emailsTotal], the number
    of such records, and no error; it sends one request per record, in
    order, for the label record found; the labels are untouched; every
    record the run selected is synced afterwards; and a second run with
    the same options finds nothing to do: it sends no request, changes no
    record and reports zero. *)
Theorem batchAssignLabels_marks_all (env : Env) (w : World) (bid : jsstring) (o : Options) :
  Reliable env ->
  AssignRun.providerModifies env ->
  NoDup (map gmailId (emails w)) ->
  (forall e, In e (AssignRun.unsynced o w) ->
     exists labelName l,
       LabelRun.labelOf e = Some labelName /\
       LabelSpec.resolved (o_userId o) labelName w = Some l) ->
  let n := Z.of_nat (length (AssignRun.unsynced o w)) in
  exists r w',
    BatchProcessor.batchAssignLabels bid o env w = (Return r, w') /\
    r !! "emailsProcessed" = Some (JNum n) /\ r !! "emailsTotal" = Some (JNum n) /\
    (r !! "errors" = None \/ r !! "errors" = Some (JArr [])) /\
    labels w' = labels w /\
    trace w' = trace w ++ flat_map (AssignRun.modifyEvent (o_userId o) w)
                            (AssignRun.unsynced o w) /\
    (forall e, In e (AssignSpec.selected o w) ->
       exists e', In e' (emails w') /\
                  AssignSpec.emailKey e' = AssignSpec.emailKey e /\ synced e' = true) /\
    exists r2 w2,
      BatchProcessor.batchAssignLabels bid o env w' = (Return r2, w2) /\
      r2 !! "emailsProcessed" = Some (JNum 0) /\ r2 !! "emailsTotal" = Some (JNum 0) /\
      trace w2 = trace w' /\ emails w2 = emails w'.
Proof.
  intros Hrel Hprov Hnd Hall n.
  destruct (assignLabels_run env Hrel Hprov (o_userId o) bid o w eq_refl Hnd Hall)
    as (r & w' & Hrun & Hp & Ht & He & Hlab & Htr & Hm).
  exists r, w'. do 6 (split; [assumption |]).
  assert (Hsynced : forall e, In e (AssignSpec.selected o w) ->
            exists e', In e' (emails w') /\
                       AssignSpec.emailKey e' = AssignSpec.emailKey e /\ synced e' = true).
  { intros e He0.
    destruct (Forall2_marked_In _ _ _ e Hm (In_selectEmails _ _ _ _ He0))
      as (e' & He' & Hun & Hs).
    exists e'. split; [exact He' |]. split.
    - change (AssignSpec.emailKey (AssignSpec.unmarked e')
              = AssignSpec.emailKey (AssignSpec.unmarked e)). rewrite Hun. reflexivity.
    - rewrite Hs. destruct (synced e) eqn:Hse; [reflexivity |]. cbn.
      apply existsb_exists. exists (gmailId e). split.
      + apply in_map. unfold AssignRun.unsynced. apply List.filter_In.
        split; [exact He0 | rewrite Hse; reflexivity].
      + apply bool_decide_eq_true. reflexivity. }
  split; [exact Hsynced |].
  assert (Hsync : map AssignSpec.unmarked (emails w') = map AssignSpec.unmarked (emails w)).
  { clear -Hm. induction Hm as [| x x' l l' [Hx _] _ IH]; [reflexivity |].
    cbn. rewrite Hx, IH. reflexivity. }
  assert (Hkeys : NoDup (map AssignSpec.emailKey (emails w'))).
  { apply (NoDup_fmap_1 fst). rewrite <- list_fmap_compose.
    change (fst ∘ AssignSpec.emailKey) with gmailId.
    change (gmailId <$> emails w') with (map gmailId (emails w')).
    rewrite (Forall2_marked_ids _ _ _ Hm). exact Hnd. }
  assert (Hdone : Forall (fun e => synced e = true) (AssignSpec.selected o w')).
  { apply List.Forall_forall. intros e1 He1.
    assert (Hsel : In (AssignSpec.unmarked e1)
                      (map AssignSpec.unmarked (AssignSpec.selected o w))).
    { unfold AssignSpec.selected. rewrite selectEmails_unmarked, <- Hsync,
        <- selectEmails_unmarked. apply in_map. exact He1. }
    apply in_map_iff in Hsel as (e & Hee & He0).
    destruct (Hsynced e He0) as (e' & He' & Hk & Hs).
    assert (Hk1 : AssignSpec.emailKey e1 = AssignSpec.emailKey e).
    { change (AssignSpec.emailKey (AssignSpec.unmarked e1)
              = AssignSpec.emailKey (AssignSpec.unmarked e)). rewrite Hee. reflexivity. }
    assert (Heq : e1 = e').
    { apply (NoDup_key_inj (emails w')); [exact Hkeys | | exact He' | congruence].
      eapply In_selectEmails. exact He1. }
    subst e'. exact Hs. }
  rewrite (batchAssignLabels_noop env w' bid o Hrel Hdone).
  eexists _, _. split; [reflexivity |]. repeat split; reflexivity.
Qed.

Lemma batchAssignLabels_marks_all_witness :
  exists r w',
    BatchProcessor.batchAssignLabels Scenario.firstBatch Scenario.noOptions Scenario.calmEnv
      Scenario.inboxWorld = (Return r, w') /\
    r !! "emailsProcessed" = Some (JNum 1) /\
    trace w' = [EvGmailModify (str "m0") (str "Label_7")].
Proof.
  assert (Hrel : Reliable Scenario.calmEnv) by (intros n; reflexivity).
  assert (Hprov : AssignRun.providerModifies Scenario.calmEnv) by (intros n id l; reflexivity).
  assert (Hnd : NoDup (map gmailId (emails Scenario.inboxWorld))).
  { cbn. apply NoDup_singleton. }
  destruct (batchAssignLabels_marks_all Scenario.calmEnv Scenario.inboxWorld
              Scenario.firstBatch Scenario.noOptions Hrel Hprov Hnd)
    as (r & w' & Hrun & Hp & _ & _ & _ & Htr & _).
  - intros e He. vm_compute in He. destruct He as [<- | []].
    eexists (str "Work"), _. split; reflexivity.
  - exists r, w'. split; [exact Hrun |]. split; [exact Hp | exact Htr].
Defined.

(** *** Label organization and the limiter's keys *)

Section Organize.
Import MongoDatabase EnhancedGeminiAnalyzer BatchProcessor.

Lemma getLabels_run u env w :
  getLabels u env w =
  match dbFault env (steps w) with
  | Some e => (Throw e, tick w)
  | None => (Return (List.filter (fun l => jsstring_eqb (l_userId l) u) (labels w)), tick w)
  end.
Proof.
  unfold getLabels, tryCatch, bind, dbOp, gets, throw.
  destruct (dbFault env (steps w)); reflexivity.
Qed.

(** [suggestLabelOrganization] in full: the two reads, then the request. *)
Lemma suggestLabelOrganization_run this u env w :
  let none := JObj [ ("mergeSuggestions"%string, JArr []);
                     ("hierarchySuggestions"%string, JArr []);
                     ("renameSuggestions"%string, JArr []);
                     ("newLabels"%string, JArr []) ] in
  suggestLabelOrganization this u env w =
  match dbFault env (steps w) with
  | Some _ => (Return none, tick w)
  | None =>
      match dbFault env (S (steps w)) with
      | Some _ => (Return none, tick (tick w))
      | None =>
          (match geminiOrganize env (S (S (steps w))) with
           | Return suggestions => Return (validateSuggestions suggestions)
           | Throw _ => Return none
           end,
           tick (emit EvGeminiOrganize (tick (tick w))))
      end
  end.
Proof.
  intros none. unfold suggestLabelOrganization, tryCatch at 1, bind at 1.
  rewrite getLabels_run. destruct (dbFault env (steps w)); [reflexivity |].
  unfold bind at 1, getCategoryBreakdown, tryCatch, dbOp, throw. cbn [steps tick].
  destruct (dbFault env (S (steps w))); [reflexivity |].
  unfold bind, remote, ret. cbn [steps tick].
  destruct (geminiOrganize env (S (S (steps w)))); reflexivity.
Qed.

Lemma batchOrganizeLabels_step this bid o env w :
  exists suggestions w',
    batchOrganizeLabels this bid o env w
      = (Return (<["suggestions" := suggestions]>
                 (<["operation" := JStr (str "organizeLabels")]> ∅)), w').
Proof.
  unfold batchOrganizeLabels, tryCatch at 1, bind at 1.
  rewrite suggestLabelOrganization_run.
  destruct (dbFault env (steps w)); [eexists _, _; reflexivity |].
  destruct (dbFault env (S (steps w))); [eexists _, _; reflexivity |].
  destruct (geminiOrganize env (S (S (steps w)))); eexists _, _; reflexivity.
Qed.

(** Once the validation has passed, the create route answers 200 or
    500. *)
Lemma batchCreate_accepted_not_400 op o env w (P : Prop) :
  (exists response,
     fst (tryCatch
            (let* batchId := createBatch (profile_id (reqUser w)) op
                               (Server.withUserId o (profile_id (reqUser w))) in
             ret (Server.mkResponse 200
                    (<["success" := JBool true]>
                     (<["batchId" := JStr batchId]>
                      (<["message" := JStr (str "Batch " ++ batchId ++ str " created for "
                                            ++ op)]> ∅)))))
            (fun error =>
               ret (Server.mkResponse 500
                      {[ "error" := JStr (str "Failed to create batch") ]}))
            env w) = Return response /\ Server.status response = 400) -> P.
Proof.
  unfold tryCatch, bind.
  destruct (createBatch _ _ _ env w) as [[bid | e] w1]; cbn;
    intros (response & [= <-] & Hs); discriminate.
Qed.

End Organize.

(** X19. The ['organizeLabels'] step cannot fail.  Whatever the store
    and the classifier do, [batchOrganizeLabels] returns a result whose
    [suggestions] has the four members.  When the store could not be read
    or the classifier failed, they are four empty lists.  When the
    classifier answered, each member is the value the answer has under
    that name if that value is truthy, whatever its kind (it need not be
    a list), and an empty list otherwise.  The step sends at most one
    request to the classifier, and none when the store cannot be read; it
    does so without asking the limiter, whose records it leaves as they
    are; and it writes nothing to the store. *)
Theorem batchOrganizeLabels_never_fails (env : Env) (w : World)
    (this : BatchProcessor.Processor) (bid : jsstring) (o : Options) :
  exists suggestions w',
    BatchProcessor.batchOrganizeLabels this bid o env w
      = (Return (<["suggestions" := suggestions]>
                 (<["operation" := JStr (str "organizeLabels")]> ∅)), w') /\
    (OrganizeSpec.answered env w = None -> suggestions = OrganizeSpec.noSuggestions) /\
    (forall answer,
       OrganizeSpec.answered env w = Some answer ->
       exists value,
         suggestions = OrganizeSpec.suggestionsOf value /\
         forall name, In name OrganizeSpec.members ->
                      OrganizeSpec.kept answer name (value name)) /\
    (trace w' = trace w \/ trace w' = trace w ++ [EvGeminiOrganize]) /\
    (dbFault env (steps w) <> None -> trace w' = trace w) /\
    rateLimits w' = rateLimits w /\ emails w' = emails w /\ labels w' = labels w /\
    batchLogs w' = batchLogs w.
Proof.
  unfold BatchProcessor.batchOrganizeLabels, tryCatch at 1, bind at 1.
  rewrite suggestLabelOrganization_run. unfold OrganizeSpec.answered.
  destruct (dbFault env (steps w)) eqn:H0.
  - eexists _, _. split; [reflexivity |]. split; [reflexivity |].
    split; [discriminate |]. cbn. repeat split; auto.
  - destruct (dbFault env (S (steps w))).
    + eexists _, _. split; [reflexivity |]. split; [reflexivity |].
      split; [discriminate |]. cbn. repeat split; auto; intros H; contradiction.
    + destruct (geminiOrganize env (S (S (steps w)))) as [s | e].
      * eexists _, _. split; [reflexivity |]. split; [discriminate |]. split.
        -- intros answer [= <-].
           exists (fun name => js_or (s !! name) (JArr [])). split; [reflexivity |].
           intros name _. unfold OrganizeSpec.kept, js_or.
           destruct (s !! name) as [v |] eqn:Hv; [| right; split; reflexivity].
           destruct (truthy (Some v)); [left | right]; split; reflexivity.
        -- cbn. repeat split; auto; intros H; contradiction.
      * eexists _, _. split; [reflexivity |]. split; [reflexivity |].
        split; [discriminate |]. cbn. repeat split; auto; intros H; contradiction.
Qed.

Lemma batchOrganizeLabels_never_fails_witness :
  exists w',
    BatchProcessor.batchOrganizeLabels Scenario.processor Scenario.firstBatch
      Scenario.noOptions Cases.looseEnv Scenario.emptyWorld
    = (Return (<["suggestions" :=
                   JObj [ ("mergeSuggestions"%string, JArr []);
                          ("hierarchySuggestions"%string, JArr []);
                          ("renameSuggestions"%string, JStr (str "later"));
                          ("newLabels"%string, JArr [JStr (str "Travel")]) ]]>
               (<["operation" := JStr (str "organizeLabels")]> ∅)), w').
Proof.
  destruct (batchOrganizeLabels_never_fails Cases.looseEnv Scenario.emptyWorld
              Scenario.processor Scenario.firstBatch Scenario.noOptions)
    as (suggestions & w' & Hrun & _ & Hanswer & _).
  destruct (Hanswer Cases.looseAnswer eq_refl) as (value & -> & Hkept).
  exists w'. rewrite Hrun. do 3 f_equal. unfold OrganizeSpec.suggestionsOf. cbn [map OrganizeSpec.members].
  assert (H1 : value "mergeSuggestions"%string = JArr []).
  { destruct (Hkept "mergeSuggestions"%string) as [[H _] | [_ H]];
      [cbn; auto | vm_compute in H; discriminate | exact H]. }
  assert (H2 : value "hierarchySuggestions"%string = JArr []).
  { destruct (Hkept "hierarchySuggestions"%string) as [[H _] | [_ H]];
      [cbn; auto | vm_compute in H; discriminate | exact H]. }
  assert (H3 : value "renameSuggestions"%string = JStr (str "later")).
  { destruct (Hkept "renameSuggestions"%string) as [[_ H] | [H _]];
      [cbn; auto | | vm_compute in H; discriminate].
    vm_compute in H. injection H as <-. reflexivity. }
  assert (H4 : value "newLabels"%string = JArr [JStr (str "Travel")]).
  { destruct (Hkept "newLabels"%string) as [[_ H] | [H _]];
      [cbn; auto 6 | | vm_compute in H; discriminate].
    vm_compute in H. injection H as <-. reflexivity. }
  rewrite H1, H2, H3, H4. reflexivity.
Defined.

(** X20. The limiter keeps one count per key.  A call of
    [checkRateLimit] for a user and an operation changes the count of no
    other key, in any window, whatever the store does; the records it
    finds are all still there afterwards, in the same order. *)
Theorem checkRateLimit_keys_are_independent (env : Env) (w : World)
    (userId operation other : jsstring) (now : Z) :
  other <> RateSpec.rateKey userId operation ->
  let w' := snd (MongoDatabase.checkRateLimit userId operation env w) in
  RateSpec.windowCount other now w' = RateSpec.windowCount other now w /\
  exists added, rateLimits w' = rateLimits w ++ added /\
                Forall (fun d => key d = RateSpec.rateKey userId operation) added.
Proof.
  intros Hne w'.
  assert (H : exists added, rateLimits w' = rateLimits w ++ added /\
                Forall (fun d => key d = RateSpec.rateKey userId operation) added).
  { subst w'. unfold MongoDatabase.checkRateLimit, MongoDatabase.countDocuments,
      MongoDatabase.insertOne_rateLimits, tryCatch, bind, Date_now, dbOp, gets, modify, ret.
    cbn. destruct (dbFault env (S (steps w)));
      [exists []; rewrite app_nil_r; split; [reflexivity | constructor] |].
    destruct (10 <=? _);
      [exists []; rewrite app_nil_r; split; [reflexivity | constructor] |].
    cbn. destruct (dbFault env (S (S (S (S (steps w))))));
      [exists []; rewrite app_nil_r; split; [reflexivity | constructor] |].
    eexists [_]. split; [reflexivity |]. repeat constructor. }
  split; [| exact H]. destruct H as (added & Hrl & Hadded).
  unfold RateSpec.windowCount. rewrite Hrl, List.filter_app, List.length_app.
  rewrite (filter_none _ added); [cbn; lia |].
  intros d Hd. rewrite List.Forall_forall in Hadded. unfold MongoDatabase.inWindow.
  rewrite (Hadded d Hd). unfold jsstring_eqb.
  rewrite bool_decide_eq_false_2 by congruence. reflexivity.
Qed.

Lemma checkRateLimit_keys_are_independent_witness :
  let w' := snd (MongoDatabase.checkRateLimit Scenario.user1 (str "gemini") Scenario.calmEnv
                   Scenario.emptyWorld) in
  RateSpec.windowCount (RateSpec.rateKey (str "user2") (str "gemini")) 5 w' = 0.
Proof.
  intros w'.
  destruct (checkRateLimit_keys_are_independent Scenario.calmEnv Scenario.emptyWorld
              Scenario.user1 (str "gemini") (RateSpec.rateKey (str "user2") (str "gemini")) 5)
    as [H _].
  - vm_compute. discriminate.
  - exact H.
Defined.

(** X25. An ['organizeLabels'] job cannot end failed while the store is
    reachable: [executeBatch] on such a job returns the suggestions and
    leaves the job ['completed'], whatever the classifier does. *)
Theorem organizeLabels_job_completes (env : Env) (w : World)
    (this : BatchProcessor.Processor) (batchId : jsstring) (userTokens : Credentials)
    (b : BatchLog) :
  Reliable env ->
  BatchSpec.job batchId w = Some b ->
  fields b !! "operation" = Some (JStr (str "organizeLabels")) ->
  exists r w',
    BatchProcessor.executeBatch this batchId userTokens env w = (Return r, w') /\
    BatchSpec.jobStatus batchId w' = Some BatchSpec.completed /\
    r !! "operation" = Some (JStr (str "organizeLabels")) /\
    is_Some (r !! "suggestions").
Proof.
  intros Hrel Hb Hop.
  destruct (executeBatch_cases env Hrel w this batchId userTokens b Hb)
    as (w2 & updR & w3 & b3 & evs & out & _ & _ & _ & Hd & _ & _ & _ & _ & Hout).
  assert (Hdis : BatchProcessor.dispatch this batchId b env w2
                 = BatchProcessor.batchOrganizeLabels this batchId (options b) env w2).
  { unfold BatchProcessor.dispatch. rewrite Hop. reflexivity. }
  destruct (batchOrganizeLabels_step this batchId (options b) env w2) as (sg & w3' & Ho).
  rewrite Hdis, Ho in Hd. injection Hd as <- <-.
  destruct Hout as (Hns & w4 & Hrun & Hj4 & _).
  eexists _, w4. split; [exact Hrun |]. split; [| split].
  - unfold BatchSpec.jobStatus. rewrite Hj4.
    unfold BatchSpec.statusOf, MongoDatabase.applySet, spread. cbn [fields].
    apply lookup_union_Some_l. rewrite lookup_insert_ne by discriminate.
    rewrite lookup_union_r by exact Hns. apply lookup_insert_eq.
  - reflexivity.
  - eexists. apply lookup_insert_eq.
Qed.

Lemma organizeLabels_job_completes_witness :
  let w := snd (BatchProcessor.createBatch Scenario.user1 (str "organizeLabels")
                  Scenario.noOptions Scenario.calmEnv Scenario.emptyWorld) in
  exists r w',
    BatchProcessor.executeBatch Scenario.processor Scenario.firstBatch Scenario.tokens
      Scenario.calmEnv w = (Return r, w') /\
    BatchSpec.jobStatus Scenario.firstBatch w' = Some BatchSpec.completed.
Proof.
  intros w.
  assert (Hrel : Reliable Scenario.calmEnv) by (intros n; reflexivity).
  destruct (BatchSpec.job Scenario.firstBatch w) as [b |] eqn:Hb;
    [| vm_compute in Hb; discriminate].
  assert (Hop : fields b !! "operation" = Some (JStr (str "organizeLabels"))).
  { vm_compute in Hb. injection Hb as <-. reflexivity. }
  destruct (organizeLabels_job_completes Scenario.calmEnv w Scenario.processor
              Scenario.firstBatch Scenario.tokens b Hrel Hb Hop) as (r & w' & Hrun & Hs & _).
  exists r, w'. split; [exact Hrun | exact Hs].
Defined.

(** X26. What the create route rejects.  The route answers 400 exactly
    when the request gives a batch size other than zero, the read
    [maxBatchSizes[operation]] finds something, and the size is below one,
    or above the ceiling when what the read finds is a ceiling.  The read
    finds a ceiling for four operations (fetchEmails 500; analyzeEmails,
    assignLabels and fullProcess 200) and an inherited member for the
    names of [Object.prototype] (['toString'], ['constructor'], ...), for
    which only sizes below one are rejected.  For every other operation
    name, known to [executeBatch] or not, and for a batch size of zero or
    none, nothing is rejected. *)
Theorem batchCreate_rejects_exactly (env : Env) (w : World) (operation : jsstring)
    (o : Options) :
  let r := fst (Server.batchCreate operation o env w) in
  (exists bs entry,
     o_batchSize o = Some bs /\ Server.maxBatchSizes operation = Some entry /\
     bs <> 0 /\ (bs < 1 \/ exists max, entry = Server.Ceiling max /\ max < bs)) <->
  (exists response, r = Return response /\ Server.status response = 400).
Proof.
  intros r. subst r. unfold Server.batchCreate, tryCatch at 1, bind at 1, gets.
  destruct (o_batchSize o) as [bs |] eqn:Hbs.
  - destruct (Server.maxBatchSizes operation) as [[mx |] |] eqn:Hmx.
    + destruct (bs =? 0) eqn:E0; cbn [negb].
      * apply Z.eqb_eq in E0. split.
        -- intros (bs' & entry & [= <-] & _ & Hne & _). contradiction.
        -- apply batchCreate_accepted_not_400.
      * apply Z.eqb_neq in E0. destruct (mx <? bs) eqn:E1.
        -- apply Z.ltb_lt in E1. split; [intros _; eexists; split; reflexivity |].
           intros _. exists bs, (Server.Ceiling mx). do 3 (split; [auto |]). right. exists mx. auto.
        -- apply Z.ltb_ge in E1. destruct (bs <? 1) eqn:E2.
           ++ apply Z.ltb_lt in E2. split; [intros _; eexists; split; reflexivity |].
              intros _. exists bs, (Server.Ceiling mx). auto.
           ++ apply Z.ltb_ge in E2. split.
              ** intros (bs' & entry & [= <-] & [= <-] & _ & [H | (max & [= <-] & H)]); lia.
              ** apply batchCreate_accepted_not_400.
    + destruct (bs =? 0) eqn:E0; cbn [negb].
      * apply Z.eqb_eq in E0. split.
        -- intros (bs' & entry & [= <-] & _ & Hne & _). contradiction.
        -- apply batchCreate_accepted_not_400.
      * apply Z.eqb_neq in E0. destruct (bs <? 1) eqn:E2.
        -- apply Z.ltb_lt in E2. split; [intros _; eexists; split; reflexivity |].
           intros _. exists bs, Server.Inherited. auto.
        -- apply Z.ltb_ge in E2. split.
           ++ intros (bs' & entry & [= <-] & [= <-] & _ & [H | (max & [=] & _)]). lia.
           ++ apply batchCreate_accepted_not_400.
    + split; [intros (bs' & entry & _ & [=] & _) | apply batchCreate_accepted_not_400].
  - split; [intros (bs' & entry & [=] & _) | apply batchCreate_accepted_not_400].
Qed.

(** The operation name ['toString'] with a batch size of -1 is answered
    400, and with a batch size of 1000 it is accepted. *)
Example batchCreate_inherited_member :
  fst (Server.batchCreate (str "toString") (mkOptions [] (Some (-1)) None None)
         Scenario.calmEnv Scenario.emptyWorld)
  = Return (Server.mkResponse 400 {[ "error" := JStr (str "Batch size must be at least 1") ]}) /\
  option_map Server.status
    (match fst (Server.batchCreate (str "toString") (mkOptions [] (Some 1000) None None)
                  Scenario.calmEnv Scenario.emptyWorld) with
     | Return response => Some response
     | Throw _ => None
     end) = Some 200.
Proof. split; reflexivity. Qed.

(** *** A whole run of the analysis *)

Section AnalyzeRuns.
Import MongoDatabase EnhancedGeminiAnalyzer ClassifySpec AnalyzeSpec AnalyzeRun.

Variable this : Analyzer.
Hypothesis Hthis : VALID_CATEGORIES this = VALID_CATEGORIES (constructor None None).

Local Abbreviation cats := (VALID_CATEGORIES this).

Lemma analysed_gmailId gids x x' : analysed cats gids x x' -> gmailId x' = gmailId x.
Proof.
  intros [H1 H2]. destruct (existsb (jsstring_eqb (gmailId x)) gids).
  - destruct (H1 eq_refl) as (a & now & -> & _). reflexivity.
  - rewrite (H2 eq_refl). reflexivity.
Qed.

Lemma Forall2_analysed_ids gids l l' :
  Forall2 (analysed cats gids) l l' -> map gmailId l' = map gmailId l.
Proof.
  induction 1 as [| x x' l l' Hx _ IH]; [reflexivity |]. cbn.
  rewrite (analysed_gmailId _ _ _ Hx), IH. reflexivity.
Qed.

Lemma Analysed_nil w : Analysed cats [] w w.
Proof.
  intros _. induction (emails w) as [| x l IH]; constructor; [| exact IH].
  split; [discriminate | reflexivity].
Qed.

Lemma Analysed_same w w' : emails w' = emails w -> Analysed cats [] w w'.
Proof. intros H. unfold Analysed. rewrite H. apply Analysed_nil. Qed.

Lemma analysed_app g1 g2 x x1 x2 :
  analysed cats g1 x x1 -> analysed cats g2 x1 x2 -> analysed cats (g1 ++ g2) x x2.
Proof.
  intros H1 H2. pose proof (analysed_gmailId _ _ _ H1) as Hid.
  destruct H1 as [H1y H1n], H2 as [H2y H2n]. rewrite Hid in H2y, H2n.
  unfold analysed. rewrite existsb_app.
  destruct (existsb (jsstring_eqb (gmailId x)) g2) eqn:E2.
  - rewrite orb_true_r. split; [intros _ | discriminate].
    destruct (H2y eq_refl) as (a2 & n2 & -> & Hwf).
    destruct (existsb (jsstring_eqb (gmailId x)) g1).
    + destruct (H1y eq_refl) as (a1 & n1 & -> & _). exists a2, n2. split; [reflexivity | exact Hwf].
    + rewrite (H1n eq_refl). exists a2, n2. split; [reflexivity | exact Hwf].
  - rewrite orb_false_r. rewrite (H2n eq_refl). split; assumption.
Qed.

Lemma Analysed_app g1 g2 w1 w2 w3 :
  Analysed cats g1 w1 w2 -> Analysed cats g2 w2 w3 -> Analysed cats (g1 ++ g2) w1 w3.
Proof.
  intros H12 H23 Hnd. specialize (H12 Hnd).
  assert (Hnd2 : NoDup (map gmailId (emails w2)))
    by (rewrite (Forall2_analysed_ids _ _ _ H12); exact Hnd).
  specialize (H23 Hnd2). revert H23. generalize (emails w3). clear -H12.
  induction H12 as [| x x1 l l1 Hx _ IH]; intros l3 H23.
  - inversion H23; subst. constructor.
  - inversion H23 as [| ? x2 ? l2 Hx2 Hl2]; subst. constructor.
    + eapply analysed_app; eassumption.
    + apply IH. exact Hl2.
Qed.

(** With message ids that are pairwise different, the update by id
    touches the one record that has the id. *)
Lemma updateFirst_analysed gid a now (l : list Email) :
  wellFormed cats a ->
  NoDup (map gmailId l) ->
  Forall2 (analysed cats [gid]) l
    (Collection.updateFirst (fun x => jsstring_eqb (gmailId x) gid) (setAnalysis a now) l).
Proof.
  intros Hwf. assert (Hsym : forall x, existsb (jsstring_eqb (gmailId x)) [gid]
                                       = jsstring_eqb (gmailId x) gid).
  { intros x. cbn. rewrite orb_false_r. unfold jsstring_eqb.
    destruct (bool_decide (gmailId x = gid)) eqn:E; reflexivity. }
  induction l as [| x l IH]; intros Hnd; cbn; [constructor |].
  apply NoDup_cons in Hnd as [Hx Hnd].
  destruct (jsstring_eqb (gmailId x) gid) eqn:E.
  - constructor.
    + split; [intros _; eauto | rewrite Hsym, E; discriminate].
    + apply bool_decide_eq_true in E. clear IH Hnd.
      induction l as [| y l IH]; constructor.
      * split; [| reflexivity]. rewrite Hsym. intros Ey.
        apply bool_decide_eq_true in Ey. exfalso. apply Hx. rewrite E, <- Ey.
        apply list_elem_of_In. left. reflexivity.
      * apply IH. intros Hin. apply Hx. apply list_elem_of_In. right.
        apply list_elem_of_In. exact Hin.
  - constructor; [| apply IH; exact Hnd].
    split; [rewrite Hsym, E; discriminate | reflexivity].
Qed.

(** The analysis step leaves the labels alone. *)
Lemma batchAnalyzeEmails_labels p bid o env w :
  labels (snd (BatchProcessor.batchAnalyzeEmails p bid o env w)) = labels w.
Proof.
  set (R := fun w w' : World => labels w' = labels w).
  assert (Hrefl : forall w, R w w) by reflexivity.
  assert (Htrans : forall w1 w2 w3, R w1 w2 -> R w2 w3 -> R w1 w3)
    by (unfold R; congruence).
  assert (Htick : forall w, R w (tick w)) by reflexivity.
  assert (H : Post R anyValue (BatchProcessor.batchAnalyzeEmails p bid o)).
  { unfold BatchProcessor.batchAnalyzeEmails, getEmails,
      EnhancedGeminiAnalyzer.batchAnalyzeEmails, sleep, analyzeEmail, callGeminiAPI,
      checkRateLimit, countDocuments, insertOne_rateLimits, updateEmailAnalysis.
    repeat (first [post_step R Hrefl Htrans Htick | reflexivity]). }
  apply H.
Qed.

Variable env : Env.
Hypothesis Hrel : Reliable env.

(** One analysis returns a well-formed result and leaves the message
    records alone. *)
Lemma analyzeEmail_wellFormed s f sn u w :
  exists a w', analyzeEmail this s f sn u env w = (Return a, w') /\
    wellFormed cats a /\ emails w' = emails w.
Proof.
  destruct (analyzeEmail_paths this s f sn u env w) as (a & w' & Hrun & Hpath).
  exists a, w'. split; [exact Hrun |]. split.
  - destruct Hpath as [-> | [obj Hv]].
    + apply fallbackAnalysis_wellFormed. exact Hthis.
    + eapply validateAnalysis_wellFormed; [| exact Hv]. rewrite Hthis. vm_compute. tauto.
  - change w' with (snd (Return a, w')). rewrite <- Hrun.
    set (R := fun w w' : World => emails w' = emails w).
    assert (Hrefl : forall w, R w w) by reflexivity.
    assert (Htrans : forall w1 w2 w3, R w1 w2 -> R w2 w3 -> R w1 w3)
      by (unfold R; congruence).
    assert (Htick : forall w, R w (tick w)) by reflexivity.
    assert (H : Post R anyValue (analyzeEmail this s f sn u)).
    { unfold analyzeEmail, callGeminiAPI, checkRateLimit, countDocuments,
        insertOne_rateLimits.
      repeat (first [post_step R Hrefl Htrans Htick | reflexivity]). }
    apply H.
Qed.

(** A loop whose rounds each analyse some messages analyses them all. *)
Lemma forOf_analyses {A S} (ids : A -> list jsstring) (body : S -> A -> M S) :
  (forall s x w, exists s' w',
      body s x env w = (Return s', w') /\ Analysed cats (ids x) w w') ->
  forall xs s w, exists s' w',
      forOf xs body s env w = (Return s', w') /\ Analysed cats (flat_map ids xs) w w'.
Proof.
  intros Hbody. induction xs as [| x xs IH]; intros s w; cbn [forOf flat_map].
  - exists s, w. split; [reflexivity | apply Analysed_nil].
  - destruct (Hbody s x w) as (s1 & w1 & Hrun1 & H1).
    destruct (IH s1 w1) as (s2 & w2 & Hrun2 & H2).
    exists s2, w2. unfold bind. rewrite Hrun1, Hrun2.
    split; [reflexivity | eapply Analysed_app; eassumption].
Qed.

Lemma slices_concat {A} (size : nat) : forall fuel i (l : list A),
  (length l <= fuel)%nat ->
  concat (map snd (slices fuel i (S size) l)) = l.
Proof.
  induction fuel as [| fuel IH]; intros i l Hl.
  - destruct l; [reflexivity | cbn in Hl; lia].
  - destruct l as [| x l]; [reflexivity |].
    cbn [slices map snd concat]. rewrite IH.
    + apply take_drop.
    + cbn [drop]. rewrite length_drop. cbn in Hl. lia.
Qed.

Lemma flat_map_slices {A B} (f : A -> B) (sl : list (nat * list A)) :
  flat_map (fun s => map f (snd s)) sl = map f (concat (map snd sl)).
Proof.
  induction sl as [| s sl IH]; [reflexivity |]. cbn. rewrite map_app, IH. reflexivity.
Qed.

Lemma flat_map_singleton {A B} (f : A -> B) (l : list A) :
  flat_map (fun x => [f x]) l = map f l.
Proof. induction l as [| x l IH]; [reflexivity |]. cbn. rewrite IH. reflexivity. Qed.

Lemma batchAnalyzeEmails_analyses es u w :
  exists r w', EnhancedGeminiAnalyzer.batchAnalyzeEmails this es u env w = (Return r, w') /\
    Analysed cats (map gmailId es) w w'.
Proof.
  unfold EnhancedGeminiAnalyzer.batchAnalyzeEmails.
  match goal with
  | |- context [forOf ?sl ?body []] =>
      assert (Hbody : forall s x w0, exists s' w1,
                 body s x env w0 = (Return s', w1) /\
                 Analysed cats (map gmailId (snd x)) w0 w1);
      [| destruct (forOf_analyses (fun x => map gmailId (snd x)) body Hbody sl [] w)
           as (rs & w' & Hrun & Hdone)]
  end.
  - intros s [i batch] w0. cbn [snd].
    match goal with
    | |- context [forOf batch ?body s] =>
        assert (Hbody : forall s1 x w1, exists s' w2,
                   body s1 x env w1 = (Return s', w2) /\ Analysed cats [gmailId x] w1 w2);
        [| destruct (forOf_analyses (fun x => [gmailId x]) body Hbody batch s w0)
             as (rs & w1 & Hrun & Hdone)]
    end.
    + intros s1 email w1. unfold tryCatch at 1, bind at 1.
      destruct (analyzeEmail_wellFormed (subject email) (from email) (snippet email) u w1)
        as (a & w2 & -> & Hwf & Hem).
      unfold updateEmailAnalysis, tryCatch, bind, Date_now, dbOp, modify, ret, throw.
      cbn. rewrite Hrel. eexists _, _. split; [reflexivity |].
      intros Hnd. cbn. rewrite Hem. apply updateFirst_analysed; assumption.
    + rewrite flat_map_singleton in Hdone. unfold bind at 1. rewrite Hrun. unfold bind at 1.
      destruct (i + 5 <? length es)%nat.
      * eexists _, _. split; [reflexivity |]. intros Hnd. apply Hdone. exact Hnd.
      * eexists _, _. split; [reflexivity | exact Hdone].
  - rewrite flat_map_slices, slices_concat in Hdone by lia.
    unfold bind at 1. rewrite Hrun. eexists _, _. split; [reflexivity | exact Hdone].
Qed.

End AnalyzeRuns.

(** X21. A whole run of the ['analyzeEmails'] step, with the store
    reachable and message ids pairwise different in the store.  The step
    returns.  Afterwards every record it selected is processed and carries
    an analysis that satisfies the field constraints, so it asks for a
    label of one to thirty characters; the record is otherwise the one it
    was, but for [updatedAt].  Every record it did not select is exactly
    the record it was, and the labels are untouched. *)
Theorem analyzeEmails_marks_processed (env : Env) (w : World)
    (apiKey useGemini : option jsstring) (bid : jsstring) (o : Options) :
  Reliable env ->
  NoDup (map gmailId (emails w)) ->
  let analyzer := EnhancedGeminiAnalyzer.constructor apiKey useGemini in
  let this := BatchProcessor.mkProcessor analyzer in
  exists r w',
    BatchProcessor.batchAnalyzeEmails this bid o env w = (Return r, w') /\
    Forall2 (AnalyzeRun.analysed (EnhancedGeminiAnalyzer.VALID_CATEGORIES analyzer)
               (map gmailId (AnalyzeSpec.selected o w)))
            (emails w) (emails w') /\
    (forall e, In e (AnalyzeSpec.selected o w) ->
       exists e' a,
         In e' (emails w') /\ AssignSpec.emailKey e' = AssignSpec.emailKey e /\
         processed e' = true /\ analysis e' = Some a /\
         ClassifySpec.wellFormed (EnhancedGeminiAnalyzer.VALID_CATEGORIES analyzer) a /\
         LabelRun.labelOf e' = Some (suggestedLabel a)) /\
    labels w' = labels w.
Proof.
  intros Hrel Hnd analyzer this.
  assert (Hrun : exists r w',
            BatchProcessor.batchAnalyzeEmails this bid o env w = (Return r, w') /\
            AnalyzeRun.Analysed (EnhancedGeminiAnalyzer.VALID_CATEGORIES analyzer)
              (map gmailId (AnalyzeSpec.selected o w)) w w').
  { unfold BatchProcessor.batchAnalyzeEmails, tryCatch at 1, bind at 1.
    rewrite getEmails_run, Hrel. fold (AnalyzeSpec.analyzeQuery o).
    fold (AnalyzeSpec.selected o w).
    destruct (length (AnalyzeSpec.selected o w) =? 0)%nat eqn:E.
    - apply Nat.eqb_eq in E. destruct (AnalyzeSpec.selected o w); [| discriminate].
      eexists _, _. split; [reflexivity |]. apply Analysed_same. reflexivity.
    - destruct (batchAnalyzeEmails_analyses analyzer eq_refl env Hrel
                  (AnalyzeSpec.selected o w) (o_userId o) (tick w)) as (r & w' & Hr & Hdone).
      unfold bind. cbn [BatchProcessor.geminiAnalyzer this]. rewrite Hr.
      eexists _, _. split; [reflexivity | exact Hdone]. }
  destruct Hrun as (r & w' & Hrun & Hdone). specialize (Hdone Hnd).
  exists r, w'. split; [exact Hrun |]. split; [exact Hdone |]. split.
  - intros e He.
    assert (Hin : In e (emails w)) by (eapply In_selectEmails; exact He).
    assert (Hmem : existsb (jsstring_eqb (gmailId e))
                     (map gmailId (AnalyzeSpec.selected o w)) = true).
    { apply existsb_exists. exists (gmailId e). split; [apply in_map; exact He |].
      apply bool_decide_eq_true. reflexivity. }
    clear -Hdone Hin Hmem. induction Hdone as [| x x' l l' [Hx _] _ IH]; [contradiction |].
    destruct Hin as [<- | Hin].
    + destruct (Hx Hmem) as (a & now & -> & Hwf). exists (MongoDatabase.setAnalysis a now x), a.
      split; [left; reflexivity |]. do 3 (split; [reflexivity |]). split; [exact Hwf |].
      unfold LabelRun.labelOf. cbn [analysis MongoDatabase.setAnalysis].
      destruct Hwf as (_ & _ & _ & Hlen).
      destruct (suggestedLabel a); [cbn in Hlen; lia | reflexivity].
    + destruct (IH Hin) as (e' & a & He' & Hrest). exists e', a.
      split; [right; exact He' | exact Hrest].
  - change w' with (snd (Return r, w')). rewrite <- Hrun.
    apply batchAnalyzeEmails_labels.
Qed.

Lemma analyzeEmails_marks_processed_witness :
  exists r w',
    BatchProcessor.batchAnalyzeEmails Scenario.processor Scenario.firstBatch
      Scenario.noOptions Scenario.calmEnv Cases.unreadWorld = (Return r, w') /\
    Forall (fun e => processed e = true) (emails w').
Proof.
  assert (Hrel : Reliable Scenario.calmEnv) by (intros n; reflexivity).
  assert (Hnd : NoDup (map gmailId (emails Cases.unreadWorld))).
  { apply (bool_decide_unpack _). vm_compute. exact I. }
  destruct (analyzeEmails_marks_processed Scenario.calmEnv Cases.unreadWorld None
              (Some (str "true")) Scenario.firstBatch Scenario.noOptions Hrel Hnd)
    as (r & w' & Hrun & _ & _ & _).
  exists r, w'. split; [exact Hrun |].
  assert (Hw : w' = snd (BatchProcessor.batchAnalyzeEmails Scenario.processor
                           Scenario.firstBatch Scenario.noOptions Scenario.calmEnv
                           Cases.unreadWorld)).
  { unfold Scenario.processor. rewrite Hrun. reflexivity. }
  rewrite Hw. apply List.Forall_forall. apply List.forallb_forall. vm_compute. reflexivity.
Defined.

(** *** [validateAnalysis] on an answer that is already valid *)

Section Validate.
Import EnhancedGeminiAnalyzer ValidateSpec.

Lemma trimStart_clean s : startsClean s -> trimStart s = s.
Proof. destruct s as [| c s]; [contradiction |]. cbn. intros ->. reflexivity. Qed.

Lemma trim_clean s : startsClean s -> startsClean (rev s) -> trim s = s.
Proof.
  intros Hs He. unfold trim. rewrite (trimStart_clean s Hs), (trimStart_clean _ He).
  apply rev_involutive.
Qed.

Lemma filter_all {A} (f : A -> bool) (l : list A) :
  Forall (fun x => f x = true) l -> List.filter f l = l.
Proof.
  induction 1 as [| x l Hx _ IH]; [reflexivity |]. cbn. rewrite Hx, IH. reflexivity.
Qed.

Lemma cleanLabel_tidy s : tidy s -> cleanLabel s = s.
Proof.
  intros (Hkept & Hs & He & Hlen). unfold cleanLabel, substring0.
  rewrite (filter_all _ _ Hkept), (trim_clean s Hs He). apply take_ge. exact Hlen.
Qed.

Lemma arrayIncludes_member (l : list jsstring) (c : jsstring) :
  In c l -> arrayIncludes l (Some (JStr c)) = Some c.
Proof.
  intros Hc. unfold arrayIncludes.
  assert (H : existsb (jsstring_eqb c) l = true).
  { apply existsb_exists. exists c. split; [exact Hc |]. apply bool_decide_eq_true. reflexivity. }
  rewrite H. reflexivity.
Qed.

Lemma js_or_truthy v d : truthy (Some v) = true -> js_or (Some v) d = v.
Proof. unfold js_or. intros ->. reflexivity. Qed.

End Validate.

(** X22. [validateAnalysis] leaves a valid answer as it is.  If the
    classifier answers with a category of the closed set, one of the three
    sentiments, a truthy purpose and summary, and a label that has only
    characters the clean-up keeps, no whitespace at either end and at most
    thirty characters, then the validated result has exactly those five
    fields: nothing is replaced by a default and the label is not cut. *)
Theorem validateAnalysis_keeps_valid (this : EnhancedGeminiAnalyzer.Analyzer) (a : Analysis) :
  In (category a) (EnhancedGeminiAnalyzer.VALID_CATEGORIES this) ->
  In (sentiment a) ClassifySpec.sentiments ->
  truthy (Some (purpose a)) = true ->
  truthy (Some (summary a)) = true ->
  ValidateSpec.tidy (suggestedLabel a) ->
  EnhancedGeminiAnalyzer.validateAnalysis this (ValidateSpec.answerOf a) = Return a.
Proof.
  intros Hcat Hsent Hp Hs Htidy. unfold EnhancedGeminiAnalyzer.validateAnalysis.
  assert (E1 : ValidateSpec.answerOf a !! "purpose" = Some (purpose a)) by reflexivity.
  assert (E2 : ValidateSpec.answerOf a !! "category" = Some (JStr (category a)))
    by reflexivity.
  assert (E3 : ValidateSpec.answerOf a !! "summary" = Some (summary a)) by reflexivity.
  assert (E4 : ValidateSpec.answerOf a !! "sentiment" = Some (JStr (sentiment a)))
    by reflexivity.
  assert (E5 : ValidateSpec.answerOf a !! "suggestedLabel" = Some (JStr (suggestedLabel a)))
    by reflexivity.
  rewrite E1, E2, E3, E4, E5.
  rewrite (js_or_truthy _ _ Hp), (js_or_truthy _ _ Hs).
  rewrite (arrayIncludes_member _ _ Hcat).
  rewrite (arrayIncludes_member [str "positive"; str "negative"; str "neutral"] _ Hsent).
  assert (Hlabel : truthy (Some (JStr (suggestedLabel a))) = true).
  { destruct Htidy as (_ & Hstart & _). destruct (suggestedLabel a); [contradiction | reflexivity]. }
  rewrite (js_or_truthy _ _ Hlabel). rewrite (cleanLabel_tidy _ Htidy).
  destruct a as [p c s se l]. cbn in *.
  destruct l; [destruct Htidy as (_ & [] & _) | reflexivity].
Qed.

Lemma validateAnalysis_keeps_valid_witness :
  EnhancedGeminiAnalyzer.validateAnalysis (BatchProcessor.geminiAnalyzer Scenario.processor)
    (ValidateSpec.answerOf Scenario.workAnalysis) = Return Scenario.workAnalysis.
Proof.
  apply validateAnalysis_keeps_valid.
  - vm_compute. tauto.
  - vm_compute. tauto.
  - reflexivity.
  - reflexivity.
  - split; [| split; [| split]].
    + apply List.Forall_forall. apply List.forallb_forall. vm_compute. reflexivity.
    + vm_compute. reflexivity.
    + vm_compute. reflexivity.
    + vm_compute. lia.
Defined.

(** *** The unique indexes of the store are kept *)

Section StoreInvariant.
Import MongoDatabase EnhancedGeminiAnalyzer BatchProcessor StoreSpec.

Lemma KeepsKeys_refl w : KeepsKeys w w.
Proof. intros H. exact H. Qed.

Lemma KeepsKeys_trans w1 w2 w3 : KeepsKeys w1 w2 -> KeepsKeys w2 w3 -> KeepsKeys w1 w3.
Proof. unfold KeepsKeys. auto. Qed.

Lemma KeepsKeys_same w w' :
  emails w' = emails w -> labels w' = labels w -> batchLogs w' = batchLogs w ->
  KeepsKeys w w'.
Proof. unfold KeepsKeys, uniqueKeys. intros -> -> ->. auto. Qed.

Lemma KeepsKeys_tick w : KeepsKeys w (tick w).
Proof. apply KeepsKeys_same; reflexivity. Qed.

Ltac keys :=
  repeat (first
    [ post_step KeepsKeys KeepsKeys_refl KeepsKeys_trans KeepsKeys_tick
    | apply KeepsKeys_same; reflexivity ]).

Lemma keys_saveEmail e : Post KeepsKeys anyValue (saveEmail e).
Proof.
  unfold saveEmail. keys. intros (He & Hl & Hb). repeat split; try assumption.
  cbn. apply (replaceOneUpsert_email_unique (withUpdatedAt a e)). exact He.
Qed.

Lemma keys_updateEmailAnalysis g an : Post KeepsKeys anyValue (updateEmailAnalysis g an).
Proof.
  unfold updateEmailAnalysis. keys. intros (He & Hl & Hb). repeat split; try assumption.
  cbn. rewrite map_emailKey_updateFirst; [exact He | reflexivity].
Qed.

Lemma keys_markSynced g : Post KeepsKeys anyValue (markSynced g).
Proof.
  unfold markSynced. keys. intros (He & Hl & Hb). repeat split; try assumption.
  cbn. rewrite map_emailKey_updateFirst; [exact He | reflexivity].
Qed.

Lemma keys_saveLabel u n i c a : Post KeepsKeys anyValue (saveLabel u n i c a).
Proof.
  unfold saveLabel. keys. intros (He & Hl & Hb). repeat split; try assumption.
  cbn. apply replaceOneUpsert_unique; [reflexivity | exact Hl].
Qed.

Lemma map_batchId_updateFirst bid upd l :
  map batchId (Collection.updateFirst (hasBatchId bid) (applySet upd) l) = map batchId l.
Proof.
  induction l as [| d l IH]; [reflexivity |]. cbn.
  destruct (hasBatchId bid d); cbn; [| rewrite IH]; reflexivity.
Qed.

Lemma keys_updateBatchLog bid upd : Post KeepsKeys anyValue (updateBatchLog bid upd).
Proof.
  unfold updateBatchLog. keys. intros (He & Hl & Hb). repeat split; try assumption.
  cbn. rewrite map_batchId_updateFirst. exact Hb.
Qed.

Lemma keys_createBatchLog d : Post KeepsKeys anyValue (createBatchLog d).
Proof.
  intros env w. split; [| constructor].
  unfold createBatchLog, tryCatch, bind, Date_now, dbOp, gets, modify, ret, throw. cbn.
  destruct (dbFault env (S (steps w))); [apply KeepsKeys_same; reflexivity |]. cbn.
  destruct (existsb _ (batchLogs w)) eqn:E; [apply KeepsKeys_same; reflexivity |]. cbn.
  intros (He & Hl & Hb). repeat split; try assumption. cbn.
  rewrite map_app. apply NoDup_app. split; [exact Hb |]. split; [| apply NoDup_singleton].
  intros k Hk Hin. apply list_elem_of_singleton in Hin. subst k.
  apply list_elem_of_fmap in Hk as (x & Hx & Hxin).
  assert (Hex : existsb (hasBatchId (batchId d)) (batchLogs w) = true).
  { apply existsb_exists. exists x. split; [apply list_elem_of_In; exact Hxin |].
    apply bool_decide_eq_true. symmetry. exact Hx. }
  cbn in E. congruence.
Qed.

Lemma keys_checkRateLimit u op : Post KeepsKeys anyValue (checkRateLimit u op).
Proof. unfold checkRateLimit, countDocuments, insertOne_rateLimits. keys. Qed.

Lemma keys_getEmails u q : Post KeepsKeys anyValue (getEmails u q).
Proof. unfold getEmails. keys. Qed.

Lemma keys_getLabels u : Post KeepsKeys anyValue (getLabels u).
Proof. unfold getLabels. keys. Qed.

Lemma keys_getLabelByName u n : Post KeepsKeys anyValue (getLabelByName u n).
Proof. unfold getLabelByName. keys. Qed.

Lemma keys_getCategoryBreakdown u : Post KeepsKeys anyValue (getCategoryBreakdown u).
Proof. unfold getCategoryBreakdown. keys. Qed.

Lemma keys_getUser u : Post KeepsKeys anyValue (getUser u).
Proof. unfold getUser. keys. Qed.

Lemma keys_updateUserTokens u a r t : Post KeepsKeys anyValue (updateUserTokens u a r t).
Proof. unfold updateUserTokens. keys. Qed.

Lemma keys_analyzeEmail this s f sn u : Post KeepsKeys anyValue (analyzeEmail this s f sn u).
Proof. unfold analyzeEmail, callGeminiAPI. keys; try apply keys_checkRateLimit; keys. Qed.

Lemma keys_batchAnalyzeEmails_analyzer this es u :
  Post KeepsKeys anyValue (EnhancedGeminiAnalyzer.batchAnalyzeEmails this es u).
Proof.
  unfold EnhancedGeminiAnalyzer.batchAnalyzeEmails, sleep.
  keys; try apply keys_analyzeEmail; try apply keys_updateEmailAnalysis; keys.
Qed.

Lemma keys_suggestLabelOrganization this u :
  Post KeepsKeys anyValue (suggestLabelOrganization this u).
Proof.
  unfold suggestLabelOrganization.
  keys; try apply keys_getLabels; try apply keys_getCategoryBreakdown; keys.
Qed.

Lemma keys_messages_list : Post KeepsKeys anyValue messages_list.
Proof.
  intros env w. split; [| constructor]. unfold messages_list.
  destruct (listing w); cbn; apply KeepsKeys_same; reflexivity.
Qed.

Lemma keys_fetchMessage u t id : Post KeepsKeys anyValue (fetchMessage u t id).
Proof. unfold fetchMessage. keys; try apply keys_saveEmail; keys. Qed.

Lemma keys_fetchLoop script bid u size : forall t,
  Post KeepsKeys anyValue (fetchLoop script bid u size t).
Proof.
  induction script as [| page script IH]; intros t; cbn [fetchLoop];
    keys; try apply keys_messages_list; try apply keys_fetchMessage;
    try apply keys_updateBatchLog; try apply IH; keys.
Qed.

Lemma keys_batchFetchEmails bid o : Post KeepsKeys anyValue (batchFetchEmails bid o).
Proof. unfold batchFetchEmails. keys; try apply keys_fetchLoop; keys. Qed.

Lemma keys_batchAnalyzeEmails this bid o :
  Post KeepsKeys anyValue (BatchProcessor.batchAnalyzeEmails this bid o).
Proof.
  unfold BatchProcessor.batchAnalyzeEmails.
  keys; try apply keys_getEmails; try apply keys_batchAnalyzeEmails_analyzer; keys.
Qed.

Lemma keys_createLabel u c n : Post KeepsKeys anyValue (createLabel u c n).
Proof.
  unfold createLabel. destruct c.
  keys; try apply keys_getLabelByName; try apply keys_saveLabel; keys.
Qed.

Lemma keys_batchCreateLabels bid o : Post KeepsKeys anyValue (batchCreateLabels bid o).
Proof.
  unfold batchCreateLabels. keys; try apply keys_getEmails; try apply keys_createLabel; keys.
Qed.

Lemma keys_assignLabel u c e : Post KeepsKeys anyValue (assignLabel u c e).
Proof.
  unfold assignLabel. destruct c.
  keys; try apply keys_getLabelByName; try apply keys_markSynced; keys.
Qed.

Lemma keys_batchAssignLabels bid o : Post KeepsKeys anyValue (batchAssignLabels bid o).
Proof.
  unfold batchAssignLabels. keys; try apply keys_getEmails; try apply keys_assignLabel; keys.
Qed.

Lemma keys_batchOrganizeLabels this bid o :
  Post KeepsKeys anyValue (batchOrganizeLabels this bid o).
Proof. unfold batchOrganizeLabels. keys; try apply keys_suggestLabelOrganization; keys. Qed.

Lemma keys_fullBatchProcess this bid o : Post KeepsKeys anyValue (fullBatchProcess this bid o).
Proof.
  unfold fullBatchProcess.
  keys; try apply keys_batchFetchEmails; try apply keys_batchAnalyzeEmails;
    try apply keys_batchCreateLabels; try apply keys_batchAssignLabels; keys.
Qed.

Lemma keys_dispatch this bid b : Post KeepsKeys anyValue (dispatch this bid b).
Proof.
  unfold dispatch.
  repeat match goal with
         | |- Post _ _ (if ?c then _ else _) => destruct c
         end;
    auto using keys_batchFetchEmails, keys_batchAnalyzeEmails, keys_batchCreateLabels,
      keys_batchAssignLabels, keys_batchOrganizeLabels, keys_fullBatchProcess.
  apply (post_throw KeepsKeys KeepsKeys_refl).
Qed.

Lemma keys_executeBatch this bid tok : Post KeepsKeys anyValue (executeBatch this bid tok).
Proof.
  unfold executeBatch, executeBatch_try, executeBatch_catch, setCredentials, findBatchLog.
  keys; try apply keys_updateBatchLog; try apply keys_dispatch; keys.
Qed.

Lemma keys_createBatch u op o : Post KeepsKeys anyValue (createBatch u op o).
Proof.
  assert (Hrandom : Post KeepsKeys anyValue
                      (fun env w => (Return (random env (steps w)), tick w))).
  { intros env w. split; [apply KeepsKeys_tick | constructor]. }
  unfold createBatch, generateBatchId.
  keys; try apply Hrandom; try apply keys_createBatchLog; keys.
Qed.

Lemma keys_withTokenRefresh {A} (operation : M A) :
  Post KeepsKeys anyValue operation ->
  Post KeepsKeys anyValue (Server.withTokenRefresh operation).
Proof.
  intros Hop. unfold Server.withTokenRefresh, setCredentials.
  keys; try apply Hop; try apply keys_updateUserTokens; keys.
Qed.

End StoreInvariant.

(** X23. The unique indexes of the store are an invariant of everything
    that writes: if no two message records share [(gmailId, userId)], no
    two label records share [(userId, name)] and no two jobs share a
    [batchId], the same holds after [createBatch], after the create route,
    after [executeBatch] on any job and with any operation, and after the
    execute route with its token guard, whatever the environment does and
    whether they return or throw. *)
Theorem unique_keys_are_kept (env : Env) (w : World) :
  StoreSpec.uniqueKeys w ->
  (forall userId operation o,
     StoreSpec.uniqueKeys (snd (BatchProcessor.createBatch userId operation o env w))) /\
  (forall operation o,
     StoreSpec.uniqueKeys (snd (Server.batchCreate operation o env w))) /\
  (forall this batchId userTokens,
     StoreSpec.uniqueKeys (snd (BatchProcessor.executeBatch this batchId userTokens env w))) /\
  (forall this batchId,
     StoreSpec.uniqueKeys (snd (Routes.batchExecute_guarded this batchId env w))).
Proof.
  intros Hinv. split; [| split; [| split]].
  - intros u op o. apply (keys_createBatch u op o env w). exact Hinv.
  - intros op o.
    assert (H : Post StoreSpec.KeepsKeys anyValue (Server.batchCreate op o)).
    { unfold Server.batchCreate.
      repeat (first
        [ apply keys_createBatch
        | post_step StoreSpec.KeepsKeys KeepsKeys_refl KeepsKeys_trans KeepsKeys_tick ]). }
    apply H. exact Hinv.
  - intros this bid tok. apply (keys_executeBatch this bid tok env w). exact Hinv.
  - intros this bid.
    assert (H : Post StoreSpec.KeepsKeys anyValue (Routes.batchExecute_guarded this bid)).
    { unfold Routes.batchExecute_guarded, Routes.executeOperation.
      repeat (first
        [ apply keys_getUser
        | apply keys_withTokenRefresh; apply keys_executeBatch
        | post_step StoreSpec.KeepsKeys KeepsKeys_refl KeepsKeys_trans KeepsKeys_tick ]). }
    apply H. exact Hinv.
Qed.

Lemma unique_keys_are_kept_witness :
  StoreSpec.uniqueKeys
    (snd (BatchProcessor.executeBatch Scenario.processor Scenario.firstBatch Scenario.tokens
            Scenario.calmEnv Scenario.fullCreated)).
Proof.
  assert (Hinv : StoreSpec.uniqueKeys Scenario.fullCreated).
  { repeat split; apply (bool_decide_unpack _); vm_compute; exact I. }
  destruct (unique_keys_are_kept Scenario.calmEnv Scenario.fullCreated Hinv)
    as (_ & _ & H & _).
  apply H.
Defined.

Section ResultStored.
Import MongoDatabase BatchProcessor BatchSpec JobSpec.

(** The job a confined run was about is still found, for the same user
    with the same options. *)
Lemma find_sameJob_self bid l : forall l' d d',
  Forall2 (sameJob bid) l l' ->
  List.find (hasBatchId bid) l = Some d -> List.find (hasBatchId bid) l' = Some d' ->
  b_userId d' = b_userId d /\ options d' = options d.
Proof.
  intros l' d d' H. induction H as [| x x' l l' (Hid & Hu & Ho & _) _ IH]; [discriminate |].
  cbn. unfold hasBatchId at 1 3. rewrite Hid.
  destruct (jsstring_eqb (batchId x) bid); [| exact IH].
  intros [= <-] [= <-]. split; assumption.
Qed.

End ResultStored.

(** X24. The result of a job is what the job records.  With the store
    reachable, when [executeBatch] on a stored job returns a result, the
    job is left with status ['completed'] and carries every property of
    the result with the value returned (the counters, the errors, the
    operation), apart from [updatedAt], which the store sets itself; its
    identifier, user and options are the ones it had. *)
Theorem executeBatch_result_is_stored (env : Env) (w w' : World)
    (this : BatchProcessor.Processor) (batchId : jsstring) (userTokens : Credentials)
    (b : BatchLog) (r : gmap string JSValue) :
  Reliable env ->
  BatchSpec.job batchId w = Some b ->
  BatchProcessor.executeBatch this batchId userTokens env w = (Return r, w') ->
  exists b',
    BatchSpec.job batchId w' = Some b' /\
    BatchSpec.statusOf b' = Some BatchSpec.completed /\
    (forall k v, r !! k = Some v -> k <> "updatedAt"%string -> fields b' !! k = Some v) /\
    b_userId b' = b_userId b /\ options b' = options b.
Proof.
  intros Hrel Hb Hrun.
  destruct (executeBatch_cases env Hrel w this batchId userTokens b Hb)
    as (w2 & updR & w3 & b3 & evs & out & _ & Hj2 & _ & Hd & _ & _ & Hj3 & _ & Hout).
  destruct out as [r0 | e].
  - destruct Hout as (Hns & w4 & Hrun4 & Hj4 & _).
    rewrite Hrun in Hrun4. injection Hrun4 as <- <-.
    eexists. split; [exact Hj4 |].
    assert (Hkeep : b_userId b3 = b_userId b /\ options b3 = options b).
    { pose proof (confined_dispatch batchId this b env w2) as [(_ & _ & _ & Hc) _].
      rewrite Hd in Hc. cbn [snd] in Hc.
      apply (find_sameJob_self batchId _ _ _ _ Hc Hj2 Hj3). }
    unfold BatchSpec.statusOf, MongoDatabase.applySet, spread. cbn [fields b_userId options].
    split; [| split; [| exact Hkeep]].
    + apply lookup_union_Some_l. rewrite lookup_insert_ne by discriminate.
      rewrite lookup_union_r by exact Hns. apply lookup_insert_eq.
    + intros k v Hk Hne. apply lookup_union_Some_l.
      rewrite lookup_insert_ne by congruence. apply lookup_union_Some_l. exact Hk.
  - destruct Hout as (_ & w4 & Hrun4 & _). rewrite Hrun in Hrun4. discriminate.
Qed.

Lemma executeBatch_result_is_stored_witness :
  exists r w' b',
    BatchProcessor.executeBatch Scenario.processor Scenario.firstBatch Scenario.tokens
      Scenario.calmEnv Scenario.fullCreated = (Return r, w') /\
    BatchSpec.job Scenario.firstBatch w' = Some b' /\
    BatchSpec.statusOf b' = Some BatchSpec.completed.
Proof.
  assert (Hrel : Reliable Scenario.calmEnv) by (intros n; reflexivity).
  pose (run := BatchProcessor.executeBatch Scenario.processor Scenario.firstBatch
                 Scenario.tokens Scenario.calmEnv Scenario.fullCreated).
  assert (Hr : exists r, fst run = Return r).
  { eexists. vm_compute. reflexivity. }
  destruct Hr as [r Hr].
  assert (Hrun : run = (Return r, snd run)).
  { rewrite <- Hr. apply surjective_pairing. }
  assert (Hb : exists b, BatchSpec.job Scenario.firstBatch Scenario.fullCreated = Some b).
  { eexists. vm_compute. reflexivity. }
  destruct Hb as [b Hb].
  destruct (executeBatch_result_is_stored Scenario.calmEnv Scenario.fullCreated (snd run)
              Scenario.processor Scenario.firstBatch Scenario.tokens b r Hrel Hb Hrun)
    as (b' & Hj & Hs & _).
  exists r, (snd run), b'. split; [exact Hrun |]. split; [exact Hj | exact Hs].
Defined.

(** *** The whole pipeline when nothing goes wrong *)

Section Pipeline.
Import MongoDatabase EnhancedGeminiAnalyzer BatchProcessor LabelSpec LabelRun AssignSpec
  AssignRun.

Lemma selected_considered_for o o' w e :
  o_userId o' = o_userId o ->
  (Z.abs_nat (numOr (o_batchSize o) 50) <= 50)%nat ->
  In e (AssignSpec.selected o w) -> In e (considered o' w).
Proof.
  intros Hu Hsize He. unfold considered. rewrite Hu.
  apply (selected_considered o w e Hsize He).
Qed.

(** The labelling of one record leaves the jobs alone. *)
Lemma assignLabel_batchLogs u counts e env w :
  batchLogs (snd (assignLabel u counts e env w)) = batchLogs w.
Proof.
  set (R := fun w w' : World => batchLogs w' = batchLogs w).
  assert (Hrefl : forall w, R w w) by reflexivity.
  assert (Htrans : forall w1 w2 w3, R w1 w2 -> R w2 w3 -> R w1 w3)
    by (unfold R; congruence).
  assert (Htick : forall w, R w (tick w)) by reflexivity.
  assert (H : Post R anyValue (assignLabel u counts e)).
  { unfold assignLabel, getLabelByName, markSynced. destruct counts.
    repeat (first [post_step R Hrefl Htrans Htick | reflexivity]). }
  apply H.
Qed.

Variable env : Env.
Hypothesis Hrel : Reliable env.
Hypothesis Hcreates : providerCreates env.
Hypothesis Hmodifies : providerModifies env.
Variable u : jsstring.

(** A record that asks for no label is passed over. *)
Lemma assignLabel_skips counts e w :
  labelOf e = None -> assignLabel u counts e env w = (Return counts, w).
Proof.
  unfold labelOf, assignLabel. destruct counts as [sc fc].
  destruct (analysis e) as [a |]; [| reflexivity].
  destruct (suggestedLabel a); [reflexivity | discriminate].
Qed.

(** The loop over records whose labels, where they ask for one, have
    records: nothing fails. *)
Lemma assignLabels_loop_ok : forall es counts w,
  (forall e labelName, In e es -> labelOf e = Some labelName ->
     exists l, resolved u labelName w = Some l) ->
  exists successCount w',
    forOf es (assignLabel u) counts env w = (Return (successCount, snd counts), w') /\
    labels w' = labels w /\ batchLogs w' = batchLogs w.
Proof.
  induction es as [| e es IH]; intros counts w Hall.
  - exists (fst counts), w. destruct counts. repeat split.
  - cbn [forOf]. unfold bind. destruct (labelOf e) as [labelName |] eqn:Hlabel.
    + destruct (Hall e labelName (or_introl eq_refl) Hlabel) as [l Hres].
      destruct (assignLabel_applies env Hrel Hmodifies u counts e w labelName l Hlabel Hres)
        as (w1 & Hrun1 & Hlab1 & Htr1 & Hem1).
      rewrite Hrun1.
      destruct (IH (fst counts + 1, snd counts) w1) as (sc & w' & Hrun & Hlab & Hlogs).
      * intros e' n' He' Hl'. destruct (Hall e' n' (or_intror He') Hl') as [l' Hr'].
        exists l'. unfold resolved in *. rewrite Hlab1. exact Hr'.
      * exists sc, w'. rewrite Hrun. split; [reflexivity |]. split; [congruence |].
        rewrite Hlogs. change w1 with (snd (Return (A := Z * Z) (fst counts + 1, snd counts), w1)).
        rewrite <- Hrun1. apply assignLabel_batchLogs.
    + rewrite (assignLabel_skips counts e w Hlabel).
      destruct (IH counts w) as (sc & w' & Hrun & Hlab & Hlogs).
      * intros e' n' He' Hl'. apply (Hall e' n' (or_intror He') Hl').
      * exists sc, w'. rewrite Hrun. auto.
Qed.

Lemma assignLabels_run_ok bid o w :
  o_userId o = u ->
  (forall e labelName, In e (unsynced o w) -> labelOf e = Some labelName ->
     exists l, resolved u labelName w = Some l) ->
  exists r w',
    batchAssignLabels bid o env w = (Return r, w') /\
    (r !! "errors" = None \/ r !! "errors" = Some (JArr [])) /\
    is_Some (r !! "emailsProcessed") /\
    r !! "emailsTotal" = Some (JNum (Z.of_nat (length (unsynced o w)))).
Proof.
  intros Hu Hall. unfold batchAssignLabels, tryCatch at 1, bind at 1.
  rewrite getEmails_run, Hrel.
  change (selectEmails (o_userId o) _ (emails w)) with (selected o w).
  fold (unsynced o w).
  destruct (length (unsynced o w) =? 0)%nat eqn:E.
  - apply Nat.eqb_eq in E. rewrite E. eexists _, _. split; [reflexivity |].
    split; [left; reflexivity |]. split; [eexists |]; reflexivity.
  - rewrite Hu.
    destruct (assignLabels_loop_ok (unsynced o w) (0, 0) (tick w) Hall)
      as (sc & w' & Hrun & _).
    unfold bind. rewrite Hrun. cbn [fst snd]. eexists _, _. split; [reflexivity |].
    split; [right; reflexivity |]. split; [eexists |]; reflexivity.
Qed.

End Pipeline.

Section PipelineRun.
Import MongoDatabase EnhancedGeminiAnalyzer BatchProcessor LabelSpec LabelRun AssignSpec
  AssignRun FetchSpec.

(** The result of [batchCreateLabels] has no [errors]. *)
Lemma batchCreateLabels_no_errors bid o env w r w' :
  batchCreateLabels bid o env w = (Return r, w') -> r !! "errors" = None.
Proof.
  intros Hrun.
  set (R := fun _ _ : World => True).
  assert (Hrefl : forall w, R w w) by constructor.
  assert (Htrans : forall w1 w2 w3, R w1 w2 -> R w2 w3 -> R w1 w3) by constructor.
  assert (Htick : forall w, R w (tick w)) by constructor.
  assert (H : Post R (fun r => r !! "errors" = None) (batchCreateLabels bid o)).
  { unfold batchCreateLabels.
    apply (post_tryCatch R Htrans); [| intros e; apply (post_throw R Hrefl)].
    eapply (post_bind R Htrans);
      [apply (post_weaken R anyValue anyValue); [| auto]; intros env0 w0; split; constructor |].
    intros es _. eapply (post_bind R Htrans);
      [intros env0 w0; split; [constructor | intros a _; exact (I : anyValue a)] |].
    intros [c ex] _. apply (post_ret R Hrefl). reflexivity. }
  destruct (H env w) as [_ Hr]. apply Hr. rewrite Hrun. reflexivity.
Qed.

Lemma numOr_numOr b d d' : d <> 0 -> numOr (Some (numOr b d)) d' = numOr b d.
Proof.
  intros Hd. unfold numOr at 1. destruct (numOr b d =? 0) eqn:E; [| reflexivity].
  apply Z.eqb_eq in E. unfold numOr in E. destruct b as [v |]; [| contradiction].
  destruct (v =? 0) eqn:Ev; [contradiction |]. apply Z.eqb_neq in Ev. contradiction.
Qed.

End PipelineRun.

(** X27. The whole pipeline when nothing goes wrong.  With the store
    reachable, a listing that never fails, a provider that creates and
    applies the labels it is asked for, and a batch size of at most 50
    (either way from zero), [fullBatchProcess] returns, its result names
    the operation ['fullProcess'], and no record failed: the [errors] of
    the result is absent or empty.  In particular no assignment fails for
    a label that is not found, since every label that the records selected
    for assignment ask for has been created by the step before.  The bound
    is needed: without a batch size the pipeline assigns labels to up to
    100 records while [batchCreateLabels] has looked at 50. *)
Theorem fullBatchProcess_succeeds (env : Env) (w : World)
    (this : BatchProcessor.Processor) (bid : jsstring) (o : Options) :
  Reliable env ->
  FetchSpec.served (listing w) ->
  LabelRun.providerCreates env ->
  AssignRun.providerModifies env ->
  (Z.abs_nat (numOr (o_batchSize o) 100) <= 50)%nat ->
  exists r w',
    BatchProcessor.fullBatchProcess this bid o env w = (Return r, w') /\
    r !! "operation" = Some (JStr (str "fullProcess")) /\
    (r !! "errors" = None \/ r !! "errors" = Some (JArr [])) /\
    BatchSpec.hasCounters r.
Proof.
  intros Hrel Hserved Hcreates Hmodifies Hsize.
  set (u := o_userId o). set (bs := numOr (o_batchSize o) 100).
  unfold BatchProcessor.fullBatchProcess, tryCatch at 1, bind at 1. fold u bs.
  rewrite batchFetchEmails_run.
  destruct (fetchLoop_returns env bid u (numOr (Some bs) 100) Hrel (listing w) 0 w Hserved)
    as (n & w1 & Hfetch).
  cbn [o_userId o_batchSize]. rewrite Hfetch. unfold bind at 1.
  destruct (analyzeJob_run this bid (mkOptions u None (Some bs) None) env w1 (Hrel _))
    as (a & w2 & Hanalyze & _ & _ & Ha).
  rewrite Hanalyze. unfold bind at 1.
  destruct (createLabels_run env Hrel Hcreates u bid (mkOptions u None None None) w2 eq_refl)
    as (c & w3 & Hcreate & Hem3 & _ & _ & _ & Hres & _).
  rewrite Hcreate. unfold bind at 1.
  destruct (assignLabels_run_ok env Hrel Hmodifies u bid (mkOptions u (Some bs) None None) w3
              eq_refl) as (s & w4 & Hassign & Hs & Hsp & Hst).
  { intros e labelName He Hlabel.
    assert (Hin : In labelName (LabelRun.wanted (mkOptions u None None None) w2)).
    { apply collectLabels_In. exists e. split; [| exact Hlabel].
      unfold AssignRun.unsynced in He. apply List.filter_In in He as [He _].
      apply (selected_considered_for _ (mkOptions u None None None)) in He;
        [| reflexivity |].
      - unfold LabelRun.considered in *. rewrite Hem3 in He. exact He.
      - cbn [o_batchSize]. unfold bs. rewrite numOr_numOr by discriminate. exact Hsize. }
    specialize (Hres labelName Hin). unfold LabelRun.unresolved in Hres.
    destruct (LabelSpec.resolved u labelName w3) as [l |]; [eauto | discriminate]. }
  rewrite Hassign. eexists _, _. split; [reflexivity |].
  split; [apply finalResult_operation |]. split.
  - rewrite finalResult_last_wins by discriminate. unfold BatchSpec.lastProduced.
    cbn [fold_left]. rewrite (batchCreateLabels_no_errors _ _ _ _ _ _ Hcreate).
    rewrite lookup_insert_ne by discriminate. rewrite lookup_insert_ne by discriminate.
    rewrite lookup_insert_ne by discriminate. rewrite lookup_empty.
    specialize (Ha Hrel).
    destruct Hs as [-> | ->]; [| right; reflexivity].
    destruct Ha as [-> | ->]; [left | right]; reflexivity.
  - split; rewrite finalResult_last_wins by discriminate; unfold BatchSpec.lastProduced;
      cbn [fold_left].
    + destruct Hsp as [v ->]. eexists. reflexivity.
    + rewrite Hst. eexists. reflexivity.
Qed.

Lemma fullBatchProcess_succeeds_witness :
  exists r w',
    BatchProcessor.fullBatchProcess Scenario.processor Scenario.firstBatch
      (mkOptions Scenario.user1 (Some 10) None None) Scenario.calmEnv Scenario.inboxWorld
    = (Return r, w') /\
    (r !! "errors" = None \/ r !! "errors" = Some (JArr [])).
Proof.
  assert (Hrel : Reliable Scenario.calmEnv) by (intros n; reflexivity).
  assert (Hserved : FetchSpec.served (listing Scenario.inboxWorld)).
  { repeat constructor. eexists. reflexivity. }
  assert (Hcreates : LabelRun.providerCreates Scenario.calmEnv).
  { intros n labelName. eexists. reflexivity. }
  assert (Hmodifies : AssignRun.providerModifies Scenario.calmEnv)
    by (intros n id l; reflexivity).
  assert (Hsize : (Z.abs_nat (numOr (o_batchSize (mkOptions Scenario.user1 (Some 10%Z) None None))
                                100%Z) <= 50)%nat).
  { apply Nat.leb_le. reflexivity. }
  destruct (fullBatchProcess_succeeds Scenario.calmEnv Scenario.inboxWorld Scenario.processor
              Scenario.firstBatch (mkOptions Scenario.user1 (Some 10) None None)
              Hrel Hserved Hcreates Hmodifies Hsize) as (r & w' & Hrun & _ & Herr & _).
  exists r, w'. split; [exact Hrun | exact Herr].
Defined.

(** Without a batch size the bound fails and so does the conclusion:
    among fifty-one analysed messages the oldest asks for a label of its
    own; [batchCreateLabels] looks at the newest fifty, and the assignment
    of that label fails. *)
Example fullBatchProcess_default_size_misses_a_label :
  exists r w',
    BatchProcessor.fullBatchProcess Scenario.processor Scenario.firstBatch Scenario.noOptions
      Scenario.calmEnv PipelineCases.crowdedWorld = (Return r, w') /\
    r !! "errors" = Some (JArr [JStr (str "1 emails failed labeling")]) /\
    r !! "emailsProcessed" = Some (JNum 50) /\ r !! "emailsTotal" = Some (JNum 51).
Proof.
  assert (He : option_map (fun r => (r !! "errors", r !! "emailsProcessed", r !! "emailsTotal"))
                 (match fst (BatchProcessor.fullBatchProcess Scenario.processor
                               Scenario.firstBatch Scenario.noOptions Scenario.calmEnv
                               PipelineCases.crowdedWorld) with
                  | Return x => Some x
                  | Throw _ => None
                  end)
               = Some (Some (JArr [JStr (str "1 emails failed labeling")]),
                       Some (JNum 50), Some (JNum 51))).
  { vm_compute. reflexivity. }
  destruct (BatchProcessor.fullBatchProcess Scenario.processor Scenario.firstBatch
              Scenario.noOptions Scenario.calmEnv PipelineCases.crowdedWorld)
    as [[r | e] w']; cbn in He; [| discriminate].
  exists r, w'. split; [reflexivity |]. injection He as -> -> ->. auto.
Qed.

(** *** Failures of single records and labels *)

Section ItemErrors.
Import MongoDatabase BatchProcessor LabelRun AssignRun.

Lemma getLabelByName_run u n env w :
  getLabelByName u n env w =
  match dbFault env (steps w) with
  | Some e => (Throw e, tick w)
  | None => (Return (LabelSpec.resolved u n w), tick w)
  end.
Proof.
  unfold getLabelByName, tryCatch, bind, dbOp, gets, throw.
  destruct (dbFault env (steps w)); reflexivity.
Qed.

Variable env : Env.
Variable u : jsstring.

(** One record: labelled, failed or passed over; never an exception. *)
Lemma assignLabel_outcome counts e w :
  exists s f w',
    assignLabel u counts e env w = (Return (s, f), w') /\
    ((s, f) = counts \/ (s, f) = (fst counts + 1, snd counts) \/
     (s, f) = (fst counts, snd counts + 1)).
Proof.
  destruct counts as [sc fc]. unfold assignLabel.
  destruct (analysis e) as [a |]; [| eexists _, _, _; split; [reflexivity | auto]].
  destruct (suggestedLabel a) as [| c l]; [eexists _, _, _; split; [reflexivity | auto] |].
  unfold tryCatch, bind at 1. rewrite getLabelByName_run.
  destruct (dbFault env (steps w)); [eexists _, _, _; split; [reflexivity | auto] |].
  destruct (LabelSpec.resolved u (c :: l) w) as [label |];
    [| eexists _, _, _; split; [reflexivity | auto]].
  unfold bind at 1, remote.
  destruct (gmailModify env (steps (tick w)) (gmailId e) (gmailLabelId label)) as [[] | err];
    [| eexists _, _, _; split; [reflexivity | auto]].
  unfold markSynced, bind, Date_now, dbOp, modify, ret. cbn.
  destruct (dbFault env (S (S (S (steps w))))); eexists _, _, _; (split; [reflexivity | auto]).
Qed.

Lemma assignLabels_loop_counts : forall es counts w,
  exists s f w',
    forOf es (assignLabel u) counts env w = (Return (s, f), w') /\
    fst counts <= s /\ snd counts <= f /\
    s + f <= fst counts + snd counts + Z.of_nat (length es).
Proof.
  induction es as [| e es IH]; intros counts w.
  - destruct counts as [sc fc]. exists sc, fc, w. cbn. repeat split; lia.
  - destruct (assignLabel_outcome counts e w) as (s1 & f1 & w1 & Hrun1 & Hcase).
    destruct (IH (s1, f1) w1) as (s & f & w' & Hrun & Hs & Hf & Hsum).
    exists s, f, w'. cbn [forOf]. unfold bind. rewrite Hrun1, Hrun.
    split; [reflexivity |]. cbn [fst snd length] in *.
    destruct counts as [sc fc]. cbn [fst snd] in *.
    destruct Hcase as [[= -> ->] | [[= -> ->] | [= -> ->]]]; repeat split; lia.
Qed.

(** One label: created, found or skipped; never an exception. *)
Lemma createLabel_outcome counts labelName w :
  exists c x w',
    createLabel u counts labelName env w = (Return (c, x), w') /\
    ((c, x) = counts \/ (c, x) = (fst counts + 1, snd counts) \/
     (c, x) = (fst counts, snd counts + 1)).
Proof.
  destruct counts as [cc xc]. unfold createLabel.
  unfold tryCatch at 1, bind at 1. rewrite getLabelByName_run.
  destruct (dbFault env (steps w)); [eexists _, _, _; split; [reflexivity | auto] |].
  destruct (LabelSpec.resolved u labelName w) as [label |];
    [eexists _, _, _; split; [reflexivity | auto] |].
  unfold bind at 1, remote.
  destruct (gmailCreateLabel env (steps (tick w)) labelName) as [id | err];
    [| eexists _, _, _; split; [reflexivity | auto]].
  unfold saveLabel, tryCatch, bind, Date_now, dbOp, modify, ret, throw. cbn.
  destruct (dbFault env (S (S (S (steps w))))); eexists _, _, _; (split; [reflexivity | auto]).
Qed.

Lemma createLabels_loop_counts : forall names counts w,
  exists c x w',
    forOf names (createLabel u) counts env w = (Return (c, x), w') /\
    fst counts <= c /\ snd counts <= x /\
    c + x <= fst counts + snd counts + Z.of_nat (length names).
Proof.
  induction names as [| n names IH]; intros counts w.
  - destruct counts as [cc xc]. exists cc, xc, w. cbn. repeat split; lia.
  - destruct (createLabel_outcome counts n w) as (c1 & x1 & w1 & Hrun1 & Hcase).
    destruct (IH (c1, x1) w1) as (c & x & w' & Hrun & Hc & Hx & Hsum).
    exists c, x, w'. cbn [forOf]. unfold bind. rewrite Hrun1, Hrun.
    split; [reflexivity |]. cbn [fst snd length] in *.
    destruct counts as [cc xc]. cbn [fst snd] in *.
    destruct Hcase as [[= -> ->] | [[= -> ->] | [= -> ->]]]; repeat split; lia.
Qed.

End ItemErrors.

(** X28. Failures of single records never abort [batchAssignLabels].
    The step throws only when the store cannot be read at its first step.
    Otherwise it returns, whatever fails afterwards: [emailsTotal] is the
    number of selected records that were not synced, [emailsProcessed] is
    between zero and that number, and [errors] is absent, empty, or one
    message that counts the failed records, which together with the
    processed ones are at most the total. *)
Theorem batchAssignLabels_accounting (env : Env) (w : World) (bid : jsstring) (o : Options) :
  let run := BatchProcessor.batchAssignLabels bid o env w in
  let total := Z.of_nat (length (AssignRun.unsynced o w)) in
  (forall e, dbFault env (steps w) = Some e -> run = (Throw e, tick w)) /\
  (dbFault env (steps w) = None ->
   exists r w' done,
     run = (Return r, w') /\
     r !! "emailsProcessed" = Some (JNum done) /\ r !! "emailsTotal" = Some (JNum total) /\
     0 <= done <= total /\
     (r !! "errors" = None \/ r !! "errors" = Some (JArr []) \/
      exists failed,
        0 < failed <= total - done /\
        r !! "errors"
          = Some (JArr [JStr (numberToString failed ++ str " emails failed labeling")]))).
Proof.
  intros run total. subst run.
  split; unfold BatchProcessor.batchAssignLabels, tryCatch at 1, bind at 1;
    rewrite getEmails_run.
  - intros e ->. reflexivity.
  - intros ->.
    change (MongoDatabase.selectEmails (o_userId o) _ (emails w)) with (AssignSpec.selected o w).
    fold (AssignRun.unsynced o w).
    destruct (length (AssignRun.unsynced o w) =? 0)%nat eqn:E.
    + apply Nat.eqb_eq in E. exists (<["emailsProcessed" := JNum 0]>
             (<["emailsTotal" := JNum 0]>
              (<["operation" := JStr (str "assignLabels")]> ∅))), (tick w), 0.
      subst total. rewrite E. repeat split; try reflexivity; try lia. left. reflexivity.
    + destruct (assignLabels_loop_counts env (o_userId o) (AssignRun.unsynced o w) (0, 0)
                  (tick w)) as (s & f & w' & Hrun & Hs & Hf & Hsum).
      cbn [fst snd] in Hs, Hf, Hsum. unfold bind. rewrite Hrun.
      eexists _, w', s. split; [reflexivity |]. split; [reflexivity |].
      split; [reflexivity |]. fold total in Hsum. split; [lia |].
      destruct (0 <? f) eqn:Ef.
      * right. right. exists f. apply Z.ltb_lt in Ef. split; [lia | reflexivity].
      * right. left. reflexivity.
Qed.

Lemma batchAssignLabels_accounting_witness :
  exists r w',
    BatchProcessor.batchAssignLabels Scenario.firstBatch Scenario.noOptions Scenario.calmEnv
      (set_labels [] Scenario.inboxWorld) = (Return r, w') /\
    r !! "emailsProcessed" = Some (JNum 0) /\ r !! "emailsTotal" = Some (JNum 1).
Proof.
  destruct (batchAssignLabels_accounting Scenario.calmEnv (set_labels [] Scenario.inboxWorld)
              Scenario.firstBatch Scenario.noOptions) as [_ H].
  destruct (H eq_refl) as (r & w' & done & Hrun & Hp & Ht & _ & _).
  exists r, w'. split; [exact Hrun |]. split; [| exact Ht].
  assert (E : Some (JNum done) = Some (JNum 0)).
  { rewrite <- Hp.
    change r with (match Return (A := gmap string JSValue) r with
                   | Return x => x | Throw _ => ∅ end).
    replace (Return r) with (fst (BatchProcessor.batchAssignLabels Scenario.firstBatch
                                    Scenario.noOptions Scenario.calmEnv
                                    (set_labels [] Scenario.inboxWorld)))
      by (rewrite Hrun; reflexivity).
    vm_compute. reflexivity. }
  rewrite Hp. exact E.
Defined.

(** X29. Failures of single labels never abort [batchCreateLabels], and
    they leave no trace in its result.  The step throws only when the
    store cannot be read at its first step.  Otherwise it returns:
    [labelsCreated] is at least zero, [labelsUsed] is [labelsCreated] plus
    the labels found and at most the number of wanted names, and the
    result has no [errors]; a label that could not be looked up, created
    or saved is counted nowhere. *)
Theorem batchCreateLabels_accounting (env : Env) (w : World) (bid : jsstring) (o : Options) :
  let run := BatchProcessor.batchCreateLabels bid o env w in
  let wanted := Z.of_nat (length (LabelRun.wanted o w)) in
  (forall e, dbFault env (steps w) = Some e -> run = (Throw e, tick w)) /\
  (dbFault env (steps w) = None ->
   exists r w' created used,
     run = (Return r, w') /\
     r !! "labelsCreated" = Some (JNum created) /\ r !! "labelsUsed" = Some (JNum used) /\
     0 <= created <= used /\ used <= wanted /\
     r !! "errors" = None).
Proof.
  intros run wanted. subst run.
  split; unfold BatchProcessor.batchCreateLabels, tryCatch at 1, bind at 1;
    rewrite getEmails_run.
  - intros e ->. reflexivity.
  - intros ->.
    change (MongoDatabase.selectEmails (o_userId o) _ (emails w)) with (LabelRun.considered o w).
    fold (LabelRun.wanted o w).
    destruct (createLabels_loop_counts env (o_userId o) (LabelRun.wanted o w) (0, 0) (tick w))
      as (c & x & w' & Hrun & Hc & Hx & Hsum).
    cbn [fst snd] in Hc, Hx, Hsum. unfold bind. rewrite Hrun.
    eexists _, w', c, (x + c). split; [reflexivity |]. split; [reflexivity |].
    split; [reflexivity |]. fold wanted in Hsum. repeat split; try lia.
Qed.

Lemma batchCreateLabels_accounting_witness :
  exists r w',
    BatchProcessor.batchCreateLabels Scenario.firstBatch Scenario.noOptions Scenario.calmEnv
      Scenario.inboxWorld = (Return r, w') /\
    r !! "errors" = None.
Proof.
  destruct (batchCreateLabels_accounting Scenario.calmEnv Scenario.inboxWorld
              Scenario.firstBatch Scenario.noOptions) as [_ H].
  destruct (H eq_refl) as (r & w' & created & used & Hrun & _ & _ & _ & _ & Herr).
  exists r, w'. split; [exact Hrun | exact Herr].
Defined.
